(* ===== verification/_CoqProject ===== *)
-Q . S2P
Prelude.v
JsString.v
Matcher.v
RegionParser.v
PromptCompiler.v
Tasks.v
Json.v
ApiClient.v
Effects.v
Materializer.v
Orchestrator.v
Notifier.v
Store.v
Client.v
Canvas.v
Editor.v
References.v
Resolution.v
Legacy.v
MaskResidue.v
Base64.v
Upload.v
Integration.v
