(* ===== verification/Prelude.v ===== *)
(** * photo_edit: a verification development of the task engine and its client

    photo_edit is an image-editing service.  The React frontend
    ([src/src/]) lets the user draw annotation elements (rectangles,
    circles, brush strokes) on a base image, write a prompt and submit.
    [SubmitBar] turns each element into a coordinate tag ([@rect(...)],
    [@circle(...)]) appended to the prompt and posts the payload to the
    Fastify server ([src/server/index.js]).  The server stores a task,
    starts [processTask] on it and answers [{ taskId, status: PENDING }].
    [processTask] rewrites the prompt (reference placeholders, shape
    labels, coordinate tags), compiles the structured instruction
    document, calls the image API with up to three retries, polls it,
    stores the resulting image and marks the task [COMPLETE] or
    [FAILED].  The client follows the task over the server's [/ws]
    notifier and by polling [GET /api/task/:taskId], and writes what it
    learns into its zustand store.

    ** Files, in dependency order (_CoqProject)

    - [Prelude] (this file): the [js_scope] notation [⟪ a; x; b ⟫] for
      template literals, the tactics [invc] and [case_goal], the hint
      databases [photo] and [photo_rw], the lemmas on strings, lists
      and options the components share, and [run_steps]: a component's
      step function run over a list of events, with the lemma
      [run_steps_inv] that lifts a property kept by every step to a
      session; [fold_left_inv] and [fold_left_count] for loops; the
      readings [to_int32]/[to_uint32] of JavaScript's bitwise operators
      ([js_shl], [js_bor]) with their bit lemmas, and [lia_dm].
    - [JsString]: [includes], [replace], [trim], [split], [join] and
      number printing on UTF-8 strings.
    - [Matcher]: the server's regular expressions as greedy matchers, the
      lazy quantifier [lazy_star], and the global [exec] loop.
    - [RegionParser] (Module [Region]): [replace_refs], [parse_shape_labels]
      and [parseCoordinateTags] (index.js 545-669).
    - [PromptCompiler] (Module [Prompt]): [buildStructuredPrompt] (52-192)
      and the prompt pipeline of [processTask] (541-709).
    - [Tasks] (Module [Tasks]): the [tasks] Map as a [gmap], [pushTimeline]
      and [updateTask], the submit and health handlers, and every write
      of [processTask] as an operation [op] of a state machine
      [apply_op] with its reachability relation [reachable].
    - [Json]: JSON values, optional chaining, truthiness, [String(x)].
    - [ApiClient] (Module [Api]): the request body (size in binary64,
      tier, image URLs with local files inlined) and the readers of the
      image API's replies.
    - [Effects]: a state-and-error monad over a [world] (registry, clock,
      request counters, environment) with a network oracle [net], and a
      small program logic ([Stays], [Costs], [Triple]).
    - [Materializer]: [waitForImageAccessible], [downloadImage] and
      [ensureStoredResult] (220-306).
    - [Orchestrator] (Module [Orchestrator]): [processTask] (484-980) and
      the submit handler's [.catch] as [run_task].
    - [Notifier] (Module [Notifier]): the [/ws] interval (983-1010) as the
      frames it sends over a sequence of registry snapshots, and the
      [GET /api/task/:taskId] reply.
    - [Store] (Module [Store]): the frontend store [src/src/store.ts] as a
      record [app_state] with one function per action.
    - [Client] (Module [Client]): [SubmitBar.tsx]'s [submit], its
      WebSocket and polling watch as a step function [watch_step] over
      [watch_event]s, [resubmitTask.ts] and [TaskList.tsx]'s sockets.
    - [Canvas] (Module [Canvas]): the annotation card
      [BaseImageCard_New.tsx]: pointer handlers, [smoothPoints], the
      element names ([toChinese]) and the toolbar and list buttons as a
      step function [canvas_step] over [canvas_event]s, on the card's
      state [canvas] and the store; the three parts of the image upload
      ([select_file], [upload_done], [image_loaded]).  The naming
      lemmas are proved once, in the Section [Naming], for any
      injective numbering, and used by both canvas cards.
    - [Editor] (Module [Editor]): [PromptAndModelCard.tsx]: the tag checks
      [isValidRectTag]/[isValidCircleTag], the suggestion panel's tags and
      the text-area handlers.
    - [References] (Module [RefCard]): [ReferenceImagesCard.tsx]'s upload
      handler: the ids of the uploaded images, given the order in which
      the concurrent uploads complete, and the delete button.
    - [Resolution] (Modules [ResCard] and [Binding]): the output-size
      controls of [PromptAndModelCard.tsx] (the presets, the two
      buttons, the inputs, and the two React effects that tie them to
      the store's [outputResolution], run render by render by
      [settle]), and the side panel [BindingPanel.tsx].  JavaScript
      numbers are [jsnum]/[xnum], with [NaN] and [Infinity].
    - [Legacy] (Module [Legacy]): the unmounted [BaseImageCard.tsx]: its
      handlers, the [coords] it stores, its element list, the highlight
      timers, the upload with its 4K scaling and the OSS proxy rewrite
      of [src/web/vite.config.ts], as [legacy_step] over
      [legacy_event]s.
    - [MaskResidue] (Module [MaskResidue]): the maintenance script
      [src/scripts/check_mask_residue.js]: the 32-bit packing of a
      pixel ([pixel_hex]), the scan with its counters ([scan_image]) and
      the exit status ([checkImage], [main]).
    - [Base64] (Module [Base64]): the platform's codecs the upload path
      goes through, not code of the repository: Node's
      [toString('base64')] ([base64_encode]) and the browser's [atob]
      (WHATWG forgiving-base64), with [atob (base64_encode bs) = bs].
    - [Upload] (Module [Upload]): the route [POST /api/upload]
      (index.js 311-363, [upload_route]) and [src/web/src/utils/upload.ts]
      ([uploadToOSS], [dataURLtoFile], [uploadDataURL]).
    - [Integration] (Module [Integration]): theorems that compose the
      client, the canvas, the reference card, the notifier, the parser
      and the orchestrator.

    ** What the theorems show

    - Parsing: a [@rect] tag parses to its region ([parse_rect_tag]), and
      the tag [SubmitBar] writes round-trips through the server's parser
      ([submit_rect_roundtrip]); the known defects of the parser
      (family order, nested tags, id prefixes, dropped shape-label
      regions) are proved as they are.
    - The registry: the invariant [wf_registry] holds in every reachable
      registry ([reachable_wf]) and is kept by [processTask]
      ([run_task_wf]); each write changes one task by one timeline entry
      ([apply_op_frame]); a run of [processTask] refines the state
      machine ([run_task_refines]).
    - [processTask]: it always returns and leaves its task terminal, and
      the notifier then sends the terminal frame and stops
      ([run_task_notifier_stops]); its sleeps, POSTs and status queries
      are bounded ([run_task_bounds]); the retry and error paths
      ([run_task_all_503], [should_retry_classification]) and the
      success path ([run_task_completes]) are computed exactly.
    - The client: the polling stops within 60 answered ticks
      ([watch_polls_at_most_60]) but not while the socket is connected or
      the queries fail ([watch_timeout_skipped]); a [COMPLETE] frame is
      final ([watch_complete_final]); end to end, the store shows the
      server's terminal state ([submit_watch_ends]); a resubmitted task
      is subscribed under an id the server never has
      ([resubmitted_task_never_notified]).
    - The editors: every element a canvas session stores has two points,
      so the submit always builds its prompt
      ([canvas_session_submittable]); smoothing keeps a stroke in its
      bounding box ([smoothPoints_in_box]); names are distinct until an
      element is deleted ([canvas_names_distinct]) and not after
      ([delete_duplicates_names]), and the eleventh is misread by the
      server ([eleventh_rect_label_misread]); [isValidRectTag] accepts
      exactly four fields of one to five digits ([isValidRectTag_iff]);
      the panel's and [SubmitBar]'s boxes differ by at most one
      ([panel_submit_tags_close]); [insertCoordTag] replaces the text from
      the last [@] ([insertCoordTag_at_last_at]) and [insertReference]
      without an [@] duplicates text ([insertReference_without_at]);
      reference ids are the file names when these are distinct
      ([batch_ids_distinct]) and collide otherwise ([batch_ids_collide]),
      which the server's placeholder replacement then misreads
      ([second_copy_reference_misread]).
    - The resolution: the text the canvas card writes when the image
      loads passes the server's check and reads back as the image's size
      ([image_resolution_roundtrip]); every event of the resolution
      controls settles within five renders ([res_step_settles]); the
      match-ratio button keeps both sides within 3840 ([fit_4k_bounds])
      while the portrait presets exceed it and a foreign text is kept
      ([res_controls_outcomes]); [BindingPanel] writes a new width with
      the previous height ([binding_height_lags]).
    - The legacy card: every stored element has coords of its type's
      shape ([legacy_session_typed]), a rectangle's are the corners of
      the tag [SubmitBar] sends ([legacy_rect_matches_tag]), its names
      are distinct without deletes ([legacy_names_distinct]), and its
      highlight timers race ([legacy_highlight_races]).
    - The mask-residue script: line 36 packs four bytes into the
      unsigned number whose bytes they are, the [>>> 0] undoing the
      negative int32 of [<<] and [|] ([pixel_hex_roundtrip]); the
      counters agree and count each pixel at most once
      ([scan_image_counts]); the script exits with status 1 exactly when
      a pixel has the bytes of a mask colour ([main_exit_iff]).
    - Uploads: [uploadToOSS] against the route resolves to the stored
      file's URL or rejects with the route's message on every branch
      ([uploadToOSS_route]); [dataURLtoFile] reads back a base64 data URL
      and throws on a text without a comma ([dataURLtoFile_roundtrip]);
      a file uploaded to a [localhost] server is inlined by the submit
      path as a data URL that decodes to the uploaded bytes
      ([upload_inline_roundtrip]).

    ** Bounds and fuel

    The retry recursion of [processTask] has fuel 4, one per attempt:
    [retryCount < MAX_RETRIES = 3] stops it first, and more fuel gives the
    same run ([process_task_fuel]).  The polling loop is the code's own
    bound of 60 queries and [waitForImageAccessible] its 10 probes, both
    structural.  The client's watch is a fold over a finite list of
    events, so it needs no fuel; the notifier is run on the finite list
    of snapshots it observes.  A canvas or card session is a fold over a
    finite list of events ([run_steps]).  The renders of the resolution
    controls run with fuel 5: from a card showing what the store's text
    reads as, each event needs at most four renders before one changes
    nothing ([settle_size], [settle_text]), so [res_step] never runs
    out; from arbitrary states the two effects can alternate forever,
    which [settle] reports as [None].  [lazy_star] runs with fuel one
    more than its input's length, and each iteration consumes a byte.

    ** Not modelled

    The HTTP transport, [JSON.parse] and the image API itself (replies
    come from the oracle [net]); the file system beyond the uploads
    directory of [Upload] (a function from file names to contents) and
    the request log files; the Konva rendering of
    the canvas cards (only the legacy card's rectangle polygon, which
    reads the stored [coords], is modelled); the FormData body of
    [uploadToOSS] (the cards take the URL it resolves to as the argument
    of their upload events); Jimp's image decoding (its bitmap is the
    argument of [MaskResidue.checkImage]); [Number] beyond the texts the app
    writes (digit runs, [NaN], [Infinity]); the URL parser, whose
    result the legacy card's image loading takes as an argument;
    rendering-only components ([Layout], [Modal], [ReferenceBar], the
    [web/] app, [MaskBindingCard] beyond its delete button), which are
    presentation only; the
    server's Fastify registrations and [listen] (index.js 1-34,
    193-219, 1011-1020), which are configuration and logging.  Numbers of the
    frontend's coordinates and ratios are exact rationals, not binary64. *)

From Stdlib Require Export ZArith NArith Ascii DecimalString DecimalN.
From stdpp Require Export base list strings gmap.

(** stdpp declares [String.append] [simpl never]; the parsers below
    compute on concrete strings, so it is allowed to reduce again. *)
Arguments String.append : simpl nomatch.

Declare Scope js_scope.
Delimit Scope js_scope with js.
Open Scope js_scope.

(** Hints shared by the whole development. *)
Create HintDb photo discriminated.
Create Rewrite HintDb photo_rw.

(** A JavaScript template literal [`a${x}b`] is the concatenation of its
    pieces; [⟪ a ; x ; b ⟫] writes it the same way. *)
Fixpoint concat_str (l : list string) : string :=
  match l with
  | [] => ""
  | s :: l' => s +:+ concat_str l'
  end.

Notation "⟪ x ; .. ; y ⟫" := (concat_str (cons x .. (cons y nil) ..))
  (at level 0, format "⟪ x ;  .. ;  y ⟫") : js_scope.

(** Character constants. *)
Abbreviation c_at := "@"%char.
Abbreviation c_nl := "010"%char.
Abbreviation c_lpar := "("%char.
Abbreviation c_rpar := ")"%char.

(** ** Tactics *)

Ltac invc H := inversion H; subst; clear H.

(** Case on every [match] and [if] of the goal whose scrutinee is a
    variable-free term, naming the equation. *)
Ltac case_goal :=
  repeat match goal with
         | |- context [match ?x with _ => _ end] =>
             let E := fresh "E" in destruct x eqn:E
         end.

(** ** Generic lemmas on strings *)

Lemma str_app_assoc (a b c : string) : (a +:+ b) +:+ c = a +:+ (b +:+ c).
Proof. induction a as [|x a IH]; simpl; [done|by rewrite IH]. Qed.

Lemma str_app_nil_r (a : string) : a +:+ "" = a.
Proof. induction a as [|x a IH]; simpl; [done|by rewrite IH]. Qed.

Lemma str_app_nil_l (a : string) : "" +:+ a = a.
Proof. done. Qed.

Lemma str_length_app (a b : string) :
  String.length (a +:+ b) = String.length a + String.length b.
Proof. induction a as [|x a IH]; simpl; [done|by rewrite IH]. Qed.

Lemma str_app_inj_l (p a b : string) : p +:+ a = p +:+ b -> a = b.
Proof. induction p as [|x p IH]; cbn; [done|]. intros [= H]. by apply IH. Qed.

Lemma str_app_cons (c : ascii) (a b : string) :
  String c a +:+ b = String c (a +:+ b).
Proof. done. Qed.

Lemma concat_str_cons (s : string) (l : list string) :
  concat_str (s :: l) = s +:+ concat_str l.
Proof. done. Qed.

Lemma concat_str_app (l1 l2 : list string) :
  concat_str (l1 ++ l2) = concat_str l1 +:+ concat_str l2.
Proof.
  induction l1 as [|s l1 IH]; cbn [concat_str app]; [done|].
  rewrite IH. symmetry. apply str_app_assoc.
Qed.

#[export] Hint Rewrite str_app_assoc str_app_nil_r str_length_app
  concat_str_cons : photo_rw.

(** A character is in a string. *)
Fixpoint str_has (c : ascii) (s : string) : bool :=
  match s with
  | EmptyString => false
  | String d s' => if Ascii.eqb c d then true else str_has c s'
  end.

Lemma str_has_cons (c d : ascii) (s : string) :
  str_has c (String d s) = if Ascii.eqb c d then true else str_has c s.
Proof. done. Qed.

Lemma str_has_app (c : ascii) (a b : string) :
  str_has c (a +:+ b) = str_has c a || str_has c b.
Proof.
  induction a as [|d a IH]; simpl; [done|].
  destruct (Ascii.eqb c d); [done|apply IH].
Qed.

#[export] Hint Rewrite str_has_app : photo_rw.

(** ** Generic lemmas on options and lists *)

Lemma Forall_subset {A} (P : A -> Prop) (l l' : list A) : Forall P l -> l' ⊆ l -> Forall P l'.
Proof. rewrite !Forall_forall. intros H Hs x Hx. by apply H, Hs. Qed.

Lemma removelast_subseteq {A} (l : list A) : removelast l ⊆ l.
Proof. induction l as [|x [|y l] IH]; cbn; [done|set_solver|set_solver]. Qed.

Lemma last_elem_of {A} (l : list A) (d : A) : l <> [] -> List.last l d ∈ l.
Proof.
  intros H. pose proof (app_removelast_last d H) as E.
  assert (Hin : List.last l d ∈ removelast l ++ [List.last l d]) by set_solver.
  by rewrite <- E in Hin.
Qed.

Lemma fold_left_cons_rev {A B} (f : A -> B) (l : list A) (acc : list B) :
  fold_left (fun r x => f x :: r) l acc = rev (map f l) ++ acc.
Proof.
  revert acc. induction l as [|x l IH]; intros acc; simpl; [done|].
  rewrite IH, <- app_assoc. done.
Qed.

Lemma filter_length_pos {A} (f : A -> bool) (l : list A) :
  (0 < length (List.filter f l))%nat <-> exists x, x ∈ l /\ f x = true.
Proof.
  setoid_rewrite list_elem_of_In. setoid_rewrite <- List.filter_In.
  destruct (List.filter f l) as [|y l']; cbn; split; try lia.
  - by intros (x & []).
  - intros _. exists y. by left.
Qed.

(** A loop [for (const a of l) s = f(s, a)] as [fold_left]: a property
    each turn keeps holds after the loop, and a counter each turn
    raises by one exactly when [p] holds ends raised by the number of
    such turns.  Proved with [f] abstract, so that the kernel never
    unfolds a concrete loop body to compare two of its turns. *)
Section fold_left_loop.
Context {A S : Type} (f : S -> A -> S).

Lemma fold_left_inv (P : S -> Prop) :
  (forall s a, P s -> P (f s a)) -> forall l s, P s -> P (fold_left f l s).
Proof. intros Hf l. induction l as [|a l IH]; intros s Hs; [done|]. apply IH, Hf, Hs. Qed.

Lemma fold_left_count (cnt : S -> Z) (p : A -> bool) :
  (forall s a, cnt (f s a) = (cnt s + if p a then 1 else 0)%Z) ->
  forall l s, cnt (fold_left f l s) = (cnt s + Z.of_nat (length (List.filter p l)))%Z.
Proof.
  intros Hf l. induction l as [|a l IH]; intros s; cbn; [lia|].
  rewrite IH, Hf. destruct (p a); cbn [length]; lia.
Qed.
End fold_left_loop.

(** ** Sessions of a component: its step function over a list of events *)

(** The events a component receives in order, each handled by [step]
    from the local state [C] and the shared state [S] it left. *)
Fixpoint run_steps {E C S} (step : E -> C -> S -> C * S) (es : list E) (c : C) (s : S) : C * S :=
  match es with
  | [] => (c, s)
  | e :: es' => let '(c1, s1) := step e c s in run_steps step es' c1 s1
  end.

Section run_steps_inv.
Context {E C S : Type} (step : E -> C -> S -> C * S).
(** The events of interest, and a property of both states that each of
    those events keeps. *)
Variable allowed : E -> Prop.
Variable inv : C -> S -> Prop.
Hypothesis step_inv :
  forall e c s, allowed e -> inv c s -> inv (step e c s).1 (step e c s).2.

Lemma run_steps_inv (es : list E) (c : C) (s : S) :
  Forall allowed es -> inv c s -> inv (run_steps step es c s).1 (run_steps step es c s).2.
Proof.
  revert c s. induction es as [|e es IH]; intros c s Hes Hinv; [done|].
  apply Forall_cons in Hes as [He Hes]. cbn.
  pose proof (step_inv e c s He Hinv) as H1.
  destruct (step e c s) as [c1 s1]. by apply IH.
Qed.
End run_steps_inv.

Lemma run_steps_app {E C S} (step : E -> C -> S -> C * S) (es1 es2 : list E) (c : C) (s : S) :
  run_steps step (es1 ++ es2) c s
  = run_steps step es2 (run_steps step es1 c s).1 (run_steps step es1 c s).2.
Proof.
  revert c s. induction es1 as [|e es IH]; intros c s; [done|]. cbn.
  destruct (step e c s) as [c1 s1]. apply IH.
Qed.

(** ** Integers at the width of JavaScript's bitwise operators *)

(** [lia] after naming the quotients and remainders of [/] and [mod]
    (stdpp's [lia] setup does not do it by itself). *)
Ltac lia_dm := Z.div_mod_to_equations; lia.

(** [ToInt32], the two's-complement reading [<<] and [|] apply to their
    operands, and [ToUint32], the reading of [x >>> 0]. *)
Definition is_byte (z : Z) : Prop := (0 <= z < 256)%Z.

Definition to_int32 (z : Z) : Z := ((z + 2^31) mod 2^32 - 2^31)%Z.
Definition to_uint32 (z : Z) : Z := (z mod 2^32)%Z.

(** [x << k] for a shift count [0 <= k < 32] and [x | y]: both read
    their operands as int32 and give an int32. *)
Definition js_shl (x k : Z) : Z := to_int32 (Z.shiftl (to_int32 x) k).
Definition js_bor (x y : Z) : Z := Z.lor (to_int32 x) (to_int32 y).

Lemma to_uint32_to_int32 (z : Z) : to_uint32 (to_int32 z) = to_uint32 z.
Proof. unfold to_uint32, to_int32. rewrite Zminus_mod_idemp_l. f_equal. ring. Qed.

Lemma lor_mod_pow2 (a b n : Z) :
  (0 <= n)%Z -> (Z.lor a b mod 2^n = Z.lor (a mod 2^n) (b mod 2^n))%Z.
Proof. intros Hn. rewrite <- !Z.land_ones by done. apply Z.land_lor_distr_l. Qed.

(** A value shifted left by [k] and a value below [2^k] have no bit in
    common: their [|] is their sum. *)
Lemma lor_low_add (a b k : Z) :
  (0 <= k -> 0 <= b < 2^k -> Z.lor (a * 2^k) b = a * 2^k + b)%Z.
Proof.
  intros Hk Hb. rewrite <- Z.lxor_lor, Z.add_nocarry_lxor; [done| |];
    apply Z.bits_inj'; intros i Hi; rewrite Z.land_spec, Z.bits_0,
    <- Z.shiftl_mul_pow2, Z.shiftl_spec by done;
    (destruct (Z.lt_ge_cases i k);
     [rewrite Z.testbit_neg_r by lia; done
     |rewrite <- (Z.mod_small b (2^k)), Z.mod_pow2_bits_high by lia;
      apply andb_false_r]).
Qed.
