(* ===== verification/JsString.v ===== *)
(** * The JavaScript string operations the server calls

    Strings are Rocq [string]s holding the UTF-8 bytes of the text.  The
    server runs on UTF-16 code units; every operation modelled here
    ([String.prototype.includes], [replace] with a string pattern,
    [trim], [split], [Array.prototype.join], the [\s] class) agrees with
    its byte-level version on valid UTF-8 because every needle the server
    uses is itself valid UTF-8, and UTF-8 is self-synchronising: a needle
    that begins with a lead byte or an ASCII byte can only match at a
    character boundary.  JavaScript's white space ([\s] and [trim]:
    WhiteSpace and LineTerminator of ECMA-262) is given by its UTF-8
    encodings, multi-byte ones included.

    Numbers printed by template literals ([`${x}`]) are non-negative or
    signed integers printed in decimal by [show_N]/[show_Z]; JavaScript
    prints the same digits for every integer below 2^53. *)

From S2P Require Import Prelude.

Module Js.

(** ** Bytes and character classes *)

Fixpoint bytes (l : list nat) : string :=
  match l with
  | [] => ""
  | b :: l' => String (ascii_of_nat b) (bytes l')
  end.

Definition is_digit (c : ascii) : bool :=
  let n := nat_of_ascii c in (48 <=? n) && (n <=? 57).

Definition digit_val (c : ascii) : N := N.of_nat (nat_of_ascii c - 48).

(** [toUpperCase] on ASCII letters. *)
Definition upper (c : ascii) : ascii :=
  let n := nat_of_ascii c in
  if (97 <=? n) && (n <=? 122) then ascii_of_nat (n - 32) else c.

(** The [i] flag compares ASCII letters case-insensitively; in a
    non-unicode regex a non-ASCII character never folds onto an ASCII one
    (ECMA-262, Canonicalize). *)
Definition ci_eqb (a b : ascii) : bool := Ascii.eqb (upper a) (upper b).

(** The UTF-8 encodings of the characters of [\s]: TAB, LF, VT, FF, CR,
    SPACE, U+00A0, U+1680, U+2000..U+200A, U+2028, U+2029, U+202F,
    U+205F, U+3000 and U+FEFF. *)
Definition space_encodings : list string :=
  [bytes [9]; bytes [10]; bytes [11]; bytes [12]; bytes [13]; bytes [32];
   bytes [194; 160]; bytes [225; 154; 128]]
  ++ map (fun k => bytes [226; 128; 128 + k]) (seq 0 11)
  ++ [bytes [226; 128; 168]; bytes [226; 128; 169]; bytes [226; 128; 175];
      bytes [226; 129; 159]; bytes [227; 128; 128]; bytes [239; 187; 191]].

(** [s.startsWith(p)], by recursion on the pattern. *)
Fixpoint starts_with (p s : string) : bool :=
  match p, s with
  | EmptyString, _ => true
  | String a p', String c s' => if ascii_dec a c then starts_with p' s' else false
  | String _ _, EmptyString => false
  end.

Fixpoint first_prefix_len (l : list string) (s : string) : nat :=
  match l with
  | [] => 0
  | e :: l' => if starts_with e s then String.length e
               else first_prefix_len l' s
  end.

(** Byte length of the white-space character that starts [s], 0 if none. *)
Definition space_len (s : string) : nat := first_prefix_len space_encodings s.

(** [s] with its first [k] bytes removed. *)
Fixpoint drop_str (k : nat) (s : string) : string :=
  match k, s with
  | 0, _ => s
  | S k', String _ s' => drop_str k' s'
  | S _, EmptyString => EmptyString
  end.

Fixpoint str_rev (s : string) : string :=
  match s with
  | EmptyString => EmptyString
  | String c s' => str_rev s' +:+ String c EmptyString
  end.

(** ** [trim] *)

Fixpoint trim_start_with (encs : list string) (fuel : nat) (s : string) : string :=
  match fuel with
  | 0 => s
  | S f =>
      match first_prefix_len encs s with
      | 0 => s
      | k => trim_start_with encs f (drop_str k s)
      end
  end.

Definition trim_start (s : string) : string :=
  trim_start_with space_encodings (String.length s) s.

(** Trailing white space is found on the reversed bytes, against the
    reversed encodings. *)
Definition trim_end (s : string) : string :=
  str_rev (trim_start_with (map str_rev space_encodings) (String.length s) (str_rev s)).

Definition trim (s : string) : string := trim_end (trim_start s).

(** [s.replace(/\s+/g, '')]: every white-space character removed. *)
Fixpoint remove_spaces_fuel (fuel : nat) (s : string) : string :=
  match fuel with
  | 0 => s
  | S f =>
      match s with
      | EmptyString => EmptyString
      | String c s' =>
          match space_len s with
          | 0 => String c (remove_spaces_fuel f s')
          | k => remove_spaces_fuel f (drop_str k s)
          end
      end
  end.

Definition remove_spaces (s : string) : string :=
  remove_spaces_fuel (String.length s) s.

(** ** Search and replace *)

(** [s.includes(p)]. *)
Fixpoint includes (p s : string) : bool :=
  if starts_with p s then true
  else match s with
       | EmptyString => false
       | String _ s' => includes p s'
       end.

(** [s.replace(p, r)] with a string pattern: the first occurrence only. *)
Fixpoint replace_first (p r s : string) : string :=
  if starts_with p s then r +:+ drop_str (String.length p) s
  else match s with
       | EmptyString => EmptyString
       | String c s' => String c (replace_first p r s')
       end.

(** [s.replace(new RegExp(p, 'g'), r)] for a pattern [p] without regex
    metacharacters and a replacement without [$]: every non-overlapping
    occurrence, left to right.  [p] is never empty where it is used. *)
Fixpoint replace_all_fuel (fuel : nat) (p r s : string) : string :=
  match fuel with
  | 0 => s
  | S f =>
      if starts_with p s then r +:+ replace_all_fuel f p r (drop_str (String.length p) s)
      else match s with
           | EmptyString => EmptyString
           | String c s' => String c (replace_all_fuel f p r s')
           end
  end.

Definition replace_all (p r s : string) : string :=
  replace_all_fuel (S (String.length s)) p r s.

(** [s.split(c)] for a one-character separator. *)
Fixpoint split_on (c : ascii) (s : string) : list string :=
  match s with
  | EmptyString => [""]
  | String d s' =>
      match split_on c s' with
      | [] => []
      | w :: ws => if Ascii.eqb c d then "" :: w :: ws else String d w :: ws
      end
  end.

(** [a.join(sep)]. *)
Fixpoint join (sep : string) (l : list string) : string :=
  match l with
  | [] => ""
  | [x] => x
  | x :: l' => x +:+ sep +:+ join sep l'
  end.

(** [s.lastIndexOf(c)] on bytes, [None] for [-1]. *)
Fixpoint last_index_from (c : ascii) (i : nat) (s : string) (acc : option nat) : option nat :=
  match s with
  | EmptyString => acc
  | String d s' => last_index_from c (S i) s' (if Ascii.eqb c d then Some i else acc)
  end.

Definition last_index_of (c : ascii) (s : string) : option nat := last_index_from c 0 s None.

(** ** Numbers *)

(** [Number(d)] for a string of decimal digits. *)
Fixpoint digits_acc (acc : N) (s : string) : N :=
  match s with
  | EmptyString => acc
  | String c s' => digits_acc (acc * 10 + digit_val c)%N s'
  end.

Definition digits_val (s : string) : N := digits_acc 0%N s.

Definition show_N (n : N) : string := NilEmpty.string_of_uint (N.to_uint n).

Definition show_Z (z : Z) : string :=
  match z with
  | Zneg p => "-" +:+ show_N (Npos p)
  | _ => show_N (Z.to_N z)
  end.

(** ** Lemmas *)

Lemma drop_str_app (u r : string) : drop_str (String.length u) (u +:+ r) = r.
Proof. induction u as [|c u IH]; simpl; auto. Qed.

Lemma substring_app (u r : string) :
  String.substring 0 (String.length u) (u +:+ r) = u.
Proof. induction u as [|c u IH]; simpl; [by destruct r|by rewrite IH]. Qed.

Lemma prefix_app (p s : string) : starts_with p (p +:+ s) = true.
Proof.
  induction p as [|c p IH]; simpl; [done|].
  by destruct (ascii_dec c c).
Qed.

Lemma prefix_inv (p s : string) :
  starts_with p s = true -> s = p +:+ drop_str (String.length p) s.
Proof.
  revert s; induction p as [|c p IH]; intros [|d s] H; simpl in *; try done.
  destruct (ascii_dec c d); [subst|done]. by rewrite <- IH.
Qed.

Lemma drop_str_suffix (k : nat) (s : string) : exists u, s = u +:+ drop_str k s.
Proof.
  revert s; induction k as [|k IH]; intros [|c s]; simpl.
  - by exists "".
  - by exists "".
  - by exists "".
  - destruct (IH s) as [u Hu]. exists (String c u). simpl. by rewrite <- Hu.
Qed.

Lemma str_has_prefix (c : ascii) (p s : string) :
  starts_with p s = true -> str_has c p = true -> str_has c s = true.
Proof.
  intros Hp Hc. rewrite (prefix_inv p s Hp), str_has_app, Hc. done.
Qed.

(** [replace_first] skips a prefix holding no first character of the
    pattern, and removes a leading occurrence. *)
Lemma replace_first_skip (c : ascii) (p r u s : string) :
  str_has c u = false ->
  replace_first (String c p) r (u +:+ s) = u +:+ replace_first (String c p) r s.
Proof.
  induction u as [|d u IH]; intros Hu; simpl in *; [done|].
  destruct (Ascii.eqb_spec c d) as [->|Hne]; [discriminate|].
  destruct (ascii_dec c d); [congruence|]. by rewrite IH.
Qed.

Lemma replace_first_here (p r s : string) :
  replace_first p r (p +:+ s) = r +:+ s.
Proof.
  destruct p as [|c p]; simpl.
  - destruct s; simpl; by rewrite ?str_app_nil_r.
  - destruct (ascii_dec c c); [|congruence].
    rewrite prefix_app. simpl. by rewrite drop_str_app.
Qed.

Lemma replace_first_self (p r : string) : replace_first p r p = r.
Proof.
  pose proof (replace_first_here p r "") as H. by rewrite !str_app_nil_r in H.
Qed.

Lemma includes_here (p v : string) : includes p (p +:+ v) = true.
Proof.
  assert (H := prefix_app p v). destruct p as [|c p]; [by destruct v|].
  change (String c p +:+ v) with (String c (p +:+ v)) in *.
  cbn [includes]. by rewrite H.
Qed.

Lemma includes_app_l (p u s : string) : includes p s = true -> includes p (u +:+ s) = true.
Proof.
  intros H. induction u as [|c u IH]; [done|]. simpl. by destruct (starts_with p _).
Qed.

Lemma starts_with_app (p s t : string) :
  starts_with p s = true -> starts_with p (s +:+ t) = true.
Proof.
  revert s; induction p as [|a p IH]; intros [|c s] H; cbn in *; try done.
  destruct (ascii_dec a c); [by apply IH|done].
Qed.

Lemma includes_app_r (p s t : string) : includes p s = true -> includes p (s +:+ t) = true.
Proof.
  induction s as [|c s IH]; intros H.
  - destruct p as [|a p]; [by destruct t|]. cbn in H. discriminate.
  - change (String c s +:+ t) with (String c (s +:+ t)). cbn [includes] in *.
    destruct (starts_with p (String c s)) eqn:E.
    + by rewrite (starts_with_app p (String c s) t E : starts_with p (String c (s +:+ t)) = true).
    + destruct (starts_with p (String c (s +:+ t))); [done|]. by apply IH.
Qed.

Lemma join_cons2 (sep x y : string) (l : list string) :
  join sep (x :: y :: l) = x +:+ sep +:+ join sep (y :: l).
Proof. done. Qed.

(** *** Digits and the decimal round trip *)

(** Every byte of [s] satisfies [f]. *)
Fixpoint str_forall (f : ascii -> bool) (s : string) : bool :=
  match s with
  | EmptyString => true
  | String c s' => f c && str_forall f s'
  end.

Definition all_digits (s : string) : bool := str_forall is_digit s.

Lemma str_forall_app (f : ascii -> bool) (a b : string) :
  str_forall f (a +:+ b) = str_forall f a && str_forall f b.
Proof. induction a as [|c a IH]; simpl; [done|]. by rewrite IH, andb_assoc. Qed.

Lemma str_forall_not_has (set s : string) (a : ascii) :
  str_forall (fun c => negb (str_has c set)) s = true -> str_has a set = true ->
  str_has a s = false.
Proof.
  intros Hs Ha. induction s as [|c s IH]; simpl in *; [done|].
  apply andb_prop in Hs as [Hc Hs]. destruct (Ascii.eqb_spec a c) as [->|_]; [|by apply IH].
  by rewrite Ha in Hc.
Qed.



(** The value of a decimal numeral, digit by digit. *)
Fixpoint uint_val (acc : N) (d : Decimal.uint) : N :=
  match d with
  | Decimal.Nil => acc
  | Decimal.D0 l => uint_val (acc * 10) l
  | Decimal.D1 l => uint_val (acc * 10 + 1) l
  | Decimal.D2 l => uint_val (acc * 10 + 2) l
  | Decimal.D3 l => uint_val (acc * 10 + 3) l
  | Decimal.D4 l => uint_val (acc * 10 + 4) l
  | Decimal.D5 l => uint_val (acc * 10 + 5) l
  | Decimal.D6 l => uint_val (acc * 10 + 6) l
  | Decimal.D7 l => uint_val (acc * 10 + 7) l
  | Decimal.D8 l => uint_val (acc * 10 + 8) l
  | Decimal.D9 l => uint_val (acc * 10 + 9) l
  end%N.

Lemma digits_acc_uint (acc : N) (d : Decimal.uint) :
  digits_acc acc (NilEmpty.string_of_uint d) = uint_val acc d.
Proof.
  revert acc; induction d; intros acc; simpl; [done|..];
    rewrite IHd; f_equal; unfold digit_val; simpl; lia.
Qed.

Lemma uint_val_pos (p : positive) (d : Decimal.uint) :
  uint_val (Npos p) d = Npos (Pos.of_uint_acc d p).
Proof.
  revert p; induction d; intros p; cbn [uint_val Pos.of_uint_acc]; [done|..];
    rewrite <- IHd; f_equal; lia.
Qed.

Lemma uint_val_of_uint (d : Decimal.uint) : uint_val 0 d = N.of_uint d.
Proof.
  induction d; cbn [uint_val]; try done;
    unfold N.of_uint; cbn [Pos.of_uint]; rewrite <- uint_val_pos; f_equal.
Qed.

Lemma digits_val_show (n : N) : digits_val (show_N n) = n.
Proof.
  unfold digits_val, show_N.
  by rewrite digits_acc_uint, uint_val_of_uint, DecimalN.Unsigned.of_to.
Qed.

Lemma all_digits_uint (d : Decimal.uint) :
  all_digits (NilEmpty.string_of_uint d) = true.
Proof. unfold all_digits. induction d; simpl; auto. Qed.

Lemma show_N_cons (n : N) :
  exists c t, show_N n = String c t /\ is_digit c = true /\ all_digits t = true.
Proof.
  unfold show_N. destruct (N.to_uint n) eqn:E;
    try (eexists _, _; split; [reflexivity|]; split; [reflexivity|apply all_digits_uint]).
  exfalso. pose proof (DecimalN.Unsigned.of_to n) as H. rewrite E in H.
  simpl in H. subst n. discriminate.
Qed.

Lemma str_forall_has_false (f : ascii -> bool) (c : ascii) (s : string) :
  str_forall f s = true -> f c = false -> str_has c s = false.
Proof.
  intros Hs Hc. induction s as [|d s IH]; [done|]. cbn [str_forall] in Hs.
  apply andb_prop in Hs as [Hd Hs]. rewrite str_has_cons.
  destruct (Ascii.eqb_spec c d) as [->|_]; [congruence|by apply IH].
Qed.

Lemma str_has_show_N (c : ascii) (n : N) : is_digit c = false -> str_has c (show_N n) = false.
Proof.
  intros Hc. destruct (show_N_cons n) as (d & t & -> & Hd & Ht).
  apply (str_forall_has_false is_digit); [|done]. cbn. by rewrite Hd.
Qed.

(** [split] on a separator that occurs only where it is placed. *)
Lemma split_on_none (c : ascii) (s : string) : str_has c s = false -> split_on c s = [s].
Proof.
  induction s as [|d s IH]; [done|]. rewrite str_has_cons. cbn.
  destruct (Ascii.eqb c d); [done|]. intros H. by rewrite IH.
Qed.

Lemma split_on_ne (c : ascii) (s : string) : split_on c s <> [].
Proof.
  induction s as [|d s IH]; [done|]. cbn.
  destruct (split_on c s); [done|]. by destruct (Ascii.eqb c d).
Qed.

Lemma split_on_app (c : ascii) (a b : string) :
  str_has c a = false -> split_on c (a +:+ String c b) = a :: split_on c b.
Proof.
  induction a as [|d a IH]; intros Ha.
  - cbn. rewrite Ascii.eqb_refl. destruct (split_on c b) eqn:E; [|done].
    by apply split_on_ne in E.
  - rewrite str_has_cons in Ha. cbn. destruct (Ascii.eqb c d); [done|]. by rewrite IH.
Qed.

(** The pieces before a separator followed by [b]: [b]'s pieces come
    last, unchanged. *)
Lemma split_on_app_tail (c : ascii) (a b : string) :
  exists init, init <> [] /\ split_on c (a +:+ String c b) = init ++ split_on c b.
Proof.
  induction a as [|d a (init & Hne & IH)].
  - exists [""]. split; [done|]. cbn. rewrite Ascii.eqb_refl.
    destruct (split_on c b) eqn:E; [by apply split_on_ne in E|done].
  - destruct init as [|w init]; [done|]. cbn. rewrite IH. cbn.
    destruct (Ascii.eqb c d); [exists ("" :: w :: init)|exists (String d w :: init)]; done.
Qed.

(** [s.split(c).pop()] of [a + c + b] where [b] has no [c]. *)
Lemma split_on_last (c : ascii) (a b : string) (dflt : string) :
  str_has c b = false -> List.last (split_on c (a +:+ String c b)) dflt = b.
Proof.
  intros Hb. destruct (split_on_app_tail c a b) as (init & _ & ->).
  rewrite split_on_none by done. induction init as [|w [|w' init] IH]; done.
Qed.

(** *** White space *)

(** The first bytes of the white-space encodings. *)
Definition space_heads : list nat := [9; 10; 11; 12; 13; 32; 194; 225; 226; 227; 239].

Lemma first_prefix_len_other (encs : list string) (c : ascii) (s : string) :
  Forall (fun e => match e with
                   | String d _ => d <> c
                   | EmptyString => False
                   end) encs ->
  first_prefix_len encs (String c s) = 0.
Proof.
  induction 1 as [|e encs He _ IH]; simpl; [done|].
  destruct e as [|d e]; [done|]. simpl.
  destruct (ascii_dec d c); [congruence|done].
Qed.

Lemma space_len_other (c : ascii) (s : string) :
  nat_of_ascii c ∉ space_heads -> space_len (String c s) = 0.
Proof.
  intros Hc. apply first_prefix_len_other, List.Forall_forall. intros e He.
  vm_compute in He.
  repeat (destruct He as [<-|He]; [intros <-; apply Hc, list_elem_of_In;
                                   vm_compute; tauto|]).
  done.
Qed.

Lemma space_len_space (s : string) : space_len (String " " s) = 1.
Proof. reflexivity. Qed.

Lemma not_space_head (n : nat) :
  existsb (Nat.eqb n) space_heads = false -> n ∉ space_heads.
Proof.
  intros H Hin. apply list_elem_of_In in Hin.
  assert (existsb (Nat.eqb n) space_heads = true) as Ht
    by (apply existsb_exists; exists n; split; [done|apply Nat.eqb_refl]).
  congruence.
Qed.

Lemma digit_not_space_head (c : ascii) :
  is_digit c = true -> nat_of_ascii c ∉ space_heads.
Proof.
  unfold is_digit. intros H Hin. apply andb_prop in H as [H1 H2].
  apply Nat.leb_le in H1, H2. unfold space_heads in Hin.
  repeat (apply elem_of_cons in Hin as [Hin|Hin]; [lia|]). set_solver.
Qed.

End Js.
