(* ===== verification/Matcher.v ===== *)
(** * The server's regular expressions as greedy matchers

    Each regular expression of [src/server/index.js] is written here as a
    composition of matchers that reads like the regex: [lit "("] for
    [\(], [spaces] for [\s*], [capture (plus digit)] for [(\d+)],
    [capture (star (byte_not "@\n"))] for [( [^@\n]* )], [opt_char "@"] for
    [@?], [ilit "rect"] for [rect] under the [i] flag.

    A matcher consumes a prefix of its input and returns its value and the
    rest.  It is greedy and does not backtrack.  For the server's patterns
    this computes the same match as ECMAScript's backtracking matcher,
    because every quantifier is followed either by a token its operand
    cannot match ([\s*] before [\d], [,] or [)]; [\d+] before [\s] or
    [,]; [[^)]+] before [)]) or by a suffix that always succeeds (the
    trailing [\s*:?[\s]* ( [^@\n]* )]).  The one pattern where backtracking
    changes a capture, [@poly\(\s*([^)]+)\)], is written out in
    [RegionParser] with the backtracking step made explicit.

    [exec_all] is the [while ((m = re.exec(text)) !== null)] loop of a
    global regex: it tries every start position from [lastIndex] on and
    resumes after each match. *)

From S2P Require Import Prelude JsString.
Import Js.

Module Rx.

Definition pat (A : Type) : Type := string -> option (A * string).

Definition ret {A} (a : A) : pat A := fun s => Some (a, s).

Definition bind {A B} (p : pat A) (k : A -> pat B) : pat B :=
  fun s => match p s with
           | Some (a, r) => k a r
           | None => None
           end.

Declare Scope rx_scope.
Delimit Scope rx_scope with rx.
Notation "x <-- p ;; k" := (bind p (fun x => k))
  (at level 100, p at next level, right associativity) : rx_scope.
Notation "p ;;; k" := (bind p (fun _ => k))
  (at level 100, right associativity) : rx_scope.
Open Scope rx_scope.

(** ** Atoms *)

(** One byte satisfying [f]. *)
Definition byte_if (f : ascii -> bool) : pat ascii :=
  fun s => match s with
           | String c s' => if f c then Some (c, s') else None
           | EmptyString => None
           end.

Definition digit : pat ascii := byte_if is_digit.

(** [[^...]] over a set of ASCII characters: one byte outside it. *)
Definition byte_not (set : string) : pat ascii :=
  byte_if (fun c => negb (str_has c set)).

(** A literal, byte for byte. *)
Definition lit (l : string) : pat unit :=
  fun s => if starts_with l s then Some (tt, drop_str (String.length l) s)
           else None.

(** A literal under the [i] flag. *)
Fixpoint ilit (l : string) : pat unit :=
  fun s => match l, s with
           | EmptyString, _ => Some (tt, s)
           | String a l', String c s' => if ci_eqb a c then ilit l' s' else None
           | String _ _, EmptyString => None
           end.

(** [c?] (greedy). *)
Definition opt_char (c : ascii) : pat unit :=
  fun s => match s with
           | String d s' => if Ascii.eqb c d then Some (tt, s') else Some (tt, s)
           | EmptyString => Some (tt, s)
           end.

(** One white-space character of [\s]. *)
Definition space : pat unit :=
  fun s => match space_len s with
           | 0 => None
           | k => Some (tt, drop_str k s)
           end.

(** [$] without the [m] flag: the end of the input. *)
Definition end_anchor : pat unit :=
  fun s => match s with EmptyString => Some (tt, s) | _ => None end.

(** The first alternative that matches ([a|b|c]; the server's
    alternations end their pattern, so the first success is final). *)
Fixpoint alt {A} (ps : list (pat A)) : pat A :=
  fun s => match ps with
           | [] => None
           | p :: ps' => match p s with
                         | Some r => Some r
                         | None => alt ps' s
                         end
           end.

(** ** Quantifiers and captures *)

(** [p*] (greedy); an iteration that consumes nothing ends the loop, as
    in ECMAScript's RepeatMatcher. *)
Fixpoint star_fuel {A} (fuel : nat) (p : pat A) : pat (list A) :=
  fun s => match fuel with
           | 0 => Some ([], s)
           | S f =>
               match p s with
               | Some (a, r) =>
                   if String.length r <? String.length s then
                     match star_fuel f p r with
                     | Some (l, r') => Some (a :: l, r')
                     | None => None
                     end
                   else Some ([], s)
               | None => Some ([], s)
               end
           end.

Definition star {A} (p : pat A) : pat (list A) :=
  fun s => star_fuel (String.length s) p s.

(** [p+]. *)
Definition plus {A} (p : pat A) : pat (list A) :=
  x <-- p ;; xs <-- star p ;; ret (x :: xs).

(** The text a matcher consumed. *)
Definition consumed (s r : string) : string :=
  String.substring 0 (String.length s - String.length r) s.

(** [(p)]: the capture of the text [p] matched. *)
Definition capture {A} (p : pat A) : pat string :=
  fun s => match p s with
           | Some (_, r) => Some (consumed s r, r)
           | None => None
           end.

(** [\s*]. *)
Definition spaces : pat unit := star space ;;; ret tt.

(** [(p)?] (greedy). *)
Definition opt {A} (p : pat A) : pat (option A) :=
  fun s => match p s with
           | Some (a, r) => Some (Some a, r)
           | None => Some (None, s)
           end.

(** A matcher that never matches. *)
Definition fail {A} : pat A := fun _ => None.

(** The byte length of the UTF-8 character a lead byte starts. *)
Definition utf8_len (c : ascii) : nat :=
  let n := nat_of_ascii c in
  if n <? 128 then 1 else if n <? 224 then 2 else if n <? 240 then 3 else 4.

(** One character. *)
Definition any_char : pat string :=
  fun s => match s with
           | EmptyString => None
           | String c _ =>
               let k := utf8_len c in
               if k <=? String.length s
               then Some (String.substring 0 k s, drop_str k s) else None
           end.

(** [[^...]] over a set that holds multi-byte characters. *)
Definition char_not_in (set : list string) : pat string :=
  c <-- any_char ;; if existsb (String.eqb c) set then fail else ret c.

(** [.]: any character but a line terminator (LF, CR, U+2028, U+2029). *)
Definition dot : pat string :=
  char_not_in [bytes [10]; bytes [13]; bytes [226; 128; 168]; bytes [226; 128; 169]].

(** [p*?] followed by the rest [k] of the pattern: the lazy quantifier
    tries [k] first and one more [p] only where [k] fails; an iteration
    that consumes nothing fails, as in ECMAScript's RepeatMatcher.  The
    value is the iterations' values and [k]'s. *)
Fixpoint lazy_star_fuel {A B} (fuel : nat) (p : pat A) (k : pat B) : pat (list A * B) :=
  fun s => match fuel with
           | 0 => None
           | S f =>
               match k s with
               | Some (b, r) => Some (([], b), r)
               | None =>
                   match p s with
                   | Some (a, r) =>
                       if String.length r <? String.length s then
                         match lazy_star_fuel f p k r with
                         | Some ((l, b), r') => Some ((a :: l, b), r')
                         | None => None
                         end
                       else None
                   | None => None
                   end
               end
           end.

Definition lazy_star {A B} (p : pat A) (k : pat B) : pat (list A * B) :=
  fun s => lazy_star_fuel (S (String.length s)) p k s.

(** ** The global [exec] loop *)

(** One result of [exec]: the captures and [m[0]]. *)
Record rmatch (A : Type) := RMatch { m_groups : A; m_text : string }.
Arguments RMatch {A} _ _.
Arguments m_groups {A} _.
Arguments m_text {A} _.

Fixpoint exec_loop {A} (fuel : nat) (p : pat A) (s : string) : list (rmatch A) :=
  match fuel with
  | 0 => []
  | S f =>
      match p s with
      | Some (a, r) => RMatch a (consumed s r) :: exec_loop f p r
      | None => match s with
                | EmptyString => []
                | String _ s' => exec_loop f p s'
                end
      end
  end.

(** All the matches of a global regex over [s], left to right. *)
Definition exec_all {A} (p : pat A) (s : string) : list (rmatch A) :=
  exec_loop (S (String.length s)) p s.

(** ** Matchers consume a prefix *)

(** A matcher returns a suffix of its input. *)
Class Shrinks {A} (p : pat A) : Prop :=
  shrinks : forall s a r, p s = Some (a, r) -> exists u, s = u +:+ r.

(** A matcher consumes at least one byte. *)
Class Advances {A} (p : pat A) : Prop :=
  advances : forall s a r, p s = Some (a, r) -> exists c u, s = String c u +:+ r.

(** A matcher fails on every input without the character [c]. *)
Class Needs {A} (c : ascii) (p : pat A) : Prop :=
  needs : forall s, str_has c s = false -> p s = None.

Section Classes.
Context {A B : Type}.

#[export] Instance advances_shrinks (p : pat A) : Advances p -> Shrinks p.
Proof. intros Hp s a r H. destruct (Hp s a r H) as (c & u & ->). by eexists. Qed.

#[export] Instance ret_shrinks (a : A) : Shrinks (ret a).
Proof. intros s b r [= _ <-]. by exists "". Qed.

#[export] Instance fail_advances : Advances (@fail A).
Proof. done. Qed.

#[export] Instance bind_shrinks (p : pat A) (k : A -> pat B) :
  Shrinks p -> (forall a, Shrinks (k a)) -> Shrinks (bind p k).
Proof.
  intros Hp Hk s b r. unfold bind. destruct (p s) as [[a s1]|] eqn:E; [|done].
  intros H. destruct (Hp _ _ _ E) as [u ->]. destruct (Hk a _ _ _ H) as [v ->].
  exists (u +:+ v). by rewrite str_app_assoc.
Qed.

#[export] Instance bind_advances_l (p : pat A) (k : A -> pat B) :
  Advances p -> (forall a, Shrinks (k a)) -> Advances (bind p k).
Proof.
  intros Hp Hk s b r. unfold bind. destruct (p s) as [[a s1]|] eqn:E; [|done].
  intros H. destruct (Hp _ _ _ E) as (c & u & ->). destruct (Hk a _ _ _ H) as [v ->].
  exists c, (u +:+ v). simpl. by rewrite str_app_assoc.
Qed.

#[export] Instance bind_advances_r (p : pat A) (k : A -> pat B) :
  Shrinks p -> (forall a, Advances (k a)) -> Advances (bind p k).
Proof.
  intros Hp Hk s b r. unfold bind. destruct (p s) as [[a s1]|] eqn:E; [|done].
  intros H. destruct (Hp _ _ _ E) as [u ->]. destruct (Hk a _ _ _ H) as (c & v & ->).
  destruct u as [|d u]; [by exists c, v|]. exists d, (u +:+ String c v).
  simpl. by rewrite str_app_assoc.
Qed.

#[export] Instance byte_if_advances (f : ascii -> bool) : Advances (byte_if f).
Proof.
  intros [|c s] a r; simpl; [done|]. destruct (f c); [|done].
  intros [= _ <-]. by exists c, "".
Qed.

#[export] Instance lit_shrinks (l : string) : Shrinks (lit l).
Proof.
  intros s a r. unfold lit. destruct (starts_with l s) eqn:E; [|done].
  intros [= _ <-]. apply drop_str_suffix.
Qed.

#[export] Instance lit_advances (c : ascii) (l : string) : Advances (lit (String c l)).
Proof.
  intros s a r. unfold lit. destruct (starts_with _ s) eqn:E; [|done].
  intros [= _ <-]. exists c, l. apply (prefix_inv (String c l)), E.
Qed.

Lemma ilit_suffix (l s r : string) (a : unit) :
  ilit l s = Some (a, r) -> exists u, s = u +:+ r /\ String.length u = String.length l.
Proof.
  revert s; induction l as [|b l IH]; intros [|c s]; simpl; try done.
  - intros [= _ <-]. by exists "".
  - intros [= _ <-]. by exists "".
  - destruct (ci_eqb b c); [|done]. intros H.
    destruct (IH _ H) as (u & -> & Hu). exists (String c u). simpl. by rewrite Hu.
Qed.

#[export] Instance ilit_shrinks (l : string) : Shrinks (ilit l).
Proof. intros s a r H. destruct (ilit_suffix _ _ _ _ H) as (u & ? & _). by exists u. Qed.

#[export] Instance ilit_advances (b : ascii) (l : string) : Advances (ilit (String b l)).
Proof.
  intros s a r H. destruct (ilit_suffix _ _ _ _ H) as ([|c u] & -> & Hu); [done|].
  by exists c, u.
Qed.

#[export] Instance opt_char_shrinks (c : ascii) : Shrinks (opt_char c).
Proof.
  intros [|d s] a r; simpl; [intros [= _ <-]; by exists ""|].
  destruct (Ascii.eqb c d); intros [= _ <-]; [by exists (String d "")|by exists ""].
Qed.

#[export] Instance space_advances : Advances space.
Proof.
  intros s a r. unfold space. destruct (space_len s) as [|k] eqn:E; [done|].
  intros [= _ <-]. destruct (drop_str_suffix (S k) s) as [u Hu].
  destruct u as [|c u]; [|by exists c, u].
  exfalso. destruct s as [|c s]; [done|]. simpl in Hu.
  apply (f_equal String.length) in Hu. simpl in Hu.
  destruct (drop_str_suffix k s) as [v Hv]. rewrite Hv, str_length_app in Hu at 1. lia.
Qed.

#[export] Instance end_anchor_shrinks : Shrinks end_anchor.
Proof. intros [|c s] a r; simpl; [intros [= _ <-]; by exists ""|done]. Qed.

#[export] Instance alt_shrinks (ps : list (pat A)) :
  Forall Shrinks ps -> Shrinks (alt ps).
Proof.
  induction 1 as [|p ps Hp _ IH]; intros s a r; simpl; [done|].
  destruct (p s) as [[b s1]|] eqn:E; [intros [= <- <-]; by apply (Hp s b)|apply IH].
Qed.

#[export] Instance star_shrinks (p : pat A) : Shrinks p -> Shrinks (star p).
Proof.
  intros Hp s l r. unfold star. generalize (String.length s) as n.
  intros n; revert s l; induction n as [|n IH]; intros s l; simpl.
  - intros [= _ <-]. by exists "".
  - destruct (p s) as [[a s1]|] eqn:E; [|intros [= _ <-]; by exists ""].
    destruct (_ <? _); [|intros [= _ <-]; by exists ""].
    destruct (star_fuel n p s1) as [[l' r']|] eqn:E2; [|done]. intros [= _ <-].
    destruct (Hp _ _ _ E) as [u ->]. destruct (IH _ _ E2) as [v ->].
    exists (u +:+ v). by rewrite str_app_assoc.
Qed.

#[export] Instance capture_shrinks (p : pat A) : Shrinks p -> Shrinks (capture p).
Proof.
  intros Hp s a r. unfold capture. destruct (p s) as [[b s1]|] eqn:E; [|done].
  intros [= _ <-]. by apply (Hp s b).
Qed.

#[export] Instance capture_advances (p : pat A) : Advances p -> Advances (capture p).
Proof.
  intros Hp s a r. unfold capture. destruct (p s) as [[b s1]|] eqn:E; [|done].
  intros [= _ <-]. by apply (Hp s b).
Qed.

End Classes.

#[export] Instance any_char_advances : Advances any_char.
Proof.
  intros [|c s] a r; [done|]. unfold any_char.
  destruct (_ <=? _); [|done]. intros [= _ <-].
  assert (Hk : utf8_len c = S (pred (utf8_len c))).
  { unfold utf8_len. by repeat case_match. }
  rewrite Hk. cbn [drop_str]. destruct (drop_str_suffix (pred (utf8_len c)) s) as [u Hu].
  exists c, u. simpl. by rewrite <- Hu.
Qed.

#[export] Instance char_not_in_advances (set : list string) : Advances (char_not_in set).
Proof.
  unfold char_not_in. apply bind_advances_l; [apply _|].
  intros a. destruct (existsb _ _); apply _.
Qed.


#[export] Instance lazy_star_shrinks {A B} (p : pat A) (k : pat B) :
  Shrinks p -> Shrinks k -> Shrinks (lazy_star p k).
Proof.
  intros Hp Hk s. unfold lazy_star. generalize (S (String.length s)) as n.
  intros n. revert s. induction n as [|n IH]; intros s v r; cbn [lazy_star_fuel]; [done|].
  destruct (k s) as [[b r1]|] eqn:Ek; [intros [= _ <-]; by apply (Hk s b)|].
  destruct (p s) as [[a r1]|] eqn:Ep; [|congruence].
  destruct (String.length r1 <? String.length s); [|congruence].
  destruct (lazy_star_fuel n p k r1) as [[[l b] r2]|] eqn:E; [|congruence]. intros [= _ <-].
  destruct (Hp _ _ _ Ep) as [u ->]. destruct (IH _ _ _ E) as [w ->].
  exists (u +:+ w). by rewrite str_app_assoc.
Qed.

#[export] Instance plus_advances {A} (p : pat A) : Advances p -> Advances (plus p).
Proof. intros Hp. unfold plus. apply _. Qed.

(** *** Failure on inputs that lack a character *)

Lemma needs_bind_l {A B} (c : ascii) (p : pat A) (k : A -> pat B) :
  Needs c p -> Needs c (bind p k).
Proof. intros Hp s Hs. unfold bind. by rewrite Hp. Qed.

Lemma needs_bind_r {A B} (c : ascii) (p : pat A) (k : A -> pat B) :
  Shrinks p -> (forall a, Needs c (k a)) -> Needs c (bind p k).
Proof.
  intros Hp Hk s Hs. unfold bind. destruct (p s) as [[a r]|] eqn:E; [|done].
  apply Hk. destruct (Hp _ _ _ E) as [u ->]. rewrite str_has_app in Hs.
  by apply orb_false_elim in Hs as [_ ?].
Qed.

Lemma lit_needs (c : ascii) (l : string) : str_has c l = true -> Needs c (lit l).
Proof.
  intros Hl s Hs. unfold lit. destruct (starts_with l s) eqn:E; [|done].
  by rewrite (str_has_prefix c l s E Hl) in Hs.
Qed.

(** A pattern [q ;;; ... ;;; lit l ;;; k] whose literal holds [c]. *)
Ltac solve_needs :=
  repeat first
    [ apply needs_bind_l, lit_needs; reflexivity
    | apply needs_bind_r; [typeclasses eauto|intros ?] ].

(** *** [star] and [capture] *)

Lemma star_step {A} (p : pat A) (c : ascii) (s : string) (a : A) :
  p (String c s) = Some (a, s) ->
  star p (String c s) = match star p s with
                        | Some (l, r) => Some (a :: l, r)
                        | None => None
                        end.
Proof.
  intros H. unfold star. simpl. rewrite H.
  by rewrite (proj2 (Nat.ltb_lt _ _) (Nat.lt_succ_diag_r _)).
Qed.

Lemma star_stop {A} (p : pat A) (s : string) : p s = None -> star p s = Some ([], s).
Proof. intros H. unfold star. destruct s; simpl; by rewrite ?H. Qed.

(** [byte_if f]* runs over the bytes that satisfy [f]. *)
Lemma star_byte_run (f : ascii -> bool) (t z : string) :
  str_forall f t = true ->
  (forall c z', z = String c z' -> f c = false) ->
  exists l, star (byte_if f) (t +:+ z) = Some (l, z).
Proof.
  intros Ht Hz. induction t as [|c t IH]; simpl in *.
  - exists []. apply star_stop. destruct z as [|c z']; [done|]. simpl.
    by rewrite (Hz c z' eq_refl).
  - apply andb_prop in Ht as [Hc Ht]. destruct (IH Ht) as [l Hl].
    exists (c :: l). rewrite (star_step _ c _ c); [by rewrite Hl|]. simpl. by rewrite Hc.
Qed.

(** Conversely, what [byte_if f]* consumed satisfies [f], and it stopped
    at a byte that does not. *)
Lemma star_fuel_byte_sound (f : ascii -> bool) (n : nat) (s r : string) (l : list ascii) :
  String.length s <= n -> star_fuel n (byte_if f) s = Some (l, r) ->
  exists t, s = t +:+ r /\ str_forall f t = true /\
            (forall c z, r = String c z -> f c = false).
Proof.
  revert s l. induction n as [|n IH]; intros s l Hn H.
  - destruct s; [|simpl in Hn; lia]. invc H. by exists "".
  - destruct s as [|c s']; simpl in H.
    + invc H. by exists "".
    + destruct (f c) eqn:Hc.
      * rewrite (proj2 (Nat.ltb_lt _ _) (Nat.lt_succ_diag_r _)) in H.
        destruct (star_fuel n _ s') as [[l' r']|] eqn:Hs; [|done]. invc H.
        destruct (IH s' l') as (t & -> & Ht & Hr); [simpl in Hn; lia|done|].
        exists (String c t). simpl. by rewrite Hc, Ht.
      * invc H. exists "". split_and!; [done|done|]. by intros ? ? [= -> ->].
Qed.

Lemma star_byte_sound (f : ascii -> bool) (s r : string) (l : list ascii) :
  star (byte_if f) s = Some (l, r) ->
  exists t, s = t +:+ r /\ str_forall f t = true /\
            (forall c z, r = String c z -> f c = false).
Proof. apply star_fuel_byte_sound. lia. Qed.

Lemma consumed_app (u r : string) : consumed (u +:+ r) r = u.
Proof.
  unfold consumed. rewrite str_length_app, Nat.add_sub. apply substring_app.
Qed.

Lemma capture_run {A} (p : pat A) (u r : string) (a : A) :
  p (u +:+ r) = Some (a, r) -> capture p (u +:+ r) = Some (u, r).
Proof. intros H. unfold capture. by rewrite H, consumed_app. Qed.

(** *** The [exec] loop *)

Section Exec.
Context {A : Type} (p : pat A) `{!Advances p}.

Lemma exec_loop_fuel (n m : nat) (s : string) :
  String.length s < n -> String.length s < m -> exec_loop n p s = exec_loop m p s.
Proof.
  revert m s; induction n as [|n IH]; intros [|m] s Hn Hm; try lia; simpl.
  destruct (p s) as [[a r]|] eqn:E.
  - destruct (advances _ _ _ E) as (c & u & ->). f_equal. apply IH;
      rewrite str_length_app in *; simpl in *; lia.
  - destruct s as [|c s]; [done|]. simpl in *. apply IH; lia.
Qed.

Lemma exec_all_hit (s r : string) (a : A) :
  p s = Some (a, r) -> exec_all p s = RMatch a (consumed s r) :: exec_all p r.
Proof.
  intros H. unfold exec_all at 1. cbn [exec_loop]. rewrite H. f_equal.
  unfold exec_all. destruct (advances _ _ _ H) as (c & u & ->). apply exec_loop_fuel;
    rewrite ?str_length_app; simpl; lia.
Qed.

Lemma exec_all_skip (c : ascii) (s : string) :
  p (String c s) = None -> exec_all p (String c s) = exec_all p s.
Proof. intros H. unfold exec_all. simpl. by rewrite H. Qed.

Lemma exec_all_skip_app (c : ascii) (pre s : string) :
  p (String c pre +:+ s) = None -> exec_all p (String c pre +:+ s) = exec_all p (pre +:+ s).
Proof. apply exec_all_skip. Qed.

Lemma exec_all_empty : p "" = None -> exec_all p "" = [].
Proof. intros H. unfold exec_all. simpl. by rewrite H. Qed.

(** No match starts inside [pre]. *)
Lemma exec_all_app_skip (pre s : string) :
  (forall u w, pre = u +:+ w -> w <> "" -> p (w +:+ s) = None) ->
  exec_all p (pre +:+ s) = exec_all p s.
Proof.
  induction pre as [|c pre IH]; intros H; simpl; [done|].
  rewrite exec_all_skip; [|by apply (H "" (String c pre))].
  apply IH. intros u w -> Hw. by apply (H (String c u) w).
Qed.

Lemma exec_all_nowhere (s : string) :
  (forall u w, s = u +:+ w -> p w = None) -> exec_all p s = [].
Proof.
  intros H. rewrite <- (str_app_nil_r s), exec_all_app_skip.
  - apply exec_all_empty. apply (H s ""). by rewrite str_app_nil_r.
  - intros u w -> _. apply (H u). by rewrite str_app_nil_r.
Qed.

Lemma exec_all_needs (c : ascii) (s : string) :
  Needs c p -> str_has c s = false -> exec_all p s = [].
Proof.
  intros Hn Hs. apply exec_all_nowhere. intros u w ->. apply Hn.
  rewrite str_has_app in Hs. by apply orb_false_elim in Hs as [_ ?].
Qed.

End Exec.

Lemma consumed_nil (s : string) : consumed s "" = s.
Proof. rewrite <- (str_app_nil_r s) at 1. apply consumed_app. Qed.

End Rx.
