(* ===== verification/RegionParser.v ===== *)
(** * Region Parser: the prompt's tags turned into coordinate regions

    Models the three text passes of [processTask] in
    [src/server/index.js] that run before the structured prompt is built:
    - [replace_refs] (lines 548-565): every [@<asset id>] placeholder is
      replaced by [图<n>], the image's position in the request;
    - [parse_shape_labels] (lines 568-601): [@矩形一], [@圆形二],
      [@画笔三] ... resolved against the payload's [mask_elements];
    - [parse_coordinate_tags] (lines 614-669): the [@rect], [@line],
      [@circle], [@point] and [@poly] coordinate tags.
    Each pass is pure and returns its regions, the cleaned text and the
    lines it appends to the replacement log. *)

From S2P Require Import Prelude JsString Matcher.
Import Js Rx.

Module Region.

(** ** Data *)

(** The [type] field of a region object. *)
Inductive region_type := Rectangle | Polygon | Line | Circle | Point.

#[export] Instance region_type_eq_dec : EqDecision region_type.
Proof. solve_decision. Defined.

Definition type_name (t : region_type) : string :=
  match t with
  | Rectangle => "rectangle"
  | Polygon => "polygon"
  | Line => "line"
  | Circle => "circle"
  | Point => "point"
  end.

(** [{ type, desc, instruction }]. *)
Record region := mk_region {
  r_type : region_type;
  r_desc : string;
  r_instruction : string
}.

(** A mask element of the payload ([store.ts], [MaskElement]): its
    [name] (optional), [type] and [coords] (optional array of rounded
    canvas coordinates). *)
Record element := mk_element {
  el_name : option string;
  el_type : string;
  el_coords : option (list Z)
}.

(** A reference asset: [{ id, url }]. *)
Record asset := mk_asset { a_id : string; a_url : string }.

(** ** Coordinate tags (lines 614-669) *)

Definition at_or_nl : string := String c_at (String c_nl EmptyString).

(** [\s*(\d+)\s*]: one numeric argument. *)
Definition arg : pat string :=
  spaces ;;; d <-- capture (plus digit) ;; spaces ;;; ret d.

(** [n] numeric arguments separated by [,]. *)
Fixpoint args (n : nat) : pat (list string) :=
  match n with
  | 0 => ret []
  | 1 => d <-- arg ;; ret [d]
  | S n' => d <-- arg ;; lit "," ;;; ds <-- args n' ;; ret (d :: ds)
  end.

(** [\)\s*:?[\s]*([^@\n]* )]: the closing parenthesis and the trailing
    instruction, which runs to the next [@] or line break. *)
Definition tail_instr : pat string :=
  lit ")" ;;; spaces ;;; opt_char ":" ;;; spaces ;;;
  capture (star (byte_not at_or_nl)).

(** [@?rect\(<8 args>\)...] and [@?rect\(<4 args>\)...], flags [gi]. *)
Definition rect8Re : pat (list string * string) :=
  opt_char c_at ;;; ilit "rect" ;;; lit "(" ;;;
  ns <-- args 8 ;; i <-- tail_instr ;; ret (ns, i).

Definition rectRe : pat (list string * string) :=
  opt_char c_at ;;; ilit "rect" ;;; lit "(" ;;;
  ns <-- args 4 ;; i <-- tail_instr ;; ret (ns, i).

(** [@line(...)], [@circle(...)], [@point(...)], flags [gi]. *)
Definition lineRe : pat (list string * string) :=
  lit "@" ;;; ilit "line" ;;; lit "(" ;;;
  ns <-- args 4 ;; i <-- tail_instr ;; ret (ns, i).

Definition circleRe : pat (list string * string) :=
  lit "@" ;;; ilit "circle" ;;; lit "(" ;;;
  ns <-- args 3 ;; i <-- tail_instr ;; ret (ns, i).

Definition pointRe : pat (list string * string) :=
  lit "@" ;;; ilit "point" ;;; lit "(" ;;;
  ns <-- args 2 ;; i <-- tail_instr ;; ret (ns, i).

(** The last white-space character of a run of white space. *)
Fixpoint last_space_fuel (fuel : nat) (u : string) : string :=
  match fuel with
  | 0 => u
  | S f => let k := space_len u in
           if (0 <? k) && (k <? String.length u)
           then last_space_fuel f (drop_str k u) else u
  end.

(** [\s*([^)]+)]: when the greedy [\s*] leaves no character for
    [[^)]+] (the next byte is [)]), the backtracking matcher gives the
    last white-space character back to the capture. *)
Definition poly_body : pat string :=
  fun s =>
    match spaces s with
    | Some (_, s1) =>
        match capture (plus (byte_not ")")) s1 with
        | Some r => Some r
        | None =>
            if String.length s1 <? String.length s then
              let u := consumed s s1 in
              let w := last_space_fuel (String.length u) u in
              Some (w, s1)
            else None
        end
    | None => None
    end.

(** [@poly\(\s*([^)]+)\)\s*:?[\s]*([^@\n]* )], flags [gi]. *)
Definition polyRe : pat (string * string) :=
  lit "@" ;;; ilit "poly" ;;; lit "(" ;;;
  body <-- poly_body ;; i <-- tail_instr ;; ret (body, i).

(** [Number(m[k])]; a missing group reads as 0 (it never is missing
    when the pattern matched). *)
Definition num (ns : list string) (k : nat) : N :=
  digits_val (default "" (ns !! k)).

Definition rect8_region (m : rmatch (list string * string)) : region :=
  let ns := fst (m_groups m) in
  let xs := [num ns 0; num ns 2; num ns 4; num ns 6] in
  let ys := [num ns 1; num ns 3; num ns 5; num ns 7] in
  let x k := show_N (default 0%N (xs !! k)) in
  let y k := show_N (default 0%N (ys !! k)) in
  mk_region Rectangle
    ⟪ x 0; ","; y 0; ";"; x 1; ","; y 1; ";"; x 2; ","; y 2; ";"; x 3; ","; y 3 ⟫
    (trim (snd (m_groups m))).

Definition rect_region (m : rmatch (list string * string)) : region :=
  let ns := fst (m_groups m) in
  let x := num ns 0 in let y := num ns 1 in
  let w := num ns 2 in let h := num ns 3 in
  mk_region Rectangle
    ⟪ show_N x; ","; show_N y; ";"; show_N (x + w); ","; show_N y; ";";
      show_N (x + w); ","; show_N (y + h); ";"; show_N x; ","; show_N (y + h) ⟫
    (trim (snd (m_groups m))).

Definition line_region (m : rmatch (list string * string)) : region :=
  let ns := fst (m_groups m) in
  mk_region Line
    ⟪ show_N (num ns 0); ","; show_N (num ns 1); "→";
      show_N (num ns 2); ","; show_N (num ns 3) ⟫
    (trim (snd (m_groups m))).

Definition circle_region (m : rmatch (list string * string)) : region :=
  let ns := fst (m_groups m) in
  mk_region Circle
    ⟪ show_N (num ns 0); ","; show_N (num ns 1); ",r="; show_N (num ns 2) ⟫
    (trim (snd (m_groups m))).

Definition point_region (m : rmatch (list string * string)) : region :=
  let ns := fst (m_groups m) in
  mk_region Point ⟪ show_N (num ns 0); ","; show_N (num ns 1) ⟫
    (trim (snd (m_groups m))).

Definition poly_region (m : rmatch (string * string)) : region :=
  mk_region Polygon (remove_spaces (trim (fst (m_groups m))))
    (trim (snd (m_groups m))).

(** The matches of one pattern, as [(region, m[0])] pairs. *)
Definition family {A} (p : pat A) (f : rmatch A -> region) (text : string)
  : list (region * string) :=
  map (fun m => (f m, m_text m)) (exec_all p text).

(** [consumed.forEach(seg => { cleaned = cleaned.replace(seg, '') })]. *)
Definition remove_segments (segs : list string) (text : string) : string :=
  fold_left (fun c seg => replace_first seg "" c) segs text.

(** [parseCoordinateTags]: the six [while (exec)] loops run one after
    the other over the same text, so regions come family by family. *)
Definition coord_matches (text : string) : list (region * string) :=
  family rect8Re rect8_region text ++ family rectRe rect_region text
  ++ family lineRe line_region text ++ family circleRe circle_region text
  ++ family pointRe point_region text ++ family polyRe poly_region text.

Definition parse_coordinate_tags (text : string) : list region * string :=
  let ms := coord_matches text in
  (map fst ms, remove_segments (map snd ms) text).

(** ** Shape labels (lines 568-601) *)

(** [@?(矩形|圆形|画笔)(一|二|三|四|五|六|七|八|九|十|\d+)], flag [g]. *)
Definition label_kind : pat unit := alt [lit "矩形"; lit "圆形"; lit "画笔"].

Definition label_ordinal : pat unit :=
  alt (map lit ["一"; "二"; "三"; "四"; "五"; "六"; "七"; "八"; "九"; "十"]
       ++ [plus digit ;;; ret tt]).

Definition labelRe : pat (string * string) :=
  opt_char c_at ;;; k <-- capture label_kind ;; n <-- capture label_ordinal ;;
  ret (k, n).

(** [nameIndex]: a [Map] from name to element, filled in order, so a
    later element with the same name replaces an earlier one; elements
    with an empty or missing name are skipped ([if (el.name)]). *)
Definition name_index (els : list element) : gmap string element :=
  fold_left (fun idx el =>
               match el_name el with
               | Some n => if String.eqb n "" then idx else <[n := el]> idx
               | None => idx
               end) els ∅.

(** [`${c[0]},${c[1]};...;${c[6]},${c[7]}`]. *)
Definition corners_desc (cs : list Z) : string :=
  let c k := show_Z (default 0%Z (cs !! k)) in
  ⟪ c 0; ","; c 1; ";"; c 2; ","; c 3; ";"; c 4; ","; c 5; ";"; c 6; ","; c 7 ⟫.

(** [for (i = 0; i < c.length; i += 2) pairs.push(`${c[i]},${c[i+1]}`)]:
    an odd-length array prints its last pair as [x,undefined]. *)
Fixpoint brush_pairs (cs : list Z) : list string :=
  match cs with
  | [] => []
  | [x] => [show_Z x +:+ ",undefined"]
  | x :: y :: cs' => (show_Z x +:+ "," +:+ show_Z y) :: brush_pairs cs'
  end.

(** The region a resolved element yields, if any: rectangles with 8
    coordinates and brushes with at least 4; other elements yield none
    but their label is still consumed. *)
Definition element_region (el : element) : option region :=
  match el_coords el with
  | Some cs =>
      if String.eqb (el_type el) "rectangle" && (length cs =? 8) then
        Some (mk_region Rectangle (corners_desc cs) "")
      else if String.eqb (el_type el) "brush" && (4 <=? length cs) then
        Some (mk_region Polygon (join ";" (brush_pairs cs)) "")
      else None
  | None => None
  end.

(** The loop state of [parseShapeLabels]: regions, consumed segments and
    the replacement-log lines it pushed. *)
Record label_state := mk_label_state {
  ls_regions : list region;
  ls_consumed : list string;
  ls_log : list string
}.

(** One iteration of the [while (labelRe.exec)] loop; an unknown label
    is skipped ([continue]) and stays in the text. *)
Definition label_step (idx : gmap string element) (st : label_state)
    (m : rmatch (string * string)) : label_state :=
  let label := fst (m_groups m) +:+ snd (m_groups m) in
  match idx !! label with
  | None => st
  | Some el =>
      mk_label_state
        (ls_regions st ++ option_list (element_region el))
        (ls_consumed st ++ [m_text m])
        (ls_log st ++ [⟪ "@"; label; " → "; el_type el; " coords" ⟫])
  end.

(** [parseShapeLabels(text, elements)]: regions, cleaned text, log. *)
Definition parse_shape_labels (text : string) (els : list element)
  : list region * string * list string :=
  let st := fold_left (label_step (name_index els)) (exec_all labelRe text)
              (mk_label_state [] [] []) in
  (ls_regions st, remove_segments (ls_consumed st) text, ls_log st).

(** ** Reference placeholders (lines 548-565) *)

(** [new RegExp(`@${asset.id}`, 'g')] is a literal search only when the
    id has no regex metacharacter; other ids are outside this model. *)
Definition regex_meta : string := "\^$.*+?()[]{}|".

Fixpoint literal_id (id : string) : bool :=
  match id with
  | EmptyString => true
  | String c id' => negb (str_has c regex_meta) && literal_id id'
  end.

(** [reference_assets.forEach((asset, index) => ...)] from image number
    [n]: the text after the replacements and the log lines pushed, or
    [None] when an id is not a literal pattern. *)
Fixpoint replace_refs_from (n : nat) (assets : list asset) (text : string)
    (log : list string) : option (string * list string) :=
  match assets with
  | [] => Some (text, log)
  | a :: rest =>
      if literal_id (a_id a) then
        let replacement := "图" +:+ show_N (N.of_nat n) in
        let text' := replace_all ("@" +:+ a_id a) replacement text in
        let log' := if String.eqb text text' then log
                    else log ++ [⟪ "@"; a_id a; " → "; replacement ⟫] in
        replace_refs_from (S n) rest text' log'
      else None
  end.

(** The base image is image 1, so references are numbered from 2. *)
Definition replace_refs (assets : list asset) (text : string)
  : option (string * list string) :=
  replace_refs_from 2 assets text [].

(** ** Lemmas on the coordinate patterns *)

#[export] Instance arg_shrinks : Shrinks arg.
Proof. unfold arg, spaces. apply _. Qed.

#[export] Instance args_shrinks (n : nat) : Shrinks (args n).
Proof. induction n as [|[|n] IH]; simpl; apply _. Qed.

#[export] Instance tail_instr_shrinks : Shrinks tail_instr.
Proof. unfold tail_instr, spaces. apply _. Qed.

#[export] Instance poly_body_shrinks : Shrinks poly_body.
Proof.
  intros s a r. unfold poly_body.
  destruct (spaces s) as [[[] s1]|] eqn:E; [|done].
  destruct (@shrinks _ _ _ s _ _ E) as [u ->].
  destruct (capture (plus (byte_not ")")) s1) as [[b r1]|] eqn:E2.
  - intros [= _ <-]. destruct (@shrinks _ _ _ s1 _ _ E2) as [v ->].
    exists (u +:+ v). by rewrite str_app_assoc.
  - destruct (_ <? _); [intros [= _ <-]; by exists u|done].
Qed.

#[export] Instance rect8Re_advances : Advances rect8Re.
Proof. unfold rect8Re. apply _. Qed.
#[export] Instance rectRe_advances : Advances rectRe.
Proof. unfold rectRe. apply _. Qed.
#[export] Instance lineRe_advances : Advances lineRe.
Proof. unfold lineRe. apply _. Qed.
#[export] Instance circleRe_advances : Advances circleRe.
Proof. unfold circleRe. apply _. Qed.
#[export] Instance pointRe_advances : Advances pointRe.
Proof. unfold pointRe. apply _. Qed.
#[export] Instance polyRe_advances : Advances polyRe.
Proof. unfold polyRe. apply _. Qed.

(** Every coordinate tag has a [(]. *)
Lemma rect8Re_needs : Needs c_lpar rect8Re.
Proof. unfold rect8Re. solve_needs. Qed.
Lemma rectRe_needs : Needs c_lpar rectRe.
Proof. unfold rectRe. solve_needs. Qed.
Lemma lineRe_needs : Needs c_lpar lineRe.
Proof. unfold lineRe. solve_needs. Qed.
Lemma circleRe_needs : Needs c_lpar circleRe.
Proof. unfold circleRe. solve_needs. Qed.
Lemma pointRe_needs : Needs c_lpar pointRe.
Proof. unfold pointRe. solve_needs. Qed.
Lemma polyRe_needs : Needs c_lpar polyRe.
Proof. unfold polyRe. solve_needs. Qed.

Lemma space_other (c : ascii) (z : string) :
  nat_of_ascii c ∉ space_heads -> space (String c z) = None.
Proof. intros H. unfold space. by rewrite space_len_other. Qed.

Lemma spaces_none (u : string) : space u = None -> spaces u = Some (tt, u).
Proof. intros H. unfold spaces, bind. by rewrite star_stop. Qed.

Lemma capture_digits (d c : ascii) (t z : string) :
  is_digit d = true -> all_digits t = true -> is_digit c = false ->
  capture (plus digit) (String d t +:+ String c z) = Some (String d t, String c z).
Proof.
  intros Hd Ht Hc. destruct (star_byte_run is_digit t (String c z) Ht) as [l Hl].
  { by intros ? ? [= -> _]. }
  apply (capture_run _ _ _ (d :: l)). unfold plus, bind, digit. simpl.
  rewrite Hd. by rewrite Hl.
Qed.

(** A numeric argument printed in decimal is read back whole. *)
Lemma arg_show (n : N) (c : ascii) (z : string) :
  is_digit c = false -> nat_of_ascii c ∉ space_heads ->
  arg (show_N n +:+ String c z) = Some (show_N n, String c z).
Proof.
  intros Hc Hs. destruct (show_N_cons n) as (d & t & Hn & Hd & Ht). rewrite Hn.
  unfold arg, bind.
  rewrite spaces_none by (apply space_other, digit_not_space_head, Hd).
  rewrite capture_digits by done.
  by rewrite spaces_none by (apply space_other, Hs).
Qed.

(** *** A well-formed tag *)

(** [x,y,...] as the frontend writes it. *)
Fixpoint csv (xs : list N) : string :=
  match xs with
  | [] => ""
  | [x] => show_N x
  | x :: xs' => show_N x +:+ "," +:+ csv xs'
  end.

Lemma lit_cons (c : ascii) (z : string) : lit (String c "") (String c z) = Some (tt, z).
Proof. unfold lit. simpl. by destruct (ascii_dec c c). Qed.

Lemma comma_ok : is_digit ","%char = false /\ nat_of_ascii ","%char ∉ space_heads.
Proof. split; [done|]. by apply not_space_head. Qed.

Lemma rpar_ok : is_digit c_rpar = false /\ nat_of_ascii c_rpar ∉ space_heads.
Proof. split; [done|]. by apply not_space_head. Qed.

Lemma args_SS (n : nat) :
  args (S (S n)) = (d <-- arg ;; lit "," ;;; ds <-- args (S n) ;; ret (d :: ds)).
Proof. reflexivity. Qed.

Lemma csv_cons2 (x y : N) (xs : list N) :
  csv (x :: y :: xs) = show_N x +:+ "," +:+ csv (y :: xs).
Proof. reflexivity. Qed.

(** One numeric argument and its comma. *)
Lemma arg_comma {B} (x : N) (rest : string) (k : string -> pat B) :
  (d <-- arg ;; lit "," ;;; k d) (show_N x +:+ "," +:+ rest) = k (show_N x) rest.
Proof.
  cbn [String.append]. unfold bind at 1.
  rewrite arg_show by apply comma_ok. unfold bind. by rewrite lit_cons.
Qed.

Lemma args_csv (xs : list N) (z : string) :
  xs <> [] ->
  args (length xs) (csv xs +:+ String c_rpar z) = Some (map show_N xs, String c_rpar z).
Proof.
  induction xs as [|x [|y xs] IH]; intros _; [done|..].
  - cbn [args csv length]. unfold bind. by rewrite arg_show by apply rpar_ok.
  - cbn [length] in *. rewrite args_SS, csv_cons2, !str_app_assoc, arg_comma.
    unfold bind. by rewrite IH.
Qed.

Lemma args_csv_more (xs : list N) (m : nat) (z : string) :
  xs <> [] -> args (length xs + S m) (csv xs +:+ String c_rpar z) = None.
Proof.
  induction xs as [|x [|y xs] IH]; intros Hne; [done|..].
  - cbn [length Nat.add csv]. rewrite args_SS. unfold bind at 1.
    rewrite arg_show by apply rpar_ok. done.
  - cbn [length Nat.add] in *. rewrite args_SS, csv_cons2, !str_app_assoc, arg_comma.
    unfold bind. by rewrite IH.
Qed.

(** An instruction that runs to the end of the text: no [@], line
    break or [(], and it starts with neither white space nor [:]. *)
Definition instr_ok (instr : string) : bool :=
  str_forall (fun c => negb (str_has c at_or_nl)) instr && negb (str_has c_lpar instr)
  && (space_len instr =? 0) && negb (starts_with ":" instr).

Lemma lit_miss (c d : ascii) (z : string) : c <> d -> lit (String c "") (String d z) = None.
Proof. intros H. unfold lit. cbn [starts_with]. by destruct (ascii_dec c d). Qed.

Lemma opt_char_miss (a : ascii) (s : string) :
  starts_with (String a "") s = false -> opt_char a s = Some (tt, s).
Proof.
  destruct s as [|c s]; [done|]. simpl. destruct (ascii_dec a c) as [->|Hne]; [done|].
  intros _. destruct (Ascii.eqb_spec a c); [congruence|done].
Qed.

(** The tail after a tag's [)]: one space, then an instruction that runs
    to the end of the text. *)
Lemma tail_instr_ok (instr : string) :
  instr_ok instr = true -> tail_instr (String c_rpar (String " " instr)) = Some (instr, "").
Proof.
  unfold instr_ok. intros H. apply andb_prop in H as [H Hcol].
  apply andb_prop in H as [H Hsp]. apply andb_prop in H as [Hrun _].
  apply negb_true_iff in Hcol. apply Nat.eqb_eq in Hsp.
  assert (Hnone : space instr = None) by (unfold space; by rewrite Hsp).
  unfold tail_instr, bind at 1. rewrite lit_cons.
  unfold spaces at 1, bind at 1 2.
  rewrite (star_step _ " " instr tt) by (unfold space; by rewrite space_len_space).
  rewrite star_stop by done. unfold ret at 1. cbv iota beta. unfold bind at 1.
  rewrite opt_char_miss by done. unfold bind at 1. rewrite spaces_none by done.
  destruct (star_byte_run _ instr "" Hrun) as [l Hl]; [done|].
  pose proof (capture_run (star (byte_not at_or_nl)) instr "" l) as Hc.
  rewrite str_app_nil_r in Hc, Hl. by apply Hc.
Qed.

(** The prefix [@?rect\(] on a tag, with and without its [@]. *)
Lemma rect_prefix_at {B} (K : unit -> pat B) (z : string) :
  (opt_char c_at ;;; ilit "rect" ;;; bind (lit "(") K) ("@rect(" +:+ z) = K tt z.
Proof. reflexivity. Qed.

Lemma rect_prefix_noat {B} (K : unit -> pat B) (z : string) :
  (opt_char c_at ;;; ilit "rect" ;;; bind (lit "(") K) ("rect(" +:+ z) = K tt z.
Proof. reflexivity. Qed.

(** Where [ilit L] would reach a [(] only past an [@]. *)
Lemma ilit_paren_fail {B} (L w z : string) (K : unit -> pat B) :
  str_forall (fun a => negb (ci_eqb a c_at)) L = true ->
  str_has c_at w = false -> str_has c_lpar w = false ->
  (ilit L ;;; bind (lit "(") K) (w +:+ String c_at z) = None.
Proof.
  revert w; induction L as [|a L IH]; intros w HL Hw Hp.
  - destruct w as [|d w]; [reflexivity|]. rewrite str_has_cons in Hp.
    destruct (Ascii.eqb_spec c_lpar d) as [<-|Hne]; [done|].
    cbn [String.append]. unfold bind at 1. cbn [ilit]. unfold bind.
    by rewrite lit_miss.
  - cbn [str_forall] in HL. apply andb_prop in HL as [Ha HL]. destruct w as [|d w].
    + cbn [String.append]. unfold bind at 1. cbn [ilit].
      apply negb_true_iff in Ha. by rewrite Ha.
    + rewrite str_has_cons in Hw, Hp. destruct (Ascii.eqb c_at d); [done|].
      destruct (Ascii.eqb c_lpar d); [done|].
      cbn [String.append]. unfold bind at 1. cbn [ilit].
      destruct (ci_eqb a d); [|done]. by apply IH.
Qed.

(** *** The six families on a text holding one [@rect(x,y,w,h)] tag *)

Lemma csv_has (c : ascii) (xs : list N) :
  is_digit c = false -> c <> ","%char -> str_has c (csv xs) = false.
Proof.
  intros Hd Hc. induction xs as [|x [|y xs] IH]; [done|by apply str_has_show_N|].
  rewrite csv_cons2, !str_has_app, str_has_show_N, IH by done.
  cbn. by destruct (Ascii.eqb_spec c ",").
Qed.

Lemma instr_ok_lpar (instr : string) : instr_ok instr = true -> str_has c_lpar instr = false.
Proof.
  unfold instr_ok. intros H. repeat apply andb_prop in H as [H ?]. by apply negb_true_iff.
Qed.

(** What follows a tag's last argument: [)] and [rest], from which
    [tail_instr] reads the instruction [instr] up to the end of the text;
    [rest] has no [(]. *)
Definition tag_tail_ok (rest instr : string) : Prop :=
  tail_instr (String c_rpar rest) = Some (instr, "") /\ str_has c_lpar rest = false.

Lemma tail_space_instr (instr : string) :
  instr_ok instr = true -> tag_tail_ok (" " +:+ instr) instr.
Proof.
  intros H. split; [by apply tail_instr_ok|]. cbn. by apply instr_ok_lpar.
Qed.

(** A tag at the very end of the text: its instruction is empty. *)
Lemma tail_end : tag_tail_ok "" "".
Proof. split; reflexivity. Qed.

Lemma body_no_lpar (xs : list N) (rest : string) :
  str_has c_lpar rest = false -> str_has c_lpar (csv xs +:+ String c_rpar rest) = false.
Proof. intros H. rewrite str_has_app, csv_has by done. cbn. done. Qed.

(** No tag starts inside a prefix without [@] and [(]. *)
Lemma rect_family_pre {B} (K : unit -> pat B) (w z : string) :
  w <> "" -> str_has c_at w = false -> str_has c_lpar w = false ->
  (opt_char c_at ;;; ilit "rect" ;;; bind (lit "(") K) (w +:+ String c_at z) = None.
Proof.
  destruct w as [|d w]; [done|]. intros _ Ha Hp. rewrite str_has_cons in Ha.
  destruct (Ascii.eqb c_at d) eqn:E; [done|].
  unfold bind at 1. cbn [String.append opt_char]. rewrite E.
  change (String d (w +:+ String c_at z)) with (String d w +:+ String c_at z).
  apply ilit_paren_fail; [reflexivity|by rewrite str_has_cons, E|done].
Qed.

Lemma at_family_pre {B} (K : unit -> pat B) (w z : string) :
  w <> "" -> str_has c_at w = false -> bind (lit "@") K (w +:+ z) = None.
Proof.
  destruct w as [|d w]; [done|]. intros _ Ha. rewrite str_has_cons in Ha.
  destruct (Ascii.eqb_spec c_at d); [done|]. unfold bind. cbn [String.append].
  by rewrite lit_miss.
Qed.

Lemma exec_pre_skip {A} (p : pat A) `{!Advances p} (pre t s : string) :
  (forall w, w <> "" -> str_has c_at w = false -> str_has c_lpar w = false ->
             p (w +:+ String c_at (t +:+ s)) = None) ->
  str_has c_at pre = false -> str_has c_lpar pre = false ->
  exec_all p (pre +:+ String c_at t +:+ s) = exec_all p (String c_at t +:+ s).
Proof.
  intros H Ha Hp. apply exec_all_app_skip. intros u w -> Hw.
  rewrite str_has_app in Ha, Hp.
  apply orb_false_elim in Ha as [_ Ha]. apply orb_false_elim in Hp as [_ Hp]. by apply H.
Qed.

(** All six families skip the prefix. *)
Ltac pre_skip :=
  intros ? ? ? ?; first [apply rect_family_pre | apply at_family_pre]; done.

Lemma rect8Re_tag (xs : list N) (rest : string) :
  length xs = 4 -> rect8Re ("@rect(" +:+ csv xs +:+ String c_rpar rest) = None.
Proof.
  intros Hl. unfold rect8Re. rewrite rect_prefix_at. cbn [String.append].
  unfold bind at 1. replace 8 with (length xs + S 3) by lia.
  rewrite args_csv_more; [done|by destruct xs].
Qed.

Lemma rect8Re_tag_noat (xs : list N) (rest : string) :
  length xs = 4 -> rect8Re ("rect(" +:+ csv xs +:+ String c_rpar rest) = None.
Proof.
  intros Hl. unfold rect8Re. rewrite rect_prefix_noat. cbn [String.append].
  unfold bind at 1. replace 8 with (length xs + S 3) by lia.
  rewrite args_csv_more; [done|by destruct xs].
Qed.

Lemma rectRe_tag (xs : list N) (rest instr : string) :
  length xs = 4 -> tag_tail_ok rest instr ->
  rectRe ("@rect(" +:+ csv xs +:+ String c_rpar rest) = Some ((map show_N xs, instr), "").
Proof.
  intros Hl [Ht _]. unfold rectRe. rewrite rect_prefix_at. cbn [String.append].
  unfold bind at 1. rewrite <- Hl, args_csv by (by destruct xs).
  unfold bind. by rewrite Ht.
Qed.

Section OneTag.
Variables (xs : list N) (rest instr : string).
Hypothesis Hlen : length xs = 4.
Hypothesis Htail : tag_tail_ok rest instr.

(** A family that fails on the six bytes of [@rect(] and finds no [(]
    after them. *)
Ltac skip_tag needs :=
  repeat (rewrite exec_all_skip_app by reflexivity);
  apply (exec_all_needs _ c_lpar); [apply needs|apply body_no_lpar, Htail].

Lemma exec_rect8_tag : exec_all rect8Re ("@rect(" +:+ csv xs +:+ String c_rpar rest) = [].
Proof.
  rewrite (exec_all_skip_app _ "@" "rect(") by (by apply rect8Re_tag).
  rewrite (exec_all_skip_app _ "r" "ect(") by (by apply rect8Re_tag_noat).
  skip_tag rect8Re_needs.
Qed.

Lemma exec_rect_tag :
  exec_all rectRe ("@rect(" +:+ csv xs +:+ String c_rpar rest)
  = [RMatch (map show_N xs, instr) ("@rect(" +:+ csv xs +:+ String c_rpar rest)].
Proof.
  rewrite (exec_all_hit _ _ "" _ (rectRe_tag _ _ _ Hlen Htail)), consumed_nil.
  by rewrite exec_all_empty.
Qed.

Lemma exec_line_tag : exec_all lineRe ("@rect(" +:+ csv xs +:+ String c_rpar rest) = [].
Proof. skip_tag lineRe_needs. Qed.
Lemma exec_circle_tag : exec_all circleRe ("@rect(" +:+ csv xs +:+ String c_rpar rest) = [].
Proof. skip_tag circleRe_needs. Qed.
Lemma exec_point_tag : exec_all pointRe ("@rect(" +:+ csv xs +:+ String c_rpar rest) = [].
Proof. skip_tag pointRe_needs. Qed.
Lemma exec_poly_tag : exec_all polyRe ("@rect(" +:+ csv xs +:+ String c_rpar rest) = [].
Proof. skip_tag polyRe_needs. Qed.

End OneTag.

Lemma replace_first_skip_app (c : ascii) (p q r u s : string) :
  str_has c u = false ->
  replace_first (String c p +:+ q) r (u +:+ s) = u +:+ replace_first (String c p +:+ q) r s.
Proof. apply replace_first_skip. Qed.

(** ** The coordinate-tag parser on a rectangle tag *)

(** A [@rect(x,y,w,h)] tag after text without [@] or [(], with any tail
    from which [tail_instr] reads the instruction to the end of the text. *)
Lemma parse_rect_tag_tail (pre rest instr : string) (x y w h : N) :
  str_has c_at pre = false -> str_has c_lpar pre = false -> tag_tail_ok rest instr ->
  parse_coordinate_tags (pre +:+ "@rect(" +:+ csv [x; y; w; h] +:+ String c_rpar rest)
  = ([mk_region Rectangle
        ⟪ show_N x; ","; show_N y; ";"; show_N (x + w); ","; show_N y; ";";
          show_N (x + w); ","; show_N (y + h); ";"; show_N x; ","; show_N (y + h) ⟫
        (trim instr)], pre).
Proof.
  intros Ha Hp Ht. unfold parse_coordinate_tags, coord_matches, family.
  rewrite !(exec_pre_skip _ pre "rect(") by (done || pre_skip).
  rewrite (exec_rect8_tag _ _ instr), (exec_rect_tag _ _ instr), (exec_line_tag _ _ instr),
    (exec_circle_tag _ _ instr), (exec_point_tag _ _ instr), (exec_poly_tag _ _ instr) by done.
  cbn [map app fst snd]. unfold remove_segments. cbn [fold_left].
  cbn [m_text]. rewrite replace_first_skip_app, replace_first_self, str_app_nil_r by done.
  unfold rect_region, num. cbn. by rewrite !digits_val_show.
Qed.

(** C1: a well-formed [@rect(x,y,w,h)] tag, followed by an instruction
    that runs to the end of the text, after text without [@] or [(],
    yields exactly one rectangle region, whose corners are
    [(x,y),(x+w,y),(x+w,y+h),(x,y+h)] and whose instruction is the
    trimmed trailing text; the tag and its instruction are removed from
    the text and nothing else is. *)
Theorem parse_rect_tag (pre instr : string) (x y w h : N) :
  str_has c_at pre = false -> str_has c_lpar pre = false -> instr_ok instr = true ->
  parse_coordinate_tags (pre +:+ "@rect(" +:+ csv [x; y; w; h] +:+ ") " +:+ instr)
  = ([mk_region Rectangle
        ⟪ show_N x; ","; show_N y; ";"; show_N (x + w); ","; show_N y; ";";
          show_N (x + w); ","; show_N (y + h); ";"; show_N x; ","; show_N (y + h) ⟫
        (trim instr)], pre).
Proof.
  intros Ha Hp Hi. change (") " +:+ instr) with (String c_rpar (" " +:+ instr)).
  by apply parse_rect_tag_tail, tail_space_instr.
Qed.

(** The spec's example prompt: [make it bright @rect(10,10,100,200) add clouds]. *)
Lemma parse_rect_tag_witness :
  str_has c_at "make it bright " = false /\ str_has c_lpar "make it bright " = false /\
  instr_ok "add clouds" = true /\
  parse_coordinate_tags ("make it bright " +:+ "@rect(" +:+ csv [10; 10; 100; 200]%N
                         +:+ ") " +:+ "add clouds")
  = ([mk_region Rectangle
        ⟪ show_N 10; ","; show_N 10; ";"; show_N (10 + 100); ","; show_N 10; ";";
          show_N (10 + 100); ","; show_N (10 + 200); ";"; show_N 10; ",";
          show_N (10 + 200) ⟫ (trim "add clouds")], "make it bright ").
Proof.
  split; [reflexivity|]. split; [reflexivity|]. split; [reflexivity|].
  apply parse_rect_tag; reflexivity.
Defined.

(** The regions come family by family (eight-value rectangles, then
    four-value rectangles, lines, circles, points, polygons), not in the
    order their tags appear in the text. *)
Example regions_in_family_order :
  fst (parse_coordinate_tags "@circle(5,5,3) sky @rect(1,2,3,4) grass")
  = [mk_region Rectangle "1,2;4,2;4,6;1,6" "grass"; mk_region Circle "5,5,r=3" "sky"].
Proof. vm_compute. reflexivity. Qed.

(** [@rect] needs no [@]; a [rect(...)] inside another tag's
    instruction is a second region, and removing it first leaves the
    enclosing tag in the cleaned text. *)
Example nested_rect_leaves_tag :
  parse_coordinate_tags "@circle(1,2,3) fix rect(1,2,3,4)"
  = ([mk_region Rectangle "1,2;4,2;4,6;1,6" "";
      mk_region Circle "1,2,r=3" "fix rect(1,2,3,4)"], "@circle(1,2,3) fix ").
Proof. vm_compute. reflexivity. Qed.

(** Asset ids are matched as prefixes: with references [sun] and
    [sunset], [@sunset] becomes [图2set] and [sunset] is never referred
    to as [图3]. *)
Example ref_prefix_collision :
  replace_refs [mk_asset "sun" "u1"; mk_asset "sunset" "u2"] "参考@sunset的色调"
  = Some ("参考图2set的色调", ["@sun → 图2"]).
Proof. vm_compute. reflexivity. Qed.

End Region.
