(* ===== verification/PromptCompiler.v ===== *)
(** * Prompt Compiler: the structured instruction document

    Models [buildStructuredPrompt] ([src/server/index.js], lines 52-192)
    section by section, and the text pipeline of [processTask] (lines
    545-709) that feeds it: reference placeholders, shape labels and
    coordinate tags ([RegionParser]) and then the compiler, called with
    [hasMask: false] and the coordinate regions only. *)

From S2P Require Import Prelude JsString Matcher RegionParser.
Import Js Rx Region.

Module Prompt.

Definition nl : string := String c_nl EmptyString.

(** A mask element as the compiler reads it: only its [color], [None]
    when it is not a string. *)
Record mask_el := mk_mask_el { me_color : option string }.

(** The [options] object of [buildStructuredPrompt]. *)
Record options := mk_options {
  userPrompt : string;
  hasMask : bool;
  maskElements : list mask_el;
  hasReference : bool;
  referenceCount : nat;
  resolution : string;
  coordRegions : list region
}.

(** ** Sections *)

(** 第1部分：任务定义 *)
Definition task_section (o : options) : list string :=
  ["[任务定义]"; "根据输入主图与用户需求生成高质量图像。";
   "输出分辨率：" +:+ resolution o; ""].

(** 第2部分：输入图像说明 *)
Definition input_section (o : options) : list string :=
  ["[输入图片]"; "- 图1：主图（需要修改的原图）"]
  ++ (if hasReference o then
        map (fun i => ⟪ "- 图"; show_N (N.of_nat (i + 2)); "：参考图" ⟫)
            (seq 0 (referenceCount o))
      else [])
  ++ [""].

(** [/$$蒙版中的[^$$区域]需要[^;$$]+/g]: two end-of-input anchors come
    first, so nothing after them is ever reached. *)
Definition regionPattern : pat unit :=
  end_anchor ;;; end_anchor ;;; lit "蒙版中的" ;;; char_not_in ["$"; "区"; "域"] ;;;
  lit "需要" ;;; plus (byte_not ";$") ;;; ret tt.

(** [/$$蒙版中的([^$$]+)区域]需要(.+)/g]. *)
Definition regionInstrPattern : pat (string * string) :=
  end_anchor ;;; end_anchor ;;; lit "蒙版中的" ;;;
  c <-- capture (plus (byte_not "$")) ;; lit "区域]需要" ;;;
  i <-- capture (plus dot) ;; ret (c, i).

Definition marker : string := "[蒙版中的".

Definition numbered (l : list string) : list string :=
  imap (fun i r => ⟪ show_N (N.of_nat (i + 1)); ". "; r ⟫) l.

(** 第3部分：用户需求 *)
Definition requirement_section (o : options) : list string :=
  let p := userPrompt o in
  ["[用户需求]"]
  ++ (if negb (String.eqb p "") && includes marker p then
        let regions := map m_text (exec_all regionPattern p) in
        if 1 <? length regions then numbered regions else [p]
      else [p])
  ++ [""].

(** [colorMap]. *)
Definition color_map : list (string * string) :=
  [("#FF0000", "red"); ("#00FF00", "green"); ("#0000FF", "blue");
   ("#FFFF00", "yellow"); ("#00FFFF", "cyan"); ("#FF00FF", "magenta");
   ("#FFFFFF", "white")].

(** [toUpperCase] as far as a comparison with the [colorMap] keys can
    tell: ASCII letters, and U+FB00 (ﬀ), which upper-cases to [FF]; any
    other non-ASCII character upper-cases to text that no key holds. *)
Fixpoint upper_key (s : string) : string :=
  match s with
  | EmptyString => EmptyString
  | String c s' =>
      let keep := String (upper c) (upper_key s') in
      match s' with
      | String d (String e s3) =>
          if String.eqb (String c (String d (String e EmptyString))) (bytes [239; 172; 128])
          then "FF" +:+ upper_key s3 else keep
      | _ => keep
      end
  end.

Fixpoint assoc_str (k : string) (m : list (string * string)) : option string :=
  match m with
  | [] => None
  | (k', v) :: m' => if String.eqb k k' then Some v else assoc_str k m'
  end.

(** [colorMap[key] || (raw || 'white')]. *)
Definition color_name (el : mask_el) : string :=
  let raw := default "" (me_color el) in
  match assoc_str (upper_key raw) color_map with
  | Some n => n
  | None => if String.eqb raw "" then "white" else raw
  end.

(** [Array.from(new Set(names))]: first occurrences, in order. *)
Definition dedup (l : list string) : list string :=
  fold_left (fun acc n => if existsb (String.eqb n) acc then acc else acc ++ [n]) l [].

(** 第4部分：蒙版区域指令 *)
Definition mask_section (o : options) : list string :=
  if hasMask o && (0 <? length (maskElements o)) then
    let maskColors := join "、 " (dedup (map color_name (maskElements o))) in
    let p := userPrompt o in
    let instrs :=
      if negb (String.eqb p "") && includes marker p then
        map (fun m => ⟪ "- For "; fst (m_groups m); " mask region: "; snd (m_groups m) ⟫)
            (exec_all regionInstrPattern p)
      else [] in
    ["[蒙版区域 - 重要说明]"; "⚠️ 已提供二值蒙版用于精确定义修改区域：";
     "- 白色区域：必须按照用户需求进行修改"; "- 黑色区域：必须保持完全不变";
     ⟪ "- UI 中包含 "; show_N (N.of_nat (length (maskElements o)));
       " 个元素，标记颜色："; maskColors ⟫;
     ""; "🎯 修改策略："; "1. 识别并仅在蒙版的白色区域进行修改";
     "2. 保持黑色区域与图1一致，不做任何改变"; "3. 在修改与未修改区域之间进行自然融合";
     "4. 保持整体构图与光照一致性"]
    ++ (if 0 <? length instrs then [""; "📝 具体区域说明："] ++ instrs else [])
    ++ [""]
  else [].

(** One line of the coordinate section. *)
Definition region_line (i : nat) (r : region) : string :=
  let loc := ⟪ type_name (r_type r); " @ "; r_desc r ⟫ in
  if String.eqb (r_instruction r) "" then ⟪ "- 区域 "; show_N (N.of_nat (i + 1)); "："; loc ⟫
  else ⟪ "- 区域 "; show_N (N.of_nat (i + 1)); "："; loc; " -> "; r_instruction r ⟫.

Definition coord_section (o : options) : list string :=
  match coordRegions o with
  | [] => []
  | rs => ["[坐标区域]"] ++ imap region_line rs
          ++ [""; "基于坐标的修改仅影响所描述的区域，不得外溢。"; ""]
  end.

(** 第5部分：质量要求 *)
Definition quality_section (o : options) : list string :=
  ["[质量要求]"; "- 保持图像清晰与细节丰富"; "- 维持自然光照与色彩一致性";
   "- 保持真实纹理与细节"; "- 未修改区域保持与原图一致"]
  ++ (if hasMask o then ["- 在蒙版与非蒙版区域之间创建平滑过渡"; "- 严格遵守蒙版边界，避免渗漏"]
      else [])
  ++ [""].

(** 第6部分：最终输出指导 *)
Definition output_section (o : options) : list string :=
  ["[输出指导]"; "生成一张完整的最终图片，其应当："]
  ++ (if hasMask o then
        ["1. 仅在蒙版白色区域按用户需求修改"; "2. 保持所有黑色区域与原图一致";
         "3. 在修改与保留区域之间实现自然融合"]
      else ["1. 按用户需求整体变换图像"; "2. 保持自然外观与整体一致性"])
  ++ ["3. 输出分辨率精确为 " +:+ resolution o; "4. 保持专业级高质量效果"].

Definition sections (o : options) : list string :=
  task_section o ++ input_section o ++ requirement_section o ++ mask_section o
  ++ coord_section o ++ quality_section o ++ output_section o.

(** [buildStructuredPrompt(options)]: [sections.join('\n')]. *)
Definition buildStructuredPrompt (o : options) : string := join nl (sections o).

(** ** The pipeline of [processTask] (lines 515, 545-709) *)

(** [output_resolution.split('x').map(Number)] on a resolution that
    passed the submit-time check [/^\d+x\d+$/]. *)
Definition resolution_dims (res : string) : option (N * N) :=
  match split_on "x"%char res with
  | [w; h] => Some (digits_val w, digits_val h)
  | _ => None
  end.

(** What the pipeline reads from the payload. *)
Record prompt_input := mk_prompt_input {
  pi_prompt : string;
  pi_refs : list asset;
  pi_elements : list element;
  pi_width : N;
  pi_height : N
}.

Definition label_log (r : region) : string :=
  ⟪ "@label "; type_name (r_type r); " "; r_desc r ⟫.

Definition coord_log (r : region) : string :=
  ⟪ "@coord "; type_name (r_type r); " "; r_desc r; " → ";
    if String.eqb (r_instruction r) "" then "(no instruction)" else r_instruction r ⟫.

(** The result of the three text passes: the processed prompt, the
    coordinate regions and the replacement log. *)
Record transformed := mk_transformed {
  tr_prompt : string;
  tr_regions : list region;
  tr_log : list string
}.

(** Steps 1-3 of lines 545-679; [None] when an asset id is not a
    literal regex. *)
Definition transform_prompt (pi : prompt_input) : option transformed :=
  match replace_refs (pi_refs pi) (pi_prompt pi) with
  | None => None
  | Some (p1, log1) =>
      let '(lregions, lcleaned, log2) := parse_shape_labels p1 (pi_elements pi) in
      let p2 := if bool_decide (lregions = []) then p1 else trim lcleaned in
      let '(cregions, ccleaned) := parse_coordinate_tags p2 in
      let p3 := if bool_decide (cregions = []) then p2 else trim ccleaned in
      Some (mk_transformed p3 cregions
              (log1 ++ log2 ++ map label_log lregions ++ map coord_log cregions))
  end.

(** The [buildStructuredPrompt] call of lines 701-709. *)
Definition prompt_options (pi : prompt_input) (t : transformed) : options :=
  mk_options (tr_prompt t) false [] (bool_decide (pi_refs pi <> []))
    (length (pi_refs pi)) ⟪ show_N (pi_width pi); "x"; show_N (pi_height pi) ⟫
    (tr_regions t).

Definition compile_prompt (pi : prompt_input) : option string :=
  t ← transform_prompt pi; Some (buildStructuredPrompt (prompt_options pi t)).

(** ** Properties *)

#[export] Instance regionPattern_advances : Advances regionPattern.
Proof. unfold regionPattern. apply _. Qed.

Lemma regionPattern_none (s : string) : regionPattern s = None.
Proof. by destruct s. Qed.

(** C34: the user-requirement section always restates the processed
    prompt verbatim.  The numbered form for several region instructions
    is unreachable: its pattern starts with two end-of-input anchors
    ([$$], where [\[] was meant), so [match] never finds a region. *)
Theorem requirement_section_verbatim (o : options) :
  requirement_section o = ["[用户需求]"; userPrompt o; ""].
Proof.
  unfold requirement_section.
  rewrite (exec_all_nowhere regionPattern) by (intros; apply regionPattern_none).
  by destruct (_ && _).
Qed.

(** The compiled document always holds the literal output resolution
    (the task-definition line [输出分辨率：<resolution>]). *)
Lemma resolution_in_prompt (o : options) :
  includes (resolution o) (buildStructuredPrompt o) = true.
Proof.
  unfold buildStructuredPrompt, sections, task_section. cbn [app].
  rewrite !join_cons2, !str_app_assoc.
  repeat first [apply includes_here | apply includes_app_l].
Qed.

(** C5: the pipeline of [processTask] either compiles a document that
    holds the literal [<width>x<height>] resolution, or stops because an
    asset id is not a literal pattern. *)
Theorem compile_prompt_resolution (pi : prompt_input) :
  match compile_prompt pi with
  | Some doc => includes ⟪ show_N (pi_width pi); "x"; show_N (pi_height pi) ⟫ doc = true
  | None => transform_prompt pi = None
  end.
Proof.
  unfold compile_prompt. destruct (transform_prompt pi) as [t|]; [|done].
  assert (Hr : resolution (prompt_options pi t)
               = ⟪ show_N (pi_width pi); "x"; show_N (pi_height pi) ⟫) by reflexivity.
  rewrite <- Hr. apply resolution_in_prompt.
Qed.

(** the spec's scenario: [make it bright @rect(10,10,100,200) add
    clouds] at [1920x1080] becomes the prompt [make it bright] with one
    rectangle region [10,10;110,10;110,210;10,210] instructed [add
    clouds]. *)
Example spec_scenario_transform :
  transform_prompt
    (mk_prompt_input "make it bright @rect(10,10,100,200) add clouds" [] [] 1920 1080)
  = Some (mk_transformed "make it bright"
            [mk_region Rectangle "10,10;110,10;110,210;10,210" "add clouds"]
            ["@coord rectangle 10,10;110,10;110,210;10,210 → add clouds"]).
Proof. vm_compute. reflexivity. Qed.

(** A shape label that resolves to a rectangle element is removed
    from the prompt, but its region never reaches the compiled document:
    only coordinate-tag regions are passed to [buildStructuredPrompt]. *)
Example shape_label_region_dropped :
  transform_prompt
    (mk_prompt_input "把@矩形一变成蓝色" []
       [mk_element (Some "矩形一") "rectangle" (Some [1; 2; 3; 2; 3; 4; 1; 4]%Z)] 1024 1024)
  = Some (mk_transformed "把变成蓝色" []
            ["@矩形一 → rectangle coords"; "@label rectangle 1,2;3,2;3,4;1,4"]).
Proof. vm_compute. reflexivity. Qed.

End Prompt.
