(* ===== verification/Tasks.v ===== *)
(** * Task State Machine: the task registry and its transitions

    Models the module-level [tasks] map of [src/server/index.js] (line
    308), [pushTimeline] and [updateTask] (lines 35-46), the handlers
    [POST /api/submit] (lines 366-416), [GET /api/task/:taskId] (lines
    419-440) and [GET /api/health] (lines 443-451), and the
    read-copy-write updates [processTask] makes to its task.

    The registry is a [gmap] from task id to task; a JavaScript [Map] with
    [set] replacing an entry wholesale is exactly [<[id := t]>].  Clock
    readings ([Date.now()], [new Date().toISOString()]) are the
    millisecond count [now], passed in by the caller. *)

From S2P Require Import Prelude JsString Matcher RegionParser.
Import Js Rx Region.

Module Tasks.

(** ** Data *)

Inductive status := PENDING | PROCESSING | COMPLETE | FAILED.

#[export] Instance status_eq_dec : EqDecision status.
Proof. solve_decision. Defined.

Definition status_name (s : status) : string :=
  match s with
  | PENDING => "PENDING"
  | PROCESSING => "PROCESSING"
  | COMPLETE => "COMPLETE"
  | FAILED => "FAILED"
  end.

(** The [event] names [processTask] and the submit handler record. *)
Inductive event :=
  | submit_received | processing_start | api_request_sent
  | api_task_id_received | polling_complete | complete | failed
  | mock_fallback.

#[export] Instance event_eq_dec : EqDecision event.
Proof. solve_decision. Defined.

Definition event_name (e : event) : string :=
  match e with
  | submit_received => "submit_received"
  | processing_start => "processing_start"
  | api_request_sent => "api_request_sent"
  | api_task_id_received => "api_task_id_received"
  | polling_complete => "polling_complete"
  | complete => "complete"
  | failed => "failed"
  | mock_fallback => "mock_fallback"
  end.

(** [{ ts, event, note }]. *)
Record entry := mk_entry { e_ts : N; e_event : event; e_note : string }.

(** The submitted payload, as far as the server reads it; a field the
    JSON body lacks is [None].  Non-string JSON values for the string
    fields are outside the model. *)
Record payload := mk_payload {
  p_base_image : option string;
  p_prompt : option string;
  p_output_resolution : option string;
  p_reference_assets : list asset;
  p_mask_elements : list element
}.

Record task := mk_task {
  t_id : string;
  t_status : status;
  t_payload : payload;
  t_createdAt : N;
  t_result : option string;
  t_error : option string;
  t_timeline : list entry;
  t_retryCount : option nat
}.

Abbreviation registry := (gmap string task).

(** ** [pushTimeline] and the object spreads of [processTask] *)

(** [pushTimeline(task, event, note)]: one entry appended. *)
Definition pushTimeline (now : N) (t : task) (ev : event) (note : string) : task :=
  mk_task (t_id t) (t_status t) (t_payload t) (t_createdAt t) (t_result t)
    (t_error t) (t_timeline t ++ [mk_entry now ev note]) (t_retryCount t).

Definition with_status (s : status) (t : task) : task :=
  mk_task (t_id t) s (t_payload t) (t_createdAt t) (t_result t)
    (t_error t) (t_timeline t) (t_retryCount t).

(** [{ ...t, status: 'COMPLETE', result }]. *)
Definition with_complete (url : string) (t : task) : task :=
  mk_task (t_id t) COMPLETE (t_payload t) (t_createdAt t) (Some url)
    (t_error t) (t_timeline t) (t_retryCount t).

(** [{ ...t, status: 'COMPLETE', result, error: null, retryCount }]
    (the mock fallback). *)
Definition with_fallback (url : string) (n : nat) (t : task) : task :=
  mk_task (t_id t) COMPLETE (t_payload t) (t_createdAt t) (Some url)
    None (t_timeline t) (Some n).

(** [{ ...t, status: 'FAILED', result: null, error, retryCount }]. *)
Definition with_failed (msg : string) (n : nat) (t : task) : task :=
  mk_task (t_id t) FAILED (t_payload t) (t_createdAt t) None
    (Some msg) (t_timeline t) (Some n).

(** [{ ...t, status: 'FAILED', error }] (the [.catch] of the submit
    handler, line 411). *)
Definition with_rejected (msg : string) (t : task) : task :=
  mk_task (t_id t) FAILED (t_payload t) (t_createdAt t) (t_result t)
    (Some msg) (t_timeline t) (t_retryCount t).

(** [tasks.set(id, f(tasks.get(id)))]: every update of [processTask]
    reads the current entry, builds a new object and stores it.  Entries
    are never deleted, so the entry is present whenever [processTask]
    runs (see [Tasks.update_dom]); a missing entry is left alone. *)
Definition update (id : string) (f : task -> task) (reg : registry) : registry :=
  match reg !! id with
  | Some t => <[id := f t]> reg
  | None => reg
  end.

(** A status change together with its timeline entry, as every
    [tasks.set(taskId, pushTimeline({ ...t, status ... }, ev, note))]
    does in one synchronous block. *)
Definition transition (now : N) (id : string) (f : task -> task) (ev : event)
    (note : string) (reg : registry) : registry :=
  update id (fun t => pushTimeline now (f t) ev note) reg.

(** [updateTask(taskId, pushTimeline(tasks.get(taskId), ev, note))]. *)
Definition push_event (now : N) (id : string) (ev : event) (note : string)
    (reg : registry) : registry :=
  update id (fun t => pushTimeline now t ev note) reg.

(** ** [POST /api/submit] *)

(** [/^\d+x\d+$/.test(resStr)]. *)
Definition resolutionRe : pat unit :=
  plus digit ;;; lit "x" ;;; plus digit ;;; end_anchor.

Definition valid_resolution (s : string) : bool :=
  match resolutionRe s with Some _ => true | None => false end.

(** A JavaScript string is truthy when it is not empty. *)
Definition truthy (o : option string) : bool :=
  match o with Some s => negb (String.eqb s "") | None => false end.

(** [validRes && baseImage && promptText]. *)
Definition valid_payload (p : payload) : bool :=
  match p_output_resolution p with
  | Some r => valid_resolution r
  | None => false
  end && truthy (p_base_image p) && truthy (p_prompt p).

(** [`job_${Date.now()}`]. *)
Definition job_id (now : N) : string := "job_" +:+ show_N now.

Inductive submit_reply :=
  | Accepted (id : string)      (* [{ taskId, status: 'PENDING' }] *)
  | BadRequest.                 (* [400] *)

Definition new_task (now : N) (id : string) (p : payload) : task :=
  pushTimeline now (mk_task id PENDING p now None None [] None)
    submit_received "收到前端提交".

(** The handler's synchronous part; [processTask] is then started on
    the new id (see [Orchestrator]). *)
Definition submit (now : N) (p : payload) (reg : registry) : submit_reply * registry :=
  let id := job_id now in
  if valid_payload p then (Accepted id, <[id := new_task now id p]> reg)
  else (BadRequest, reg).

(** ** The registry's update operations

    Every write the server makes to [tasks], with the line that makes it.
    [processTask] re-reads the entry before each write, so the writes of
    several tasks interleave freely; a run of the server is a sequence of
    [op]s. *)
Inductive op :=
  | OSubmit (now : N) (p : payload)                            (* 397 *)
  | OStart (now : N) (id : string)                             (* 492 *)
  | OEvent (now : N) (id : string) (ev : event) (note : string) (* 801, 854, 922 *)
  | OComplete (now : N) (id : string) (url note : string)      (* 506, 945 *)
  | OFallback (now : N) (id : string) (url : string) (n : nat)  (* 972 *)
  | OFail (now : N) (id : string) (msg : string) (n : nat)     (* 976 *)
  | OReject (now : N) (id : string) (msg : string).            (* 411 *)

Definition apply_op (o : op) (reg : registry) : registry :=
  match o with
  | OSubmit now p => (submit now p reg).2
  | OStart now id => transition now id (with_status PROCESSING) processing_start "开始处理" reg
  | OEvent now id ev note => push_event now id ev note reg
  | OComplete now id url note => transition now id (with_complete url) complete note reg
  | OFallback now id url n =>
      transition now id (with_fallback url n) mock_fallback "失败回退Mock" reg
  | OFail now id msg n => transition now id (with_failed msg n) failed msg reg
  | OReject now id msg => transition now id (with_rejected msg) failed msg reg
  end.

(** The registries a run of the server can reach from the empty map. *)
Inductive reachable : registry -> Prop :=
  | reach_init : reachable ∅
  | reach_step o reg : reachable reg -> reachable (apply_op o reg).

(** The invariant of a stored task: it is stored under its own id, its
    timeline starts with the submit entry stamped at its creation, a
    [COMPLETE] task has a result and a [FAILED] task an error. *)
Definition wf_task (id : string) (t : task) : Prop :=
  t_id t = id /\
  (exists rest, t_timeline t = mk_entry (t_createdAt t) submit_received "收到前端提交" :: rest) /\
  (t_status t = COMPLETE -> is_Some (t_result t)) /\
  (t_status t = FAILED -> is_Some (t_error t)).

Definition wf_registry (reg : registry) : Prop := map_Forall wf_task reg.

(** The id an operation writes. *)
Definition op_target (o : op) : string :=
  match o with
  | OSubmit now _ => job_id now
  | OStart _ id | OEvent _ id _ _ | OComplete _ id _ _ | OFallback _ id _ _
  | OFail _ id _ _ | OReject _ id _ => id
  end.

Definition is_submit (o : op) : bool :=
  match o with OSubmit _ _ => true | _ => false end.

(** The status an operation gives the task it targets. *)
Definition op_status (o : op) : option status :=
  match o with
  | OSubmit _ _ => Some PENDING
  | OStart _ _ => Some PROCESSING
  | OEvent _ _ _ _ => None
  | OComplete _ _ _ _ | OFallback _ _ _ _ => Some COMPLETE
  | OFail _ _ _ _ | OReject _ _ _ => Some FAILED
  end.

(** [t'] is [t] one event later: same id, payload and creation time, and
    the timeline of [t] with one entry appended. *)
Definition extends (t t' : task) : Prop :=
  t_id t' = t_id t /\ t_payload t' = t_payload t /\ t_createdAt t' = t_createdAt t /\
  exists e, t_timeline t' = t_timeline t ++ [e].

(** ** [GET /api/task/:taskId] and [GET /api/health] *)

(** [None] is the 404 reply. *)
Definition get_task (id : string) (reg : registry) : option task := reg !! id.

Record stats := mk_stats {
  st_total : nat; st_complete : nat; st_processing : nat; st_failed : nat
}.

Definition count_status (s : status) (reg : registry) : nat :=
  size (filter (fun kv : string * task => t_status kv.2 = s) reg).

Definition health (reg : registry) : stats :=
  mk_stats (size reg) (count_status COMPLETE reg) (count_status PROCESSING reg)
    (count_status FAILED reg).

(** ** The digits of [\d+] *)

Lemma plus_digit_run (a z : string) :
  a <> "" -> all_digits a = true ->
  (forall c z', z = String c z' -> is_digit c = false) ->
  exists l, plus digit (a +:+ z) = Some (l, z).
Proof.
  intros Ha Hd Hz. destruct a as [|d a]; [done|]. cbn in Hd.
  apply andb_prop in Hd as [Hd Ht].
  destruct (star_byte_run is_digit a z Ht Hz) as [l Hl].
  exists (d :: l). unfold plus, bind, digit. cbn. rewrite Hd. by rewrite Hl.
Qed.

Lemma plus_digit_sound (s r : string) (l : list ascii) :
  plus digit s = Some (l, r) ->
  exists a, s = a +:+ r /\ a <> "" /\ all_digits a = true /\
            (forall c z, r = String c z -> is_digit c = false).
Proof.
  unfold plus, bind, digit. destruct s as [|d s]; [done|]. cbn.
  destruct (is_digit d) eqn:Hd; [|done].
  destruct (star (byte_if is_digit) s) as [[l' r']|] eqn:Hs; [|done]. intros [= _ <-].
  destruct (star_byte_sound _ _ _ _ Hs) as (t & -> & Ht & Hr).
  exists (String d t). cbn. by rewrite Hd, Ht.
Qed.

Lemma valid_resolution_digits (a b : string) :
  a <> "" -> b <> "" -> all_digits a = true -> all_digits b = true ->
  valid_resolution (a +:+ String "x" b) = true.
Proof.
  intros Ha Hb Hda Hdb. unfold valid_resolution, resolutionRe, bind.
  destruct (plus_digit_run a (String "x" b)) as [l Hl]; [done|done| |].
  { by intros ? ? [= <- _]. }
  rewrite Hl. unfold lit; cbn [starts_with].
  destruct (ascii_dec "x" "x") as [_|]; [|done]. cbn [String.length drop_str].
  destruct (plus_digit_run b "") as [l2 Hl2]; [done|done|done|].
  rewrite str_app_nil_r in Hl2. by rewrite Hl2.
Qed.

(** C25: the resolution check [/^\d+x\d+$/] accepts exactly the strings
    [<digits>x<digits>] with both digit runs non-empty. *)
Theorem valid_resolution_iff (s : string) :
  valid_resolution s = true <->
  exists a b, s = a +:+ String "x" b /\ a <> "" /\ b <> "" /\
              all_digits a = true /\ all_digits b = true.
Proof.
  unfold valid_resolution, resolutionRe, bind. split.
  - destruct (plus digit s) as [[l r]|] eqn:H1; [|done].
    destruct (plus_digit_sound _ _ _ H1) as (a & -> & Ha & Hd & _).
    destruct r as [|x r]; [done|]. unfold lit; cbn [starts_with].
    destruct (ascii_dec "x" x) as [<-|]; [|done]. cbn [String.length drop_str].
    destruct (plus digit r) as [[l2 r2]|] eqn:H2; [|done].
    destruct (plus_digit_sound _ _ _ H2) as (b & -> & Hb & Hbd & _).
    destruct r2; [|done]. intros _. exists a, b. by rewrite str_app_nil_r.
  - intros (a & b & -> & Ha & Hb & Hda & Hdb). by apply valid_resolution_digits.
Qed.

(** ** The registry invariant *)

Lemma update_wf (id : string) (f : task -> task) (reg : registry) :
  (forall t, wf_task id t -> wf_task id (f t)) ->
  wf_registry reg -> wf_registry (update id f reg).
Proof.
  intros Hf Hreg. unfold update. destruct (reg !! id) as [t|] eqn:Ht; [|done].
  apply map_Forall_insert_2; [|done]. by apply Hf, (map_Forall_lookup_1 _ _ _ _ Hreg).
Qed.

Lemma pushTimeline_wf (id : string) (now : N) (t : task) (ev : event) (note : string) :
  wf_task id t -> wf_task id (pushTimeline now t ev note).
Proof.
  intros (Hid & [rest Hr] & Hc & Hf). unfold wf_task; cbn. rewrite Hr.
  split_and!; [done| |done|done]. by eexists.
Qed.

Lemma transition_wf (now : N) (id : string) (f : task -> task) (ev : event)
    (note : string) (reg : registry) :
  (forall t, wf_task id t -> wf_task id (f t)) ->
  wf_registry reg -> wf_registry (transition now id f ev note reg).
Proof. intros Hf. apply update_wf. intros t Ht. by apply pushTimeline_wf, Hf. Qed.

Ltac solve_wf_with :=
  intros ? (Hid & Hr & Hc & Hf); unfold wf_task; cbn;
  split_and!; [done|done|..]; intros; (done || by eexists || naive_solver).

Lemma new_task_wf (now : N) (id : string) (p : payload) : wf_task id (new_task now id p).
Proof. split_and!; cbn; [done|by eexists|done|done]. Qed.

Lemma apply_op_wf (o : op) (reg : registry) :
  wf_registry reg -> wf_registry (apply_op o reg).
Proof.
  intros Hreg. destruct o as [now p|now id|now id ev note|now id url note
    |now id url n|now id msg n|now id msg]; cbn.
  - unfold submit. destruct (valid_payload p); [|done]. cbn.
    apply map_Forall_insert_2; [apply new_task_wf|done].
  - apply transition_wf; [|done]. intros t (Hid & Hr & Hc & Hf).
    split_and!; cbn; [done|done|done|done].
  - apply update_wf; [|done]. intros. by apply pushTimeline_wf.
  - apply transition_wf; [|done]. solve_wf_with.
  - apply transition_wf; [|done]. solve_wf_with.
  - apply transition_wf; [|done]. solve_wf_with.
  - apply transition_wf; [|done]. solve_wf_with.
Qed.

(** C4: in every registry a run of the server reaches, each task is
    stored under its own id, its timeline starts with the
    [submit_received] entry stamped at its creation, a [COMPLETE] task has
    a result and a [FAILED] task has an error. *)
Theorem reachable_wf (reg : registry) : reachable reg -> wf_registry reg.
Proof.
  induction 1 as [|o reg _ IH]; [apply map_Forall_empty|by apply apply_op_wf].
Qed.

(** ** Timelines only grow *)

Lemma update_lookup (id j : string) (f : task -> task) (reg : registry) (t : task) :
  reg !! j = Some t ->
  update id f reg !! j = Some (if decide (id = j) then f t else t).
Proof.
  intros Ht. unfold update. destruct (decide (id = j)) as [<-|Hne].
  - by rewrite Ht, lookup_insert_eq.
  - destruct (reg !! id); [|done]. by rewrite lookup_insert_ne.
Qed.

Lemma pushTimeline_extends (now : N) (f : task -> task) (t : task) (ev : event) (note : string) :
  t_id (f t) = t_id t -> t_payload (f t) = t_payload t -> t_createdAt (f t) = t_createdAt t ->
  t_timeline (f t) = t_timeline t -> extends t (pushTimeline now (f t) ev note).
Proof.
  intros Hi Hp Hc Ht. unfold extends; cbn. rewrite Hi, Hp, Hc, Ht. split_and!; by eauto.
Qed.

(** C12: every update other than a submit leaves the tasks it does not
    target unchanged and appends exactly one timeline entry to the task
    it targets, keeping its id, payload and creation time. *)
Theorem apply_op_frame (o : op) (reg : registry) (id : string) (t : task) :
  is_submit o = false -> reg !! id = Some t ->
  exists t', apply_op o reg !! id = Some t' /\
             (op_target o <> id -> t' = t) /\ (op_target o = id -> extends t t').
Proof.
  intros Hs Ht. destruct o; try done; cbn [apply_op op_target];
    unfold transition, push_event; rewrite (update_lookup _ _ _ _ t Ht);
    (eexists; split; [reflexivity|]);
    (split; intros ?; case_decide; try done;
     by apply (pushTimeline_extends _ (fun t => _))).
Qed.

(** C32: two valid submissions in the same millisecond get the same id
    [job_<now>]: both are answered [PENDING] with that id, and the second
    replaces the first, whose task is lost. *)
Theorem submit_same_ms_collides (now : N) (p1 p2 : payload) (reg : registry) :
  valid_payload p1 = true -> valid_payload p2 = true ->
  submit now p1 reg = (Accepted (job_id now), <[job_id now := new_task now (job_id now) p1]> reg) /\
  submit now p2 (<[job_id now := new_task now (job_id now) p1]> reg)
  = (Accepted (job_id now), <[job_id now := new_task now (job_id now) p2]> reg).
Proof. intros H1 H2. unfold submit. rewrite H1, H2. by rewrite insert_insert_eq. Qed.

(** ** Stored tasks under the update operations *)

Lemma update_keeps (id j : string) (f : task -> task) (reg : registry) :
  is_Some (reg !! j) -> is_Some (update id f reg !! j).
Proof. intros [t Ht]. rewrite (update_lookup _ _ _ _ t Ht). by eexists. Qed.

Lemma apply_op_keeps (o : op) (reg : registry) (j : string) :
  is_Some (reg !! j) -> is_Some (apply_op o reg !! j).
Proof.
  intros Hj. destruct o; cbn [apply_op]; unfold transition, push_event;
    try by apply update_keeps.
  unfold submit. case_match; cbn; [|done]. rewrite lookup_insert.
  by case_decide.
Qed.

Lemma apply_op_other (o : op) (reg : registry) (j : string) :
  is_submit o = false -> op_target o <> j -> apply_op o reg !! j = reg !! j.
Proof.
  intros Hs Hj. destruct o; try done; cbn [apply_op op_target] in *;
    unfold transition, push_event, update; case_match; try done;
    by rewrite lookup_insert_ne.
Qed.

Lemma apply_op_status (o : op) (reg : registry) (s : status) :
  is_submit o = false -> op_status o = Some s -> is_Some (reg !! op_target o) ->
  exists t, apply_op o reg !! op_target o = Some t /\ t_status t = s.
Proof.
  intros Hs Hst [t Ht]. destruct o; try done; cbn [apply_op op_target op_status] in *;
    simplify_eq; unfold transition, update; rewrite Ht, lookup_insert_eq;
    by eexists.
Qed.

(** ** The ids of stored tasks *)

Lemma update_is_Some (id k : string) (f : task -> task) (reg : registry) :
  is_Some (update id f reg !! k) -> is_Some (reg !! k).
Proof.
  unfold update. destruct (reg !! id) as [t|] eqn:E; [|done].
  destruct (decide (id = k)) as [<-|Hne]; [by rewrite E|by rewrite lookup_insert_ne].
Qed.

Lemma apply_op_new_key (o : op) (reg : registry) (k : string) :
  is_Some (apply_op o reg !! k) -> is_Some (reg !! k) \/ exists now, k = job_id now.
Proof.
  destruct o as [now p| | | | | |]; cbn [apply_op]; unfold transition, push_event;
    try (intros; left; by eapply update_is_Some).
  unfold submit. case_match; cbn; [|by left].
  destruct (decide (job_id now = k)) as [<-|Hne]; [by eauto|].
  rewrite lookup_insert_ne by done. by left.
Qed.

(** Every task the server stores is stored under an id [job_<digits>]. *)
Lemma reachable_keys (reg : registry) :
  reachable reg -> forall k, is_Some (reg !! k) -> exists now, k = job_id now.
Proof.
  induction 1 as [|o reg _ IH]; intros k Hk; [by rewrite lookup_empty in Hk; destruct Hk|].
  destruct (apply_op_new_key o reg k Hk) as [H|H]; [by apply IH|done].
Qed.

(** ** [GET /api/health] *)

Lemma count_status_insert (s : status) (id : string) (t : task) (reg : registry) :
  reg !! id = None ->
  count_status s (<[id := t]> reg) = (if decide (t_status t = s) then 1 else 0) + count_status s reg.
Proof.
  intros Hn. unfold count_status. case_decide.
  - rewrite map_filter_insert_True by done. rewrite map_size_insert_None; [done|].
    apply map_lookup_filter_None_2. by left.
  - by rewrite map_filter_insert_not' by (done || by rewrite Hn).
Qed.

(** the health counters split the registry: the [COMPLETE],
    [PROCESSING] and [FAILED] counts together with the number of
    [PENDING] tasks add up to [total]. *)
Theorem health_partition (reg : registry) :
  st_complete (health reg) + st_processing (health reg) + st_failed (health reg)
  + count_status PENDING reg = st_total (health reg).
Proof.
  unfold health; cbn. induction reg as [|id t reg Hn IH] using map_ind.
  - unfold count_status. by rewrite !map_filter_empty, map_size_empty.
  - rewrite map_size_insert_None, !count_status_insert by done.
    destruct (t_status t); repeat case_decide; simplify_eq; lia.
Qed.

(** ** Instances *)

Definition example_payload (prompt : string) : payload :=
  mk_payload (Some "/uploads/base.png") (Some prompt) (Some "1920x1080") [] [].

Lemma reachable_wf_witness :
  reachable (apply_op (OStart 7 "job_5") (apply_op (OSubmit 5 (example_payload "sky")) ∅)) /\
  wf_registry (apply_op (OStart 7 "job_5") (apply_op (OSubmit 5 (example_payload "sky")) ∅)).
Proof.
  split; [repeat constructor|].
  apply reachable_wf. repeat constructor.
Defined.

Lemma apply_op_frame_witness :
  exists t', apply_op (OStart 7 "job_5") {[ "job_5" := new_task 5 "job_5" (example_payload "sky") ]}
               !! "job_5" = Some t' /\
             (op_target (OStart 7 "job_5") <> "job_5" -> t' = new_task 5 "job_5" (example_payload "sky")) /\
             (op_target (OStart 7 "job_5") = "job_5" -> extends (new_task 5 "job_5" (example_payload "sky")) t').
Proof. apply apply_op_frame; vm_compute; reflexivity. Defined.

Lemma submit_same_ms_collides_witness :
  valid_payload (example_payload "sky") = true /\
  submit 5 (example_payload "sky") ∅
  = (Accepted (job_id 5), <[job_id 5 := new_task 5 (job_id 5) (example_payload "sky")]> ∅) /\
  submit 5 (example_payload "sea") (<[job_id 5 := new_task 5 (job_id 5) (example_payload "sky")]> ∅)
  = (Accepted (job_id 5), <[job_id 5 := new_task 5 (job_id 5) (example_payload "sea")]> ∅).
Proof.
  split; [vm_compute; reflexivity|].
  apply submit_same_ms_collides; vm_compute; reflexivity.
Defined.

End Tasks.
