(* ===== verification/Json.v ===== *)
(** * JSON values and the JavaScript operations the server applies to them

    The image API's replies are read by [processTask] through optional
    chaining ([result.data?.[0]?.task_id]), truthiness ([||], [if (!x)]),
    [Array.isArray], [String(x)] and [JSON.stringify].  This file gives the
    values [JSON.parse] produces and those operations on them.

    - An object is the list of its members in insertion order, with
      distinct keys, as [JSON.parse] builds it; [member] finds a key.
    - Numbers are integers ([Z]); the fields the server reads (task ids,
      statuses, URLs, error details) are strings or integers.
    - [undefined] is [None]: [member] and [index] take and return
      [option json], so a chain [a?.b?.[0]] is a composition. *)

From S2P Require Import Prelude JsString.
Import Js.

Module Json.

Inductive json :=
  | JNull
  | JBool (b : bool)
  | JNum (n : Z)
  | JStr (s : string)
  | JArr (xs : list json)
  | JObj (fs : list (string * json)).

(** A thrown JavaScript value: an [Error] object's [name] and [message]. *)
Record error := mk_error { err_name : string; err_message : string }.

(** [new Error(msg)]. *)
Definition Error (msg : string) : error := mk_error "Error" msg.

(** The [TypeError] V8 throws for [null.k]. *)
Definition read_null_error (k : string) : error :=
  mk_error "TypeError" ⟪ "Cannot read properties of null (reading '"; k; "')" ⟫.

(** ** Property access *)

Fixpoint assoc_json (k : string) (fs : list (string * json)) : option json :=
  match fs with
  | [] => None
  | (k', v) :: fs' => if String.eqb k k' then Some v else assoc_json k fs'
  end.

(** [v?.k]: [undefined] on [null], [undefined] and values without the
    property (strings and arrays have none of the keys read here). *)
Definition member (k : string) (v : option json) : option json :=
  match v with
  | Some (JObj fs) => assoc_json k fs
  | _ => None
  end.

(** [v?.[i]].  On a string it is the character at [i]; the server only
    reads properties of it afterwards, and a string has none of them. *)
Definition index (i : nat) (v : option json) : option json :=
  match v with
  | Some (JArr xs) => xs !! i
  | Some (JObj fs) => assoc_json (show_N (N.of_nat i)) fs
  | Some (JStr s) => if i <? String.length s then Some (JStr (String.substring i 1 s)) else None
  | _ => None
  end.

(** [v.k] without [?.]: throws on [null] (and on [undefined], which a
    parsed reply never is). *)
Definition member_strict (k : string) (v : json) : option json + error :=
  match v with
  | JNull => inr (read_null_error k)
  | _ => inl (member k (Some v))
  end.

(** ** Truthiness, [||] and [Array.isArray] *)

Definition truthy (v : option json) : bool :=
  match v with
  | None | Some JNull => false
  | Some (JBool b) => b
  | Some (JNum n) => negb (Z.eqb n 0)
  | Some (JStr s) => negb (String.eqb s "")
  | Some (JArr _) | Some (JObj _) => true
  end.

(** [a || b]. *)
Definition or_else (a b : option json) : option json := if truthy a then a else b.

Definition is_array (v : option json) : bool :=
  match v with Some (JArr _) => true | _ => false end.

(** [Array.isArray(v) ? v[0] : v]. *)
Definition first_if_array (v : option json) : option json :=
  if is_array v then index 0 v else v.

(** ** [String(v)] and [JSON.stringify(v)] *)

(** [String(v)]; an array is [join(',')] of its elements, with [null]
    elements printed as the empty string. *)
Fixpoint js_string (v : json) : string :=
  match v with
  | JNull => "null"
  | JBool b => if b then "true" else "false"
  | JNum n => show_Z n
  | JStr s => s
  | JArr xs => join "," (map (fun x => match x with JNull => "" | _ => js_string x end) xs)
  | JObj _ => "[object Object]"
  end.

Abbreviation c_quote := "034"%char.

Definition hex_digit (n : nat) : ascii :=
  if n <? 10 then ascii_of_nat (48 + n) else ascii_of_nat (87 + n).

(** QuoteJSONString on one byte: the two-character escapes, [\u00xx]
    (lower-case hex) for the other control characters, the byte itself
    otherwise (bytes of multi-byte characters included). *)
Definition quote_byte (c : ascii) : string :=
  match nat_of_ascii c with
  | 8 => "\b" | 9 => "\t" | 10 => "\n" | 12 => "\f" | 13 => "\r"
  | 34 => String "\" (String c_quote EmptyString)
  | 92 => "\\"
  | n => if n <? 32 then ⟪ "\u00"; String (hex_digit (n / 16)) EmptyString;
                           String (hex_digit (n mod 16)) EmptyString ⟫
         else String c EmptyString
  end.

Fixpoint quote_bytes (s : string) : string :=
  match s with
  | EmptyString => ""
  | String c s' => quote_byte c +:+ quote_bytes s'
  end.

Definition quote (s : string) : string :=
  String c_quote (quote_bytes s +:+ String c_quote EmptyString).

(** [JSON.stringify(v)] without indentation. *)
Fixpoint stringify (v : json) : string :=
  match v with
  | JNull => "null"
  | JBool b => if b then "true" else "false"
  | JNum n => show_Z n
  | JStr s => quote s
  | JArr xs => ⟪ "["; join "," (map stringify xs); "]" ⟫
  | JObj fs => ⟪ "{"; join "," (map (fun kv => ⟪ quote kv.1; ":"; stringify kv.2 ⟫) fs); "}" ⟫
  end.

End Json.
