(* ===== verification/ApiClient.v ===== *)
(** * External API client: the request [processTask] sends and how it reads the replies

    Models the pure parts of the exchange with the image API in
    [src/server/index.js]:
    - [aspect_size] and [resolution_tier] (lines 515-539): the nearest
      aspect ratio of a table of ten, computed in binary64 exactly as
      JavaScript does (Stdlib's [SpecFloat], with no axiom), and the
      1K/2K/4K tier;
    - [convert_local_url] (lines 454-481) and [build_request] (lines
      715-745): the request body with its [image_urls];
    - the readers of the replies: [api_task_id] (line 847), [poll_task]
      (lines 879-880), [image_url] (lines 900-919), [api_failure_message]
      (lines 925-931) and [api_error] (line 828).
    A reply is a status, its headers, its text and the outcome of
    [response.json()]; [JSON.parse] itself is not modelled. *)

From Stdlib Require Import Floats.SpecFloat.
From S2P Require Import Prelude JsString Json.
Import Js Json.

Module Api.

(** ** Replies *)

Record reply := mk_reply {
  r_status : N;
  r_statusText : string;
  r_headers : list (string * string);
  r_text : string;
  r_json : json + string          (* [response.json()]: its value or the SyntaxError message *)
}.

(** What [await fetch(...)] gives: a reply, or the error it rejects with
    ([AbortError] when the [AbortController] fires, [ECONNRESET], ...). *)
Inductive response :=
  | NetError (e : error)
  | Reply (r : reply).

(** [response.ok]. *)
Definition ok (r : reply) : bool := (200 <=? r_status r)%N && (r_status r <=? 299)%N.

Fixpoint lower (s : string) : string :=
  match s with
  | EmptyString => EmptyString
  | String c s' =>
      let n := nat_of_ascii c in
      String (if (65 <=? n) && (n <=? 90) then ascii_of_nat (n + 32) else c) (lower s')
  end.

(** [res.headers.get(name)]: header names compare case-insensitively. *)
Fixpoint header_in (name : string) (hs : list (string * string)) : option string :=
  match hs with
  | [] => None
  | (k, v) :: hs' => if String.eqb (lower k) (lower name) then Some v else header_in name hs'
  end.

Definition header (name : string) (r : reply) : option string := header_in name (r_headers r).

(** [await response.json()]. *)
Definition reply_json (r : reply) : json + error :=
  match r_json r with
  | inl j => inl j
  | inr msg => inr (mk_error "SyntaxError" msg)
  end.

(** ** Aspect ratio and tier (lines 515-539) *)

Abbreviation f64 := spec_float.

(** [Number(s)] of a string of digits: the nearest double, ties to even. *)
Definition num (n : N) : f64 := binary_normalize 53 1024 (Z.of_N n) 0 false.

Definition fdiv : f64 -> f64 -> f64 := SFdiv 53 1024.
Definition fsub : f64 -> f64 -> f64 := SFsub 53 1024.

(** [ratios], in [Object.entries] order. *)
Definition ratios : list (string * f64) :=
  [("1:1", num 1); ("2:3", fdiv (num 2) (num 3)); ("3:2", fdiv (num 3) (num 2));
   ("3:4", fdiv (num 3) (num 4)); ("4:3", fdiv (num 4) (num 3));
   ("4:5", fdiv (num 4) (num 5)); ("5:4", fdiv (num 5) (num 4));
   ("9:16", fdiv (num 9) (num 16)); ("16:9", fdiv (num 16) (num 9));
   ("21:9", fdiv (num 21) (num 9))].

(** One iteration of the [for ... of] loop: a strictly smaller difference
    wins, so the first of two equal ones is kept. *)
Definition size_step (aspectRatio : f64) (acc : string * f64) (kv : string * f64)
  : string * f64 :=
  let diff := SFabs (fsub kv.2 aspectRatio) in
  if SFltb diff acc.2 then (kv.1, diff) else acc.

(** [size] after the loop, starting from ['16:9'] and [minDiff = Infinity]. *)
Definition choose_size (aspectRatio : f64) : string :=
  fst (fold_left (size_step aspectRatio) ratios ("16:9", S754_infinity false)).

Definition aspect_size (width height : N) : string :=
  choose_size (fdiv (num width) (num height)).

(** [Math.max(width, height)] against 1024 and 2048: rounding to double
    is monotone and both bounds are doubles, so comparing the exact
    integers gives the same answers. *)
Definition resolution_tier (width height : N) : string :=
  let maxDim := N.max width height in
  if (maxDim <=? 1024)%N then "1K" else if (maxDim <=? 2048)%N then "2K" else "4K".

(** ** The request body (lines 454-481, 715-745) *)

(** [path.extname(name)] for a name without [/]. *)
Definition extname (name : string) : string :=
  match last_index_of "."%char name with
  | None | Some 0 => ""
  | Some i => if String.eqb name ".." then "" else String.substring i (String.length name - i) name
  end.

(** [url.split('/').pop()]. *)
Definition last_segment (url : string) : string := List.last (split_on "/"%char url) "".

(** [convertLocalUrlToBase64(url)]; [uploads] gives the base64 text of a
    regular file of the uploads directory, [None] when there is none (a
    directory, which [readFileSync] refuses, included). *)
Definition convert_local_url (uploads : string -> option string) (url : string) : string :=
  if String.eqb url "" then url
  else if includes "localhost" url || includes "127.0.0.1" url || starts_with "/uploads/" url then
    let filename := last_segment url in
    match uploads filename with
    | Some b64 =>
        let ext := lower (extname filename) in
        let mimeType := if String.eqb ext ".png" then "image/png"
                        else if String.eqb ext ".webp" then "image/webp" else "image/jpeg" in
        ⟪ "data:"; mimeType; ";base64,"; b64 ⟫
    | None => url
    end
  else url.

Record request := mk_request {
  rq_model : string;
  rq_prompt : string;
  rq_size : string;
  rq_resolution : string;
  rq_n : N;
  rq_image_urls : option (list string)   (* set only when non-empty *)
}.

(** [requestBody] and its [image_urls]: the base image first, then the
    reference images in order. *)
Definition build_request (uploads : string -> option string) (prompt : string)
    (width height : N) (base_image : option string) (ref_urls : list string) : request :=
  let base := match base_image with
              | Some b => if String.eqb b "" then [] else [convert_local_url uploads b]
              | None => []
              end in
  let imageUrls := base ++ map (convert_local_url uploads) ref_urls in
  mk_request "gemini-3-pro-image-preview" prompt (aspect_size width height)
    (resolution_tier width height) 1
    (if bool_decide (imageUrls = []) then None else Some imageUrls).

(** ** Reading the replies *)

(** [throw new Error(`API error: ${status} ${statusText} - ${errorText}`)]. *)
Definition api_error (r : reply) : error :=
  Error ⟪ "API error: "; show_N (r_status r); " "; r_statusText r; " - "; r_text r ⟫.

(** [result.data?.[0]?.task_id || result.data?.task_id || result.data?.id]. *)
Definition api_task_id (result : json) : option json + error :=
  match member_strict "data" result with
  | inr e => inr e
  | inl data =>
      inl (or_else (member "task_id" (index 0 data))
             (or_else (member "task_id" data) (member "id" data)))
  end.

(** [taskData] of a status reply: [statusResult.data], or its first
    element when it is an array. *)
Definition poll_task (statusResult : json) : option json + error :=
  match member_strict "data" statusResult with
  | inr e => inr e
  | inl data => inl (first_if_array data)
  end.

Definition status_is (s : string) (taskData : option json) : bool :=
  match member "status" taskData with
  | Some (JStr s') => String.eqb s s'
  | _ => false
  end.

(** The three ways of finding the image URL, tried in order; [None] when
    none gives a truthy value ([任务完成但未返回图片 URL]). *)
Definition image_url (taskData : option json) : option json :=
  let urlData := member "url" (index 0 (member "images" (member "result" taskData))) in
  let u1 := if truthy urlData then first_if_array urlData else None in
  let u2 := if negb (truthy u1) && truthy (member "url" taskData)
            then first_if_array (member "url" taskData) else u1 in
  let u3 := if negb (truthy u2) && truthy (member "image_url" taskData)
            then first_if_array (member "image_url" taskData) else u2 in
  if truthy u3 then u3 else None.

(** [errorMsg] of a failed task, lines 925-930. *)
Definition api_failure_message (taskData : option json) : string :=
  let e := member "error" taskData in
  if truthy e then
    match e with
    | Some (JObj _ as v) | Some (JArr _ as v) => stringify v
    | Some v => js_string v
    | None => ""
    end
  else match member "message" taskData with
       | Some v => if truthy (Some v) then js_string v else "Unknown error"
       | None => "Unknown error"
       end.

End Api.
