(* ===== verification/Effects.v ===== *)
(** * The effects of the server's asynchronous code

    [processTask] and the result materializer in [src/server/index.js]
    are [async] functions: they read and write the [tasks] map, sleep
    ([await new Promise(r => setTimeout(r, ms))]), call [fetch] and throw.
    They are written here in a state-and-error monad over a [world]:

    - the registry of [Tasks] and the clock [w_now] (milliseconds), which
      only sleeping advances (the time a [fetch] takes is not modelled;
      the 30 s request timeout appears as the [AbortError] it produces);
    - counters of the requests made, which index the [net] oracle: the
      i-th POST, the i-th status query and the i-th fetch of a result URL
      get the replies [net] gives for them and for their request;
    - the environment variables and the uploads directory ([env]).

    Every write to the registry goes through [set_op] with one of the
    [Tasks.op]s, so a run refines the registry state machine of [Tasks].

    The second half is a small program logic: [Stays R c] (every run of
    [c] relates its initial and final worlds by the preorder [R]),
    [Costs f k c] (a run of [c] increases the measure [f] by at most [k])
    and [Triple P c Q], with their composition lemmas. *)

From S2P Require Import Prelude JsString Matcher RegionParser Tasks Json ApiClient.
Import Js Region Tasks Json Api.

Module Eff.

(** ** The environment and the network *)

Record env := mk_env {
  e_mock : bool;                        (* [process.env.NANO_MOCK === '1'] *)
  e_api_key : option string;            (* [process.env.NANO_API_KEY] *)
  e_failover : bool;                    (* [ALLOW_FAILOVER_TO_MOCK === '1'] *)
  e_port : string;                      (* [process.env.PORT || 3001] *)
  e_uploads : string -> option string   (* the files of [uploads/], in base64 *)
}.

(** The fetches of a result URL. *)
Inductive fetch_kind := HEAD | RANGE | GET.

Record net := mk_net {
  n_post : N -> request -> response;            (* [POST /v1/images/generations] *)
  n_status : N -> string -> response;           (* [GET /v1/tasks/<id>] *)
  n_fetch : N -> fetch_kind -> string -> response
}.

Record world := mk_world {
  w_reg : registry;
  w_now : N;
  w_posts : N;
  w_polls : N;
  w_fetches : N
}.

(** ** The monad *)

Definition M (A : Type) : Type := world -> (A + error) * world.

#[export] Instance M_ret : MRet M := fun A a w => (inl a, w).
#[export] Instance M_bind : MBind M := fun A B f c w =>
  match c w with
  | (inl a, w') => f a w'
  | (inr e, w') => (inr e, w')
  end.

(** [return a]. *)
Definition retM {A} (a : A) : M A := mret a.

Definition throw {A} (e : error) : M A := fun w => (inr e, w).

(** [try { c } catch (e) { h(e) }]. *)
Definition catch {A} (c : M A) (h : error -> M A) : M A := fun w =>
  match c w with
  | (inr e, w') => h e w'
  | r => r
  end.

Definition now : M N := fun w => (inl (w_now w), w).

Definition sleep (ms : N) : M unit := fun w =>
  (inl tt, mk_world (w_reg w) (w_now w + ms) (w_posts w) (w_polls w) (w_fetches w)).

(** [tasks.set(...)]: one write of the registry, stamped [Date.now()]. *)
Definition set_op (o : N -> op) : M unit := fun w =>
  (inl tt, mk_world (apply_op (o (w_now w)) (w_reg w)) (w_now w) (w_posts w)
             (w_polls w) (w_fetches w)).

Section Net.
Context (nt : net).

Definition post (rq : request) : M response := fun w =>
  (inl (n_post nt (w_posts w) rq),
   mk_world (w_reg w) (w_now w) (w_posts w + 1) (w_polls w) (w_fetches w)).

Definition status_query (id : string) : M response := fun w =>
  (inl (n_status nt (w_polls w) id),
   mk_world (w_reg w) (w_now w) (w_posts w) (w_polls w + 1) (w_fetches w)).

Definition fetch_url (k : fetch_kind) (url : string) : M response := fun w =>
  (inl (n_fetch nt (w_fetches w) k url),
   mk_world (w_reg w) (w_now w) (w_posts w) (w_polls w) (w_fetches w + 1)).

End Net.

(** [await fetch(...)] that rejects: the rejection is thrown. *)
Definition reply_of (r : response) : M reply :=
  match r with
  | NetError e => throw e
  | Reply rp => retM rp
  end.

(** A [json + error] result as a computation. *)
Definition lift {A} (r : A + error) : M A :=
  match r with inl a => retM a | inr e => throw e end.

(** ** Program logic *)

Definition Stays (R : relation world) {A} (c : M A) : Prop := forall w, R w (c w).2.

Definition Costs (f : world -> N) (k : N) {A} (c : M A) : Prop :=
  forall w, (f (c w).2 <= f w + k)%N.

Definition Triple {A} (P : world -> Prop) (c : M A) (Q : A + error -> world -> Prop) : Prop :=
  forall w, P w -> Q (c w).1 (c w).2.

Section Logic.
Context {A B : Type}.

Lemma bind_run (c : M A) (f : A -> M B) (w : world) :
  (c ≫= f) w = match c w with
               | (inl a, w') => f a w'
               | (inr e, w') => (inr e, w')
               end.
Proof. done. Qed.

Section Preorder.
Context (R : relation world) `{!PreOrder R}.

Lemma stays_ret (a : A) : Stays R (mret a).
Proof. intros w. cbn. reflexivity. Qed.

Lemma stays_throw (e : error) : Stays R (@throw A e).
Proof. intros w. cbn. reflexivity. Qed.

Lemma stays_bind (c : M A) (f : A -> M B) :
  Stays R c -> (forall a, Stays R (f a)) -> Stays R (c ≫= f).
Proof.
  intros Hc Hf w. rewrite bind_run. specialize (Hc w).
  destruct (c w) as [[a|e] w']; cbn in *; [|done]. etrans; [apply Hc|apply Hf].
Qed.

Lemma stays_catch (c : M A) (h : error -> M A) :
  Stays R c -> (forall e, Stays R (h e)) -> Stays R (catch c h).
Proof.
  intros Hc Hh w. unfold catch. specialize (Hc w).
  destruct (c w) as [[a|e] w']; cbn in *; [done|]. etrans; [apply Hc|apply Hh].
Qed.

Lemma stays_lift (r : A + error) : Stays R (lift r).
Proof. destruct r; [apply stays_ret|apply stays_throw]. Qed.

End Preorder.

Lemma costs_ret (f : world -> N) (a : A) : Costs f 0 (mret a).
Proof. intros w. cbn. lia. Qed.

Lemma costs_throw (f : world -> N) (e : error) : Costs f 0 (@throw A e).
Proof. intros w. cbn. lia. Qed.

Lemma costs_weaken (f : world -> N) (k k' : N) (c : M A) :
  (k <= k')%N -> Costs f k c -> Costs f k' c.
Proof. intros Hk Hc w. specialize (Hc w). lia. Qed.

Lemma costs_bind (f : world -> N) (k1 k2 : N) (c : M A) (g : A -> M B) :
  Costs f k1 c -> (forall a, Costs f k2 (g a)) -> Costs f (k1 + k2) (c ≫= g).
Proof.
  intros Hc Hg w. rewrite bind_run. specialize (Hc w).
  destruct (c w) as [[a|e] w']; cbn in *; [|lia]. specialize (Hg a w'). lia.
Qed.

Lemma costs_catch (f : world -> N) (k1 k2 : N) (c : M A) (h : error -> M A) :
  Costs f k1 c -> (forall e, Costs f k2 (h e)) -> Costs f (k1 + k2) (catch c h).
Proof.
  intros Hc Hh w. unfold catch. specialize (Hc w).
  destruct (c w) as [[a|e] w']; cbn in *; [lia|]. specialize (Hh e w'). lia.
Qed.

Lemma costs_lift (f : world -> N) (r : A + error) : Costs f 0 (lift r).
Proof. destruct r; [apply costs_ret|apply costs_throw]. Qed.

Lemma triple_bind (P : world -> Prop) (R : A -> world -> Prop)
    (Q : B + error -> world -> Prop) (c : M A) (f : A -> M B) :
  Triple P c (fun r w => match r with inl a => R a w | inr e => Q (inr e) w end) ->
  (forall a, Triple (R a) (f a) Q) -> Triple P (c ≫= f) Q.
Proof.
  intros Hc Hf w Hw. rewrite bind_run. specialize (Hc w Hw).
  destruct (c w) as [[a|e] w']; cbn in *; [by apply Hf|done].
Qed.

Lemma triple_catch (P : world -> Prop) (R : error -> world -> Prop)
    (Q : A + error -> world -> Prop) (c : M A) (h : error -> M A) :
  Triple P c (fun r w => match r with inl a => Q (inl a) w | inr e => R e w end) ->
  (forall e, Triple (R e) (h e) Q) -> Triple P (catch c h) Q.
Proof.
  intros Hc Hh w Hw. unfold catch. specialize (Hc w Hw).
  destruct (c w) as [[a|e] w']; cbn in *; [done|by apply Hh].
Qed.

Lemma triple_stays (P : world -> Prop) (R : relation world) (c : M A)
    (Q : A + error -> world -> Prop) :
  Stays R c -> (forall w r w', P w -> R w w' -> Q r w') -> Triple P c Q.
Proof. intros Hc HQ w Hw. by apply (HQ w), Hc. Qed.

End Logic.

(** ** Equivalence of computations

    Two computations are equivalent when they agree on every world;
    [mbind] and [catch] respect it. *)

Definition M_equiv {A} (c1 c2 : M A) : Prop := forall w, c1 w = c2 w.

#[export] Instance M_equiv_equivalence {A} : Equivalence (@M_equiv A).
Proof. split; [by intros c w|by intros c1 c2 H w|intros c1 c2 c3 H1 H2 w; by rewrite H1]. Qed.

#[export] Instance bind_proper {A B} :
  Proper (pointwise_relation A M_equiv ==> M_equiv ==> M_equiv) (@mbind M _ A B).
Proof.
  intros f1 f2 Hf c1 c2 Hc w. rewrite !bind_run, Hc.
  destruct (c2 w) as [[a|e] w']; [apply Hf|done].
Qed.

#[export] Instance catch_proper {A} :
  Proper (M_equiv ==> pointwise_relation error M_equiv ==> M_equiv) (@catch A).
Proof.
  intros c1 c2 Hc h1 h2 Hh w. unfold catch. rewrite Hc.
  destruct (c2 w) as [[a|e] w']; [done|apply Hh].
Qed.

(** The measures of a run. *)
Definition clock (w : world) : N := w_now w.
Definition posts (w : world) : N := w_posts w.
Definition polls (w : world) : N := w_polls w.

Section CostRules.
Context {A B : Type}.

Lemma costs_if (f : world -> N) (k1 k2 : N) (b : bool) (c1 c2 : M A) :
  Costs f k1 c1 -> Costs f k2 c2 -> Costs f (N.max k1 k2) (if b then c1 else c2).
Proof. intros H1 H2 w. destruct b; cbv iota; [specialize (H1 w)|specialize (H2 w)]; lia. Qed.

Lemma costs_option {X} (f : world -> N) (k1 k2 : N) (x : option X) (c1 : X -> M A) (c2 : M A) :
  (forall a, Costs f k1 (c1 a)) -> Costs f k2 c2 ->
  Costs f (N.max k1 k2) (match x with Some a => c1 a | None => c2 end).
Proof. intros H1 H2 w. destruct x; cbv iota; [specialize (H1 x w)|specialize (H2 w)]; lia. Qed.

Lemma costs_unchanged (f : world -> N) (c : M A) :
  (forall w, f (c w).2 = f w) -> Costs f 0 c.
Proof. intros H w. rewrite H. lia. Qed.

Lemma costs_reply_of (f : world -> N) (r : response) : Costs f 0 (reply_of r).
Proof. destruct r; [apply costs_throw|apply costs_ret]. Qed.

End CostRules.

Lemma costs_sleep (ms : N) : Costs clock ms (sleep ms).
Proof. intros w. unfold clock. cbn [sleep snd w_now]. lia. Qed.

Lemma costs_post (nt : net) (rq : request) : Costs posts 1 (post nt rq).
Proof. intros w. unfold posts. cbn [post snd w_posts]. lia. Qed.

Lemma costs_status (nt : net) (id : string) : Costs polls 1 (status_query nt id).
Proof. intros w. unfold polls. cbn [status_query snd w_polls]. lia. Qed.

(** One step of a [Costs] proof whose bound is left to be computed. *)
Ltac costs_step :=
  lazymatch goal with
  | |- Costs _ _ (_ ≫= _) => eapply costs_bind; [|intros ?]
  | |- Costs _ _ (catch _ _) => eapply costs_catch; [|intros ?]
  | |- Costs _ _ (if _ then _ else _) => eapply costs_if
  | |- Costs _ _ (match _ with Some _ => _ | None => _ end) => eapply costs_option; [intros ?|]
  | |- Costs _ _ (let _ := _ in _) => cbv zeta
  | |- Costs _ _ (mret _) => apply costs_ret
  | |- Costs _ _ (retM _) => apply costs_ret
  | |- Costs _ _ (throw _) => apply costs_throw
  | |- Costs _ _ (lift _) => apply costs_lift
  | |- Costs _ _ (reply_of _) => apply costs_reply_of
  | |- Costs clock _ (sleep _) => apply costs_sleep
  | |- Costs posts _ (post _ _) => apply costs_post
  | |- Costs polls _ (status_query _ _) => apply costs_status
  | |- Costs _ _ (sleep _) => apply costs_unchanged; intros ?; reflexivity
  | |- Costs _ _ (post _ _) => apply costs_unchanged; intros ?; reflexivity
  | |- Costs _ _ (status_query _ _) => apply costs_unchanged; intros ?; reflexivity
  | |- Costs _ _ (fetch_url _ _ _) => apply costs_unchanged; intros ?; reflexivity
  | |- Costs _ _ (set_op _) => apply costs_unchanged; intros ?; reflexivity
  | |- Costs _ _ now => apply costs_unchanged; intros ?; reflexivity
  end.

(** A [Costs] goal: compute the bound with [costs_step] and the lemmas
    [known], then compare it with the one stated. *)
Ltac solve_costs known :=
  eapply costs_weaken; [|solve [repeat (first [costs_step | known])]]; lia.

End Eff.
