(* ===== verification/Materializer.v ===== *)
(** * Result materializer: checking and storing a generated image

    Models [waitForImageAccessible], [extFromContentType], [downloadImage]
    and [ensureStoredResult] of [src/server/index.js] (lines 220-306) and
    the mock result URL of [processTask] (lines 502-503, 968-969).

    [ensureStoredResult] probes the URL up to ten times, 1.5 s apart; when
    it answers as an image the file is downloaded and its local URL
    [http://localhost:<port>/uploads/results/result_<taskId>.<ext>] is
    returned, and on every other path the original URL.  Writing the file
    ([fs.writeFileSync]) is not modelled: it is assumed to succeed.

    [toLowerCase] is ASCII lower-casing: the only non-ASCII characters
    JavaScript lower-cases to ASCII letters are U+0130 (to [i] followed by
    U+0307) and U+212A (to [k]), and neither can complete one of the
    needles [image], [jpeg], [jpg], [png], [webp]. *)

From S2P Require Import Prelude JsString Matcher RegionParser Tasks Json ApiClient Effects.
Import Js Rx Tasks Json Api Eff.

Module Materializer.

(** ** [Number(s) > 0] for a header value *)

Definition sign : pat ascii := byte_if (fun c => Ascii.eqb c "+" || Ascii.eqb c "-").

Definition exponent : pat unit :=
  byte_if (fun c => Ascii.eqb c "e" || Ascii.eqb c "E") ;;; opt sign ;;; plus digit ;;; ret tt.

(** StrUnsignedDecimalLiteral followed by the end of the string: the
    integer and fraction digits. *)
Definition decimal_literal : pat (string * string) :=
  d1 <-- capture (star digit) ;;
  d2 <-- opt (lit "." ;;; capture (star digit)) ;;
  opt exponent ;;; end_anchor ;;; ret (d1, default "" d2).

Definition nonzero_digit (s : string) : bool := negb (str_forall (fun c => Ascii.eqb c "0") s).

Definition is_hex (c : ascii) : bool :=
  is_digit c || str_has c "abcdefABCDEF".

(** [Number(s) > 0]: [s] trimmed is [Infinity], a non-zero [0x]/[0o]/[0b]
    literal, or an unsigned (or [+]) decimal literal with a non-zero digit.
    A decimal so small that it rounds to 0 ([1e-400]) is not covered. *)
Definition number_positive (s : string) : bool :=
  let t := trim s in
  if String.eqb t "Infinity" || String.eqb t "+Infinity" then true else
  match t with
  | String "0" (String x r) =>
      let ok := if str_has x "xX" then str_forall is_hex r
                else if str_has x "oO" then str_forall (fun c => str_has c "01234567") r
                else if str_has x "bB" then str_forall (fun c => str_has c "01") r
                else false in
      if ok then negb (String.eqb r "") && nonzero_digit r
      else match decimal_literal t with
           | Some ((d1, d2), _) => nonzero_digit (d1 +:+ d2)
           | None => false
           end
  | String "-" _ => false
  | _ =>
      let u := match t with String "+" u => u | _ => t end in
      match decimal_literal u with
      | Some ((d1, d2), _) =>
          negb (String.eqb (d1 +:+ d2) "") && nonzero_digit (d1 +:+ d2)
      | None => false
      end
  end.

(** ** [waitForImageAccessible(url, 10, 1500)] *)

Definition header_or (name dflt : string) (r : reply) : string :=
  match header name r with
  | Some v => if String.eqb v "" then dflt else v
  | None => dflt
  end.

(** One try of the loop body: [HEAD], then the one-byte range [GET] when
    the [HEAD] reply is not an image of positive length; a rejected fetch
    throws. *)
Definition probe (nt : net) (url : string) : M bool :=
  r ← fetch_url nt HEAD url ≫= reply_of;
  let type := header_or "content-type" "" r in
  let len_pos := match header "content-length" r with
                 | Some v => if String.eqb v "" then false else number_positive v
                 | None => false
                 end in
  if ok r && starts_with "image" type && len_pos then retM (ok r && includes "image" (lower type))
  else
    r2 ← fetch_url nt RANGE url ≫= reply_of;
    let type2 := header_or "content-type" type r2 in
    retM (ok r2 && includes "image" (lower type2)).

Fixpoint wait_loop (nt : net) (retries : nat) (delayMs : N) (url : string) : M bool :=
  match retries with
  | 0 => retM false
  | S k =>
      catch (probe nt url) (fun _ => retM false) ≫= fun accessible : bool =>
      if accessible then retM true
      else (sleep delayMs ;; wait_loop nt k delayMs url)
  end.

Definition waitForImageAccessible (nt : net) (url : string) : M bool :=
  wait_loop nt 10 1500 url.

(** ** [extFromContentType], [downloadImage], [ensureStoredResult] *)

Definition extFromContentType (ct : string) : string :=
  let type := lower ct in
  if includes "jpeg" type then "jpg"
  else if includes "jpg" type then "jpg"
  else if includes "png" type then "png"
  else if includes "webp" type then "webp"
  else "jpg".

(** The content type of the downloaded image. *)
Definition downloadImage (nt : net) (url : string) : M string :=
  r ← fetch_url nt GET url ≫= reply_of;
  if ok r then retM (header_or "content-type" "image/jpeg" r)
  else throw (Error ⟪ "下载生成图片失败: "; show_N (r_status r); " "; r_statusText r ⟫).

Definition result_url (port taskId ext : string) : string :=
  ⟪ "http://localhost:"; port; "/uploads/results/result_"; taskId; "."; ext ⟫.

Definition ensureStoredResult (E : env) (nt : net) (taskId imageUrl : string) : M string :=
  waitForImageAccessible nt imageUrl ≫= fun accessible : bool =>
  if accessible then
    catch (ct ← downloadImage nt imageUrl;
           retM (result_url (e_port E) taskId (extFromContentType ct)))
          (fun _ => retM imageUrl)
  else retM imageUrl.

(** ** The mock result *)

(** [taskId.replace(/[^0-9]/g, '')]. *)
Fixpoint keep_digits (s : string) : string :=
  match s with
  | EmptyString => EmptyString
  | String c s' => if is_digit c then String c (keep_digits s') else keep_digits s'
  end.

(** [`https://picsum.photos/seed/${seed}/1024/576`] with
    [seed = taskId.replace(/[^0-9]/g, '') || String(Date.now())]. *)
Definition mock_url (taskId : string) (now : N) : string :=
  let seed := match keep_digits taskId with "" => show_N now | d => d end in
  ⟪ "https://picsum.photos/seed/"; seed; "/1024/576" ⟫.

(** ** Costs: sleeping and requests *)

Section Costs.
Context (E : env) (nt : net).

Lemma probe_clock (url : string) : Costs clock 0 (probe nt url).
Proof. unfold probe. solve_costs ltac:(fail). Qed.

Lemma wait_loop_clock (n : nat) (d : N) (url : string) :
  Costs clock (N.of_nat n * d) (wait_loop nt n d url).
Proof.
  induction n as [|n IH]; cbn [wait_loop]; [solve_costs ltac:(fail)|].
  solve_costs ltac:(first [apply IH | apply probe_clock]).
Qed.

(** [ensureStoredResult] sleeps at most 10 x 1.5 s. *)
Lemma ensure_clock (taskId url : string) :
  Costs clock 15000 (ensureStoredResult E nt taskId url).
Proof.
  unfold ensureStoredResult, waitForImageAccessible, downloadImage.
  solve_costs ltac:(apply wait_loop_clock).
Qed.

Lemma wait_loop_quiet (f : world -> N) (n : nat) (d : N) (url : string) :
  f = posts \/ f = polls -> Costs f 0 (wait_loop nt n d url).
Proof.
  intros Hf. destruct Hf as [->| ->];
  (induction n as [|n IH]; cbn [wait_loop]; [solve_costs ltac:(fail)|];
   unfold probe; solve_costs ltac:(apply IH)).
Qed.

Lemma ensure_quiet (f : world -> N) (taskId url : string) :
  f = posts \/ f = polls -> Costs f 0 (ensureStoredResult E nt taskId url).
Proof.
  intros Hf. unfold ensureStoredResult, waitForImageAccessible, downloadImage.
  destruct Hf as [->| ->]; solve_costs ltac:(apply wait_loop_quiet; auto).
Qed.

End Costs.

End Materializer.
