(* ===== verification/Orchestrator.v ===== *)
(** * Orchestration: [processTask] and its retries

    Models [processTask] of [src/server/index.js] (lines 484-980) and the
    [.catch] the submit handler attaches to it (lines 408-412), in the
    monad of [Effects], for a fixed environment [E] and network [nt]:

    - [processing_start] and the mock mode (lines 491-509); a missing API
      key throws (line 510), before the [try];
    - the prompt pipeline of [PromptCompiler] and the request of
      [ApiClient] (lines 514-745), then [api_request_sent] (line 801);
    - inside the [try] (lines 806-945): the POST, the reading of the API
      task id, the polling loop [poll_loop] (60 queries, 2 s apart), the
      result materializer and [complete];
    - the [catch] (lines 946-978): [should_retry], the recursive retry
      after [2000 * (retryCount + 1)] ms, the mock fallback or [failed].

    The retry recursion is a [Fixpoint] on a fuel argument; [processTask]
    gives it 4, one per attempt, and [process_task_fuel] shows that more
    fuel changes nothing: the guard [retryCount < MAX_RETRIES] stops the
    recursion first.

    An asset id that is not a literal pattern stops the prompt pipeline
    of the model (see [RegionParser.replace_refs]); the run then throws,
    as the code does for an id that is not a valid regular expression. *)

From S2P Require Import Prelude JsString Matcher RegionParser PromptCompiler Tasks Json.
From S2P Require Import ApiClient Effects Materializer.
Import Js Region Prompt Tasks Json Api Eff Materializer.

Module Orchestrator.

Definition MAX_RETRIES : nat := 3.
Definition RETRY_DELAY : N := 2000.

(** [shouldRetry]: the message names a 503, a timeout or a reset
    connection, or the request was aborted, and fewer than three retries
    were made. *)
Definition should_retry (e : error) (retryCount : nat) : bool :=
  let msg := err_message e in
  (includes "503" msg || includes "timeout" msg || includes "ECONNRESET" msg
   || includes "ETIMEDOUT" msg || String.eqb (err_name e) "AbortError")
  && (retryCount <? MAX_RETRIES).

(** [!apiKey]. *)
Definition key_missing (k : option string) : bool :=
  match k with Some s => String.eqb s "" | None => true end.

Definition payload_dims (p : payload) : N * N :=
  default (3840, 2160)%N
    (resolution_dims (match p_output_resolution p with
                      | Some r => if String.eqb r "" then "3840x2160" else r
                      | None => "3840x2160"
                      end)).

Definition payload_prompt_input (p : payload) : prompt_input :=
  let '(w, h) := payload_dims p in
  mk_prompt_input (default "" (p_prompt p)) (p_reference_assets p) (p_mask_elements p) w h.

Section Run.
Context (E : env) (nt : net).

(** [pollResult]: [n] more queries. *)
Fixpoint poll_loop (taskId apiTaskId : string) (n : nat) : M string :=
  match n with
  | 0 => throw (Error "轮询超时，任务未完成")
  | S n' =>
      sleep 2000 ;;
      r ← status_query nt apiTaskId ≫= reply_of;
      if negb (ok r) then poll_loop taskId apiTaskId n' else
      statusResult ← lift (reply_json r);
      taskData ← lift (poll_task statusResult);
      if status_is "completed" taskData || status_is "success" taskData then
        match image_url taskData with
        | None => throw (Error "任务完成但未返回图片 URL")
        | Some u =>
            set_op (fun t => OEvent t taskId polling_complete (js_string u)) ;;
            retM (js_string u)
        end
      else if status_is "failed" taskData || status_is "error" taskData then
        throw (Error ("API 任务失败: " +:+ api_failure_message taskData))
      else poll_loop taskId apiTaskId n'
  end.

(** The [try] block of lines 806-945. *)
Definition attempt (taskId : string) (rq : request) : M unit :=
  r ← post nt rq ≫= reply_of;
  if negb (ok r) then throw (api_error r) else
  result ← lift (reply_json r);
  tid ← lift (api_task_id result);
  match tid with
  | Some j =>
      if truthy (Some j) then
        set_op (fun t => OEvent t taskId api_task_id_received (js_string j)) ;;
        resultUrl ← poll_loop taskId (js_string j) 60;
        storedUrl ← ensureStoredResult E nt taskId resultUrl;
        set_op (fun t => OComplete t taskId storedUrl "结果已校验并存储")
      else throw (Error "未能获取 API task_id")
  | None => throw (Error "未能获取 API task_id")
  end.

(** The mock result (lines 502-506 and 968-972). *)
Definition mock_result (taskId : string) : M string :=
  t ← now; ensureStoredResult E nt taskId (mock_url taskId t).

(** The [catch] block of lines 946-978; [retry] is the recursive call. *)
Definition on_error (taskId : string) (retryCount : nat) (retry : M unit) (err : error)
  : M unit :=
  if should_retry err retryCount then
    sleep (RETRY_DELAY * N.of_nat (S retryCount)) ;; retry
  else if e_failover E || e_mock E then
    storedUrl ← mock_result taskId;
    set_op (fun t => OFallback t taskId storedUrl retryCount)
  else set_op (fun t => OFail t taskId (err_message err) retryCount).

Fixpoint process_task (fuel : nat) (taskId : string) (p : payload) (retryCount : nat)
  : M unit :=
  match fuel with
  | 0 => throw (Error "processTask: no attempt left")
  | S fuel' =>
      set_op (fun t => OStart t taskId) ;;
      if e_mock E then
        storedUrl ← mock_result taskId;
        set_op (fun t => OComplete t taskId storedUrl "Mock结果")
      else if key_missing (e_api_key E) then
        throw (Error "NANO_API_KEY not set")
      else
        let pi := payload_prompt_input p in
        match compile_prompt pi with
        | None => throw (mk_error "SyntaxError" "Invalid regular expression")
        | Some structuredPrompt =>
            let rq := build_request (e_uploads E) structuredPrompt (pi_width pi)
                        (pi_height pi) (p_base_image p) (map a_url (p_reference_assets p)) in
            set_op (fun t => OEvent t taskId api_request_sent "已发送到AI接口") ;;
            catch (attempt taskId rq)
              (on_error taskId retryCount (process_task fuel' taskId p (S retryCount)))
        end
  end.

Definition processTask (taskId : string) (p : payload) : M unit :=
  process_task (S MAX_RETRIES) taskId p 0.

(** [processTask(taskId, payload).catch(err => ...)]. *)
Definition run_task (taskId : string) (p : payload) : M unit :=
  catch (processTask taskId p)
    (fun err => set_op (fun t => OReject t taskId (err_message err))).

End Run.

(** ** Every run writes only its own task

    The lemmas of this section hold for every preorder [R] on worlds that
    relates a world to any world with the same registry, and a world to
    the world after any non-submit write to [taskId]: a run of [taskId]
    consists of such steps. *)

Section Stays.
Context (E : env) (nt : net) (taskId : string).
Context (R : relation world) `{!PreOrder R}.
Hypothesis R_quiet : forall w w', w_reg w' = w_reg w -> R w w'.
Hypothesis R_op : forall o w, is_submit o = false -> op_target o = taskId ->
  R w (mk_world (apply_op o (w_reg w)) (w_now w) (w_posts w) (w_polls w) (w_fetches w)).

Lemma stays_sleep (ms : N) : Stays R (sleep ms).
Proof. intros w. by apply R_quiet. Qed.

Lemma stays_now : Stays R now.
Proof. intros w. by apply R_quiet. Qed.

Lemma stays_post (rq : request) : Stays R (post nt rq).
Proof. intros w. by apply R_quiet. Qed.

Lemma stays_status (id : string) : Stays R (status_query nt id).
Proof. intros w. by apply R_quiet. Qed.

Lemma stays_fetch (k : fetch_kind) (url : string) : Stays R (fetch_url nt k url).
Proof. intros w. by apply R_quiet. Qed.

Lemma stays_reply_of (r : response) : Stays R (reply_of r).
Proof. destruct r; [apply stays_throw|apply stays_ret]; apply _. Qed.

Lemma stays_set_op (o : N -> op) :
  (forall t, is_submit (o t) = false /\ op_target (o t) = taskId) -> Stays R (set_op o).
Proof. intros Ho w. destruct (Ho (w_now w)). by apply R_op. Qed.

(** The structural steps: binds, catches, branches and the leaves. *)
Ltac stays_step :=
  match goal with
  | |- Stays _ (_ ≫= _) => apply stays_bind; [apply _| |intros ?]
  | |- Stays _ (catch _ _) => apply stays_catch; [apply _| |intros ?]
  | |- Stays _ (if _ then _ else _) => case_match
  | |- Stays _ (match _ with _ => _ end) => case_match
  | |- Stays _ (mret _) => apply stays_ret; apply _
  | |- Stays _ (retM _) => apply stays_ret; apply _
  | |- Stays _ (throw _) => apply stays_throw; apply _
  | |- Stays _ (lift _) => apply stays_lift; apply _
  | |- Stays _ (set_op _) => apply stays_set_op; by intros
  | |- Stays _ (let _ := _ in _) => cbv zeta
  | _ => first [apply stays_sleep | apply stays_now | apply stays_post | apply stays_status
               | apply stays_fetch | apply stays_reply_of]
  end.

Lemma stays_probe (url : string) : Stays R (probe nt url).
Proof. unfold probe. repeat stays_step. Qed.

Lemma stays_wait_loop (n : nat) (d : N) (url : string) : Stays R (wait_loop nt n d url).
Proof.
  induction n as [|n IH]; cbn [wait_loop]; repeat stays_step; [apply stays_probe|done].
Qed.

Lemma stays_ensure (url : string) : Stays R (ensureStoredResult E nt taskId url).
Proof.
  unfold ensureStoredResult, downloadImage, waitForImageAccessible.
  repeat stays_step. apply stays_wait_loop.
Qed.

Lemma stays_mock_result : Stays R (mock_result E nt taskId).
Proof. unfold mock_result. repeat stays_step. apply stays_ensure. Qed.

Lemma stays_poll_loop (apiTaskId : string) (n : nat) : Stays R (poll_loop nt taskId apiTaskId n).
Proof. induction n as [|n IH]; cbn [poll_loop]; by repeat stays_step. Qed.

Lemma stays_attempt (rq : request) : Stays R (attempt E nt taskId rq).
Proof.
  unfold attempt. repeat stays_step; [apply stays_poll_loop|apply stays_ensure].
Qed.

Lemma stays_process_task (fuel : nat) (p : payload) (r : nat) :
  Stays R (process_task E nt fuel taskId p r).
Proof.
  revert r. induction fuel as [|fuel IH]; intros r; cbn [process_task]; repeat stays_step;
    try apply stays_mock_result; try apply stays_attempt.
  unfold on_error. by repeat stays_step; try apply stays_mock_result.
Qed.

Lemma stays_run_task (p : payload) : Stays R (run_task E nt taskId p).
Proof. unfold run_task, processTask. repeat stays_step. apply stays_process_task. Qed.

End Stays.

(** ** Runs as sequences of registry operations *)

(** [w'] is [w] after the writes [ops], each a non-submit write to [id]. *)
Definition ops_of (id : string) (w w' : world) : Prop :=
  exists ops, Forall (fun o => is_submit o = false /\ op_target o = id) ops /\
              w_reg w' = fold_left (fun reg o => apply_op o reg) ops (w_reg w).

#[export] Instance ops_of_preorder (id : string) : PreOrder (ops_of id).
Proof.
  split.
  - intros w. by exists [].
  - intros w1 w2 w3 (ops1 & H1 & E1) (ops2 & H2 & E2). exists (ops1 ++ ops2).
    rewrite Forall_app, fold_left_app, <- E1. by split.
Qed.

Lemma ops_of_quiet (id : string) (w w' : world) : w_reg w' = w_reg w -> ops_of id w w'.
Proof. intros Hr. exists []. by rewrite Hr. Qed.

Lemma ops_of_op (id : string) (o : op) (w : world) :
  is_submit o = false -> op_target o = id ->
  ops_of id w (mk_world (apply_op o (w_reg w)) (w_now w) (w_posts w) (w_polls w) (w_fetches w)).
Proof. intros Hs Ht. exists [o]. split; [by constructor|done]. Qed.

(** ** Every run ends with its task terminal *)

Definition exists_task (id : string) (w : world) : Prop := is_Some (w_reg w !! id).

Definition terminal (id : string) (w : world) : Prop :=
  exists t, w_reg w !! id = Some t /\ (t_status t = COMPLETE \/ t_status t = FAILED).

(** A run from a world where [id] is stored either returns with [id]
    terminal or throws with [id] still stored. *)
Definition Ends (id : string) {A} (c : M A) : Prop :=
  Triple (exists_task id) c
    (fun r w => match r with inl _ => terminal id w | inr _ => exists_task id w end).

Definition keeps (id : string) (w w' : world) : Prop := exists_task id w -> exists_task id w'.

#[export] Instance keeps_preorder (id : string) : PreOrder (keeps id).
Proof. split; [intros w H; exact H|intros w1 w2 w3 H1 H2 H; exact (H2 (H1 H))]. Qed.

Lemma keeps_quiet (id : string) (w w' : world) : w_reg w' = w_reg w -> keeps id w w'.
Proof. unfold keeps, exists_task. by intros ->. Qed.

Lemma keeps_op (id : string) (o : op) (w : world) :
  keeps id w (mk_world (apply_op o (w_reg w)) (w_now w) (w_posts w) (w_polls w) (w_fetches w)).
Proof. unfold keeps, exists_task. cbn. apply apply_op_keeps. Qed.

Section Ends.
Context (id : string).

Lemma ends_bind {A B} (c : M A) (f : A -> M B) :
  Stays (keeps id) c -> (forall a, Ends id (f a)) -> Ends id (c ≫= f).
Proof.
  intros Hc Hf. apply (triple_bind _ (fun _ => exists_task id)); [|done].
  apply (triple_stays _ (keeps id)); [done|]. intros w [a|e] w' Hw Hk; by apply Hk.
Qed.

Lemma ends_catch {A} (c : M A) (h : error -> M A) :
  Ends id c -> (forall e, Ends id (h e)) -> Ends id (catch c h).
Proof.
  intros Hc Hh. apply (triple_catch _ (fun _ => exists_task id)); [|done].
  intros w Hw. specialize (Hc w Hw). by destruct (c w) as [[]].
Qed.

Lemma ends_throw {A} (e : error) : Ends id (@throw A e).
Proof. by intros w Hw. Qed.

Lemma ends_set_op (o : N -> op) :
  (forall t, is_submit (o t) = false /\ op_target (o t) = id /\
             (op_status (o t) = Some COMPLETE \/ op_status (o t) = Some FAILED)) ->
  Ends id (set_op o).
Proof.
  intros Ho w Hw. destruct (Ho (w_now w)) as (Hs & Ht & Hst). unfold terminal, exists_task in *. cbn.
  rewrite <- Ht in Hw |- *.
  destruct Hst as [Hst|Hst]; destruct (apply_op_status _ _ _ Hs Hst Hw) as (t & -> & Hts);
    eexists; eauto.
Qed.

End Ends.

Ltac ends_step :=
  match goal with
  | |- Ends _ (_ ≫= _) => apply ends_bind; [|intros ?]
  | |- Ends _ (catch _ _) => apply ends_catch; [|intros ?]
  | |- Ends _ (if _ then _ else _) => case_match
  | |- Ends _ (match _ with _ => _ end) => case_match
  | |- Ends _ (throw _) => apply ends_throw
  | |- Ends _ (set_op _) => apply ends_set_op; intros; split_and!; by auto
  | |- Ends _ (let _ := _ in _) => cbv zeta
  end.

(** The [Stays] side conditions of [ends_bind]: the lemmas of section
    [Stays] at the preorder [keeps]. *)
Ltac keeps_side := first [apply _ | apply keeps_quiet | (intros; apply keeps_op)].

Ltac keeps_step :=
  lazymatch goal with
  | |- Stays _ (_ ≫= _) => apply stays_bind; [apply _| |intros ?]
  | |- Stays _ (catch _ _) => apply stays_catch; [apply _| |intros ?]
  | |- Stays _ (post _ _) => apply stays_post; keeps_side
  | |- Stays _ (reply_of _) => apply stays_reply_of; apply _
  | |- Stays _ (lift _) => apply stays_lift; apply _
  | |- Stays (keeps ?id) (set_op _) => apply (stays_set_op id); [keeps_side..|intros; split; reflexivity]
  | |- Stays _ (poll_loop _ _ _ _) => apply stays_poll_loop; keeps_side
  | |- Stays _ (ensureStoredResult _ _ _ _) => apply stays_ensure; keeps_side
  | |- Stays _ (mock_result _ _ _) => apply stays_mock_result; keeps_side
  | |- Stays _ (sleep _) => apply stays_sleep; keeps_side
  end.

Ltac keeps_tac := repeat keeps_step.

Section Terminal.
Context (E : env) (nt : net) (taskId : string).

Lemma ends_attempt (rq : request) : Ends taskId (attempt E nt taskId rq).
Proof. unfold attempt. repeat ends_step; keeps_tac. Qed.

Lemma ends_on_error (r : nat) (retry : M unit) (e : error) :
  Ends taskId retry -> Ends taskId (on_error E nt taskId r retry e).
Proof. intros Hr. unfold on_error. repeat ends_step; keeps_tac; done. Qed.

Lemma ends_process_task (fuel : nat) (p : payload) (r : nat) :
  Ends taskId (process_task E nt fuel taskId p r).
Proof.
  revert r. induction fuel as [|fuel IH]; intros r; cbn [process_task]; [apply ends_throw|].
  repeat ends_step; keeps_tac; [apply ends_attempt|by apply ends_on_error].
Qed.

End Terminal.
(** ** Costs of a run *)

(** The sleeping of [process_task fuel] from retry [r]: each attempt
    polls for at most 120 s and then materializes (15 s), and is followed
    either by the retry delay and the next attempt or by the fallback. *)
Fixpoint clock_bound (fuel r : nat) : N :=
  match fuel with
  | 0 => 0
  | S f => 135000 + N.max (RETRY_DELAY * N.of_nat (S r) + clock_bound f (S r)) 15000
  end.

Section Costs.
Context (E : env) (nt : net) (taskId : string).

Lemma poll_loop_costs (apiTaskId : string) (n : nat) :
  Costs clock (2000 * N.of_nat n) (poll_loop nt taskId apiTaskId n) /\
  Costs polls (N.of_nat n) (poll_loop nt taskId apiTaskId n) /\
  Costs posts 0 (poll_loop nt taskId apiTaskId n).
Proof.
  induction n as [|n (IHc & IHq & IHp)]; cbn [poll_loop];
    [split_and!; solve_costs ltac:(fail)|];
    split_and!; solve_costs ltac:(idtac; lazymatch goal with
                                  | |- Costs clock _ _ => apply IHc
                                  | |- Costs polls _ _ => apply IHq
                                  | |- Costs posts _ _ => apply IHp
                                  end).
Qed.

Lemma attempt_costs (rq : request) :
  Costs clock 135000 (attempt E nt taskId rq) /\ Costs polls 60 (attempt E nt taskId rq) /\
  Costs posts 1 (attempt E nt taskId rq).
Proof.
  pose proof poll_loop_costs as Hp.
  unfold attempt; split_and!;
    solve_costs ltac:(idtac; lazymatch goal with
                      | |- Costs clock _ (poll_loop _ _ _ _) => apply (proj1 (Hp _ _))
                      | |- Costs polls _ (poll_loop _ _ _ _) => apply (proj1 (proj2 (Hp _ _)))
                      | |- Costs posts _ (poll_loop _ _ _ _) => apply (proj2 (proj2 (Hp _ _)))
                      | |- Costs clock _ (ensureStoredResult _ _ _ _) => apply ensure_clock
                      | |- Costs _ _ (ensureStoredResult _ _ _ _) => apply ensure_quiet; by auto
                      end).
Qed.

Lemma mock_result_costs :
  Costs clock 15000 (mock_result E nt taskId) /\ Costs polls 0 (mock_result E nt taskId) /\
  Costs posts 0 (mock_result E nt taskId).
Proof.
  unfold mock_result; split_and!;
    solve_costs ltac:(idtac; lazymatch goal with
                      | |- Costs clock _ _ => apply ensure_clock
                      | |- Costs _ _ _ => apply ensure_quiet; by auto
                      end).
Qed.

Lemma process_task_costs (fuel : nat) (p : payload) (r : nat) :
  Costs clock (clock_bound fuel r) (process_task E nt fuel taskId p r) /\
  Costs polls (60 * N.of_nat fuel) (process_task E nt fuel taskId p r) /\
  Costs posts (N.of_nat fuel) (process_task E nt fuel taskId p r).
Proof.
  pose proof (fun rq => attempt_costs rq) as Ha. pose proof mock_result_costs as Hm.
  revert r. induction fuel as [|fuel IH]; intros r; cbn [process_task clock_bound];
    [split_and!; solve_costs ltac:(fail)|].
  destruct (IH (S r)) as (IHc & IHq & IHp). unfold on_error.
  split_and!;
    solve_costs ltac:(idtac; lazymatch goal with
                      | |- Costs clock _ (process_task _ _ _ _ _ _) => apply IHc
                      | |- Costs polls _ (process_task _ _ _ _ _ _) => apply IHq
                      | |- Costs posts _ (process_task _ _ _ _ _ _) => apply IHp
                      | |- Costs clock _ (attempt _ _ _ _) => apply (proj1 (Ha _))
                      | |- Costs polls _ (attempt _ _ _ _) => apply (proj1 (proj2 (Ha _)))
                      | |- Costs posts _ (attempt _ _ _ _) => apply (proj2 (proj2 (Ha _)))
                      | |- Costs clock _ (mock_result _ _ _) => apply (proj1 Hm)
                      | |- Costs polls _ (mock_result _ _ _) => apply (proj1 (proj2 Hm))
                      | |- Costs posts _ (mock_result _ _ _) => apply (proj2 (proj2 Hm))
                      end).
Qed.

End Costs.


(** ** Enough fuel *)

Lemma on_error_equiv (E : env) (nt : net) (taskId : string) (r : nat) (ret1 ret2 : M unit)
    (e : error) :
  (r < MAX_RETRIES -> M_equiv ret1 ret2) ->
  M_equiv (on_error E nt taskId r ret1 e) (on_error E nt taskId r ret2 e).
Proof.
  intros H. unfold on_error. destruct (should_retry e r) eqn:Hs; [|reflexivity].
  apply andb_prop in Hs as [_ Hr%Nat.ltb_lt].
  apply bind_proper; [intros []; by apply H|reflexivity].
Qed.

Lemma process_task_fuel_gen (E : env) (nt : net) (taskId : string) (p : payload)
    (fuel1 fuel2 r : nat) :
  MAX_RETRIES - r < fuel1 -> MAX_RETRIES - r < fuel2 ->
  M_equiv (process_task E nt fuel1 taskId p r) (process_task E nt fuel2 taskId p r).
Proof.
  revert fuel2 r. induction fuel1 as [|f1 IH]; intros [|f2] r H1 H2; try lia.
  cbn [process_task]. apply bind_proper; [intros []|reflexivity].
  repeat (case_match; try reflexivity).
  apply bind_proper; [intros []|reflexivity]. apply catch_proper; [reflexivity|intros e].
  apply on_error_equiv. intros Hr. apply IH; lia.
Qed.

(** ** Unfolding a run one attempt at a time *)

Section Steps.
Context (E : env) (nt : net) (taskId : string) (p : payload).

(** The request of an attempt. *)
Definition attempt_request (doc : string) : request :=
  build_request (e_uploads E) doc (pi_width (payload_prompt_input p))
    (pi_height (payload_prompt_input p)) (p_base_image p) (map a_url (p_reference_assets p)).

(** [w] after the two writes that open an attempt, [processing_start]
    and [api_request_sent], both stamped [w_now w]. *)
Definition opened (w : world) : world :=
  mk_world (apply_op (OEvent (w_now w) taskId api_request_sent "已发送到AI接口")
              (apply_op (OStart (w_now w) taskId) (w_reg w)))
    (w_now w) (w_posts w) (w_polls w) (w_fetches w).

Lemma process_task_open (fuel r : nat) (doc : string) (w : world) :
  e_mock E = false -> key_missing (e_api_key E) = false ->
  compile_prompt (payload_prompt_input p) = Some doc ->
  process_task E nt (S fuel) taskId p r w
  = catch (attempt E nt taskId (attempt_request doc))
      (on_error E nt taskId r (process_task E nt fuel taskId p (S r))) (opened w).
Proof.
  intros Hm Hk Hd. cbn [process_task]. rewrite bind_run. cbn [set_op].
  rewrite Hm, Hk, Hd. rewrite bind_run. reflexivity.
Qed.

Lemma attempt_post_fails (rq : request) (rp : reply) (w : world) :
  n_post nt (w_posts w) rq = Reply rp -> ok rp = false ->
  attempt E nt taskId rq w
  = (inr (api_error rp), mk_world (w_reg w) (w_now w) (w_posts w + 1) (w_polls w) (w_fetches w)).
Proof.
  intros Hp Hok. unfold attempt. rewrite !bind_run. cbn [post fst snd]. rewrite Hp.
  cbn [reply_of retM mret M_ret]. rewrite Hok. reflexivity.
Qed.

Lemma on_error_retry (r : nat) (retry : M unit) (e : error) (w : world) :
  should_retry e r = true ->
  on_error E nt taskId r retry e w
  = retry (mk_world (w_reg w) (w_now w + RETRY_DELAY * N.of_nat (S r)) (w_posts w)
             (w_polls w) (w_fetches w)).
Proof. intros Hs. unfold on_error. by rewrite Hs, bind_run. Qed.

Lemma on_error_fail (r : nat) (retry : M unit) (e : error) (w : world) :
  should_retry e r = false -> e_failover E = false -> e_mock E = false ->
  on_error E nt taskId r retry e w = set_op (fun t => OFail t taskId (err_message e) r) w.
Proof. intros Hs Hf Hm. unfold on_error. by rewrite Hs, Hf, Hm. Qed.

End Steps.

Lemma should_retry_503 (rp : reply) (r : nat) :
  r_status rp = 503%N -> should_retry (api_error rp) r = (r <? MAX_RETRIES).
Proof.
  intros Hs. unfold should_retry, api_error, Error. cbn [err_message err_name].
  rewrite Hs. change (show_N 503) with "503". rewrite !concat_str_cons.
  rewrite (includes_app_l "503" "API error: "); [done|apply includes_here].
Qed.

(** Run the head of a computation: [mbind] and the primitives. *)
Ltac run_steps :=
  repeat first [ rewrite bind_run
               | progress cbn [sleep status_query post fetch_url set_op now fst snd retM mret
                               M_ret throw lift reply_of poll_task member_strict
                               w_reg w_now w_posts w_polls w_fetches] ].

Section Replies.
Context (E : env) (nt : net) (taskId : string).

(** When every fetch of the result URL is rejected, each probe fails
    and the loop sleeps after it. *)
Lemma wait_loop_unreachable (e : error) (n : nat) (d : N) (url : string) (w : world) :
  (forall i k u, n_fetch nt i k u = NetError e) ->
  wait_loop nt n d url w
  = (inl false, mk_world (w_reg w) (w_now w + N.of_nat n * d) (w_posts w) (w_polls w)
                  (w_fetches w + N.of_nat n)).
Proof.
  intros Hf. revert w. induction n as [|n IH]; intros w; cbn [wait_loop].
  - cbn. destruct w; cbn. f_equal. f_equal; lia.
  - rewrite bind_run. unfold catch, probe. rewrite !bind_run. cbn [fetch_url fst snd].
    rewrite Hf. cbn [reply_of throw retM mret M_ret]. rewrite bind_run. cbn [sleep].
    rewrite IH. cbn. f_equal. f_equal; lia.
Qed.

Lemma ensure_unreachable (e : error) (url : string) (w : world) :
  (forall i k u, n_fetch nt i k u = NetError e) ->
  ensureStoredResult E nt taskId url w
  = (inl url, mk_world (w_reg w) (w_now w + 15000) (w_posts w) (w_polls w) (w_fetches w + 10)).
Proof.
  intros Hf. unfold ensureStoredResult, waitForImageAccessible. rewrite bind_run.
  by rewrite (wait_loop_unreachable e).
Qed.

(** The first status query reports the task completed with [url]. *)
Lemma poll_loop_completed (n : nat) (apiTaskId u : string) (rp : reply) (w : world) :
  n_status nt (w_polls w) apiTaskId = Reply rp -> ok rp = true ->
  r_json rp = inl (JObj [("data", JObj [("status", JStr "completed"); ("url", JStr u)])]) ->
  String.eqb u "" = false ->
  poll_loop nt taskId apiTaskId (S n) w
  = (inl u, mk_world (apply_op (OEvent (w_now w + 2000) taskId polling_complete u) (w_reg w))
              (w_now w + 2000) (w_posts w) (w_polls w + 1) (w_fetches w)).
Proof.
  intros Hs Hok Hj Hu. cbn [poll_loop]. run_steps. rewrite Hs. run_steps.
  rewrite Hok. cbn [negb]. unfold reply_json. rewrite Hj. run_steps.
  unfold status_is, image_url. do 3 (cbn - [apply_op]; rewrite ?Hu).
  reflexivity.
Qed.

(** The result URL [u] is materialized as [su] in [dt] ms and [df] fetches. *)
Definition materializes (u su : string) (dt df : N) : Prop :=
  forall w, ensureStoredResult E nt taskId u w
            = (inl su, mk_world (w_reg w) (w_now w + dt) (w_posts w) (w_polls w) (w_fetches w + df)).

Lemma ensure_stores_png (st txt : string) (js : json + string) (u : string) :
  (forall i k x, n_fetch nt i k x
     = Reply (mk_reply 200 st [("content-type", "image/png"); ("content-length", "1024")] txt js)) ->
  materializes u (result_url (e_port E) taskId "png") 0 2.
Proof.
  intros Hf w. set (rf := mk_reply 200 st _ txt js) in Hf.
  assert (Hct : forall d, header_or "content-type" d rf = "image/png") by reflexivity.
  assert (Hcl : header "content-length" rf = Some "1024") by reflexivity.
  unfold ensureStoredResult, waitForImageAccessible, downloadImage.
  cbn [wait_loop]. unfold catch, probe. run_steps. rewrite Hf. run_steps.
  change (ok rf) with true. rewrite Hct, Hcl. cbn [String.eqb andb].
  change (starts_with "image" "image/png") with true.
  change (number_positive "1024") with true.
  change (includes "image" (lower "image/png")) with true. cbn [andb].
  run_steps. rewrite Hf. run_steps. change (ok rf) with true. rewrite Hct.
  change (extFromContentType "image/png") with "png". run_steps.
  destruct w; cbn [w_reg w_now w_posts w_polls w_fetches]. f_equal. f_equal; lia.
Qed.

(** The POST returns the API task id [tid], the first status query says
    completed with [u], and [u] is materialized as [su]. *)
Lemma attempt_completes (rq : request) (rp rs : reply) (tid u su : string) (dt df : N)
    (w : world) :
  n_post nt (w_posts w) rq = Reply rp -> ok rp = true ->
  r_json rp = inl (JObj [("data", JArr [JObj [("task_id", JStr tid)]])]) ->
  String.eqb tid "" = false ->
  n_status nt (w_polls w) tid = Reply rs -> ok rs = true ->
  r_json rs = inl (JObj [("data", JObj [("status", JStr "completed"); ("url", JStr u)])]) ->
  String.eqb u "" = false -> materializes u su dt df ->
  attempt E nt taskId rq w
  = (inl tt,
     mk_world
       (apply_op (OComplete (w_now w + 2000 + dt) taskId su "结果已校验并存储")
          (apply_op (OEvent (w_now w + 2000) taskId polling_complete u)
             (apply_op (OEvent (w_now w) taskId api_task_id_received tid) (w_reg w))))
       (w_now w + 2000 + dt) (w_posts w + 1) (w_polls w + 1) (w_fetches w + df)).
Proof.
  intros Hp Hok Hj Ht Hs Hoks Hjs Hu Hm. unfold attempt. run_steps. rewrite Hp. run_steps.
  rewrite Hok. cbn [negb]. unfold reply_json. rewrite Hj. run_steps.
  unfold api_task_id. do 3 (cbn - [apply_op poll_loop ensureStoredResult]; rewrite ?Ht).
  unfold or_else, truthy. rewrite Ht. cbn - [apply_op poll_loop ensureStoredResult].
  rewrite Ht. cbn [negb]. run_steps.
  rewrite (poll_loop_completed _ _ u rs) by done. run_steps.
  rewrite Hm. run_steps. reflexivity.
Qed.

End Replies.

(** ** Properties of a run *)

#[export] Instance impl_preorder (P : world -> Prop) : PreOrder (fun w w' => P w -> P w').
Proof. split; [intros w H; exact H|intros w1 w2 w3 H1 H2 H; exact (H2 (H1 H))]. Qed.

Section Runs.
Context (E : env) (nt : net) (taskId : string) (p : payload).

(** Whatever the environment and whatever the image API answers, a run
    of a stored task returns and leaves it [COMPLETE] or [FAILED]. *)
Lemma run_task_ends (w : world) :
  is_Some (w_reg w !! taskId) ->
  (run_task E nt taskId p w).1 = inl tt /\ terminal taskId (run_task E nt taskId p w).2.
Proof.
  intros Hw. unfold run_task, catch.
  pose proof (ends_process_task E nt taskId (S MAX_RETRIES) p 0 w Hw) as Hend.
  unfold processTask. destruct (process_task _ _ _ _ _ _ w) as [[[]|e] w'] eqn:Hrun; cbn in Hend.
  - done.
  - split; [done|].
    refine (ends_set_op taskId (fun t => OReject t taskId (err_message e)) _ w' Hend).
    intros t. split_and!; by auto.
Qed.

(** C3: the registry effect of a run is a sequence of operations of the
    [Tasks] state machine, none of them a submit and all of them on the
    run's own task; so a run never touches another task. *)
Theorem run_task_refines (w : world) :
  exists ops, Forall (fun o => is_submit o = false /\ op_target o = taskId) ops /\
    w_reg (run_task E nt taskId p w).2 = fold_left (fun reg o => apply_op o reg) ops (w_reg w).
Proof.
  revert w. apply (stays_run_task E nt taskId (ops_of taskId)); [apply ops_of_quiet|].
  intros. by apply ops_of_op.
Qed.


(** C8: a run sleeps at most 567 s in total (four attempts of at most
    60 polls 2 s apart and a 15 s materialization each, the retry delays
    of 2, 4 and 6 s, and a final 15 s materialization), sends at most four
    POSTs and at most 240 status queries. *)
Theorem run_task_bounds (w : world) :
  (w_now (run_task E nt taskId p w).2 <= w_now w + 567000)%N /\
  (w_posts (run_task E nt taskId p w).2 <= w_posts w + 4)%N /\
  (w_polls (run_task E nt taskId p w).2 <= w_polls w + 240)%N.
Proof.
  destruct (process_task_costs E nt taskId (S MAX_RETRIES) p 0) as (Hc & Hq & Hp).
  change (clock_bound (S MAX_RETRIES) 0) with 567000%N in Hc.
  unfold run_task, processTask.
  split_and!; [apply (costs_catch clock 567000 0)|apply (costs_catch posts 4 0)
              |apply (costs_catch polls 240 0)]; try done;
    intros; apply costs_unchanged; intros; reflexivity.
Qed.

(** C15: [processTask]'s four units of fuel are enough: with any more the
    run is the same, because the guard [retryCount < MAX_RETRIES] stops
    the retries first. *)
Theorem process_task_fuel (fuel : nat) :
  S MAX_RETRIES <= fuel ->
  M_equiv (process_task E nt fuel taskId p 0) (processTask E nt taskId p).
Proof. intros H. apply process_task_fuel_gen; unfold MAX_RETRIES in *; lia. Qed.


(** The two writes that open an attempt. *)
Definition attempt_ops (t : N) (taskId : string) : list op :=
  [OStart t taskId; OEvent t taskId api_request_sent "已发送到AI接口"].

(** C9: when the image API answers every POST with a 503, the run makes
    four attempts, waits 2, 4 and 6 s before the retries and marks the
    task [FAILED] with the API error and [retryCount] 3; these are all the
    writes it makes. *)
Theorem run_task_all_503 (w : world) (rp : reply) :
  e_mock E = false -> key_missing (e_api_key E) = false -> e_failover E = false ->
  compile_prompt (payload_prompt_input p) <> None ->
  r_status rp = 503%N -> (forall i rq, n_post nt i rq = Reply rp) ->
  run_task E nt taskId p w =
    (inl tt,
     mk_world
       (fold_left (fun reg o => apply_op o reg)
          (attempt_ops (w_now w) taskId ++ attempt_ops (w_now w + 2000) taskId
           ++ attempt_ops (w_now w + 2000 + 4000) taskId
           ++ attempt_ops (w_now w + 2000 + 4000 + 6000) taskId
           ++ [OFail (w_now w + 2000 + 4000 + 6000) taskId (err_message (api_error rp)) 3])
          (w_reg w))
       (w_now w + 2000 + 4000 + 6000) (w_posts w + 1 + 1 + 1 + 1) (w_polls w) (w_fetches w)).
Proof.
  intros Hm Hk Hf Hc Hs Hp. destruct (compile_prompt _) as [doc|] eqn:Hd; [|done].
  assert (Hok : ok rp = false) by (unfold ok; rewrite Hs; reflexivity).
  unfold run_task, processTask, MAX_RETRIES.
  unfold catch at 1.
  do 3 (rewrite (process_task_open E nt taskId p _ _ doc) by done;
        unfold catch at 1; rewrite (attempt_post_fails E nt taskId _ rp) by done;
        rewrite on_error_retry by (rewrite should_retry_503; done);
        cbn [opened w_now w_posts w_polls w_fetches w_reg]).
  rewrite (process_task_open E nt taskId p _ _ doc) by done.
  unfold catch at 1; rewrite (attempt_post_fails E nt taskId _ rp) by done.
  rewrite on_error_fail by (try rewrite should_retry_503; done).
  change (RETRY_DELAY * N.of_nat 1)%N with 2000%N.
  change (RETRY_DELAY * N.of_nat 2)%N with 4000%N.
  change (RETRY_DELAY * N.of_nat 3)%N with 6000%N.
  cbn [opened set_op fst snd w_now w_posts w_polls w_fetches w_reg fold_left app attempt_ops].
  reflexivity.
Qed.

(** C10: the normal run: the API accepts the request with a task id,
    the first status query reports the image completed, and the image is
    a reachable PNG.  The task ends [COMPLETE] with the local URL
    [http://localhost:<port>/uploads/results/result_<taskId>.png] after
    exactly the writes [processing_start], [api_request_sent],
    [api_task_id_received], [polling_complete] and [complete]. *)
Theorem run_task_completes (w : world) (rp rs : reply) (tid u st txt : string) (js : json + string) :
  e_mock E = false -> key_missing (e_api_key E) = false ->
  compile_prompt (payload_prompt_input p) <> None ->
  (forall i rq, n_post nt i rq = Reply rp) -> ok rp = true ->
  r_json rp = inl (JObj [("data", JArr [JObj [("task_id", JStr tid)]])]) ->
  String.eqb tid "" = false ->
  (forall i id, n_status nt i id = Reply rs) -> ok rs = true ->
  r_json rs = inl (JObj [("data", JObj [("status", JStr "completed"); ("url", JStr u)])]) ->
  String.eqb u "" = false ->
  (forall i k x, n_fetch nt i k x
     = Reply (mk_reply 200 st [("content-type", "image/png"); ("content-length", "1024")] txt js)) ->
  run_task E nt taskId p w =
    (inl tt,
     mk_world
       (fold_left (fun reg o => apply_op o reg)
          (attempt_ops (w_now w) taskId ++
           [OEvent (w_now w) taskId api_task_id_received tid;
            OEvent (w_now w + 2000) taskId polling_complete u;
            OComplete (w_now w + 2000 + 0) taskId (result_url (e_port E) taskId "png")
              "结果已校验并存储"])
          (w_reg w))
       (w_now w + 2000 + 0) (w_posts w + 1) (w_polls w + 1) (w_fetches w + 2)).
Proof.
  intros Hm Hk Hc Hp Hok Hj Ht Hs Hoks Hjs Hu Hf.
  destruct (compile_prompt _) as [doc|] eqn:Hd; [|done].
  unfold run_task, processTask. unfold catch at 1.
  rewrite (process_task_open E nt taskId p _ _ doc) by done. unfold catch at 1.
  rewrite (attempt_completes E nt taskId _ rp rs tid u _ 0 2) by
    (done || by apply (ensure_stores_png E nt taskId st txt js)).
  reflexivity.
Qed.

End Runs.

(** the retry classification of [shouldRetry]: a 503 and an aborted
    or reset request are retried, a 502 is not, and neither is the
    polling timeout, whose message [轮询超时，任务未完成] names no timeout
    in the words the check looks for; after three retries nothing is. *)
Example should_retry_classification :
  map (fun e => should_retry e 0)
    [Error "API error: 503 Service Unavailable - busy";
     Error "API error: 502 Bad Gateway - ";
     Error "轮询超时，任务未完成";
     mk_error "AbortError" "This operation was aborted";
     Error "read ECONNRESET"]
  = [true; false; false; true; true] /\
  should_retry (Error "API error: 503 Service Unavailable - busy") 3 = false.
Proof. split; reflexivity. Qed.

(** ** Instances *)

Definition example_env : env := mk_env false (Some "sk-test") false "3001" (fun _ => None).

Definition example_payload : payload :=
  mk_payload (Some "/uploads/base.png") (Some "make it bright @rect(10,10,100,200) add clouds")
    (Some "1920x1080") [] [].

Definition example_world : world :=
  mk_world {[ "job_5" := new_task 5 "job_5" example_payload ]} 100 0 0 0.

Definition reply_503 : reply := mk_reply 503 "Service Unavailable" [] "busy" (inr "Unexpected token").

Definition net_503 : net :=
  mk_net (fun _ _ => Reply reply_503) (fun _ _ => NetError (Error "unused"))
    (fun _ _ _ => NetError (Error "unused")).

Definition reply_accepted : reply :=
  mk_reply 200 "OK" [] "" (inl (JObj [("data", JArr [JObj [("task_id", JStr "t1")]])])).

Definition reply_completed : reply :=
  mk_reply 200 "OK" [] ""
    (inl (JObj [("data", JObj [("status", JStr "completed"); ("url", JStr "https://cdn/x.png")])])).

Definition net_ok : net :=
  mk_net (fun _ _ => Reply reply_accepted) (fun _ _ => Reply reply_completed)
    (fun _ _ _ => Reply (mk_reply 200 "OK" [("content-type", "image/png"); ("content-length", "1024")]
                          "" (inr "binary"))).


Lemma process_task_fuel_witness :
  S MAX_RETRIES <= 6 /\
  M_equiv (process_task example_env net_503 6 "job_5" example_payload 0)
    (processTask example_env net_503 "job_5" example_payload).
Proof. split; [cbv; lia|]. apply process_task_fuel. cbv; lia. Defined.

Lemma run_task_all_503_witness :
  run_task example_env net_503 "job_5" example_payload example_world =
    (inl tt,
     mk_world
       (fold_left (fun reg o => apply_op o reg)
          (attempt_ops 100 "job_5" ++ attempt_ops (100 + 2000) "job_5"
           ++ attempt_ops (100 + 2000 + 4000) "job_5"
           ++ attempt_ops (100 + 2000 + 4000 + 6000) "job_5"
           ++ [OFail (100 + 2000 + 4000 + 6000) "job_5" (err_message (api_error reply_503)) 3])
          (w_reg example_world))
       (100 + 2000 + 4000 + 6000) (0 + 1 + 1 + 1 + 1) 0 0).
Proof.
  apply (run_task_all_503 example_env net_503 "job_5" example_payload example_world reply_503);
    try reflexivity.
  vm_compute. discriminate.
Defined.

Lemma run_task_completes_witness :
  run_task example_env net_ok "job_5" example_payload example_world =
    (inl tt,
     mk_world
       (fold_left (fun reg o => apply_op o reg)
          (attempt_ops 100 "job_5" ++
           [OEvent 100 "job_5" api_task_id_received "t1";
            OEvent (100 + 2000) "job_5" polling_complete "https://cdn/x.png";
            OComplete (100 + 2000 + 0) "job_5" (result_url "3001" "job_5" "png")
              "结果已校验并存储"])
          (w_reg example_world))
       (100 + 2000 + 0) (0 + 1) (0 + 1) (0 + 2)).
Proof.
  apply (run_task_completes example_env net_ok "job_5" example_payload example_world
           reply_accepted reply_completed "t1" "https://cdn/x.png" "OK" "" (inr "binary"));
    try reflexivity.
  vm_compute. discriminate.
Defined.

End Orchestrator.
