(* ===== verification/Notifier.v ===== *)
(** * Notification broadcaster and status query

    Models the two readers of the task registry in [src/server/index.js]:

    - the WebSocket route [/ws] (lines 983-1010): a [{ taskId }] message
      starts an interval that, every second, looks the task up, sends the
      frame [{ taskId, status, result, error }] and clears itself when the
      task is [COMPLETE] or [FAILED], or at once when there is no such
      task; closing the socket clears it too;
    - [GET /api/task/:taskId] (lines 419-440): the task's fields, or a 404.

    A subscription is run on the registries its callback observes, one
    per second: [ws_frames id regs] is what the subscriber receives when
    the callback runs on the snapshots [regs] in order and the socket
    closes after the last one.  Between two snapshots any number of
    registry writes ([Tasks.op]s of any task) may happen.

    A frame is the JSON value the server stringifies; the client reads it
    back with [JSON.parse], which gives the same value for JSON built from
    strings, numbers and [null]. *)

From S2P Require Import Prelude JsString Matcher RegionParser Tasks Json.
Import Js Tasks Json.

Module Notifier.

(** ** Frames (lines 995-1000) *)

(** [result: null] and [error: null] are sent as [null]. *)
Definition opt_str (o : option string) : json :=
  match o with Some s => JStr s | None => JNull end.

Definition frame_of (task : task) : json :=
  JObj [("taskId", JStr (t_id task)); ("status", JStr (status_name (t_status task)));
        ("result", opt_str (t_result task)); ("error", opt_str (t_error task))].

Definition is_terminal (s : status) : bool :=
  match s with COMPLETE | FAILED => true | PENDING | PROCESSING => false end.

(** ** The interval callback (lines 988-1005) *)

(** One run of the callback: the frame sent, if any, and whether the
    interval keeps running. *)
Definition ws_tick (taskId : string) (reg : registry) : option json * bool :=
  match reg !! taskId with
  | None => (None, false)
  | Some task => (Some (frame_of task), negb (is_terminal (t_status task)))
  end.

Fixpoint ws_frames (taskId : string) (regs : list registry) : list json :=
  match regs with
  | [] => []
  | reg :: regs' =>
      let '(fr, running) := ws_tick taskId reg in
      option_list fr ++ (if running then ws_frames taskId regs' else [])
  end.

(** [const { taskId } = JSON.parse(message.toString())]: a message whose
    [taskId] is not a string reads an id no task has. *)
Definition subscribe_id (msg : json) : option string :=
  match member "taskId" (Some msg) with Some (JStr s) => Some s | _ => None end.

Definition ws_session (msg : json) (regs : list registry) : list json :=
  match subscribe_id msg with
  | Some taskId => ws_frames taskId regs
  | None => []
  end.

(** ** [GET /api/task/:taskId] *)

Definition entry_json (e : entry) : json :=
  JObj [("ts", JNum (Z.of_N (e_ts e))); ("event", JStr (event_name (e_event e)));
        ("note", JStr (e_note e))].

Section Query.
(** The submitted JSON body, which [Tasks.payload] abstracts. *)
Variable payload_json : payload -> json.

Definition task_reply (taskId : string) (reg : registry) : N * json :=
  match get_task taskId reg with
  | None => (404%N, JObj [("error", JStr "Task not found")])
  | Some task =>
      (200%N, JObj [("id", JStr (t_id task)); ("status", JStr (status_name (t_status task)));
                  ("payload", payload_json (t_payload task));
                  ("createdAt", JNum (Z.of_N (t_createdAt task)));
                  ("result", opt_str (t_result task)); ("error", opt_str (t_error task));
                  ("timeline", JArr (map entry_json (t_timeline task)))])
  end.

End Query.

(** ** A subscription stops at the first terminal snapshot *)

Lemma ws_tick_found (taskId : string) (reg : registry) (t : task) :
  reg !! taskId = Some t ->
  ws_tick taskId reg = (Some (frame_of t), negb (is_terminal (t_status t))).
Proof. unfold ws_tick. by intros ->. Qed.

Lemma ws_frames_cons (taskId : string) (reg : registry) (regs : list registry) (t : task) :
  reg !! taskId = Some t ->
  ws_frames taskId (reg :: regs)
  = frame_of t :: (if is_terminal (t_status t) then [] else ws_frames taskId regs).
Proof. intros H. cbn. rewrite (ws_tick_found _ _ t H). by destruct (is_terminal _). Qed.

(** C36: once a snapshot shows the task [COMPLETE] or [FAILED], its frame is
    the last one the subscriber receives: whatever the registry holds at
    the later ticks, nothing more is sent. *)
Theorem ws_frames_stop (taskId : string) (pre post : list registry) (reg : registry) (t : task) :
  reg !! taskId = Some t -> is_terminal (t_status t) = true ->
  ws_frames taskId (pre ++ reg :: post) = ws_frames taskId (pre ++ [reg]).
Proof.
  intros Ht Hterm. induction pre as [|r pre IH]; cbn [app].
  - by rewrite !(ws_frames_cons _ _ _ t Ht), Hterm.
  - cbn [ws_frames]. destruct (ws_tick taskId r) as [fr []]; [by rewrite IH|done].
Qed.

(** Every frame is the task as one of the snapshots shows it, and every
    frame but the last shows a task that is not yet terminal. *)
Lemma ws_frames_mirror (taskId : string) (regs : list registry) (i : nat) (fr : json) :
  ws_frames taskId regs !! i = Some fr ->
  exists reg t, reg ∈ regs /\ reg !! taskId = Some t /\ fr = frame_of t /\
    (S i < length (ws_frames taskId regs) -> is_terminal (t_status t) = false).
Proof.
  revert i. induction regs as [|reg regs IH]; intros i Hi; [done|].
  destruct (reg !! taskId) as [t|] eqn:Ht; [|by cbn in Hi; unfold ws_tick in Hi; rewrite Ht in Hi].
  rewrite (ws_frames_cons _ _ _ t Ht) in Hi |- *.
  destruct i as [|i]; cbn in Hi.
  - simplify_eq. exists reg, t. split_and!; [by left|done|done|].
    destruct (is_terminal _); cbn; [lia|done].
  - destruct (is_terminal (t_status t)); [done|].
    destruct (IH i Hi) as (r & t' & Hin & Hr & -> & Hlast).
    exists r, t'. split_and!; [by right|done|done|]. cbn. intros ?. apply Hlast. lia.
Qed.

(** When the task stays stored and some snapshot shows it terminal, the
    subscription ends with a terminal frame. *)
Lemma ws_frames_end (taskId : string) (regs : list registry) (reg : registry) (t : task) :
  (forall r, r ∈ regs -> is_Some (r !! taskId)) ->
  reg ∈ regs -> reg !! taskId = Some t -> is_terminal (t_status t) = true ->
  exists t', last (ws_frames taskId regs) = Some (frame_of t') /\
             is_terminal (t_status t') = true.
Proof.
  intros Hall Hin Ht Hterm. induction regs as [|r regs IH]; [by apply elem_of_nil in Hin|].
  destruct (Hall r ltac:(by left)) as [tr Htr].
  rewrite (ws_frames_cons _ _ _ tr Htr).
  destruct (is_terminal (t_status tr)) eqn:Hr; [by exists tr|].
  apply elem_of_cons in Hin as [->|Hin]; [congruence|].
  destruct IH as (t' & Hl & Ht'); [intros; apply Hall; by right|done|].
  exists t'. split; [|done]. destruct (ws_frames taskId regs); [done|]. done.
Qed.


(** ** Instances *)

Definition reg_pending : registry := {[ "job_5" := new_task 5 "job_5" (example_payload "p") ]}.

Definition reg_running : registry := apply_op (OStart 6 "job_5") reg_pending.

Definition reg_done : registry := apply_op (OComplete 9 "job_5" "http://x/r.png" "ok") reg_running.

Definition task_done : task :=
  Eval vm_compute in default (new_task 0 "" (example_payload "")) (reg_done !! "job_5").


Lemma ws_frames_stop_witness :
  reg_done !! "job_5" = Some task_done /\ is_terminal (t_status task_done) = true /\
  ws_frames "job_5" ([reg_pending; reg_running] ++ reg_done :: [reg_running])
  = ws_frames "job_5" ([reg_pending; reg_running] ++ [reg_done]).
Proof.
  assert (H1 : reg_done !! "job_5" = Some task_done) by (vm_compute; reflexivity).
  assert (H2 : is_terminal (t_status task_done) = true) by reflexivity.
  split_and!; [exact H1|exact H2|]. by apply (ws_frames_stop _ _ _ _ task_done).
Defined.


End Notifier.
