(* ===== verification/Store.v ===== *)
(** * The frontend store ([src/src/store.ts])

    The zustand store of the React app is the record [app_state]; each
    action is a function from the old state to the new one, as the
    [set(...)] call of the action builds it: [set({ k: v })] replaces one
    field, [set(s => ...)] computes it from the old state, and the object
    spreads ([{ ...s.mask, ... }]) keep the other fields.  [Date.now()]
    is the argument [now].

    Point coordinates are JavaScript numbers; they are modelled as exact
    rationals ([Q]), and [Math.round] as [js_round].  A task's [status]
    and [resultUrl] are JavaScript values: the frontend copies them from
    the server's messages, so they are [option json] ([None] is
    [undefined]). *)

From Stdlib Require Import QArith Qround Lqa.
From S2P Require Import Prelude JsString Json.
Import Js Json.

Module Store.

(** ** Data (lines 3-50) *)

Record point := mk_point { px : Q; py : Q }.

Inductive element_type := brush | rectangle | circle | line.

#[export] Instance element_type_eq_dec : EqDecision element_type.
Proof. solve_decision. Defined.

Record MaskElement := mk_element {
  me_id : string;
  me_name : option string;
  me_type : element_type;
  me_color : string;
  me_points : list point;
  me_brushSize : N;
  me_coords : option (list Z)
}.

Record SingleMask := mk_mask {
  sm_elements : list MaskElement;
  sm_maskDataUrl : option string;
  sm_updatedAt : N
}.

Inductive preprocess := none | foreground_only.

Record ReferenceAsset := mk_asset {
  ra_id : string;
  ra_url : string;
  ra_preprocess : preprocess;
  ra_index : option N
}.

Record Task := mk_task {
  ct_id : string;
  ct_title : string;
  ct_status : option json;
  ct_resultUrl : option json;
  ct_createdAt : N;
  ct_payload : option json
}.

(** [Partial<Task>] as the callers build it: a field given ([Some v])
    overrides the task's, even when [v] is [undefined] ([resultUrl:
    msg.result] with no [result]). *)
Record TaskPatch := mk_patch {
  tp_status : option (option json);
  tp_resultUrl : option (option json)
}.

(** The status names the frontend writes. *)
Definition js_str (s : string) : option json := Some (JStr s).

(** [Math.round(x)]: the integer nearest to [x], halves rounded up. *)
Definition js_round (x : Q) : Z := Qfloor (x + (1 # 2)).

(** [MASK_COLORS]: id, name and hex code (the [rgb] triple is unused). *)
Definition MASK_COLORS : list (string * string * string) :=
  [("red", "红色", "#FF0000"); ("green", "绿色", "#00FF00"); ("blue", "蓝色", "#0000FF");
   ("yellow", "黄色", "#FFFF00"); ("cyan", "青色", "#00FFFF");
   ("magenta", "品红", "#FF00FF"); ("white", "白色", "#FFFFFF")].

Record app_state := mk_state {
  s_baseImage : option string;
  s_baseMeta : option (N * N);
  s_materials : list ReferenceAsset;
  s_outputResolution : string;
  s_tasks : list Task;
  s_mask : SingleMask;
  s_currentMaskColor : string;
  s_highlightedElementId : option string;
  s_prompt : option string;
  s_model : option string
}.

(** The state [create] starts from (lines 85-138). *)
Definition initial_state (now : N) : app_state :=
  mk_state None None [] "3840x2160" [] (mk_mask [] None now)
    (default "" (snd <$> head MASK_COLORS)) None (Some "") (Some "banana2-pro").

(** ** Actions (lines 97-135) *)

Definition with_mask (m : SingleMask) (s : app_state) : app_state :=
  mk_state (s_baseImage s) (s_baseMeta s) (s_materials s) (s_outputResolution s)
    (s_tasks s) m (s_currentMaskColor s) (s_highlightedElementId s) (s_prompt s) (s_model s).

Definition with_tasks (ts : list Task) (s : app_state) : app_state :=
  mk_state (s_baseImage s) (s_baseMeta s) (s_materials s) (s_outputResolution s)
    ts (s_mask s) (s_currentMaskColor s) (s_highlightedElementId s) (s_prompt s) (s_model s).

Definition with_materials (ms : list ReferenceAsset) (s : app_state) : app_state :=
  mk_state (s_baseImage s) (s_baseMeta s) ms (s_outputResolution s)
    (s_tasks s) (s_mask s) (s_currentMaskColor s) (s_highlightedElementId s) (s_prompt s) (s_model s).

Definition setHighlightedElementId (id : option string) (s : app_state) : app_state :=
  mk_state (s_baseImage s) (s_baseMeta s) (s_materials s) (s_outputResolution s)
    (s_tasks s) (s_mask s) (s_currentMaskColor s) id (s_prompt s) (s_model s).

Definition setCurrentMaskColor (color : string) (s : app_state) : app_state :=
  mk_state (s_baseImage s) (s_baseMeta s) (s_materials s) (s_outputResolution s)
    (s_tasks s) (s_mask s) color (s_highlightedElementId s) (s_prompt s) (s_model s).

Definition addMaskElement (now : N) (element : MaskElement) (s : app_state) : app_state :=
  with_mask (mk_mask (sm_elements (s_mask s) ++ [element]) (sm_maskDataUrl (s_mask s)) now) s.

(** [elements.slice(0, -1)]: all but the last, [[]] on [[]]. *)
Definition undoLastElement (now : N) (s : app_state) : app_state :=
  with_mask (mk_mask (removelast (sm_elements (s_mask s))) (sm_maskDataUrl (s_mask s)) now) s.

Definition clearMask (now : N) (s : app_state) : app_state :=
  with_mask (mk_mask [] None now) s.

Definition updateMaskDataUrl (now : N) (dataUrl : string) (s : app_state) : app_state :=
  with_mask (mk_mask (sm_elements (s_mask s)) (Some dataUrl) now) s.

Definition setBaseImage (url : string) (s : app_state) : app_state :=
  mk_state (Some url) (s_baseMeta s) (s_materials s) (s_outputResolution s)
    (s_tasks s) (s_mask s) (s_currentMaskColor s) (s_highlightedElementId s) (s_prompt s) (s_model s).

Definition setBaseMeta (meta : N * N) (s : app_state) : app_state :=
  mk_state (s_baseImage s) (Some meta) (s_materials s) (s_outputResolution s)
    (s_tasks s) (s_mask s) (s_currentMaskColor s) (s_highlightedElementId s) (s_prompt s) (s_model s).

Definition addMaterials (assets : list ReferenceAsset) (s : app_state) : app_state :=
  with_materials (s_materials s ++ assets) s.

Definition removeMaterial (id : string) (s : app_state) : app_state :=
  with_materials (filter (fun m => ra_id m <> id) (s_materials s)) s.

Definition setOutputResolution (res : string) (s : app_state) : app_state :=
  mk_state (s_baseImage s) (s_baseMeta s) (s_materials s) res
    (s_tasks s) (s_mask s) (s_currentMaskColor s) (s_highlightedElementId s) (s_prompt s) (s_model s).

Definition addTask (task : Task) (s : app_state) : app_state := with_tasks (task :: s_tasks s) s.

(** [{ ...t, ...partial }]. *)
Definition patch_task (partial : TaskPatch) (t : Task) : Task :=
  mk_task (ct_id t) (ct_title t) (default (ct_status t) (tp_status partial))
    (default (ct_resultUrl t) (tp_resultUrl partial)) (ct_createdAt t) (ct_payload t).

(** [tasks.map(t => t.id === id ? { ...t, ...partial } : t)]: every task
    with that id, none if there is none. *)
Definition updateTask (id : string) (partial : TaskPatch) (s : app_state) : app_state :=
  with_tasks (map (fun t => if String.eqb (ct_id t) id then patch_task partial t else t)
                (s_tasks s)) s.

Definition setPrompt (p : string) (s : app_state) : app_state :=
  mk_state (s_baseImage s) (s_baseMeta s) (s_materials s) (s_outputResolution s)
    (s_tasks s) (s_mask s) (s_currentMaskColor s) (s_highlightedElementId s) (Some p) (s_model s).

Definition setModel (m : string) (s : app_state) : app_state :=
  mk_state (s_baseImage s) (s_baseMeta s) (s_materials s) (s_outputResolution s)
    (s_tasks s) (s_mask s) (s_currentMaskColor s) (s_highlightedElementId s) (s_prompt s) (Some m).

(** ** [Math.round] *)

Lemma js_round_nonneg (q : Q) : (0 <= q)%Q -> (0 <= js_round q)%Z.
Proof.
  intros H. unfold js_round. change 0%Z with (Qfloor 0). apply Qfloor_resp_le. lra.
Qed.

(** Rounding a number at most [n] gives at most [n]. *)
Lemma js_round_le (q : Q) (n : Z) : (q <= inject_Z n)%Q -> (js_round q <= n)%Z.
Proof.
  intros H. unfold js_round. pose proof (Qfloor_le (q + (1 # 2))) as Hf.
  assert (Hlt : (inject_Z (Qfloor (q + (1 # 2))) < inject_Z (n + 1))%Q).
  { rewrite inject_Z_plus. change (inject_Z 1) with 1%Q. lra. }
  rewrite <- Zlt_Qlt in Hlt. lia.
Qed.

(** ** The elements after the mask actions *)

Lemma addMaskElement_elements (now : N) (e : MaskElement) (s : app_state) :
  sm_elements (s_mask (addMaskElement now e s)) = sm_elements (s_mask s) ++ [e].
Proof. done. Qed.

(** Adding elements one by one appends them in order. *)
Lemma fold_add_elements (now : N) (els : list MaskElement) (s : app_state) :
  sm_elements (s_mask (fold_left (fun s' ne => addMaskElement now ne s') els s))
  = sm_elements (s_mask s) ++ els.
Proof.
  revert s. induction els as [|e els IH]; intros s; cbn; [by rewrite app_nil_r|].
  by rewrite IH, addMaskElement_elements, <- app_assoc.
Qed.

Lemma clearMask_elements (now : N) (s : app_state) : sm_elements (s_mask (clearMask now s)) = [].
Proof. done. Qed.

(** The actions that do not touch the mask. *)
Lemma setHighlightedElementId_mask (id : option string) (s : app_state) :
  s_mask (setHighlightedElementId id s) = s_mask s.
Proof. done. Qed.

#[export] Hint Rewrite addMaskElement_elements fold_add_elements clearMask_elements
  setHighlightedElementId_mask : photo_rw.

End Store.
