(* ===== verification/Client.v ===== *)
(** * The frontend's submissions: [SubmitBar], [resubmitTask] and [TaskList]

    Models [src/src/components/cards/SubmitBar.tsx] (the [submit]
    handler), [src/src/utils/resubmitTask.ts] and the WebSocket
    subscriptions of [src/src/components/TaskList.tsx]:

    - the coordinate tags [toRect] and [toCircle] that [submit] appends
      to the prompt, one per annotation element, and the JSON payload it
      posts to [/api/submit];
    - [submit] up to the start of the watch: the new task in the store,
      and the error paths ([HTTP <status>], a rejected fetch, a body that
      is not JSON) that mark it [FAILED];
    - the watch that follows: the WebSocket handlers and the 5 s polling
      interval as a step function on [watch] driven by [watch_event]s;
    - [resubmitTask], which posts a stored payload again and polls;
    - the message handler of [TaskList]'s per-task sockets.

    [fetch] replies are [ApiClient.response]s; [alert] calls are the
    [list string] each step returns.  Numbers are exact rationals, as in
    [Store]; [Math.sqrt] of the squared distance is rounded by
    [round_sqrt], which computes the nearest integer to the exact root. *)

From Stdlib Require Import QArith Qminmax Qround Lqa.
From S2P Require Import Prelude JsString Json ApiClient Store.
Import Js Json Api Store.

Module Client.

(** ** Coordinate tags (SubmitBar, lines 33-51) *)

(** [Math.min(...xs)] and [Math.max(...xs)] of a non-empty list. *)
Definition min_of (x : Q) (xs : list Q) : Q := fold_left Qmin xs x.
Definition max_of (x : Q) (xs : list Q) : Q := fold_left Qmax xs x.

(** [toRect]: the rounded bounding box of all the points; on no point
    [Math.min()] is [Infinity] and the tag is [@rect(Infinity,...)]. *)
Definition toRect (pts : list point) : string :=
  match pts with
  | [] => "@rect(Infinity,Infinity,1,1)"
  | p :: ps =>
      let minX := js_round (min_of (px p) (map px ps)) in
      let minY := js_round (min_of (py p) (map py ps)) in
      let maxX := js_round (max_of (px p) (map px ps)) in
      let maxY := js_round (max_of (py p) (map py ps)) in
      let w := Z.max 1 (maxX - minX) in
      let h := Z.max 1 (maxY - minY) in
      ⟪ "@rect("; show_Z minX; ","; show_Z minY; ","; show_Z w; ","; show_Z h; ")" ⟫
  end.

(** [Math.round(Math.sqrt(d))] for [d >= 0]: [k] is the nearest integer
    to [√d] exactly when [(2k-1)^2 <= 4d < (2k+1)^2]
    (see [round_sqrt_spec]). *)
Definition round_sqrt (d : Q) : Z := (Z.sqrt (Qfloor (4 * d)%Q) + 1) / 2.

(** [toCircle]: centre at the first point, radius to the last; on no
    point [pts[0].x] throws a [TypeError] ([None]). *)
Definition toCircle (pts : list point) : option string :=
  match pts with
  | [] => None
  | p1 :: _ =>
      let p2 := List.last pts p1 in
      let cx := js_round (px p1) in
      let cy := js_round (py p1) in
      let dx := (px p2 - px p1)%Q in
      let dy := (py p2 - py p1)%Q in
      let r := Z.max 1 (round_sqrt (dx * dx + dy * dy)%Q) in
      Some ⟪ "@circle("; show_Z cx; ","; show_Z cy; ","; show_Z r; ")" ⟫
  end.

Definition coord_tag (el : MaskElement) : option string :=
  if bool_decide (me_type el = circle) then toCircle (me_points el)
  else Some (toRect (me_points el)).

(** [processedPrompt] (lines 21-58): the prompt, then a line with the
    tags of all the elements separated by spaces. *)
Definition processed_prompt (prompt : option string) (elements : list MaskElement)
  : option string :=
  let p := default "" prompt in
  match elements with
  | [] => Some p
  | _ :: _ => tags ← mapM coord_tag elements; Some ⟪ p; String c_nl ""; join " " tags ⟫
  end.

(** ** The payload (lines 60-66) *)

Definition preprocess_name (p : preprocess) : string :=
  match p with none => "none" | foreground_only => "foreground_only" end.

Definition asset_json (a : ReferenceAsset) : json :=
  JObj [("id", JStr (ra_id a)); ("url", JStr (ra_url a));
        ("preprocess", JStr (preprocess_name (ra_preprocess a)))].

(** [JSON.stringify] leaves out a field whose value is [undefined]. *)
Definition opt_field (k : string) (v : option string) : list (string * json) :=
  match v with Some x => [(k, JStr x)] | None => [] end.

Definition submit_payload (project_now : N) (s : app_state) (processedPrompt : string) : json :=
  JObj ([("project_id", JStr (show_N project_now))] ++ opt_field "base_image" (s_baseImage s) ++
        [("reference_assets", JArr (map asset_json (s_materials s)));
         ("global_params",
            JObj ([("output_resolution", JStr (s_outputResolution s)); ("seed", JNum 42)]
                  ++ opt_field "model" (s_model s)));
         ("prompt", JStr processedPrompt)]).

(** ** [submit] up to the watch (lines 16-101 and 188-192) *)

(** The state of one watch: the task's id in the store, the server's
    [taskId], [pollCount], [wsConnected], whether the interval is still
    set and whether the socket is still open (a closed socket delivers no
    more messages). *)
Record watch := mk_watch {
  wt_id : string;
  wt_taskId : option json;
  wt_pollCount : nat;
  wt_wsConnected : bool;
  wt_polling : bool;
  wt_wsOpen : bool
}.

Definition failed_patch : TaskPatch := mk_patch (Some (js_str "FAILED")) None.

(** [String(err)] for an [Error]: [name: message]. *)
Definition error_string (e : error) : string :=
  if String.eqb (err_message e) "" then err_name e else ⟪ err_name e; ": "; err_message e ⟫.

(** The reply to [POST /api/submit] read as [submit] reads it: the
    [taskId] of its JSON body, or the error that is thrown. *)
Definition read_submit_reply (res : response) : option json + error :=
  match res with
  | NetError e => inr e
  | Reply r =>
      if negb (ok r) then inr (Error ⟪ "HTTP "; show_N (r_status r); ": "; r_statusText r ⟫)
      else match reply_json r with
           | inr e => inr e
           | inl JNull =>
               inr (mk_error "TypeError" "Cannot destructure property 'taskId' of 'responseData' as it is null.")
           | inl responseData => inl (member "taskId" (Some responseData))
           end
  end.

(** [submit] at the times [t_id] ([job_<t_id>]), [t_project] and
    [t_created] its three [Date.now()] calls read.  A [toCircle] on no
    point throws before [addTask], so its [updateTask] finds no task. *)
Definition submit (t_id t_project t_created : N) (s : app_state) (res : response)
  : app_state * option watch * list string :=
  let id := "job_" +:+ show_N t_id in
  match processed_prompt (s_prompt s) (sm_elements (s_mask s)) with
  | None =>
      (updateTask id failed_patch s, None,
       ["提交失败: Cannot read properties of undefined (reading 'x')"])
  | Some processedPrompt =>
      let payload := submit_payload t_project s processedPrompt in
      let s1 := addTask (mk_task id ⟪ "生成任务（"; s_outputResolution s; "）" ⟫
                           (js_str "PROCESSING") None t_created (Some payload)) s in
      match read_submit_reply res with
      | inr e => (updateTask id failed_patch s1, None, ["提交失败: " +:+ err_message e])
      | inl taskId => (s1, Some (mk_watch id taskId 0 false true true), [])
      end
  end.

(** ** The watch (lines 104-187) *)

(** [a === b] on the values the handlers compare: primitives by value;
    objects and arrays are never equal (they are fresh references). *)
Definition strict_eq (a b : option json) : bool :=
  match a, b with
  | None, None => true
  | Some JNull, Some JNull => true
  | Some (JBool x), Some (JBool y) => Bool.eqb x y
  | Some (JNum x), Some (JNum y) => Z.eqb x y
  | Some (JStr x), Some (JStr y) => String.eqb x y
  | _, _ => false
  end.

Inductive watch_event :=
  | WsOpen
  | WsMessage (msg : json)            (* [JSON.parse(ev.data)] *)
  | WsError
  | WsClose
  | PollTick (task : option json).    (* the status reply's JSON body; [None]: [fetch] or [json()] threw *)

Definition stopAll (w : watch) : watch :=
  mk_watch (wt_id w) (wt_taskId w) (wt_pollCount w) (wt_wsConnected w) false (wt_wsOpen w).

(** [ws.close()]. *)
Definition close_ws (w : watch) : watch :=
  mk_watch (wt_id w) (wt_taskId w) (wt_pollCount w) (wt_wsConnected w) (wt_polling w) false.

Definition set_connected (b : bool) (w : watch) : watch :=
  mk_watch (wt_id w) (wt_taskId w) (wt_pollCount w) b (wt_polling w) (wt_wsOpen w).

(** [ws.onmessage]. *)
Definition on_ws_message (msg : json) (w : watch) (s : app_state) : watch * app_state :=
  if strict_eq (member "taskId" (Some msg)) (wt_taskId w) then
    let st := member "status" (Some msg) in
    if strict_eq st (js_str "COMPLETE") then
      (close_ws (stopAll w),
       updateTask (wt_id w) (mk_patch (Some (js_str "COMPLETE")) (Some (member "result" (Some msg)))) s)
    else if strict_eq st (js_str "FAILED") then
      (close_ws (stopAll w), updateTask (wt_id w) failed_patch s)
    else (w, updateTask (wt_id w) (mk_patch (Some st) None) s)
  else (w, s).

(** The alerts of a polling loop: completion, failure (with the error
    text) and timeout. *)
Record poll_texts := mk_texts { tx_done : string; tx_failed : string -> string; tx_timeout : string }.

Definition submit_texts : poll_texts :=
  mk_texts "任务完成！" (fun e => "任务失败：" +:+ e) "任务超时，请稍后查看或重新提交".

(** One run of the interval callback (lines 156-187): [pollCount++],
    nothing more while the socket is connected ([checkWs]), else the
    status query and its three outcomes.  A reply body that is [null]
    makes [task.status] throw, which the [catch] swallows. *)
Definition poll_tick (tx : poll_texts) (checkWs : bool) (reply : option json) (w : watch)
    (s : app_state) : watch * app_state * list string :=
  let pollCount := S (wt_pollCount w) in
  let w1 := mk_watch (wt_id w) (wt_taskId w) pollCount (wt_wsConnected w) (wt_polling w) (wt_wsOpen w) in
  if checkWs && wt_wsConnected w then (w1, s, []) else
  match reply with
  | None | Some JNull => (w1, s, [])
  | Some task =>
      let st := member "status" (Some task) in
      if strict_eq st (js_str "COMPLETE") then
        (stopAll w1,
         updateTask (wt_id w) (mk_patch (Some (js_str "COMPLETE")) (Some (member "result" (Some task)))) s,
         [tx_done tx])
      else if strict_eq st (js_str "FAILED") then
        (stopAll w1, updateTask (wt_id w) failed_patch s,
         [tx_failed tx (match or_else (member "error" (Some task)) (Some (JStr "未知错误")) with
                        | Some v => js_string v
                        | None => "undefined"
                        end)])
      else if 60 <=? pollCount then
        (stopAll w1, updateTask (wt_id w) failed_patch s, [tx_timeout tx])
      else (w1, s, [])
  end.

(** The handlers, on the events that reach them: a socket delivers
    nothing once closed and a cleared interval never fires again. *)
Definition watch_step (e : watch_event) (w : watch) (s : app_state)
  : watch * app_state * list string :=
  match e with
  | WsOpen => if wt_wsOpen w then (set_connected true w, s, []) else (w, s, [])
  | WsMessage msg =>
      if wt_wsOpen w then let '(w', s') := on_ws_message msg w s in (w', s', []) else (w, s, [])
  | WsError => (close_ws (set_connected false w), s, [])
  | WsClose => (set_connected false w, s, [])
  | PollTick reply => if wt_polling w then poll_tick submit_texts true reply w s else (w, s, [])
  end.

Fixpoint watch_run (es : list watch_event) (w : watch) (s : app_state)
  : watch * app_state * list string :=
  match es with
  | [] => (w, s, [])
  | e :: es' =>
      let '(w1, s1, a1) := watch_step e w s in
      let '(w2, s2, a2) := watch_run es' w1 s1 in (w2, s2, a1 ++ a2)
  end.

(** ** [resubmitTask] (resubmitTask.ts, lines 5-85) *)

(** [`${v}`] of a value that may be [undefined]. *)
Definition template_value (v : option json) : string :=
  match v with Some x => js_string x | None => "undefined" end.

Definition resubmit_texts : poll_texts :=
  mk_texts "重新生成完成！" (fun e => "重新生成失败：" +:+ e) "重新生成超时".

(** The new task [job_<now>_retry], titled with [payload.resolution],
    then the POST of the same payload; on success the polling starts
    (there is no socket: [wsOpen] is false and [checkWs] is not set). *)
Definition resubmitTask (now : N) (originalTaskId : string) (payload : json) (res : response)
    (s : app_state) : app_state * option watch * list string :=
  let id := ⟪ "job_"; show_N now; "_retry" ⟫ in
  let s1 := addTask (mk_task id ⟪ "重新生成（"; template_value (member "resolution" (Some payload)); "）" ⟫
                       (js_str "PROCESSING") None now (Some payload)) s in
  match read_submit_reply res with
  | inr e => (updateTask id failed_patch s1, None, ["重新生成失败：" +:+ error_string e])
  | inl taskId => (s1, Some (mk_watch id taskId 0 false true false), [])
  end.

Definition resubmit_poll_tick (reply : option json) (w : watch) (s : app_state)
  : watch * app_state * list string :=
  if wt_polling w then poll_tick resubmit_texts false reply w s else (w, s, []).

(** ** [TaskList] (lines 24-65) *)

Definition is_terminal_status (st : option json) : bool :=
  strict_eq st (js_str "COMPLETE") || strict_eq st (js_str "FAILED").

(** The tasks the effect opens a socket for, and the subscribe message
    each socket sends on open. *)
Definition tasklist_subscriptions (s : app_state) : list json :=
  map (fun t => JObj [("taskId", JStr (ct_id t))])
    (filter (fun t => is_terminal_status (ct_status t) = false) (s_tasks s)).

(** [ws.onmessage] of the socket of task [tid]. *)
Definition tasklist_on_message (tid : string) (msg : json) (s : app_state) : app_state :=
  if strict_eq (member "taskId" (Some msg)) (js_str tid) then
    let r := member "result" (Some msg) in
    updateTask tid (mk_patch (Some (member "status" (Some msg))) (Some (if truthy r then r else None))) s
  else s.

(** [handleResubmit]: a task without a payload is refused with an alert. *)
Definition handleResubmit (now : N) (t : Task) (res : response) (s : app_state)
  : app_state * option watch * list string :=
  match ct_payload t with
  | Some payload =>
      if truthy (Some payload) then resubmitTask now (ct_id t) payload res s
      else (s, None, ["该任务无法重新生成，缺少原始参数"])
  | None => (s, None, ["该任务无法重新生成，缺少原始参数"])
  end.

(** ** [Math.round(Math.sqrt(d))] *)

Lemma round_sqrt_int (f : Z) : (0 <= f)%Z ->
  let k := ((Z.sqrt f + 1) / 2)%Z in
  (0 <= k)%Z /\ ((1 <= k)%Z -> ((2 * k - 1) ^ 2 <= f)%Z) /\ (f < (2 * k + 1) ^ 2)%Z.
Proof.
  intros Hf k. pose proof (Z.sqrt_spec f Hf) as [H1 H2]. pose proof (Z.sqrt_nonneg f) as H0.
  set (m := Z.sqrt f) in *. subst k.
  destruct (Z.Even_or_Odd m) as [[j Hj]|[j Hj]]; subst m; rewrite Hj in *.
  - replace ((2 * j + 1) / 2)%Z with j by (apply Z.div_unique with 1%Z; lia).
    split_and!; [lia|intros; nia|nia].
  - replace ((2 * j + 1 + 1) / 2)%Z with (j + 1)%Z by (apply Z.div_unique with 0%Z; lia).
    split_and!; [lia|intros; nia|nia].
Qed.

(** [round_sqrt d] is [Math.round(Math.sqrt(d))]: the integer [k >= 0]
    with [k - 1/2 <= √d < k + 1/2], stated without roots as
    [(2k-1)^2 <= 4d] (for [k >= 1]) and [4d < (2k+1)^2]. *)
Theorem round_sqrt_spec (d : Q) : (0 <= d)%Q ->
  let k := round_sqrt d in
  (0 <= k)%Z /\ ((1 <= k)%Z -> (inject_Z ((2 * k - 1) ^ 2) <= 4 * d)%Q) /\
  (4 * d < inject_Z ((2 * k + 1) ^ 2))%Q.
Proof.
  intros Hd k. set (f := Qfloor (4 * d)).
  assert (Hf : (0 <= f)%Z) by (change 0%Z with (Qfloor 0); apply Qfloor_resp_le; lra).
  destruct (round_sqrt_int f Hf) as (Hk & Hlo & Hhi). unfold k, round_sqrt. fold f.
  pose proof (Qfloor_le (4 * d)) as Hle. pose proof (Qlt_floor (4 * d)) as Hlt. fold f in Hle, Hlt.
  split_and!; [done| |].
  - intros H1. apply (Qle_trans _ (inject_Z f)); [rewrite <- Zle_Qle; auto|exact Hle].
  - apply (Qlt_le_trans _ (inject_Z (f + 1))); [exact Hlt|rewrite <- Zle_Qle; lia].
Qed.

(** ** The watch *)

Lemma watch_run_cons (e : watch_event) (es : list watch_event) (w : watch) (s : app_state) :
  watch_run (e :: es) w s =
  let '(w1, s1, a1) := watch_step e w s in
  let '(w2, s2, a2) := watch_run es w1 s1 in (w2, s2, a1 ++ a2).
Proof. done. Qed.

(** A watch whose interval is cleared and whose socket is closed stays
    so and changes nothing in the store. *)
Lemma watch_step_done (e : watch_event) (w : watch) (s : app_state) :
  wt_polling w = false -> wt_wsOpen w = false ->
  let '(w1, s1, _) := watch_step e w s in s1 = s /\ wt_polling w1 = false /\ wt_wsOpen w1 = false.
Proof. intros Hp Ho. destruct e; cbn; rewrite ?Hp, ?Ho; done. Qed.

Lemma watch_run_done (es : list watch_event) (w : watch) (s : app_state) :
  wt_polling w = false -> wt_wsOpen w = false -> (watch_run es w s).1.2 = s.
Proof.
  revert w s. induction es as [|e es IH]; intros w s Hp Ho; [done|].
  rewrite watch_run_cons. pose proof (watch_step_done e w s Hp Ho) as Hd.
  destruct (watch_step e w s) as [[w1 s1] a1]. destruct Hd as (-> & Hp1 & Ho1).
  pose proof (IH w1 s Hp1 Ho1) as Hr. destruct (watch_run es w1 s) as [[w2 s2] a2].
  exact Hr.
Qed.

(** A tick whose status query answered with a JSON body increments
    [pollCount] and either clears the interval or leaves it set with
    [pollCount < 60]; the socket flags are untouched. *)
Lemma poll_tick_answered (tx : poll_texts) (checkWs : bool) (j : json) (w : watch) (s : app_state) :
  checkWs && wt_wsConnected w = false -> j <> JNull ->
  let w1 := (poll_tick tx checkWs (Some j) w s).1.1 in
  wt_wsConnected w1 = wt_wsConnected w /\ wt_wsOpen w1 = wt_wsOpen w /\
  wt_pollCount w1 = S (wt_pollCount w) /\
  (wt_polling w1 = false \/ (wt_polling w1 = wt_polling w /\ S (wt_pollCount w) < 60)).
Proof.
  intros Hc Hj. unfold poll_tick. rewrite Hc. destruct j; try done;
    repeat case_match; cbn; split_and!; try done; first [by left | right; split; [done|]];
    by apply Nat.leb_gt.
Qed.

Definition answered (replies : list json) : list watch_event :=
  map (fun j => PollTick (Some j)) replies.

Lemma ticks_ignored (replies : list json) (w : watch) (s : app_state) :
  wt_polling w = false -> watch_run (answered replies) w s = (w, s, []).
Proof.
  intros Hp. induction replies as [|j js IH]; [done|].
  unfold answered at 1; cbn [map]; rewrite watch_run_cons. cbn [watch_step]. rewrite Hp.
  fold (answered js). by rewrite IH.
Qed.

Lemma watch_polls_bound (replies : list json) (w : watch) (s : app_state) :
  wt_wsConnected w = false -> Forall (fun j => j <> JNull) replies ->
  (wt_polling w = true -> wt_pollCount w < 60) -> 60 <= wt_pollCount w + length replies ->
  wt_polling (watch_run (answered replies) w s).1.1 = false.
Proof.
  revert w s. induction replies as [|j js IH]; intros w s Hc Hj Hinv Hn.
  - cbn in *. destruct (wt_polling w); [|done]. specialize (Hinv eq_refl). lia.
  - apply Forall_cons in Hj as [Hj Hjs].
    destruct (wt_polling w) eqn:Hp; [|by rewrite ticks_ignored].
    unfold answered at 1; cbn [map]; rewrite watch_run_cons. cbn [watch_step]. rewrite Hp. fold (answered js).
    pose proof (poll_tick_answered submit_texts true j w s) as Ht. rewrite Hc in Ht.
    destruct (poll_tick submit_texts true (Some j) w s) as [[w1 s1] a1].
    destruct (Ht eq_refl Hj) as (Hc1 & _ & Hn1 & Hp1); cbn in Hc1, Hn1, Hp1.
    destruct Hp1 as [Hp1|[Hp1 Hlt]].
    + rewrite ticks_ignored by done. done.
    + pose proof (IH w1 s1 ltac:(congruence) Hjs ltac:(lia) ltac:(cbn in Hn; lia)) as H.
      destruct (watch_run (answered js) w1 s1) as [[w2 s2] a2]. exact H.
Qed.

(** C27: without a connected socket, the polling of [submit] stops by the
    60th tick at which the status query answers with a JSON body: the
    task is then [COMPLETE], [FAILED] or timed out. *)
Theorem watch_polls_at_most_60 (replies : list json) (w : watch) (s : app_state) :
  wt_wsConnected w = false -> wt_pollCount w = 0 -> Forall (fun j => j <> JNull) replies ->
  60 <= length replies -> wt_polling (watch_run (answered replies) w s).1.1 = false.
Proof. intros Hc H0 Hj Hn. apply watch_polls_bound; rewrite ?H0; [done|done|lia|lia]. Qed.

(** A tick that does nothing but count: the socket is connected, or the
    status query threw. *)
Lemma poll_tick_skipped (tx : poll_texts) (reply : option json) (w : watch) (s : app_state) :
  wt_wsConnected w = true \/ reply = None ->
  poll_tick tx true reply w s
  = (mk_watch (wt_id w) (wt_taskId w) (S (wt_pollCount w)) (wt_wsConnected w) (wt_polling w)
       (wt_wsOpen w), s, []).
Proof. unfold poll_tick. intros [->| ->]; [done|]. by destruct (wt_wsConnected w). Qed.

(** C38: the 60-poll timeout of [submit] is only checked after a status
    query that answers while the socket is not connected: as long as the
    socket stays connected, or every query throws, the interval keeps
    running and the task is never marked [FAILED], however many ticks
    pass. *)
Theorem watch_timeout_skipped (replies : list (option json)) (w : watch) (s : app_state) :
  wt_wsConnected w = true \/ Forall (fun r => r = None) replies ->
  (watch_run (map PollTick replies) w s).1.2 = s /\
  wt_polling (watch_run (map PollTick replies) w s).1.1 = wt_polling w.
Proof.
  revert w. induction replies as [|r rs IH]; intros w Hsk; [done|].
  cbn [map]. rewrite watch_run_cons. cbn [watch_step].
  destruct (wt_polling w) eqn:Hp.
  - rewrite poll_tick_skipped
      by (destruct Hsk as [|Hf]; [by left|right; by apply Forall_inv in Hf]).
    set (w1 := mk_watch _ _ _ _ _ _).
    destruct (IH w1) as [H1 H2]; [destruct Hsk as [|Hf]; [by left|right; by apply Forall_inv_tail in Hf]|].
    destruct (watch_run (map PollTick rs) w1 s) as [[w2 s2] a2]. cbn in *. by rewrite H1, H2.
  - assert (Hi : forall rs', watch_run (map PollTick rs') w s = (w, s, [])).
    { induction rs' as [|r' rs' IH']; [done|]. cbn [map]. rewrite watch_run_cons. cbn [watch_step].
      rewrite Hp, IH'. done. }
    by rewrite Hi.
Qed.

(** C39: a [COMPLETE] frame for the watched task marks the store's task
    [COMPLETE] with the frame's [result], clears the interval and closes
    the socket; no later event changes the store again. *)
Theorem watch_complete_final (msg : json) (w : watch) (s : app_state) (es : list watch_event) :
  wt_wsOpen w = true -> strict_eq (member "taskId" (Some msg)) (wt_taskId w) = true ->
  member "status" (Some msg) = Some (JStr "COMPLETE") ->
  (watch_run (WsMessage msg :: es) w s).1.2
  = updateTask (wt_id w) (mk_patch (Some (js_str "COMPLETE")) (Some (member "result" (Some msg)))) s.
Proof.
  intros Ho Hid Hst. rewrite watch_run_cons. cbn [watch_step]. rewrite Ho.
  unfold on_ws_message. rewrite Hid, Hst.
  assert (E : strict_eq (Some (JStr "COMPLETE")) (js_str "COMPLETE") = true) by reflexivity.
  rewrite E. cbn -[updateTask watch_run]. set (s1 := updateTask _ _ s).
  pose proof (watch_run_done es (close_ws (stopAll w)) s1 eq_refl eq_refl) as H.
  destruct (watch_run es _ s1) as [[w2 s2] a2]. exact H.
Qed.

(** [resubmitTask] titles the new task with [payload.resolution],
    which the payloads [submit] builds never have: every resubmitted
    task is titled [重新生成（undefined）]. *)
Theorem resubmit_title_undefined (now t_project : N) (s0 : app_state) (pp orig : string)
    (res : response) (s : app_state) :
  exists t ts, s_tasks (resubmitTask now orig (submit_payload t_project s0 pp) res s).1.1 = t :: ts /\
               ct_title t = "重新生成（undefined）".
Proof.
  assert (Hr : member "resolution" (Some (submit_payload t_project s0 pp)) = None)
    by (unfold submit_payload; destruct (s_baseImage s0), (s_model s0); reflexivity).
  unfold resubmitTask. rewrite Hr.
  destruct (read_submit_reply res); cbn; eexists _, _; (split; [reflexivity|]);
    cbn; try case_match; reflexivity.
Qed.

(** [toRect] and [toCircle] give the tags that
    [src/src/__tests__/coordTags.test.ts] expects. *)
Example coord_tags_match_tests :
  let P (x y : Z) := mk_point (inject_Z x) (inject_Z y) in
  toRect [P 10 10; P 20 30; P 15 25]%Z = "@rect(10,10,10,20)" /\
  toRect [P 100 120; P 400 360]%Z = "@rect(100,120,300,240)" /\
  toCircle [P 50 50; P 60 50]%Z = Some "@circle(50,50,10)".
Proof. vm_compute. split_and!; reflexivity. Qed.

(** ** Instances *)

Definition example_watch : watch := mk_watch "job_1" (Some (JStr "job_2")) 0 false true true.

Definition processing_reply : json := JObj [("id", JStr "job_2"); ("status", JStr "PROCESSING")].

Lemma round_sqrt_spec_witness :
  (0 <= 30)%Q /\ round_sqrt 30 = 5%Z /\
  let k := round_sqrt 30 in
  (0 <= k)%Z /\ ((1 <= k)%Z -> (inject_Z ((2 * k - 1) ^ 2) <= 4 * 30)%Q) /\
  (4 * 30 < inject_Z ((2 * k + 1) ^ 2))%Q.
Proof.
  assert (H : (0 <= 30)%Q) by (apply Qle_bool_imp_le; reflexivity).
  split_and!; [exact H|reflexivity|exact (round_sqrt_spec 30 H)].
Defined.

Lemma watch_polls_at_most_60_witness :
  wt_polling (watch_run (answered (replicate 60 processing_reply)) example_watch
                (initial_state 0)).1.1 = false.
Proof.
  apply watch_polls_at_most_60; [reflexivity|reflexivity| |by rewrite length_replicate].
  by apply Forall_replicate.
Defined.

Lemma watch_timeout_skipped_witness :
  (watch_run (map PollTick (replicate 100 None)) example_watch (initial_state 0)).1.2
    = initial_state 0 /\
  wt_polling (watch_run (map PollTick (replicate 100 None)) example_watch (initial_state 0)).1.1
    = true.
Proof.
  apply (watch_timeout_skipped (replicate 100 None) example_watch). right.
  by apply Forall_replicate.
Defined.

Definition complete_frame : json :=
  JObj [("taskId", JStr "job_2"); ("status", JStr "COMPLETE");
        ("result", JStr "http://localhost:3001/uploads/results/result_job_2.png"); ("error", JNull)].

Lemma watch_complete_final_witness :
  (watch_run [WsMessage complete_frame; PollTick (Some processing_reply); WsClose]
     example_watch (initial_state 0)).1.2
  = updateTask "job_1" (mk_patch (Some (js_str "COMPLETE"))
                          (Some (member "result" (Some complete_frame)))) (initial_state 0).
Proof. apply watch_complete_final; reflexivity. Defined.

End Client.
