(* ===== verification/Canvas.v ===== *)
(** * The annotation canvas ([BaseImageCard_New.tsx])

    Models the drawing logic of [src/src/components/cards/BaseImageCard_New.tsx],
    the card [SystemPanel] mounts: the pointer handlers that collect the
    points of a stroke, the smoothing of brush strokes ([smoothPoints]),
    the element [handleMouseUp] saves into the store with its automatic
    name ([toChinese]), the toolbar and element-list buttons (undo,
    clear, delete, insert a coordinate tag), and the image upload
    ([onSelect]) in its three parts; also the delete button of
    [MaskBindingCard.tsx], which rebuilds the mask the same way.

    The card's local React state ([drawMode], [drawingPoints],
    [isDrawing], [brushSize]) is the record [canvas]; the store is
    [Store.app_state].  Each handler is a function of both, and a session
    is a sequence of [canvas_event]s run by [canvas_run].  A pointer
    position is given in stage coordinates together with the [viewScale]
    of the render it happens in.  Numbers are exact rationals as in
    [Store]; [Math.sqrt(d) > 2] is [d > 4]. *)

From Stdlib Require Import QArith Qminmax Qround Lqa.
From S2P Require Import Prelude JsString Json ApiClient Store Client.
Import Js Json Store Client.

Module Canvas.

(** ** The view scale (lines 78-83) *)

(** [Math.min(1, (containerWidth - 24) / meta.width)], [1] when the
    width is [0]. *)
Definition viewScale (containerWidth metaWidth : Q) : Q :=
  if Qeq_bool metaWidth 0 then 1%Q else Qmin 1 ((containerWidth - 24) / metaWidth)%Q.

(** ** [smoothPoints] (lines 85-116) *)

Definition sum_x (sl : list point) : Q := fold_left (fun s p => s + px p)%Q sl 0%Q.
Definition sum_y (sl : list point) : Q := fold_left (fun s p => s + py p)%Q sl 0%Q.

(** [pts.slice(start, end)]. *)
Definition slice {A} (start end_ : nat) (l : list A) : list A := take (end_ - start) (drop start l).

(** The average of the points of [pts.slice(start, end)] around [i]. *)
Definition smooth_at (pts : list point) (window i : nat) : point :=
  let start := i - window / 2 in
  let end_ := Nat.min (length pts) (i + (window + 1) / 2) in
  let sl := slice start end_ pts in
  mk_point (sum_x sl / inject_Z (Z.of_nat (length sl)))%Q
           (sum_y sl / inject_Z (Z.of_nat (length sl)))%Q.

(** [Math.sqrt(dx² + dy²) > tolerance], for [tolerance = 2]. *)
Definition far (prev curr : point) : bool :=
  let dx := (px curr - px prev)%Q in
  let dy := (py curr - py prev)%Q in
  negb (Qle_bool (dx * dx + dy * dy) (2 * 2)).

(** The loop of lines 102-110 over [out[1 .. length-2]]: a point is kept
    when it is far from the last kept one. *)
Fixpoint simplify_from (prev : point) (l : list point) : list point :=
  match l with
  | [] => []
  | curr :: l' => if far prev curr then curr :: simplify_from curr l' else simplify_from prev l'
  end.

Definition smoothPoints (pts : list point) (window : nat) : list point :=
  if length pts <=? window then pts else
  let out := map (smooth_at pts window) (seq 0 (length pts)) in
  if 10 <? length out then
    match out with
    | [] => []
    | o0 :: rest => o0 :: simplify_from o0 (removelast rest) ++ [List.last out o0]
    end
  else out.

(** ** The card's state (lines 22-28) *)

Inductive draw_mode := mode_brush | mode_rectangle | mode_circle.

#[export] Instance draw_mode_eq_dec : EqDecision draw_mode.
Proof. solve_decision. Defined.

Definition mode_type (m : draw_mode) : element_type :=
  match m with mode_brush => brush | mode_rectangle => rectangle | mode_circle => circle end.

Record canvas := mk_canvas {
  c_drawMode : draw_mode;
  c_drawingPoints : list point;
  c_isDrawing : bool;
  c_brushSize : N
}.

Definition initial_canvas : canvas := mk_canvas mode_brush [] false 20.

Definition with_points (pts : list point) (c : canvas) : canvas :=
  mk_canvas (c_drawMode c) pts (c_isDrawing c) (c_brushSize c).

(** ** The pointer handlers (lines 118-183) *)

Definition original (p : point) (scale : Q) : point := mk_point (px p / scale)%Q (py p / scale)%Q.

Definition handleMouseDown (p : point) (scale : Q) (c : canvas) : canvas :=
  mk_canvas (c_drawMode c) [original p scale] true (c_brushSize c).

(** A rectangle or circle keeps its first point and the current one; a
    brush stroke grows and, past ten points, all but its last three are
    smoothed again.  ([drawingPoints[0]] is always defined while drawing:
    see [canvas_wf].) *)
Definition handleMouseMove (p : point) (scale : Q) (c : canvas) : canvas :=
  if negb (c_isDrawing c) then c else
  let o := original p scale in
  match c_drawMode c with
  | mode_rectangle | mode_circle =>
      with_points (match c_drawingPoints c with p0 :: _ => [p0; o] | [] => [o] end) c
  | mode_brush =>
      let newPoints := c_drawingPoints c ++ [o] in
      with_points
        (if 10 <? length newPoints then
           smoothPoints (take (length newPoints - 3) newPoints) 5 ++ drop (length newPoints - 3) newPoints
         else newPoints) c
  end.

(** [toChinese]: the numerals 一 .. 二十, then the decimal digits. *)
Definition chinese_numerals : list string :=
  ["一"; "二"; "三"; "四"; "五"; "六"; "七"; "八"; "九"; "十";
   "十一"; "十二"; "十三"; "十四"; "十五"; "十六"; "十七"; "十八"; "十九"; "二十"].

(** [map[n - 1] || String(n)] for a table [map] of numerals ([map[-1]]
    is [undefined]). *)
Definition table_numeral (tbl : list string) (n : nat) : string :=
  match n with
  | O => "0"
  | S k => default (show_N (N.of_nat n)) (tbl !! k)
  end.

Definition toChinese (n : nat) : string := table_numeral chinese_numerals n.

Definition type_label (t : element_type) : string :=
  match t with rectangle => "矩形" | circle => "圆形" | _ => "画笔" end.

Definition count_type (t : element_type) (els : list MaskElement) : nat :=
  length (filter (fun e => me_type e = t) els).

(** The element saved at time [now]: named after the number of elements
    of its type, the new one included. *)
Definition new_element (now : N) (c : canvas) (pts : list point) (s : app_state) : MaskElement :=
  let t := mode_type (c_drawMode c) in
  mk_element ("element_" +:+ show_N now)
    (Some (type_label t +:+ toChinese (S (count_type t (sm_elements (s_mask s))))))
    t (s_currentMaskColor s) pts (c_brushSize c) None.

Definition handleMouseUp (now : N) (c : canvas) (s : app_state) : canvas * app_state :=
  let c1 := mk_canvas (c_drawMode c) (c_drawingPoints c) false (c_brushSize c) in
  if length (c_drawingPoints c) <? 2 then (with_points [] c1, s) else
  let finalPoints :=
    if bool_decide (c_drawMode c = mode_brush) then smoothPoints (c_drawingPoints c) 5
    else c_drawingPoints c in
  (with_points [] c1, addMaskElement now (new_element now c finalPoints s) s).

(** ** The element list's buttons (lines 440-470) *)

(** 插入坐标: the tag [SubmitBar] would write (the same code), appended to
    the prompt after a space; a line gives no tag and a circle without
    points throws. *)
Definition insert_tag (el : MaskElement) : option string :=
  match me_type el with
  | rectangle | brush => Some (toRect (me_points el))
  | circle => toCircle (me_points el)
  | line => None
  end.

Definition insertCoord (el : MaskElement) (s : app_state) : app_state :=
  match insert_tag el with
  | Some tag =>
      let value := default "" (s_prompt s) in
      setPrompt ((if String.eqb value "" then "" else value +:+ " ") +:+ tag) s
  | None => s
  end.

(** 🗑️: every element with that id removed by [clearMask] and adding the
    others back one by one. *)
Definition deleteElement (now : N) (id : string) (s : app_state) : app_state :=
  let newEls := filter (fun e => me_id e <> id) (sm_elements (s_mask s)) in
  let s1 := fold_left (fun s' ne => addMaskElement now ne s') newEls (clearMask now s) in
  if bool_decide (s_highlightedElementId s = Some id) then setHighlightedElementId None s1 else s1.

(** The delete button of [src/web/src/components/cards/MaskBindingCard.tsx]
    (lines 32-39): the same rebuild from the store's current elements,
    after [confirm], without touching the highlight. *)
Definition maskcard_delete (now : N) (id : string) (confirmed : bool) (s : app_state) : app_state :=
  if confirmed then
    fold_left (fun s' ne => addMaskElement now ne s') (filter (fun e => me_id e <> id) (sm_elements (s_mask s)))
      (clearMask now s)
  else s.

(** ** The image upload ([onSelect], lines 53-75) *)

(** The handler runs in three parts, each a separate event: the file
    input's change, the settling of [await uploadFile(f)], and the
    [Image]'s [onload].  First [setBaseImage(URL.createObjectURL(f))];
    with no file selected nothing happens. *)
Definition select_file (localUrl : option string) (s : app_state) : app_state :=
  match localUrl with Some u => setBaseImage u s | None => s end.

(** The uploaded file's URL becomes the base image; a rejection only
    alerts, the [blob:] URL stays. *)
Definition upload_done (r : string + error) (s : app_state) : app_state :=
  match r with inl ossUrl => setBaseImage ossUrl s | inr _ => s end.

(** [setBaseMeta] and [setOutputResolution(`${img.width}x${img.height}`)]. *)
Definition image_loaded (w h : N) (s : app_state) : app_state :=
  setOutputResolution ⟪ show_N w; "x"; show_N h ⟫ (setBaseMeta (w, h) s).

(** ** Sessions *)

Inductive canvas_event :=
  | MouseDown (p : point) (scale : Q)
  | MouseMove (p : point) (scale : Q)
  | MouseUp (now : N)
  | SetDrawMode (m : draw_mode)
  | SetBrushSize (n : N)
  | PickColor (hex : string)
  | Undo (now : N)
  | ClearAll (now : N) (confirmed : bool)
  | Delete (now : N) (id : string) (confirmed : bool)
  | InsertCoord (id : string)
  | Highlight (id : option string)
  | SelectFile (localUrl : option string)
  | UploadDone (r : string + error)
  | ImageLoaded (w h : N).

Definition canvas_step (e : canvas_event) (c : canvas) (s : app_state) : canvas * app_state :=
  match e with
  | MouseDown p scale => (handleMouseDown p scale c, s)
  | MouseMove p scale => (handleMouseMove p scale c, s)
  | MouseUp now => handleMouseUp now c s
  | SetDrawMode m => (mk_canvas m (c_drawingPoints c) (c_isDrawing c) (c_brushSize c), s)
  | SetBrushSize n => (mk_canvas (c_drawMode c) (c_drawingPoints c) (c_isDrawing c) n, s)
  | PickColor hex => (c, setCurrentMaskColor hex s)
  | Undo now => (c, undoLastElement now s)
  | ClearAll now confirmed => (c, if confirmed then clearMask now s else s)
  | Delete now id confirmed => (c, if confirmed then deleteElement now id s else s)
  | InsertCoord id =>
      (c, match List.find (fun e => String.eqb (me_id e) id) (sm_elements (s_mask s)) with
          | Some el => insertCoord el s
          | None => s
          end)
  | Highlight id => (c, setHighlightedElementId id s)
  | SelectFile u => (c, select_file u s)
  | UploadDone r => (c, upload_done r s)
  | ImageLoaded w h => (c, image_loaded w h s)
  end.

(** The [Stage]'s pointer events and the buttons' clicks, in order. *)
Definition canvas_run : list canvas_event -> canvas -> app_state -> canvas * app_state :=
  run_steps canvas_step.

(** ** Every saved element has at least two points *)

Lemma simplify_from_incl (prev : point) (l : list point) : simplify_from prev l ⊆ l.
Proof.
  revert prev. induction l as [|c l IH]; intros prev; cbn; [done|].
  destruct (far prev c); [pose proof (IH c)|pose proof (IH prev)]; set_solver.
Qed.

Lemma smoothPoints_length (pts : list point) (window : nat) :
  2 <= length pts -> 2 <= length (smoothPoints pts window).
Proof.
  intros H. unfold smoothPoints. destruct (length pts <=? window); [done|].
  remember (map _ _) as out eqn:Ho.
  assert (Hl : length out = length pts) by (subst out; by rewrite length_map, length_seq).
  rewrite Hl. destruct (10 <? length pts) eqn:E; [|lia].
  destruct out as [|o0 rest]; cbn in Hl |- *; [lia|]. rewrite length_app. cbn. lia.
Qed.

Definition mask_wf (s : app_state) : Prop :=
  Forall (fun e => 2 <= length (me_points e)) (sm_elements (s_mask s)).

Definition canvas_wf (c : canvas) : Prop := c_isDrawing c = true -> c_drawingPoints c <> [].

Lemma mask_wf_add (now : N) (e : MaskElement) (s : app_state) :
  mask_wf s -> 2 <= length (me_points e) -> mask_wf (addMaskElement now e s).
Proof. intros Hs He. unfold mask_wf. cbn. apply Forall_app. by split; [|apply Forall_singleton]. Qed.

Lemma mask_wf_fold_add (now : N) (els : list MaskElement) (s : app_state) :
  mask_wf s -> Forall (fun e => 2 <= length (me_points e)) els ->
  mask_wf (fold_left (fun s' ne => addMaskElement now ne s') els s).
Proof.
  revert s. induction els as [|e els IH]; intros s Hs Hels; [done|].
  apply Forall_cons in Hels as [He Hels]. cbn. apply IH; [by apply mask_wf_add|done].
Qed.

Lemma handleMouseMove_wf (p : point) (scale : Q) (c : canvas) :
  canvas_wf c -> canvas_wf (handleMouseMove p scale c).
Proof.
  unfold canvas_wf, handleMouseMove. intros Hc.
  destruct (c_isDrawing c) eqn:Hd; cbn [negb]; [|by rewrite Hd].
  intros _. destruct (c_drawMode c); unfold with_points; cbn [c_drawingPoints].
  - destruct (10 <? length _) eqn:E; intros H; apply (f_equal length) in H;
      rewrite ?length_app, ?length_drop, ?length_app in H; cbn in H; [apply Nat.ltb_lt in E|]; lia.
  - by destruct (c_drawingPoints c).
  - by destruct (c_drawingPoints c).
Qed.

Lemma canvas_step_wf (e : canvas_event) (c : canvas) (s : app_state) :
  canvas_wf c -> mask_wf s ->
  canvas_wf (canvas_step e c s).1 /\ mask_wf (canvas_step e c s).2.
Proof.
  intros Hc Hs. destruct e; cbn [canvas_step fst snd].
  - done.
  - split; [by apply handleMouseMove_wf|done].
  - unfold handleMouseUp. destruct (length (c_drawingPoints c) <? 2) eqn:E; [done|].
    split; [by unfold canvas_wf|]. apply Nat.ltb_ge in E. apply mask_wf_add; [done|]. cbn.
    case_match; [by apply smoothPoints_length|done].
  - done.
  - done.
  - done.
  - split; [done|]. unfold mask_wf. cbn. eapply Forall_subset; [exact Hs|apply removelast_subseteq].
  - split; [done|]. destruct confirmed; [|done]. constructor.
  - split; [done|]. destruct confirmed; [|done]. unfold deleteElement.
    assert (H : mask_wf (fold_left (fun s' ne => addMaskElement now ne s')
                   (filter (fun e => me_id e <> id) (sm_elements (s_mask s))) (clearMask now s))).
    { apply mask_wf_fold_add; [constructor|]. eapply Forall_subset; [exact Hs|apply list_subseteq_filter]. }
    case_match; [exact H|exact H].
  - split; [done|]. case_match; [|done]. unfold insertCoord. by case_match.
  - done.
  - split; [done|]. by destruct localUrl.
  - split; [done|]. by destruct r.
  - done.
Qed.

Lemma canvas_run_wf (es : list canvas_event) (c : canvas) (s : app_state) :
  canvas_wf c -> mask_wf s ->
  canvas_wf (canvas_run es c s).1 /\ mask_wf (canvas_run es c s).2.
Proof.
  intros Hc Hs. apply (run_steps_inv canvas_step (fun _ => True) (fun c s => canvas_wf c /\ mask_wf s));
    [intros e c' s' _ [? ?]; by apply canvas_step_wf|by apply Forall_true|done].
Qed.

(** A mask whose elements all have points gives [SubmitBar] its tags. *)
Lemma coord_tags_total (els : list MaskElement) :
  Forall (fun e => 2 <= length (me_points e)) els -> exists tags, mapM coord_tag els = Some tags.
Proof.
  induction els as [|e els IH]; intros Hf; [by exists []|].
  apply Forall_cons in Hf as [He Hf]. destruct (IH Hf) as [tags Ht].
  assert (Hc : exists tag, coord_tag e = Some tag).
  { unfold coord_tag. case_bool_decide; [|by eexists].
    unfold toCircle. destruct (me_points e); [cbn in He; lia|by eexists]. }
  destruct Hc as [tag Hc]. exists (tag :: tags). cbn. by rewrite Hc, Ht.
Qed.

(** C13: whatever the user does on the canvas (draw, undo, clear, delete,
    insert tags), every element in the store has at least two points, so
    [SubmitBar]'s [toCircle] never reads the point of an empty list and
    the submit always builds its prompt. *)
Theorem canvas_session_submittable (es : list canvas_event) (now : N) :
  mask_wf (canvas_run es initial_canvas (initial_state now)).2 /\
  exists pp, processed_prompt (s_prompt (canvas_run es initial_canvas (initial_state now)).2)
               (sm_elements (s_mask (canvas_run es initial_canvas (initial_state now)).2)) = Some pp.
Proof.
  destruct (canvas_run_wf es initial_canvas (initial_state now)) as [_ Hs];
    [done|constructor|].
  split; [exact Hs|]. unfold processed_prompt.
  destruct (sm_elements _) as [|e els] eqn:E; [by eexists|].
  unfold mask_wf in Hs. rewrite E in Hs. destruct (coord_tags_total _ Hs) as [tags Ht].
  rewrite Ht. by eexists.
Qed.

(** ** Smoothing stays inside the stroke's bounding box *)

(** A box [x0 <= x <= x1], [y0 <= y <= y1]. *)
Definition in_box (x0 x1 y0 y1 : Q) (p : point) : Prop :=
  (x0 <= px p <= x1 /\ y0 <= py p <= y1)%Q.

Lemma fold_sum_shift (f : point -> Q) (l : list point) (acc : Q) :
  (fold_left (fun s p => s + f p) l acc == acc + fold_left (fun s p => s + f p) l 0)%Q.
Proof.
  revert acc. induction l as [|p l IH]; intros acc; cbn; [ring|].
  rewrite (IH (acc + f p)%Q), (IH (0 + f p)%Q). ring.
Qed.

(** The sum of [n] values in [[a, b]] is in [[n a, n b]]. *)
Lemma fold_sum_bounds (f : point -> Q) (a b : Q) (l : list point) :
  Forall (fun p => a <= f p <= b)%Q l ->
  (a * inject_Z (Z.of_nat (length l)) <= fold_left (fun s p => s + f p) l 0 <=
   b * inject_Z (Z.of_nat (length l)))%Q.
Proof.
  induction l as [|p l IH]; intros Hf; cbn [length fold_left].
  { change (inject_Z (Z.of_nat 0)) with 0%Q. rewrite !Qmult_0_r. lra. }
  apply Forall_cons in Hf as [Hp Hf]. specialize (IH Hf).
  rewrite fold_sum_shift, Nat2Z.inj_succ, <- Z.add_1_r, inject_Z_plus. cbn [inject_Z].
  rewrite !Qmult_plus_distr_r. change (inject_Z 1) with 1%Q. rewrite !Qmult_1_r. lra.
Qed.

Lemma avg_bounds (f : point -> Q) (a b : Q) (l : list point) :
  l <> [] -> Forall (fun p => a <= f p <= b)%Q l ->
  (a <= fold_left (fun s p => s + f p) l 0 / inject_Z (Z.of_nat (length l)) <= b)%Q.
Proof.
  intros Hne Hf. pose proof (fold_sum_bounds f a b l Hf) as [Hlo Hhi].
  assert (Hn : (0 < inject_Z (Z.of_nat (length l)))%Q).
  { destruct l; [done|].
    change 0%Q with (inject_Z 0). rewrite <- Zlt_Qlt. cbn [length]. lia. }
  split; [apply Qle_shift_div_l|apply Qle_shift_div_r]; [exact Hn|exact Hlo|exact Hn|exact Hhi].
Qed.

(** The window around an index of the list is never empty (for a
    window of at least one point). *)
Lemma slice_window_ne (pts : list point) (window i : nat) :
  0 < window -> i < length pts -> slice (i - window / 2) (Nat.min (length pts) (i + (window + 1) / 2)) pts <> [].
Proof.
  intros Hw Hi H. apply (f_equal length) in H. unfold slice in H.
  rewrite length_take, length_drop in H.
  assert (1 <= (window + 1) / 2) by (apply Nat.div_le_lower_bound; lia).
  set (a := window / 2) in H. set (b := (window + 1) / 2) in *. clearbody a b. cbn [length] in H. lia.
Qed.

Lemma smooth_at_in_box (x0 x1 y0 y1 : Q) (pts : list point) (window i : nat) :
  0 < window -> Forall (in_box x0 x1 y0 y1) pts -> i < length pts ->
  in_box x0 x1 y0 y1 (smooth_at pts window i).
Proof.
  intros Hw Hf Hi. unfold smooth_at.
  set (sl := slice _ _ pts). assert (Hne : sl <> []) by by apply slice_window_ne.
  assert (Hsl : Forall (in_box x0 x1 y0 y1) sl).
  { eapply Forall_subset; [exact Hf|]. unfold sl, slice.
    etransitivity; [apply subseteq_take|apply subseteq_drop]. }
  split; cbn [px py]; apply avg_bounds; try done;
    (eapply Forall_impl; [exact Hsl|]); by intros p [? ?].
Qed.

(** C30: for a window of at least one point (the card uses 5), every
    point [smoothPoints] returns lies in any box that holds all the
    points of the stroke: the moving average and the simplification
    never move a brush stroke outside its bounding box. *)
Theorem smoothPoints_in_box (x0 x1 y0 y1 : Q) (pts : list point) (window : nat) :
  0 < window ->
  Forall (in_box x0 x1 y0 y1) pts -> Forall (in_box x0 x1 y0 y1) (smoothPoints pts window).
Proof.
  intros Hw Hf. unfold smoothPoints. destruct (length pts <=? window); [done|].
  assert (Hout : Forall (in_box x0 x1 y0 y1) (map (smooth_at pts window) (seq 0 (length pts)))).
  { apply Forall_forall. intros q (i & -> & Hi%elem_of_seq)%list_elem_of_fmap.
    apply smooth_at_in_box; [done|done|lia]. }
  destruct (10 <? _); [|exact Hout].
  destruct (map _ _) as [|o0 rest] eqn:Ho; [constructor|].
  apply Forall_cons in Hout as [H0 Hrest]. constructor; [done|]. apply Forall_app. split.
  - eapply Forall_subset; [exact Hrest|].
    etransitivity; [apply simplify_from_incl|apply removelast_subseteq].
  - apply Forall_singleton. rewrite <- Ho in *.
    apply (proj1 (Forall_forall _ _) (Forall_cons_2 _ _ _ H0 Hrest)).
    rewrite Ho. by apply last_elem_of.
Qed.

(** ** The names [handleMouseUp] gives *)

(** A table of distinct numerals none of which starts with a digit
    numbers injectively. *)
Lemma table_numeral_inj (tbl : list string) (a b : nat) :
  NoDup tbl -> Forall (fun c => forall d t, c = String d t -> is_digit d = false) tbl ->
  1 <= a -> 1 <= b -> table_numeral tbl a = table_numeral tbl b -> a = b.
Proof.
  intros Hnd Hnot. destruct a as [|a], b as [|b]; [lia|lia|lia|]. intros _ _. unfold table_numeral.
  assert (Hd : forall k n c, tbl !! k = Some c -> c <> show_N n).
  { intros k n c Hk ->. destruct (show_N_cons n) as (d & t & Ht & Hdig & _).
    pose proof (proj1 (Forall_lookup _ _) Hnot k _ Hk d t Ht). congruence. }
  destruct (tbl !! a) as [ca|] eqn:Ha, (tbl !! b) as [cb|] eqn:Hb; cbn.
  - intros ->. f_equal. by apply (NoDup_lookup _ _ _ _ Hnd Ha Hb).
  - intros E. by destruct (Hd _ _ _ Ha E).
  - intros E. by destruct (Hd _ _ _ Hb (eq_sym E)).
  - intros E. apply (f_equal digits_val) in E. rewrite !digits_val_show in E. lia.
Qed.

Lemma toChinese_inj (a b : nat) : 1 <= a -> 1 <= b -> toChinese a = toChinese b -> a = b.
Proof.
  apply table_numeral_inj; [apply (bool_decide_unpack _); vm_compute; reflexivity|].
  repeat constructor; intros d t [= <- _]; reflexivity.
Qed.

Lemma type_label_inj (t t' : element_type) (x y : string) :
  t <> line -> t' <> line -> type_label t +:+ x = type_label t' +:+ y -> t = t' /\ x = y.
Proof.
  intros Ht Ht' E. destruct t, t'; try done; try (by apply str_app_inj_l in E);
    cbn in E; congruence.
Qed.

Lemma count_type_app (t : element_type) (l1 l2 : list MaskElement) :
  count_type t (l1 ++ l2) = count_type t l1 + count_type t l2.
Proof. unfold count_type. by rewrite filter_app, length_app. Qed.

Lemma NoDup_map_removelast {A B} (f : A -> B) (l : list A) :
  NoDup (map f l) -> NoDup (map f (removelast l)).
Proof.
  destruct l as [|x l] using rev_ind; [done|]. rewrite removelast_last, map_app.
  by intros [? _]%NoDup_app.
Qed.

(** Both canvas cards name an element [<type label><numeral k>] for the
    [k]-th element of its type; what follows holds for any numbering
    that is injective on the positive numbers. *)
Section Naming.
Variable numeral : nat -> string.
Hypothesis numeral_inj : forall a b, 1 <= a -> 1 <= b -> numeral a = numeral b -> a = b.

(** The name of the [k]-th element of type [t]. *)
Definition name_of (t : element_type) (k : nat) : option string := Some (type_label t +:+ numeral k).

(** The names of the elements of each type are those of the first,
    second, ... element of that type, in order; there is no line. *)
Definition names_ok (els : list MaskElement) : Prop :=
  count_type line els = 0 /\
  forall t, map me_name (filter (fun e => me_type e = t) els)
            = map (name_of t) (seq 1 (count_type t els)).

Lemma name_seq_snoc (t : element_type) (n : nat) :
  map (name_of t) (seq 1 (S n)) = map (name_of t) (seq 1 n) ++ [name_of t (S n)].
Proof. by rewrite seq_S, map_app. Qed.

Lemma names_ok_nil : names_ok [].
Proof. by split. Qed.

Lemma names_ok_add (e : MaskElement) (els : list MaskElement) :
  names_ok els -> me_type e <> line ->
  me_name e = name_of (me_type e) (S (count_type (me_type e) els)) ->
  names_ok (els ++ [e]).
Proof.
  intros [Hl Hn] Ht He. split.
  - rewrite count_type_app, Hl. unfold count_type. cbn. by rewrite decide_False.
  - intros t. rewrite filter_app, map_app, Hn, count_type_app. unfold count_type at 2. cbn.
    case_decide as Hte; cbn.
    + subst t. rewrite He, Nat.add_1_r. symmetry. apply name_seq_snoc.
    + by rewrite app_nil_r, Nat.add_0_r.
Qed.

Lemma names_ok_removelast (els : list MaskElement) : names_ok els -> names_ok (removelast els).
Proof.
  destruct els as [|x l] using rev_ind; [done|]. rewrite removelast_last.
  intros [Hl Hn]. rewrite count_type_app in Hl. split; [lia|]. intros t.
  specialize (Hn t). rewrite filter_app, map_app, count_type_app in Hn.
  unfold count_type at 2 in Hn. cbn in Hn. case_decide; cbn in Hn.
  - rewrite Nat.add_1_r, name_seq_snoc in Hn. by apply app_inj_tail in Hn as [-> _].
  - by rewrite app_nil_r, Nat.add_0_r in Hn.
Qed.

(** An element's name is that of one of the elements of its type. *)
Lemma names_ok_elem (els : list MaskElement) (e : MaskElement) :
  names_ok els -> e ∈ els ->
  me_type e <> line /\ exists k, 1 <= k <= count_type (me_type e) els /\ me_name e = name_of (me_type e) k.
Proof.
  intros [Hl Hn] He.
  assert (Hf : e ∈ filter (fun e' => me_type e' = me_type e) els) by (apply list_elem_of_filter; done).
  split.
  - intros Hline. assert (Hf' : e ∈ filter (fun e' => me_type e' = line) els)
      by (apply list_elem_of_filter; done).
    unfold count_type in Hl. apply length_zero_iff_nil in Hl. rewrite Hl in Hf'. by apply elem_of_nil in Hf'.
  - apply (list_elem_of_fmap_2 me_name) in Hf. rewrite Hn in Hf.
    apply list_elem_of_fmap in Hf as (k & Hk & Hks%elem_of_seq). exists k. split; [lia|done].
Qed.

Lemma names_ok_add_fresh (e : MaskElement) (els : list MaskElement) :
  names_ok els -> me_type e <> line ->
  me_name e = name_of (me_type e) (S (count_type (me_type e) els)) ->
  me_name e ∉ map me_name els.
Proof.
  intros Hok Ht He (e' & Hn & Hin)%list_elem_of_fmap.
  destruct (names_ok_elem els e' Hok Hin) as (Ht' & k & Hk & He').
  rewrite He', He in Hn. unfold name_of in Hn.
  assert (Hn' : type_label (me_type e) +:+ numeral (S (count_type (me_type e) els))
                = type_label (me_type e') +:+ numeral k) by congruence.
  destruct (type_label_inj _ _ _ _ Ht Ht' Hn') as [Htt Hc].
  apply numeral_inj in Hc; [|lia|lia]. rewrite <- Htt in Hk. lia.
Qed.

(** Adding the next element of a type keeps the naming and its distinctness. *)
Lemma names_add (e : MaskElement) (els : list MaskElement) :
  names_ok els -> NoDup (map me_name els) -> me_type e <> line ->
  me_name e = name_of (me_type e) (S (count_type (me_type e) els)) ->
  names_ok (els ++ [e]) /\ NoDup (map me_name (els ++ [e])).
Proof.
  intros Hok Hnd Ht Hn. split; [by apply names_ok_add|].
  rewrite map_app. apply NoDup_app. split_and!; [done| |apply NoDup_singleton].
  intros x Hx ->%list_elem_of_singleton. by apply (names_ok_add_fresh _ _ Hok Ht Hn).
Qed.
End Naming.

(** The names and their distinctness after adding the element [handleMouseUp] builds. *)
Lemma names_add_new (now : N) (c : canvas) (pts : list point) (s : app_state) :
  names_ok toChinese (sm_elements (s_mask s)) -> NoDup (map me_name (sm_elements (s_mask s))) ->
  names_ok toChinese (sm_elements (s_mask s) ++ [new_element now c pts s]) /\
  NoDup (map me_name (sm_elements (s_mask s) ++ [new_element now c pts s])).
Proof.
  intros Hok Hnd. apply names_add; [exact toChinese_inj|done|done| |done].
  unfold new_element; cbn. by destruct (c_drawMode c).
Qed.

(** A delete that the user confirmed. *)
Definition confirmed_delete (e : canvas_event) : bool :=
  match e with Delete _ _ true => true | _ => false end.

Lemma canvas_step_names (e : canvas_event) (c : canvas) (s : app_state) :
  confirmed_delete e = false ->
  names_ok toChinese (sm_elements (s_mask s)) -> NoDup (map me_name (sm_elements (s_mask s))) ->
  names_ok toChinese (sm_elements (s_mask (canvas_step e c s).2)) /\
  NoDup (map me_name (sm_elements (s_mask (canvas_step e c s).2))).
Proof.
  intros Hd Hok Hnd. destruct e; cbn [canvas_step fst snd]; try done.
  - unfold handleMouseUp. case_match; [done|]. by apply names_add_new.
  - split; [by apply names_ok_removelast|by apply NoDup_map_removelast].
  - destruct confirmed; [split; [apply names_ok_nil|constructor]|done].
  - destruct confirmed; [done|done].
  - case_match; [|done]. unfold insertCoord. by case_match.
  - by destruct localUrl.
  - by destruct r.
Qed.

(** C22: as long as no element is deleted, the names the card gives
    ([矩形一], [矩形二], [圆形一], ...) are pairwise distinct, so the
    server's [nameIndex] of a submitted mask loses no element. *)
Theorem canvas_names_distinct (es : list canvas_event) (now : N) :
  Forall (fun e => confirmed_delete e = false) es ->
  NoDup (map me_name (sm_elements (s_mask (canvas_run es initial_canvas (initial_state now)).2))).
Proof.
  intros Hes. refine (proj2 (run_steps_inv canvas_step (fun e => confirmed_delete e = false)
    (fun _ s => names_ok toChinese (sm_elements (s_mask s)) /\ NoDup (map me_name (sm_elements (s_mask s))))
    _ es initial_canvas (initial_state now) Hes _)).
  - intros e c s He [Hok Hnd]. by apply canvas_step_names.
  - split; [apply names_ok_nil|constructor].
Qed.

(** ** Instances *)

Definition pt (x y : Z) : point := mk_point (inject_Z x) (inject_Z y).

(** Draw a rectangle from (10,10) to (50,60) at time [t]. *)
Definition draw_rect (t : N) : list canvas_event :=
  [SetDrawMode mode_rectangle; MouseDown (pt 10 10) 1; MouseMove (pt 50 60) 1; MouseUp t].

(** Deleting an element breaks the naming: after drawing two
    rectangles, deleting the first and drawing a third, the store holds
    two elements both named [矩形二]. *)
Example delete_duplicates_names :
  map me_name (sm_elements (s_mask
    (canvas_run (draw_rect 1 ++ draw_rect 2 ++ [Delete 3 "element_1" true] ++ draw_rect 4)
       initial_canvas (initial_state 0)).2))
  = [Some "矩形二"; Some "矩形二"].
Proof. vm_compute. reflexivity. Qed.

Definition zigzag : list point :=
  map (fun k => pt (Z.of_nat k * 8) (if Nat.even k then 0 else 40)%Z) (seq 0 12).

Lemma smoothPoints_in_box_witness :
  0 < 5 /\ Forall (in_box 0 100 0 40) zigzag /\ Forall (in_box 0 100 0 40) (smoothPoints zigzag 5).
Proof.
  assert (H : Forall (in_box 0 100 0 40) zigzag).
  { unfold zigzag, in_box. cbn. repeat constructor; apply Qle_bool_imp_le; reflexivity. }
  split_and!; [lia|exact H|]. apply smoothPoints_in_box; [lia|exact H].
Defined.

Lemma canvas_names_distinct_witness :
  Forall (fun e => confirmed_delete e = false) (draw_rect 1 ++ draw_rect 2 ++ [Delete 3 "element_1" false]) /\
  NoDup (map me_name (sm_elements (s_mask
    (canvas_run (draw_rect 1 ++ draw_rect 2 ++ [Delete 3 "element_1" false])
       initial_canvas (initial_state 0)).2))).
Proof.
  assert (H : Forall (fun e => confirmed_delete e = false)
                (draw_rect 1 ++ draw_rect 2 ++ [Delete 3 "element_1" false]))
    by (repeat constructor).
  split; [exact H|]. by apply canvas_names_distinct.
Defined.

End Canvas.
