(* ===== verification/Editor.v ===== *)
(** * The prompt editor ([PromptAndModelCard.tsx])

    Models the logic of [src/src/components/cards/PromptAndModelCard.tsx]:
    the tag checks [isValidRectTag] and [isValidCircleTag] (lines 4-10),
    the boxes [elementRect] and [elementCircle] the suggestion panel
    shows for each element (lines 12-31, 281-292), and the text-area
    handlers [handlePromptChange], [insertReference] and [insertCoordTag]
    (lines 65-139).

    The card's local state ([showSuggestions], [cursorPosition],
    [validationMsg]) is the record [editor]; the prompt lives in the
    store.  Strings are UTF-8 bytes, as everywhere in the development, and
    a cursor position is the byte offset of the same character boundary
    the browser's [selectionStart] designates in UTF-16 units; the
    positions the handlers compute ([lastIndexOf('@')]) are then byte
    offsets too.  [value.slice(0, -1)] drops the last character (one
    code unit for a character of the Basic Multilingual Plane; half of a
    surrogate pair, which UTF-8 cannot hold, is not modelled). *)

From Stdlib Require Import QArith Qminmax Qround Lqa.
From S2P Require Import Prelude JsString Matcher RegionParser Json ApiClient Store Client.
Import Js Rx Region Store Client.

Module Editor.

(** ** Tag checks (lines 4-10) *)

(** [\d{0,k}], greedy: at most [k] more digits. *)
Fixpoint digits_upto (k : nat) : pat unit :=
  fun s => match k with
           | 0 => Some (tt, s)
           | S k' => match digit s with
                     | Some (_, r) => digits_upto k' r
                     | None => Some (tt, s)
                     end
           end.

(** [\d{1,5}]: followed in both patterns by [,] or [)], which are not
    digits, so the greedy run is the regex's only way to match. *)
Definition digits_1_5 : pat unit := digit ;;; digits_upto 4.

(** [/^@rect\(\d{1,5},\d{1,5},\d{1,5},\d{1,5}\)$/]. *)
Definition rectTagRe : pat unit :=
  lit "@rect(" ;;; digits_1_5 ;;; lit "," ;;; digits_1_5 ;;; lit "," ;;;
  digits_1_5 ;;; lit "," ;;; digits_1_5 ;;; lit ")" ;;; end_anchor.

(** [/^@circle\(\d{1,5},\d{1,5},\d{1,5}\)$/]. *)
Definition circleTagRe : pat unit :=
  lit "@circle(" ;;; digits_1_5 ;;; lit "," ;;; digits_1_5 ;;; lit "," ;;;
  digits_1_5 ;;; lit ")" ;;; end_anchor.

(** [re.test(tag)]: the patterns are anchored at the start. *)
Definition test (p : pat unit) (s : string) : bool := match p s with Some _ => true | None => false end.

Definition isValidRectTag (tag : string) : bool := test rectTagRe tag.
Definition isValidCircleTag (tag : string) : bool := test circleTagRe tag.

(** ** The panel's boxes (lines 12-31) *)

(** [elementRect]: the bounding box with its corner rounded and its size
    rounded after the subtraction; [None] for no point, where the
    minimum is [Infinity]. *)
Definition elementRect (pts : list point) : option (Z * Z * Z * Z) :=
  match pts with
  | [] => None
  | p :: ps =>
      let minX := min_of (px p) (map px ps) in
      let minY := min_of (py p) (map py ps) in
      let maxX := max_of (px p) (map px ps) in
      let maxY := max_of (py p) (map py ps) in
      Some (js_round minX, js_round minY,
            Z.max 1 (js_round (maxX - minX)), Z.max 1 (js_round (maxY - minY)))
  end.

(** [elementCircle]: [None] when [points[0].x] throws. *)
Definition elementCircle (pts : list point) : option (Z * Z * Z) :=
  match pts with
  | [] => None
  | p1 :: _ =>
      let p2 := List.last pts p1 in
      let dx := (px p2 - px p1)%Q in
      let dy := (py p2 - py p1)%Q in
      Some (js_round (px p1), js_round (py p1), Z.max 1 (round_sqrt (dx * dx + dy * dy)%Q))
  end.

(** The tag the panel shows and inserts for an element (lines 283-292);
    [None] where rendering throws. *)
Definition panel_tag (el : MaskElement) : option string :=
  match me_type el with
  | rectangle | brush =>
      Some (match elementRect (me_points el) with
            | Some (x, y, w, h) => ⟪ "@rect("; show_Z x; ","; show_Z y; ","; show_Z w; ","; show_Z h; ")" ⟫
            | None => "@rect(Infinity,Infinity,1,1)"
            end)
  | circle =>
      match elementCircle (me_points el) with
      | Some (cx, cy, r) => Some ⟪ "@circle("; show_Z cx; ","; show_Z cy; ","; show_Z r; ")" ⟫
      | None => None
      end
  | line => Some ""
  end.

(** ** [handlePromptChange] (lines 65-97) *)

Record editor := mk_editor {
  ed_showSuggestions : bool;
  ed_cursorPosition : nat;
  ed_validationMsg : string
}.

Definition initial_editor : editor := mk_editor false 0 "".

(** [/\s/.test(s)]. *)
Fixpoint has_space (s : string) : bool :=
  match s with
  | EmptyString => false
  | String c s' => (0 <? space_len (String c s')) || has_space s'
  end.

(** [/@rect\([^\)]*\)/g] and [/@circle\([^\)]*\)/g]. *)
Definition rectTagAny : pat unit := lit "@rect(" ;;; star (byte_not ")") ;;; lit ")".
Definition circleTagAny : pat unit := lit "@circle(" ;;; star (byte_not ")") ;;; lit ")".

(** [value.match(re) || []]: the matched texts. *)
Definition match_all {A} (p : pat A) (value : string) : list string := map m_text (exec_all p value).

Definition validation_msg (value : string) : string :=
  let msg0 := if includes "@" value && bool_decide (exec_all labelRe value = [])
              then "形状标识应为 @矩形一 / @圆形二 / @画笔三 等格式" else "" in
  match List.find (fun t => negb (isValidRectTag t)) (match_all rectTagAny value) with
  | Some t => ⟪ "坐标标签格式错误："; t; "，应为 @rect(x,y,w,h)" ⟫
  | None =>
      match List.find (fun t => negb (isValidCircleTag t)) (match_all circleTagAny value) with
      | Some t => ⟪ "坐标标签格式错误："; t; "，应为 @circle(cx,cy,r)" ⟫
      | None => msg0
      end
  end.

(** The suggestions open when the text before the cursor has an [@] with
    no white space after it. *)
Definition show_suggestions (value : string) (pos : nat) : bool :=
  let textBefore := String.substring 0 pos value in
  match last_index_of c_at textBefore with
  | Some lastAt => negb (has_space (drop_str (S lastAt) textBefore))
  | None => false
  end.

Definition handlePromptChange (value : string) (pos : nat) (ed : editor) (s : app_state)
  : editor * app_state :=
  (mk_editor (show_suggestions value pos) pos (validation_msg value), setPrompt value s).

(** ** Inserting at the cursor (lines 99-139) *)

Definition is_cont (c : ascii) : bool :=
  let n := nat_of_ascii c in (128 <=? n) && (n <? 192).

Fixpoint drop_char_rev (r : string) : string :=
  match r with
  | EmptyString => EmptyString
  | String c r' => if is_cont c then drop_char_rev r' else r'
  end.

(** [s.slice(0, -1)]. *)
Definition drop_last_char (s : string) : string := str_rev (drop_char_rev (str_rev s)).

(** [value.slice(0, i)] for [i = lastIndexOf(...)], which is [-1] when
    there is no such character. *)
Definition slice_to (i : option nat) (value : string) : string :=
  match i with
  | Some k => String.substring 0 k value
  | None => drop_last_char value
  end.

Definition insertReference (ref : string) (ed : editor) (s : app_state) : editor * app_state :=
  let value := default "" (s_prompt s) in
  let pos := ed_cursorPosition ed in
  let textBefore := String.substring 0 pos value in
  let textAfter := drop_str pos value in
  let lastAt := last_index_of c_at textBefore in
  let newValue := ⟪ slice_to lastAt value; "@"; ref; " "; textAfter ⟫ in
  (mk_editor false pos (ed_validationMsg ed), setPrompt newValue s).

Definition insertCoordTag (tag : string) (ed : editor) (s : app_state) : editor * app_state :=
  let value := default "" (s_prompt s) in
  let pos := ed_cursorPosition ed in
  let textBefore := String.substring 0 pos value in
  let textAfter := drop_str pos value in
  let insertPos := default pos (last_index_of c_at textBefore) in
  let newValue := ⟪ String.substring 0 insertPos value; tag; " "; textAfter ⟫ in
  (mk_editor false pos (ed_validationMsg ed), setPrompt newValue s).

(** ** What the tag checks accept *)

(** A field of [\d{1,5}]. *)
Definition field (a : string) : Prop := a <> "" /\ String.length a <= 5 /\ all_digits a = true.

Lemma digits_upto_run (k : nat) (a z : string) :
  all_digits a = true -> String.length a <= k ->
  (forall c z', z = String c z' -> is_digit c = false) ->
  digits_upto k (a +:+ z) = Some (tt, z).
Proof.
  revert k. induction a as [|d a IH]; intros k Ha Hk Hz.
  - destruct k; cbn; [done|]. destruct z as [|c z]; [done|]. cbn. by rewrite (Hz c z eq_refl).
  - destruct k as [|k]; cbn in Hk; [lia|]. unfold all_digits in Ha. cbn in Ha. apply andb_prop in Ha as [Hd Ha].
    cbn. rewrite Hd. apply IH; [done|lia|done].
Qed.

Lemma digits_upto_sound (k : nat) (s r : string) (u : unit) :
  digits_upto k s = Some (u, r) -> exists a, s = a +:+ r /\ all_digits a = true.
Proof.
  revert s. induction k as [|k IH]; intros s; cbn.
  - intros [= _ <-]. by exists "".
  - unfold digit, byte_if. destruct s as [|c s]; [intros [= _ <-]; by exists ""|].
    destruct (is_digit c) eqn:Hc; [|intros [= _ <-]; by exists ""].
    intros (a & -> & Ha)%IH. exists (String c a). split; [done|].
    unfold all_digits in *. cbn. by rewrite Hc, Ha.
Qed.

Lemma digits_upto_length (k : nat) (a r : string) (u : unit) :
  all_digits a = true -> digits_upto k (a +:+ r) = Some (u, r) -> String.length a <= k.
Proof.
  revert k. induction a as [|d a IH]; intros k Ha H; cbn; [lia|].
  unfold all_digits in Ha. cbn in Ha. apply andb_prop in Ha as [Hd Ha]. destruct k as [|k]; cbn in H.
  - injection H as _ H. apply (f_equal String.length) in H. cbn in H.
    rewrite str_length_app in H. lia.
  - unfold digit, byte_if in H. rewrite Hd in H. apply IH in H; [lia|done].
Qed.

Lemma bind_lit_iff {A} (l : string) (k : pat A) (s : string) (x : A * string) :
  (lit l ;;; k) s = Some x <-> exists r, s = l +:+ r /\ k r = Some x.
Proof.
  unfold bind, lit. split.
  - destruct (starts_with l s) eqn:E; [|done]. intros H.
    exists (drop_str (String.length l) s). split; [by apply prefix_inv|done].
  - intros (r & -> & H). by rewrite prefix_app, drop_str_app.
Qed.

(** [\d{1,5}] followed by a character that is not a digit. *)
Lemma bind_field_iff {A} (c : ascii) (k : pat A) (s : string) (x : A * string) :
  is_digit c = false ->
  (digits_1_5 ;;; (lit (String c "") ;;; k)) s = Some x <->
  exists a r, s = a +:+ String c r /\ field a /\ k r = Some x.
Proof.
  intros Hc. unfold digits_1_5. split.
  - unfold bind at 1 2. unfold digit, byte_if at 1. destruct s as [|d s]; [done|].
    destruct (is_digit d) eqn:Hd; [|done].
    destruct (digits_upto 4 s) as [[u r']|] eqn:Hu; [|done]. intros H.
    apply (bind_lit_iff (String c "")) in H as (r & -> & Hk).
    destruct (digits_upto_sound _ _ _ _ Hu) as (a & -> & Ha).
    pose proof (digits_upto_length _ _ _ _ Ha Hu).
    exists (String d a), r. unfold all_digits in *. split; [done|]. split; [|done].
    split_and!; [discriminate|cbn; lia|cbn; by rewrite Hd, Ha].
  - intros (a & r & -> & (Hne & Hlen & Ha) & Hk). destruct a as [|d a]; [done|].
    unfold all_digits in Ha. cbn in Ha, Hlen. apply andb_prop in Ha as [Hd Ha].
    unfold bind at 1 2. cbn [digit byte_if String.append]. rewrite Hd.
    rewrite (digits_upto_run 4 a (String c r)); [|done|lia|by intros ? ? [= <- _]].
    apply bind_lit_iff. by exists r.
Qed.

Lemma end_anchor_some (s : string) (x : unit * string) : end_anchor s = Some x -> s = "".
Proof. by destruct s. Qed.

(** C24: [isValidRectTag] accepts exactly [@rect(a,b,c,d)] with four runs
    of one to five digits. *)
Theorem isValidRectTag_iff (t : string) :
  isValidRectTag t = true <->
  exists a b c d, field a /\ field b /\ field c /\ field d /\
    t = ⟪ "@rect("; a; ","; b; ","; c; ","; d; ")" ⟫.
Proof.
  unfold isValidRectTag, test, rectTagRe. split.
  - match goal with |- context [match ?e with _ => _ end] => destruct e as [x|] eqn:H end;
      [intros _|done].
    apply bind_lit_iff in H as (r0 & -> & H).
    apply bind_field_iff in H as (a & r1 & -> & Ha & H); [|done].
    apply bind_field_iff in H as (b & r2 & -> & Hb & H); [|done].
    apply bind_field_iff in H as (c & r3 & -> & Hc & H); [|done].
    apply bind_field_iff in H as (d & r4 & -> & Hd & H); [|done].
    apply end_anchor_some in H as ->. by exists a, b, c, d.
  - intros (a & b & c & d & Ha & Hb & Hc & Hd & ->).
    assert (H : (lit "@rect(" ;;; digits_1_5 ;;; lit "," ;;; digits_1_5 ;;; lit "," ;;;
                 digits_1_5 ;;; lit "," ;;; digits_1_5 ;;; lit ")" ;;; end_anchor)
                  ⟪ "@rect("; a; ","; b; ","; c; ","; d; ")" ⟫ = Some (tt, "")).
    { apply bind_lit_iff. eexists. split; [reflexivity|].
      apply bind_field_iff; [done|]. exists a. eexists. split; [reflexivity|]. split; [done|].
      apply bind_field_iff; [done|]. exists b. eexists. split; [reflexivity|]. split; [done|].
      apply bind_field_iff; [done|]. exists c. eexists. split; [reflexivity|]. split; [done|].
      apply bind_field_iff; [done|]. exists d. eexists. split; [reflexivity|]. split; [done|].
      reflexivity. }
    by rewrite H.
Qed.

(** ** The panel's box and [SubmitBar]'s *)

(** Rounding a difference and subtracting the roundings differ by at
    most one. *)
Lemma js_round_sub (a b : Q) : (Z.abs (js_round (b - a) - (js_round b - js_round a)) <= 1)%Z.
Proof.
  unfold js_round.
  pose proof (Qfloor_le (a + (1 # 2))) as Ha1. pose proof (Qlt_floor (a + (1 # 2))) as Ha2.
  pose proof (Qfloor_le (b + (1 # 2))) as Hb1. pose proof (Qlt_floor (b + (1 # 2))) as Hb2.
  pose proof (Qfloor_le (b - a + (1 # 2))) as Hd1. pose proof (Qlt_floor (b - a + (1 # 2))) as Hd2.
  set (fa := Qfloor (a + (1 # 2))) in *. set (fb := Qfloor (b + (1 # 2))) in *.
  set (fd := Qfloor (b - a + (1 # 2))) in *.
  rewrite inject_Z_plus in Ha2, Hb2, Hd2. change (inject_Z 1) with 1%Q in Ha2, Hb2, Hd2.
  assert (Hhi : (fd <= fb - fa + 1)%Z).
  { apply Z.nlt_ge. intros H.
    assert (H' : (fb + - fa + 2 <= fd)%Z) by lia. rewrite Zle_Qle in H'.
    rewrite !inject_Z_plus, inject_Z_opp in H'. change (inject_Z 2) with 2%Q in H'. lra. }
  assert (Hlo : (fb - fa - 1 <= fd)%Z).
  { apply Z.nlt_ge. intros H.
    assert (H' : (fd + 2 <= fb + - fa)%Z) by lia. rewrite Zle_Qle in H'.
    rewrite !inject_Z_plus, inject_Z_opp in H'. change (inject_Z 2) with 2%Q in H'. lra. }
  lia.
Qed.

(** The suggestion panel and [SubmitBar] describe the same element
    by boxes with the same corner whose width and height differ by at
    most one: the panel rounds [max - min], [SubmitBar] subtracts the
    rounded [max] and [min]. *)
Theorem panel_submit_tags_close (p : point) (ps : list point) (x y w h : Z) :
  elementRect (p :: ps) = Some (x, y, w, h) ->
  exists w' h', toRect (p :: ps) = ⟪ "@rect("; show_Z x; ","; show_Z y; ","; show_Z w'; ","; show_Z h'; ")" ⟫ /\
    (Z.abs (w - w') <= 1)%Z /\ (Z.abs (h - h') <= 1)%Z.
Proof.
  unfold elementRect, toRect. intros [= <- <- <- <-].
  eexists _, _. split; [reflexivity|].
  pose proof (js_round_sub (min_of (px p) (map px ps)) (max_of (px p) (map px ps))).
  pose proof (js_round_sub (min_of (py p) (map py ps)) (max_of (py p) (map py ps))). lia.
Qed.

(** they do differ: for a stroke from (0.4, 0.4) to (1.6, 1.6) the
    panel shows [@rect(0,0,1,1)] and [SubmitBar] sends [@rect(0,0,2,2)]. *)
Example panel_submit_tags_differ :
  panel_tag (mk_element "e" None rectangle "#FF0000" [mk_point (2 # 5) (2 # 5); mk_point (8 # 5) (8 # 5)] 20 None)
    = Some "@rect(0,0,1,1)" /\
  toRect [mk_point (2 # 5) (2 # 5); mk_point (8 # 5) (8 # 5)] = "@rect(0,0,2,2)".
Proof. vm_compute. split; reflexivity. Qed.

(** ** Inserting at the last [@] *)

Lemma last_index_from_app (c : ascii) (i : nat) (u v : string) (acc : option nat) :
  last_index_from c i (u +:+ v) acc
  = last_index_from c (i + String.length u) v (last_index_from c i u acc).
Proof.
  revert i acc. induction u as [|d u IH]; intros i acc; cbn; [by rewrite Nat.add_0_r|].
  rewrite IH. by rewrite Nat.add_succ_r.
Qed.

Lemma last_index_from_none (c : ascii) (i : nat) (v : string) (acc : option nat) :
  str_has c v = false -> last_index_from c i v acc = acc.
Proof.
  revert i acc. induction v as [|d v IH]; intros i acc; cbn; [done|].
  destruct (Ascii.eqb c d); [done|]. apply IH.
Qed.

(** The last [@] of [b1 @ b2], when [b2] has none, is at [length b1]. *)
Lemma last_index_of_at (b1 b2 : string) :
  str_has c_at b2 = false -> last_index_of c_at (b1 +:+ String c_at b2) = Some (String.length b1).
Proof.
  intros Hb. unfold last_index_of. rewrite last_index_from_app. cbn [last_index_from Nat.add].
  rewrite Ascii.eqb_refl. by apply last_index_from_none.
Qed.

(** With the cursor after [b1 @ b2], where [b2] holds no [@],
    [insertCoordTag] replaces [@ b2] by the tag and a space, keeps the
    text before and after, and closes the suggestions. *)
Theorem insertCoordTag_at_last_at (b1 b2 after tag : string) (ed : editor) (s : app_state) :
  str_has c_at b2 = false ->
  s_prompt s = Some ((b1 +:+ String c_at b2) +:+ after) ->
  ed_cursorPosition ed = String.length (b1 +:+ String c_at b2) ->
  s_prompt (insertCoordTag tag ed s).2 = Some ⟪ b1; tag; " "; after ⟫ /\
  ed_showSuggestions (insertCoordTag tag ed s).1 = false.
Proof.
  intros Hb Hp Hc. cbv [insertCoordTag]. rewrite Hp, Hc. cbn [default id].
  rewrite substring_app, drop_str_app, last_index_of_at by done. cbn [default id].
  rewrite str_app_assoc, substring_app. split; reflexivity.
Qed.

(** With no [@] before the cursor, [lastIndexOf] is [-1] and
    [insertReference] keeps all of the prompt but its last character and
    then repeats the text after the cursor: [abc] with the cursor at the
    start becomes [ab@sun abc]. *)
Example insertReference_without_at :
  s_prompt (insertReference "sun" (mk_editor true 0 "") (setPrompt "abc" (initial_state 0))).2
  = Some "ab@sun abc".
Proof. vm_compute. reflexivity. Qed.

(** The shape-label warning fires for any [@] when there is no shape
    label: the card's own template [在 @rect(100,120,300,240) ...], whose
    tag [isValidRectTag] accepts, is told to use [@矩形一]; a tag with
    three numbers gets the format error. *)
Example validation_msg_cases :
  validation_msg "在 @rect(100,120,300,240) 区域替换为绿色草地"
    = "形状标识应为 @矩形一 / @圆形二 / @画笔三 等格式" /\
  isValidRectTag "@rect(100,120,300,240)" = true /\
  validation_msg "把 @rect(1,2,3) 变亮" = "坐标标签格式错误：@rect(1,2,3)，应为 @rect(x,y,w,h)" /\
  validation_msg "把 @矩形一 变亮" = "".
Proof. vm_compute. split_and!; reflexivity. Qed.

(** ** Instances *)

Lemma isValidRectTag_iff_witness :
  isValidRectTag "@rect(10,10,100,200)" = true /\
  exists a b c d, field a /\ field b /\ field c /\ field d /\
    "@rect(10,10,100,200)" = ⟪ "@rect("; a; ","; b; ","; c; ","; d; ")" ⟫.
Proof.
  assert (H : isValidRectTag "@rect(10,10,100,200)" = true) by reflexivity.
  split; [exact H|]. by apply isValidRectTag_iff.
Defined.

Lemma panel_submit_tags_close_witness :
  elementRect [mk_point (2 # 5) (2 # 5); mk_point (8 # 5) (8 # 5)] = Some (0, 0, 1, 1)%Z /\
  exists w' h', toRect [mk_point (2 # 5) (2 # 5); mk_point (8 # 5) (8 # 5)]
                = ⟪ "@rect("; show_Z 0; ","; show_Z 0; ","; show_Z w'; ","; show_Z h'; ")" ⟫ /\
    (Z.abs (1 - w') <= 1)%Z /\ (Z.abs (1 - h') <= 1)%Z.
Proof.
  assert (H : elementRect [mk_point (2 # 5) (2 # 5); mk_point (8 # 5) (8 # 5)] = Some (0, 0, 1, 1)%Z)
    by (vm_compute; reflexivity).
  split; [exact H|]. exact (panel_submit_tags_close _ _ _ _ _ _ H).
Defined.

Lemma insertCoordTag_at_last_at_witness :
  str_has c_at "re" = false /\
  s_prompt (setPrompt "把 @re 变亮" (initial_state 0)) = Some (("把 " +:+ String c_at "re") +:+ " 变亮") /\
  ed_cursorPosition (mk_editor true 7 "") = String.length ("把 " +:+ String c_at "re") /\
  s_prompt (insertCoordTag "@rect(1,2,3,4)" (mk_editor true 7 "") (setPrompt "把 @re 变亮" (initial_state 0))).2
    = Some ⟪ "把 "; "@rect(1,2,3,4)"; " "; " 变亮" ⟫ /\
  ed_showSuggestions (insertCoordTag "@rect(1,2,3,4)" (mk_editor true 7 "")
                        (setPrompt "把 @re 变亮" (initial_state 0))).1 = false.
Proof.
  assert (H1 : str_has c_at "re" = false) by reflexivity.
  assert (H2 : s_prompt (setPrompt "把 @re 变亮" (initial_state 0))
               = Some (("把 " +:+ String c_at "re") +:+ " 变亮")) by reflexivity.
  assert (H3 : ed_cursorPosition (mk_editor true 7 "") = String.length ("把 " +:+ String c_at "re"))
    by reflexivity.
  split_and!; [exact H1|exact H2|exact H3|apply (insertCoordTag_at_last_at _ _ _ _ _ _ H1 H2 H3)..].
Defined.

End Editor.
