(* ===== verification/References.v ===== *)
(** * Reference images ([ReferenceImagesCard.tsx])

    Models the upload handler [onSelect] of
    [src/src/components/cards/ReferenceImagesCard.tsx] (lines 12-47) and
    its delete button (line 69).  Each selected file is uploaded and then
    named after its file name without the extension; a name seen before
    in the same selection gets the number of earlier occurrences
    appended.  The uploads run concurrently: the counter [nameCounter] is
    updated by each upload's continuation, in the order the uploads
    complete.  That order is the argument [order], a permutation of the
    file indices; [Promise.all] then returns the assets in file order, or
    rejects when one upload fails. *)

From S2P Require Import Prelude JsString Json ApiClient Store.
Import Js Json Store.

Module RefCard.

(** [name.replace(/\.[^.]+$/, '')]: the last dot and what follows it,
    when something follows it. *)
Definition strip_ext (name : string) : string :=
  match last_index_of "." name with
  | Some i => if S i <? String.length name then String.substring 0 i name else name
  | None => name
  end.

(** One continuation: [count = nameCounter.get(fileName) || 0], the
    counter incremented, and the display name. *)
Definition name_step (counter : gmap string nat) (fileName : string) : gmap string nat * string :=
  let count := default 0 (counter !! fileName) in
  (<[fileName := S count]> counter,
   if 0 <? count then fileName +:+ show_N (N.of_nat count) else fileName).

(** The continuations in completion order: the id given to each index. *)
Fixpoint assign_ids (names : list string) (order : list nat) (counter : gmap string nat)
    (ids : gmap nat string) : gmap nat string :=
  match order with
  | [] => ids
  | i :: order' =>
      let '(counter', id) := name_step counter (strip_ext (default "" (names !! i))) in
      assign_ids names order' counter' (<[i := id]> ids)
  end.

Definition batch_ids (names : list string) (order : list nat) : list string :=
  map (fun i => default "" (assign_ids names order ∅ ∅ !! i)) (seq 0 (length names)).

(** [onSelect]: with every upload's URL the assets are added in file
    order; a failed upload rejects [Promise.all] and only alerts. *)
Definition onSelect (names : list string) (order : list nat) (uploads : list (string + error))
    (s : app_state) : app_state * list string :=
  match mapM (fun r => match r with inl u => Some u | inr _ => None end) uploads with
  | Some urls =>
      (addMaterials (zip_with (fun '(id, url) i => mk_asset id url none (Some (N.of_nat i)))
                       (zip (batch_ids names order) urls) (seq 0 (length names))) s, [])
  | None => (s, ["图片上传失败，请重试"])
  end.

(** The delete button: every asset with that id. *)
Definition remove_button (id : string) (s : app_state) : app_state := removeMaterial id s.

(** ** Distinct file names keep their names *)

Lemma assign_ids_fresh (names : list string) (order : list nat) (counter : gmap string nat)
    (ids : gmap nat string) :
  NoDup (map (fun i => strip_ext (default "" (names !! i))) order) ->
  (forall i, i ∈ order -> counter !! strip_ext (default "" (names !! i)) = None) ->
  forall i, i ∈ order -> assign_ids names order counter ids !! i = Some (strip_ext (default "" (names !! i))).
Proof.
  revert counter ids. induction order as [|j order IH]; intros counter ids Hnd Hfresh i Hi;
    [by apply elem_of_nil in Hi|].
  cbn [map] in Hnd. apply NoDup_cons in Hnd as [Hj Hnd].
  cbn [assign_ids]. unfold name_step. rewrite (Hfresh j ltac:(by left)). cbn [default Nat.ltb Nat.leb].
  destruct (decide (i ∈ order)) as [Hio|Hio].
  - apply IH; [done| |done]. intros k Hk. rewrite lookup_insert_ne; [by apply Hfresh; right|].
    intros E. apply Hj. rewrite E. apply list_elem_of_fmap. by exists k.
  - apply elem_of_cons in Hi as [->|]; [|done].
    (* the later continuations do not touch index [j] *)
    assert (Hkeep : forall order' counter' ids', j ∉ order' ->
              assign_ids names order' counter' ids' !! j = ids' !! j).
    { clear. induction order' as [|k order' IH]; intros counter' ids' Hk; [done|].
      cbn [assign_ids]. destruct (name_step _ _) as [c' id'].
      rewrite IH by set_solver. apply lookup_insert_ne. set_solver. }
    rewrite Hkeep by done. apply lookup_insert_eq.
Qed.

(** C31: when the selected files have pairwise distinct names without
    their extensions, each asset's id is its file name without the
    extension, whatever order the uploads complete in. *)
Theorem batch_ids_distinct (names : list string) (order : list nat) :
  order ≡ₚ seq 0 (length names) ->
  NoDup (map strip_ext names) ->
  batch_ids names order = map strip_ext names.
Proof.
  intros Hperm Hnd. unfold batch_ids.
  (* looking the names up by index is mapping over the indices *)
  assert (Hidx : forall f : nat -> string,
    (forall k x, names !! k = Some x -> f k = strip_ext x) ->
    map f (seq 0 (length names)) = map strip_ext names).
  { intros f Hf. apply list_eq. intros k. rewrite !list_lookup_fmap.
    destruct (names !! k) eqn:E; cbn.
    - rewrite lookup_seq_lt by (apply lookup_lt_Some in E; lia). cbn. f_equal. by apply Hf.
    - rewrite lookup_seq_ge by (apply lookup_ge_None in E; lia). done. }
  assert (Hnd' : NoDup (map (fun i => strip_ext (default "" (names !! i))) order)).
  { rewrite Hperm, (Hidx _); [done|]. intros k x ->. done. }
  apply Hidx. intros k x E.
  rewrite (assign_ids_fresh names order ∅ ∅ Hnd' ltac:(done) k); [by rewrite E|].
  rewrite Hperm. apply elem_of_seq. apply lookup_lt_Some in E. lia.
Qed.

(** The ids are not unique: in one selection, [sun.png], [sun.png]
    and [sun1.png] become [sun], [sun1] and [sun1]; which of two files
    of the same name gets the [1] depends on which upload completes
    first; and two selections of [sun.png] store two assets [sun], which
    one click on the delete button removes together. *)
Example batch_ids_collide :
  batch_ids ["sun.png"; "sun.png"; "sun1.png"] [0; 1; 2] = ["sun"; "sun1"; "sun1"] /\
  batch_ids ["a.png"; "a.png"] [1; 0] = ["a1"; "a"] /\
  let s1 := (onSelect ["sun.png"] [0] [inl "u1"] (initial_state 0)).1 in
  let s2 := (onSelect ["sun.png"] [0] [inl "u2"] s1).1 in
  map ra_id (s_materials s2) = ["sun"; "sun"] /\ s_materials (remove_button "sun" s2) = [].
Proof. vm_compute. split_and!; reflexivity. Qed.

Lemma batch_ids_distinct_witness :
  [2; 0; 1] ≡ₚ seq 0 (length ["sun.png"; "moon.jpg"; "sea"]) /\
  NoDup (map strip_ext ["sun.png"; "moon.jpg"; "sea"]) /\
  batch_ids ["sun.png"; "moon.jpg"; "sea"] [2; 0; 1] = ["sun"; "moon"; "sea"].
Proof.
  assert (H1 : [2; 0; 1] ≡ₚ seq 0 (length ["sun.png"; "moon.jpg"; "sea"])) by (cbn; apply (bool_decide_unpack _); vm_compute; reflexivity).
  assert (H2 : NoDup (map strip_ext ["sun.png"; "moon.jpg"; "sea"])) by (apply (bool_decide_unpack _); vm_compute; reflexivity).
  split_and!; [exact H1|exact H2|]. exact (batch_ids_distinct _ _ H1 H2).
Defined.

End RefCard.
