(* ===== verification/Resolution.v ===== *)
(** * The output-resolution controls ([PromptAndModelCard.tsx], [BindingPanel.tsx])

    Models the output size controls of
    [src/src/components/cards/PromptAndModelCard.tsx] (lines 49-63 and
    335-461), the card [SystemPanel] mounts, and of the side panel
    [src/src/components/BindingPanel.tsx].

    The numbers these controls compute are non-negative JavaScript
    numbers: [xnum] is such a number ([NaN] and [Infinity] included), and
    [jsnum] the integers, [NaN] and [Infinity] that the rounded results
    and the parsed texts are.  [Number] is modelled on the texts the app
    writes (runs of decimal digits, [NaN], [Infinity]); other numeric
    syntaxes ([1e3], [ 12], [0x10], fractions) are read as [NaN].

    [PromptAndModelCard] keeps [width] and [height] in local state and
    two effects tie them to the store's [outputResolution]: the first
    writes [`${width}x${height}`] when they change, the second parses the
    store's text ([parseRes]) when it changes.  A render is the triple
    [deps] the effects compare; [settle] runs renders until one changes
    nothing, as React does after each event, and returns [None] when its
    fuel runs out. *)

From Stdlib Require Import QArith Qminmax Qround Lqa.
From S2P Require Import Prelude JsString Json Store.
Import Js Json Store.

Module ResCard.

(** ** JavaScript numbers *)

Inductive jsnum := JNum (n : N) | JNaN | JInf.

#[export] Instance jsnum_eq_dec : EqDecision jsnum.
Proof. solve_decision. Defined.

(** A non-negative number of the computation. *)
Inductive xnum := XFin (q : Q) | XNaN | XInf.

Definition of_N (n : N) : xnum := XFin (inject_Z (Z.of_N n)).

Definition of_jsnum (x : jsnum) : xnum :=
  match x with JNum n => of_N n | JNaN => XNaN | JInf => XInf end.

(** [x / y]: [a / 0] is [Infinity] and [0 / 0] is [NaN]. *)
Definition xdiv (x y : xnum) : xnum :=
  match x, y with
  | XNaN, _ | _, XNaN | XInf, XInf => XNaN
  | XInf, XFin _ => XInf
  | XFin _, XInf => XFin 0
  | XFin a, XFin b =>
      if Qeq_bool b 0 then (if Qeq_bool a 0 then XNaN else XInf) else XFin (a / b)
  end.

(** [x * y]: [Infinity * 0] is [NaN]. *)
Definition xmul (x y : xnum) : xnum :=
  match x, y with
  | XNaN, _ | _, XNaN => XNaN
  | XInf, XFin q | XFin q, XInf => if Qeq_bool q 0 then XNaN else XInf
  | XInf, XInf => XInf
  | XFin a, XFin b => XFin (a * b)
  end.

(** [ratio >= 1]. *)
Definition xge1 (x : xnum) : bool :=
  match x with XFin q => Qle_bool 1 q | XInf => true | XNaN => false end.

(** [Math.round]. *)
Definition xround (x : xnum) : jsnum :=
  match x with XFin q => JNum (Z.to_N (js_round q)) | XNaN => JNaN | XInf => JInf end.

(** [String(x)]. *)
Definition js_show (x : jsnum) : string :=
  match x with JNum n => show_N n | JNaN => "NaN" | JInf => "Infinity" end.

(** [Number(s)]. *)
Definition js_number (s : string) : jsnum :=
  if all_digits s then JNum (digits_val s) else if String.eqb s "Infinity" then JInf else JNaN.

(** [x || d]: [0] and [NaN] are falsy. *)
Definition or_default (x d : jsnum) : jsnum :=
  match x with JNum 0 | JNaN => d | _ => x end.

(** [Math.max(k, x)] and [Math.min(k, x)]. *)
Definition js_max (k : N) (x : jsnum) : jsnum :=
  match x with JNum n => JNum (N.max k n) | _ => x end.

Definition js_min (k : N) (x : jsnum) : jsnum :=
  match x with JNum n => JNum (N.min k n) | JInf => JNum k | JNaN => JNaN end.

(** ** [parseRes] and the resolution text *)

(** [const [w, h] = res.split('x').map(Number); return { w: w || 3840, h: h || 2160 }];
    a missing [h] is [undefined], falsy as well. *)
Definition parseRes (res : string) : jsnum * jsnum :=
  let parts := map js_number (split_on "x" res) in
  (or_default (default JNaN (parts !! 0)) (JNum 3840), or_default (default JNaN (parts !! 1)) (JNum 2160)).

Definition fmt_res (w h : jsnum) : string := ⟪ js_show w; "x"; js_show h ⟫.

(** ** The buttons *)

(** 匹配主图比例 (lines 364-391, and [onSelect] of the legacy canvas):
    an image larger than 3840 in either side is scaled to 3840 on its
    longer side; then one side is positive, so [ratio] is a number or
    [Infinity] (for a height of [0]). *)
Definition fit_4k (w h : N) : N * N :=
  if (3840 <? w)%N || (3840 <? h)%N then
    if (h =? 0)%N then (3840%N, 0%N)
    else
      let ratio := (inject_Z (Z.of_N w) / inject_Z (Z.of_N h))%Q in
      if Qle_bool 1 ratio then (3840%N, Z.to_N (js_round (3840 / ratio)))
      else (Z.to_N (js_round (3840 * ratio)), 3840%N)
  else (w, h).

Definition match_base (baseMeta : option (N * N)) : jsnum * jsnum :=
  match baseMeta with
  | Some (w, h) => let '(a, b) := fit_4k w h in (JNum a, JNum b)
  | None => (JNum 3840, JNum 2160)
  end.

(** 同比生成4K图 (lines 397-419): the longer side set to 3840 whatever
    the size; [None] is the alert without a base image. *)
Definition gen_4k (baseMeta : option (N * N)) : option (jsnum * jsnum) :=
  match baseMeta with
  | Some (w, h) =>
      let ratio := xdiv (of_N w) (of_N h) in
      Some (if xge1 ratio then (JNum 3840, xround (xdiv (of_N 3840) ratio))
            else (xround (xmul (of_N 3840) ratio), JNum 3840))
  | None => None
  end.

(** The preset select (lines 334-360): [custom] does nothing; a ratio
    [w:h] gives the width 3840 and the height [Math.round(3840 / ratio)]. *)
Definition preset (value : string) : option (jsnum * jsnum) :=
  if String.eqb value "custom" then None else
  let parts := map js_number (split_on ":" value) in
  let ratio := xdiv (of_jsnum (default JNaN (parts !! 0))) (of_jsnum (default JNaN (parts !! 1))) in
  Some (JNum 3840, xround (xdiv (of_N 3840) ratio)).

(** The width and height inputs (lines 432-461):
    [Math.max(256, Math.min(3840, Number(e.target.value) || 0))]. *)
Definition clamp_input (text : string) : jsnum :=
  js_max 256 (js_min 3840 (or_default (js_number text) (JNum 0))).

(** ** The effects and the renders (lines 50-63) *)

Record res_card := mk_rc { rc_width : jsnum; rc_height : jsnum }.

(** What a render compares: the dependencies of the two effects. *)
Record deps := mk_deps { d_width : jsnum; d_height : jsnum; d_res : string }.

#[export] Instance deps_eq_dec : EqDecision deps.
Proof. solve_decision. Defined.

Definition snapshot (c : res_card) (s : app_state) : deps :=
  mk_deps (rc_width c) (rc_height c) (s_outputResolution s).

(** The effects of a render after the render [prev]: the first when
    [width] or [height] changed, the second when [outputResolution]
    changed, both with the values of this render. *)
Definition run_effects (prev : deps) (c : res_card) (s : app_state) : res_card * app_state :=
  let s1 := if bool_decide ((rc_width c, rc_height c) = (d_width prev, d_height prev)) then s
            else setOutputResolution (fmt_res (rc_width c) (rc_height c)) s in
  let c1 := if String.eqb (s_outputResolution s) (d_res prev) then c
            else let '(w, h) := parseRes (s_outputResolution s) in mk_rc w h in
  (c1, s1).

(** Renders until nothing changes: a state equal to the last render's
    is not rendered again. *)
Fixpoint settle (fuel : nat) (prev : deps) (c : res_card) (s : app_state) : option (res_card * app_state) :=
  match fuel with
  | O => None
  | S f =>
      if bool_decide (snapshot c s = prev) then Some (c, s)
      else let '(c1, s1) := run_effects prev c s in settle f (snapshot c s) c1 s1
  end.

(** The first render: both effects run. *)
Definition mount (s : app_state) : option (res_card * app_state) :=
  let '(w, h) := parseRes (s_outputResolution s) in
  let c0 := mk_rc w h in
  let s1 := setOutputResolution (fmt_res w h) s in
  settle 5 (snapshot c0 s) c0 s1.

Inductive res_action :=
  | WidthInput (text : string)
  | HeightInput (text : string)
  | Preset (value : string)
  | MatchBase
  | Gen4K
  | External (res : string).   (* another component's [setOutputResolution] *)

(** The handler of an action on a settled card. *)
Definition apply_action (a : res_action) (c : res_card) (s : app_state) : res_card * app_state :=
  match a with
  | WidthInput t => (mk_rc (clamp_input t) (rc_height c), s)
  | HeightInput t => (mk_rc (rc_width c) (clamp_input t), s)
  | Preset v => (match preset v with Some (w, h) => mk_rc w h | None => c end, s)
  | MatchBase => (let '(w, h) := match_base (s_baseMeta s) in mk_rc w h, s)
  | Gen4K => (match gen_4k (s_baseMeta s) with Some (w, h) => mk_rc w h | None => c end, s)
  | External r => (c, setOutputResolution r s)
  end.

(** An action and the renders it causes. *)
Definition res_step (a : res_action) (c : res_card) (s : app_state) : option (res_card * app_state) :=
  let '(c1, s1) := apply_action a c s in settle 5 (snapshot c s) c1 s1.

(** ** Reading back the text the card writes *)

Definition truthy (x : jsnum) : bool := match x with JNum 0 | JNaN => false | _ => true end.

Lemma or_default_truthy (x d : jsnum) : truthy x = true -> or_default x d = x.
Proof. by destruct x as [[|]| |]. Qed.

Lemma or_default_is_truthy (x d : jsnum) : truthy d = true -> truthy (or_default x d) = true.
Proof. by destruct x as [[|]| |]. Qed.

Lemma js_number_show (x : jsnum) : js_number (js_show x) = x.
Proof.
  destruct x as [n| |]; [|done|done]. unfold js_number, js_show.
  pose proof (all_digits_uint (N.to_uint n)) as H.
  change (NilEmpty.string_of_uint (N.to_uint n)) with (show_N n) in H.
  by rewrite H, digits_val_show.
Qed.

Lemma js_show_no_x (x : jsnum) : str_has "x" (js_show x) = false.
Proof. destruct x; [by apply str_has_show_N|done|done]. Qed.

(** [parseRes] of [`${w}x${h}`] gives [w || 3840] and [h || 2160]. *)
Lemma parseRes_fmt (w h : jsnum) :
  parseRes (fmt_res w h) = (or_default w (JNum 3840), or_default h (JNum 2160)).
Proof.
  unfold parseRes, fmt_res. cbn [concat_str]. rewrite str_app_nil_r. cbn [String.append].
  rewrite split_on_app, split_on_none by apply js_show_no_x. cbn. by rewrite !js_number_show.
Qed.

Lemma parseRes_truthy (res : string) :
  truthy (parseRes res).1 = true /\ truthy (parseRes res).2 = true.
Proof. split; apply or_default_is_truthy; done. Qed.

(** ** Every action settles *)

(** The card shows what the store's text reads as. *)
Definition consistent (c : res_card) (s : app_state) : Prop :=
  parseRes (s_outputResolution s) = (rc_width c, rc_height c).

Lemma settle_stop (f : nat) (prev : deps) (c : res_card) (s : app_state) :
  snapshot c s = prev -> settle (S f) prev c s = Some (c, s).
Proof. intros H. cbn. by rewrite bool_decide_true. Qed.

Lemma settle_go (f : nat) (prev : deps) (c : res_card) (s : app_state) :
  snapshot c s <> prev ->
  settle (S f) prev c s = settle f (snapshot c s) (run_effects prev c s).1 (run_effects prev c s).2.
Proof. intros H. cbn [settle]. rewrite bool_decide_false by done. by destruct (run_effects prev c s). Qed.

(** A render in which only the size changed runs the first effect. *)
Lemma run_effects_size (prev : deps) (c : res_card) (s : app_state) :
  (rc_width c, rc_height c) <> (d_width prev, d_height prev) -> s_outputResolution s = d_res prev ->
  run_effects prev c s = (c, setOutputResolution (fmt_res (rc_width c) (rc_height c)) s).
Proof.
  intros H1 H2. unfold run_effects. rewrite bool_decide_false by done. rewrite H2, String.eqb_refl. done.
Qed.

(** A render in which only the text changed runs the second. *)
Lemma run_effects_text (prev : deps) (c : res_card) (s : app_state) :
  (rc_width c, rc_height c) = (d_width prev, d_height prev) -> s_outputResolution s <> d_res prev ->
  run_effects prev c s = (mk_rc (parseRes (s_outputResolution s)).1 (parseRes (s_outputResolution s)).2, s).
Proof.
  intros H1 H2. unfold run_effects. rewrite bool_decide_true by done.
  apply String.eqb_neq in H2. rewrite H2. by destruct (parseRes _).
Qed.

Lemma setOutputResolution_twice (r1 r2 : string) (s : app_state) :
  setOutputResolution r2 (setOutputResolution r1 s) = setOutputResolution r2 s.
Proof. done. Qed.

Lemma setOutputResolution_same (s : app_state) : setOutputResolution (s_outputResolution s) s = s.
Proof. by destruct s. Qed.

Ltac snap_tac := unfold snapshot; cbn [rc_width rc_height s_outputResolution setOutputResolution]; congruence.

(** A change of the size settles in at most four renders; the card
    then shows what the text reads as when the size it was given has no
    [0] or [NaN]. *)
Lemma settle_size (c0 c1 : res_card) (s : app_state) :
  consistent c0 s ->
  exists c' s', settle 5 (snapshot c0 s) c1 s = Some (c', s') /\
    s' = setOutputResolution (s_outputResolution s') s /\
    (truthy (rc_width c1) && truthy (rc_height c1) = true -> consistent c' s').
Proof.
  intros Hc. destruct c1 as [w1 h1].
  destruct (decide ((w1, h1) = (rc_width c0, rc_height c0))) as [E|E].
  { exists (mk_rc w1 h1), s. rewrite settle_stop by snap_tac.
    split_and!; [done|by rewrite setOutputResolution_same|]. intros _. unfold consistent. by rewrite Hc. }
  rewrite settle_go by snap_tac.
  rewrite run_effects_size by (cbn; done). cbn [fst snd].
  destruct (decide (fmt_res w1 h1 = s_outputResolution s)) as [E1|E1].
  { exists (mk_rc w1 h1), (setOutputResolution (fmt_res w1 h1) s). rewrite settle_stop by snap_tac.
    split_and!; [done|done|]. intros Ht. apply andb_prop in Ht as [Hw Hh].
    unfold consistent. cbn [s_outputResolution setOutputResolution rc_width rc_height]. by rewrite parseRes_fmt, !or_default_truthy. }
  rewrite settle_go by snap_tac.
  rewrite run_effects_text by (cbn; done). cbn [fst snd s_outputResolution setOutputResolution].
  rewrite parseRes_fmt. cbn [fst snd rc_width rc_height].
  remember (or_default w1 (JNum 3840)) as nw eqn:Enw. remember (or_default h1 (JNum 2160)) as nh eqn:Enh.
  assert (Hn : parseRes (fmt_res nw nh) = (nw, nh)).
  { rewrite parseRes_fmt, !or_default_truthy; [done| |]; subst; by apply or_default_is_truthy. }
  destruct (decide ((nw, nh) = (w1, h1))) as [E2|E2].
  { revert E2 Hn. intros [= <- <-] Hn. exists (mk_rc nw nh), (setOutputResolution (fmt_res nw nh) s).
    rewrite settle_stop by snap_tac. split_and!; [done|done|]. intros _. exact Hn. }
  rewrite settle_go by snap_tac.
  rewrite run_effects_size by (cbn; done). cbn [fst snd]. rewrite setOutputResolution_twice.
  destruct (decide (fmt_res nw nh = fmt_res w1 h1)) as [E3|E3].
  { exists (mk_rc nw nh), (setOutputResolution (fmt_res nw nh) s).
    rewrite settle_stop by snap_tac.
    split_and!; [done|done|]. intros _. exact Hn. }
  rewrite settle_go by snap_tac.
  rewrite run_effects_text by (cbn; done). cbn [fst snd s_outputResolution setOutputResolution rc_width rc_height]. rewrite Hn. cbn [fst snd].
  exists (mk_rc nw nh), (setOutputResolution (fmt_res nw nh) s).
  rewrite settle_stop by snap_tac.
  split_and!; [done|done|]. intros _. exact Hn.
Qed.

(** A change of the store's text settles in at most three renders, the
    card showing what the text reads as. *)
Lemma settle_text (c0 : res_card) (s : app_state) (r : string) :
  consistent c0 s ->
  exists c' s', settle 5 (snapshot c0 s) c0 (setOutputResolution r s) = Some (c', s') /\
    s' = setOutputResolution (s_outputResolution s') s /\ consistent c' s'.
Proof.
  intros Hc. destruct (decide (r = s_outputResolution s)) as [E|E].
  { exists c0, (setOutputResolution r s). rewrite settle_stop by snap_tac.
    split_and!; [done|done|]. unfold consistent. cbn [s_outputResolution setOutputResolution]. by rewrite E. }
  rewrite settle_go by snap_tac.
  rewrite run_effects_text by (cbn; done). cbn [fst snd s_outputResolution setOutputResolution].
  destruct (parseRes r) as [a b] eqn:Hp. cbn [fst snd].
  pose proof (parseRes_truthy r) as [Ha Hb]. rewrite Hp in Ha, Hb. cbn in Ha, Hb.
  assert (Hn : parseRes (fmt_res a b) = (a, b)) by (rewrite parseRes_fmt; by rewrite !or_default_truthy).
  destruct (decide ((a, b) = (rc_width c0, rc_height c0))) as [E2|E2].
  { exists (mk_rc a b), (setOutputResolution r s). rewrite settle_stop by snap_tac.
    split_and!; [done|done|]. exact Hp. }
  rewrite settle_go by snap_tac.
  rewrite run_effects_size by (cbn; done). cbn [fst snd rc_width rc_height]. rewrite setOutputResolution_twice.
  destruct (decide (fmt_res a b = r)) as [E3|E3].
  { exists (mk_rc a b), (setOutputResolution (fmt_res a b) s). rewrite settle_stop by snap_tac.
    split_and!; [done|done|]. exact Hn. }
  rewrite settle_go by snap_tac.
  rewrite run_effects_text by (cbn; done). cbn [fst snd s_outputResolution setOutputResolution]. rewrite Hn.
  cbn [fst snd]. exists (mk_rc a b), (setOutputResolution (fmt_res a b) s).
  rewrite settle_stop by snap_tac. split_and!; [done|done|exact Hn].
Qed.

(** The size an action asks for. *)
Definition requested (a : res_action) (c : res_card) (s : app_state) : res_card :=
  (apply_action a c s).1.

(** C17: from a card that shows what the store's resolution reads as,
    every action (typing a width or height, a preset, the two buttons,
    a resolution written by another component) settles: the effects
    stop within five renders, only the store's [outputResolution]
    changes, and the card again shows what the text reads as unless the
    action asked for a size of [0] or [NaN]. *)
Theorem res_step_settles (a : res_action) (c : res_card) (s : app_state) :
  consistent c s ->
  exists c' s', res_step a c s = Some (c', s') /\
    s' = setOutputResolution (s_outputResolution s') s /\
    (truthy (rc_width (requested a c s)) && truthy (rc_height (requested a c s)) = true -> consistent c' s').
Proof.
  intros Hc. unfold res_step, requested.
  destruct a; cbn [apply_action fst];
    try (apply settle_size; exact Hc).
  destruct (settle_text c s res Hc) as (c' & s' & H1 & H2 & H3).
  exists c', s'. split_and!; [exact H1|exact H2|intros _; exact H3].
Qed.

(** ** The size 匹配主图比例 gives *)

Lemma js_round_to_N_le (q : Q) : (q <= 3840)%Q -> (Z.to_N (js_round q) <= 3840)%N.
Proof. intros H. assert (js_round q <= 3840)%Z by (apply js_round_le; exact H). lia. Qed.

(** C28: the size [fit_4k] gives (the 匹配主图比例 button, and the
    resolution the legacy canvas sets on upload) has both sides at most
    3840; an
    image that fits is kept at its size, and a larger one gets 3840 on
    its longer side. *)
Theorem fit_4k_bounds (w h : N) :
  ((fit_4k w h).1 <= 3840 /\ (fit_4k w h).2 <= 3840)%N /\
  ((w <= 3840 /\ h <= 3840)%N -> fit_4k w h = (w, h)) /\
  ((3840 < w \/ 3840 < h)%N -> N.max (fit_4k w h).1 (fit_4k w h).2 = 3840%N).
Proof.
  unfold fit_4k. destruct ((3840 <? w)%N || (3840 <? h)%N) eqn:E; cycle 1.
  { apply orb_false_iff in E. rewrite !N.ltb_ge in E. cbn. split_and!; [lia|lia|done|lia]. }
  apply orb_true_iff in E. rewrite !N.ltb_lt in E.
  destruct (h =? 0)%N eqn:Hh; [cbn; split_and!; [lia|lia|intros; exfalso; lia|lia]|].
  apply N.eqb_neq in Hh.
  set (ratio := (inject_Z (Z.of_N w) / inject_Z (Z.of_N h))%Q).
  assert (Hh' : (0 < inject_Z (Z.of_N h))%Q) by (change 0%Q with (inject_Z 0); rewrite <- Zlt_Qlt; lia).
  assert (Hr : (0 <= ratio)%Q).
  { apply Qle_shift_div_l; [exact Hh'|]. rewrite Qmult_0_l.
    change 0%Q with (inject_Z 0). rewrite <- Zle_Qle. lia. }
  destruct (Qle_bool 1 ratio) eqn:Hq; cbn [fst snd].
  - apply Qle_bool_iff in Hq.
    assert (H : (3840 / ratio <= 3840)%Q) by (apply Qle_shift_div_r; lra).
    pose proof (js_round_to_N_le _ H). split_and!; [lia|lia|intros; exfalso; lia|lia].
  - assert (Hq' : (ratio < 1)%Q) by (apply Qnot_le_lt; intros H; apply Qle_bool_iff in H; congruence).
    assert (H : (3840 * ratio <= 3840)%Q) by lra.
    pose proof (js_round_to_N_le _ H). split_and!; [lia|lia|intros; exfalso; lia|lia].
Qed.

(** ** Instances *)

(** The card as [mount] leaves it on a fresh store. *)
Definition rc0 : res_card := mk_rc (JNum 3840) (JNum 2160).

(** The preset 9:16 sets a height of 6827, beyond the [max=3840]
    of the height input; a resolution text another component writes is
    kept as it is while the card shows [3840x2160] ([abc], which the
    server rejects, or [3840x0]); and 匹配主图比例 on a 10000x1 image
    ends at [3840x2160]. *)
Example res_controls_outcomes :
  option_map (fun '(c, s) => s_outputResolution s) (res_step (Preset "9:16") rc0 (initial_state 0))
    = Some "3840x6827" /\
  option_map (fun '(c, s) => (rc_width c, rc_height c, s_outputResolution s))
    (res_step (External "abc") rc0 (initial_state 0)) = Some (JNum 3840, JNum 2160, "abc") /\
  option_map (fun '(c, s) => s_outputResolution s) (res_step (External "3840x0") rc0 (initial_state 0))
    = Some "3840x0" /\
  option_map (fun '(c, s) => s_outputResolution s)
    (res_step MatchBase rc0 (setBaseMeta (10000, 1)%N (initial_state 0))) = Some "3840x2160".
Proof. vm_compute. split_and!; reflexivity. Qed.

Lemma res_step_settles_witness :
  consistent rc0 (initial_state 0) /\
  exists c' s', res_step (Preset "9:16") rc0 (initial_state 0) = Some (c', s') /\
    s' = setOutputResolution (s_outputResolution s') (initial_state 0) /\
    (truthy (rc_width (requested (Preset "9:16") rc0 (initial_state 0))) &&
     truthy (rc_height (requested (Preset "9:16") rc0 (initial_state 0))) = true -> consistent c' s').
Proof.
  assert (H : consistent rc0 (initial_state 0)) by (vm_compute; reflexivity).
  split; [exact H|exact (res_step_settles (Preset "9:16") rc0 (initial_state 0) H)].
Defined.

Lemma fit_4k_bounds_witness :
  ((fit_4k 5000 4000).1 <= 3840 /\ (fit_4k 5000 4000).2 <= 3840)%N /\
  ((5000 <= 3840 /\ 4000 <= 3840)%N -> fit_4k 5000 4000 = (5000%N, 4000%N)) /\
  ((3840 < 5000 \/ 3840 < 4000)%N -> N.max (fit_4k 5000 4000).1 (fit_4k 5000 4000).2 = 3840%N).
Proof. exact (fit_4k_bounds 5000 4000). Defined.

End ResCard.

(** * The side panel [BindingPanel.tsx] *)

Module Binding.
Import ResCard.

(** [width] in local state, the memo [height] with the dependencies it
    was computed for ([width], [baseMeta]), and the completions that
    [setTimeout] has pending. *)
Record binding := mk_binding {
  b_width : jsnum;
  b_height : jsnum;
  b_memo_deps : jsnum * option (N * N);
  b_timers : list string
}.

(** [height] (lines 13-16): [Math.round(width / r)], [r] the base image's
    ratio or that of the resolution text. *)
Definition memo_height (width : jsnum) (baseMeta : option (N * N)) (res : string) : jsnum :=
  let r := match baseMeta with
           | Some (w, h) => xdiv (of_N w) (of_N h)
           | None => let '(pw, ph) := parseRes res in xdiv (of_jsnum pw) (of_jsnum ph)
           end in
  xround (xdiv (of_jsnum width) r).

(** A render: the memo is recomputed only when [width] or [baseMeta]
    changed, not when [outputResolution] did. *)
Definition render (b : binding) (s : app_state) : binding :=
  if bool_decide ((b_width b, s_baseMeta s) = b_memo_deps b) then b
  else mk_binding (b_width b) (memo_height (b_width b) (s_baseMeta s) (s_outputResolution s))
         (b_width b, s_baseMeta s) (b_timers b).

(** The first render: [useState(parseRes(outputResolution).w)]. *)
Definition mount (s : app_state) : binding :=
  let w := (parseRes (s_outputResolution s)).1 in
  mk_binding w (memo_height w (s_baseMeta s) (s_outputResolution s)) (w, s_baseMeta s) [].

(** The width input (line 55): [v = Math.max(256, Number(value) || 0)],
    then [setWidth(v)] and [setOutputResolution(`${v}x${height}`)] with
    the [height] of the render the event happened in. *)
Definition width_change (text : string) (b : binding) (s : app_state) : binding * app_state :=
  let v := js_max 256 (or_default (js_number text) (JNum 0)) in
  (render (mk_binding v (b_height b) (b_memo_deps b) (b_timers b)) (setOutputResolution (fmt_res v (b_height b)) s),
   setOutputResolution (fmt_res v (b_height b)) s).

(** 默认4K (line 58): the width 3840 and the height from the base
    image's ratio, or [16/9]. *)
Definition default_4k (b : binding) (s : app_state) : binding * app_state :=
  let r := match s_baseMeta s with
           | Some (w, h) => xdiv (of_N w) (of_N h)
           | None => XFin (16 # 9)
           end in
  let h := xround (xdiv (of_N 3840) r) in
  let s1 := setOutputResolution (fmt_res (JNum 3840) h) s in
  (render (mk_binding (JNum 3840) (b_height b) (b_memo_deps b) (b_timers b)) s1, s1).

(** [submitTask] (lines 20-35): a task [PROCESSING] is added and, 3 s
    later, marked [COMPLETE] with the base image as its result; the
    server is never called. *)
Definition submitTask (now : N) (b : binding) (s : app_state) : binding * app_state :=
  let id := "job_" +:+ show_N now in
  (mk_binding (b_width b) (b_height b) (b_memo_deps b) (b_timers b ++ [id]),
   addTask (mk_task id ("图像生成任务 " +:+ s_outputResolution s) (js_str "PROCESSING") None now None) s).

(** The oldest pending [setTimeout] callback. *)
Definition timer_fires (b : binding) (s : app_state) : binding * app_state :=
  match b_timers b with
  | [] => (b, s)
  | id :: ids =>
      (mk_binding (b_width b) (b_height b) (b_memo_deps b) ids,
       updateTask id (mk_patch (Some (js_str "COMPLETE")) (Some (option_map JStr (s_baseImage s)))) s)
  end.

Inductive binding_event :=
  | BWidth (text : string)
  | BDefault4K
  | BSubmit (now : N)
  | BTimer.

Definition binding_step (e : binding_event) (b : binding) (s : app_state) : binding * app_state :=
  match e with
  | BWidth t => width_change t b s
  | BDefault4K => default_4k b s
  | BSubmit now => submitTask now b s
  | BTimer => timer_fires b s
  end.

Definition binding_run : list binding_event -> binding -> app_state -> binding * app_state :=
  run_steps binding_step.

(** A panel as its last render left it. *)
Definition rendered (b : binding) (s : app_state) : Prop :=
  b_memo_deps b = (b_width b, s_baseMeta s) /\
  exists res, b_height b = memo_height (b_width b) (s_baseMeta s) res.

(** With a base image the memo does not read the resolution text. *)
Lemma memo_height_base (w : jsnum) (bw bh : N) (res res' : string) :
  memo_height w (Some (bw, bh)) res = memo_height w (Some (bw, bh)) res'.
Proof. done. Qed.

(** The height after a render of a new width. *)
Lemma render_height_base (b : binding) (s s' : app_state) (v : jsnum) (ts : list string) (bw bh : N) :
  s_baseMeta s = Some (bw, bh) -> s_baseMeta s' = s_baseMeta s -> rendered b s ->
  b_height (render (mk_binding v (b_height b) (b_memo_deps b) ts) s') = memo_height v (Some (bw, bh)) "".
Proof.
  intros Hm Hs [Hd [res Hh]]. unfold render. cbn [b_width b_memo_deps b_height].
  case_bool_decide as E; cbn [b_height].
  - rewrite Hd, Hs in E. injection E as Ev. rewrite Hh, Hm, Ev. apply memo_height_base.
  - rewrite Hs, Hm. apply memo_height_base.
Qed.

(** C33: with a base image, a width typed into the panel is written
    with the height of the previous width ([height] is the memo of the
    render the event happened in); the same width typed a second time is
    written with its own height. *)
Theorem binding_height_lags (t : string) (b : binding) (s : app_state) (bw bh : N) :
  s_baseMeta s = Some (bw, bh) -> rendered b s ->
  let v := js_max 256 (or_default (js_number t) (JNum 0)) in
  s_outputResolution (binding_run [BWidth t] b s).2 = fmt_res v (b_height b) /\
  s_outputResolution (binding_run [BWidth t; BWidth t] b s).2
  = fmt_res v (memo_height v (Some (bw, bh)) "").
Proof.
  intros Hm Hr v. split; [done|].
  change (s_outputResolution (binding_run [BWidth t; BWidth t] b s).2)
    with (fmt_res v (b_height (width_change t b s).1)).
  unfold width_change. fold v. cbn [fst]. f_equal. by apply (render_height_base b s).
Qed.

(** ** Instances *)

Definition s_1080 : app_state := setBaseMeta (1920, 1080)%N (initial_state 0).

(** On a 1920x1080 base image with the width 3840, typing [1920]
    writes [1920x2160], and typing it again [1920x1080]; the panel's
    submit never reaches the server: 3 s later its task is [COMPLETE]
    with the base image itself as the result. *)
Example binding_panel_outcomes :
  s_outputResolution (binding_run [BWidth "1920"] (mount s_1080) s_1080).2 = "1920x2160" /\
  s_outputResolution (binding_run [BWidth "1920"; BWidth "1920"] (mount s_1080) s_1080).2 = "1920x1080" /\
  map (fun t => (ct_status t, ct_resultUrl t))
      (s_tasks (binding_run [BSubmit 5; BTimer] (mount s_1080) (setBaseImage "https://oss/base.png" s_1080)).2)
    = [(js_str "COMPLETE", js_str "https://oss/base.png")].
Proof. vm_compute. split_and!; reflexivity. Qed.

Lemma binding_height_lags_witness :
  s_baseMeta s_1080 = Some (1920%N, 1080%N) /\ rendered (mount s_1080) s_1080 /\
  (let v := js_max 256 (or_default (js_number "1920") (JNum 0)) in
   s_outputResolution (binding_run [BWidth "1920"] (mount s_1080) s_1080).2 = fmt_res v (b_height (mount s_1080)) /\
   s_outputResolution (binding_run [BWidth "1920"; BWidth "1920"] (mount s_1080) s_1080).2
   = fmt_res v (memo_height v (Some (1920%N, 1080%N)) "")).
Proof.
  assert (H1 : s_baseMeta s_1080 = Some (1920%N, 1080%N)) by reflexivity.
  assert (H2 : rendered (mount s_1080) s_1080) by (split; [reflexivity|exists ""; reflexivity]).
  split_and!; [exact H1|exact H2|]. exact (binding_height_lags "1920" (mount s_1080) s_1080 1920 1080 H1 H2).
Defined.

End Binding.
