(* ===== verification/Legacy.v ===== *)
(** * The legacy annotation canvas ([BaseImageCard.tsx])

    Models [src/src/components/cards/BaseImageCard.tsx], the earlier
    version of the canvas card: no component imports it ([SystemPanel]
    mounts [BaseImageCard_New.tsx], modelled in [Canvas]), but it is
    kept in the sources.  It shares the stroke smoothing (lines 131-163
    are the code of [Canvas.smoothPoints]), the view scale and the
    element labels with the new card, and differs from it in:
    - the pointer handlers (lines 165-187): a rectangle or circle keeps
      its start point in [startPointRef]; a brush stroke grows without
      smoothing while it is drawn;
    - [handleMouseUp] (lines 190-246): the numerals 一 .. 十 then the
      decimal digits, a fixed colour and brush size, the element's
      [coords] (the rectangle's four corners, two values per brush
      point), and the new element highlighted with a [setTimeout] that
      clears the highlight 1.5 s later;
    - the element list (lines 297-337): the coordinates shown, hovering
      highlights, the delete button;
    - [onSelect] (lines 82-121): the output resolution scaled to fit in
      3840 pixels;
    - the image loading (lines 45-72): an OSS URL is loaded through
      [/oss-proxy], which the dev server ([src/web/vite.config.ts])
      forwards to one fixed bucket.
    The card's local state is the record [legacy]; the [setTimeout]
    callbacks not yet run are counted in it, and [TimerFires] runs one.
    Numbers are exact rationals as in [Store]. *)

From Stdlib Require Import QArith Qminmax Qabs Qround Lqa.
From S2P Require Import Prelude JsString Json ApiClient Store Client Canvas Resolution.
Import Js Json Store Client Canvas ResCard.

Module Legacy.

(** ** The card's state (lines 22-34) *)

(** [brushSize] and [showMasks] are never set by this card and are not
    read by its handlers. *)
Record legacy := mk_legacy {
  l_drawMode : draw_mode;
  l_drawingPoints : list point;
  l_isDrawing : bool;
  l_startPoint : option point;   (* [startPointRef.current] *)
  l_timers : nat                 (* the [setTimeout] callbacks not yet run *)
}.

Definition initial_legacy : legacy := mk_legacy mode_brush [] false None 0.

Definition l_with_points (pts : list point) (c : legacy) : legacy :=
  mk_legacy (l_drawMode c) pts (l_isDrawing c) (l_startPoint c) (l_timers c).

(** ** The pointer handlers (lines 165-187) *)

Definition l_handleMouseDown (p : point) (scale : Q) (c : legacy) : legacy :=
  let o := original p scale in
  mk_legacy (l_drawMode c) [o] true (Some o) (l_timers c).

Definition l_handleMouseMove (p : point) (scale : Q) (c : legacy) : legacy :=
  if negb (l_isDrawing c) then c else
  let o := original p scale in
  match l_drawMode c with
  | mode_rectangle | mode_circle =>
      match l_startPoint c with Some p0 => l_with_points [p0; o] c | None => c end
  | mode_brush => l_with_points (l_drawingPoints c ++ [o]) c
  end.

(** ** The element [handleMouseUp] saves (lines 190-246) *)

Definition legacy_numerals : list string :=
  ["一"; "二"; "三"; "四"; "五"; "六"; "七"; "八"; "九"; "十"].

(** [cnIndex]: [[...][sameTypeCount - 1] || String(sameTypeCount)]. *)
Definition cnIndex (n : nat) : string := table_numeral legacy_numerals n.

(** The rounded corners of the box of [p1] and [p2], clockwise from the
    top left: [x = min], [w = |p2.x - p1.x|], ... *)
Definition rect_corners (p1 p2 : point) : list Z :=
  let x := Qmin (px p1) (px p2) in
  let y := Qmin (py p1) (py p2) in
  let w := Qabs (px p2 - px p1) in
  let h := Qabs (py p2 - py p1) in
  map js_round [x; y; x + w; y; x + w; y + h; x; y + h]%Q.

(** [finalPoints.flatMap(p => [Math.round(p.x), Math.round(p.y)])]. *)
Definition brush_coords (pts : list point) : list Z :=
  flat_map (fun p => [js_round (px p); js_round (py p)]) pts.

(** The [coords] of an element: from its first and last point for a
    rectangle (never reached without points), none for a circle. *)
Definition element_coords (t : element_type) (pts : list point) : option (list Z) :=
  match t with
  | rectangle => match pts with p1 :: _ => Some (rect_corners p1 (List.last pts p1)) | [] => None end
  | brush => Some (brush_coords pts)
  | _ => None
  end.

Definition legacy_element (now : N) (c : legacy) (pts : list point) (s : app_state) : MaskElement :=
  let t := mode_type (l_drawMode c) in
  mk_element ("element_" +:+ show_N now)
    (Some (type_label t +:+ cnIndex (S (count_type t (sm_elements (s_mask s))))))
    t "#00A2FF" pts 12 (element_coords t pts).

(** The drawing ends; with two points or more the element is added,
    highlighted, and a timer is set to clear the highlight. *)
Definition l_handleMouseUp (now : N) (c : legacy) (s : app_state) : legacy * app_state :=
  let ended (timers : nat) := mk_legacy (l_drawMode c) [] false None timers in
  if length (l_drawingPoints c) <? 2 then (ended (l_timers c), s) else
  let finalPoints :=
    if bool_decide (l_drawMode c = mode_brush) then smoothPoints (l_drawingPoints c) 5
    else l_drawingPoints c in
  let el := legacy_element now c finalPoints s in
  (ended (S (l_timers c)), setHighlightedElementId (Some (me_id el)) (addMaskElement now el s)).

(** [setTimeout(() => setHighlightedElementId(null), 1500)] firing. *)
Definition timer_fires (c : legacy) (s : app_state) : legacy * app_state :=
  match l_timers c with
  | O => (c, s)
  | S k => (mk_legacy (l_drawMode c) (l_drawingPoints c) (l_isDrawing c) (l_startPoint c) k,
            setHighlightedElementId None s)
  end.

(** ** The element list (lines 297-337) *)

(** The corners computed from an element's first and last point. *)
Definition points_corners (el : MaskElement) : list Z :=
  match me_points el with
  | p1 :: _ => rect_corners p1 (List.last (me_points el) p1)
  | [] => []
  end.

(** [el.coords || ...]: the stored coordinates, or those computed from
    the points, or none. *)
Definition coord_list (el : MaskElement) : list Z :=
  match me_coords el with
  | Some cs => cs
  | None =>
      match me_type el with
      | rectangle => points_corners el
      | brush => brush_coords (me_points el)
      | _ => []
      end
  end.

(** [coords.length > 0 ? coords.join(',') : '—']. *)
Definition coord_text (el : MaskElement) : string :=
  match coord_list el with
  | [] => "—"
  | cs => join "," (map show_Z cs)
  end.

(** 🗑️: when the element is in the list, the mask is cleared and the
    other elements are added back one by one; the highlight is kept. *)
Definition l_deleteElement (now : N) (id : string) (s : app_state) : app_state :=
  let els := sm_elements (s_mask s) in
  if existsb (fun e => String.eqb (me_id e) id) els then
    fold_left (fun s' ne => addMaskElement now ne s') (filter (fun e => me_id e <> id) els)
      (clearMask now s)
  else s.

(** The polygon of a saved rectangle (lines 378-394): its [coords] when
    there are eight, else the corners of its first and last point. *)
Definition rect_polygon (el : MaskElement) (scale : Q) : list Q :=
  let cs := match me_coords el with
            | Some cs => if length cs =? 8 then cs else points_corners el
            | None => points_corners el
            end in
  map (fun z => inject_Z z * scale)%Q cs.

(** ** The image upload ([onSelect], lines 82-121) *)

(** The scaling is the code of [PromptAndModelCard]'s 匹配主图比例
    button, [ResCard.fit_4k]. *)
(** The [Image]'s [onload] after the upload: the size, the uploaded URL
    as base image, and the scaled resolution.  (Before, the [blob:] URL
    of [setBaseImage(localUrl)] is the base image; a failed upload only
    alerts.) *)
Definition l_image_loaded (ossUrl : string) (w h : N) (s : app_state) : app_state :=
  let '(ow, oh) := fit_4k w h in
  setOutputResolution ⟪ show_N ow; "x"; show_N oh ⟫ (setBaseImage ossUrl (setBaseMeta (w, h) s)).

(** ** Loading the base image (lines 45-72) and the dev proxy *)

(** What [new URL(baseImage)] parses. *)
Record url := mk_url {
  u_protocol : string;
  u_hostname : string;
  u_port : string;
  u_pathname : string;
  u_search : string;
  u_hash : string
}.

Definition href (u : url) : string :=
  ⟪ u_protocol u; "//"; u_hostname u; (if String.eqb (u_port u) "" then "" else ":" +:+ u_port u);
    u_pathname u; u_search u; u_hash u ⟫.

(** [finalUrl]; [parsed] is [None] when [new URL] throws. *)
Definition finalUrl (baseImage : string) (parsed : option url) : string :=
  match parsed with
  | Some u => if includes "aliyuncs.com" (u_hostname u) then ⟪ "/oss-proxy"; u_pathname u; u_search u ⟫
              else baseImage
  | None => baseImage
  end.

(** The sources the [Image] tries: [finalUrl], then on [onerror] the
    original URL when it differs. *)
Definition image_sources (baseImage : string) (parsed : option url) : list string :=
  let f := finalUrl baseImage parsed in
  if String.eqb f baseImage then [f] else [f; baseImage].

(** The proxy of [vite.config.ts]: a path under [/oss-proxy] is fetched
    from the [podi] bucket with the prefix removed. *)
Definition proxy_target (path : string) : option string :=
  if starts_with "/oss-proxy" path
  then Some ("https://podi.oss-cn-hangzhou.aliyuncs.com" +:+ drop_str 10 path)
  else None.

(** ** Sessions *)

Inductive legacy_event :=
  | LMouseDown (p : point) (scale : Q)
  | LMouseMove (p : point) (scale : Q)
  | LMouseUp (now : N)
  | LSetDrawMode (m : draw_mode)
  | LHover (id : option string)
  | LDelete (now : N) (id : string) (confirmed : bool)
  | LSelectFile (localUrl : option string)
  | LImageLoaded (ossUrl : string) (w h : N)
  | TimerFires.

Definition legacy_step (e : legacy_event) (c : legacy) (s : app_state) : legacy * app_state :=
  match e with
  | LMouseDown p scale => (l_handleMouseDown p scale c, s)
  | LMouseMove p scale => (l_handleMouseMove p scale c, s)
  | LMouseUp now => l_handleMouseUp now c s
  | LSetDrawMode m => (mk_legacy m (l_drawingPoints c) (l_isDrawing c) (l_startPoint c) (l_timers c), s)
  | LHover id => (c, setHighlightedElementId id s)
  | LDelete now id confirmed => (c, if confirmed then l_deleteElement now id s else s)
  | LSelectFile u => (c, select_file u s)
  | LImageLoaded u w h => (c, l_image_loaded u w h s)
  | TimerFires => timer_fires c s
  end.

Definition legacy_run : list legacy_event -> legacy -> app_state -> legacy * app_state :=
  run_steps legacy_step.

(** ** Every saved element is well typed *)

(** The shape of [coords] for each type: eight corner values for a
    rectangle, two per point for a brush stroke, none for a circle. *)
Definition coords_shape (t : element_type) (pts : list point) (cs : option (list Z)) : Prop :=
  match t with
  | rectangle => exists l, cs = Some l /\ length l = 8
  | brush => exists l, cs = Some l /\ length l = 2 * length pts
  | circle => cs = None
  | line => False
  end.

(** An element as [handleMouseUp] builds it. *)
Definition el_typed (e : MaskElement) : Prop :=
  me_type e <> line /\ 2 <= length (me_points e) /\
  me_coords e = element_coords (me_type e) (me_points e).

Definition mask_typed (s : app_state) : Prop := Forall el_typed (sm_elements (s_mask s)).

Lemma brush_coords_length (pts : list point) : length (brush_coords pts) = 2 * length pts.
Proof.
  unfold brush_coords. induction pts as [|p pts IH]; [done|].
  cbn [flat_map]. rewrite length_app, IH. cbn [length]. lia.
Qed.

Lemma el_typed_shape (e : MaskElement) :
  el_typed e -> coords_shape (me_type e) (me_points e) (me_coords e).
Proof.
  intros (Ht & Hl & ->). unfold element_coords, coords_shape.
  destruct (me_type e); try done.
  - eexists. split; [done|]. apply brush_coords_length.
  - destruct (me_points e) as [|p1 ps]; [cbn in Hl; lia|]. by eexists.
Qed.

Lemma legacy_element_typed (now : N) (c : legacy) (pts : list point) (s : app_state) :
  2 <= length pts -> el_typed (legacy_element now c pts s).
Proof. intros H. unfold legacy_element, el_typed; cbn. split_and!; [by destruct (l_drawMode c)|done|done]. Qed.

Lemma mask_typed_delete (now : N) (id : string) (s : app_state) :
  mask_typed s -> mask_typed (l_deleteElement now id s).
Proof.
  intros Hs. unfold l_deleteElement. case_match; [|done]. unfold mask_typed.
  autorewrite with photo_rw. eapply Forall_subset; [exact Hs|apply list_subseteq_filter].
Qed.

Lemma l_handleMouseUp_typed (now : N) (c : legacy) (s : app_state) :
  mask_typed s -> mask_typed (l_handleMouseUp now c s).2.
Proof.
  intros Hs. unfold l_handleMouseUp. destruct (length _ <? 2) eqn:E; [done|]. apply Nat.ltb_ge in E.
  unfold mask_typed. cbn [snd]. autorewrite with photo_rw. apply Forall_app. split; [done|].
  apply Forall_singleton, legacy_element_typed. case_bool_decide; [by apply smoothPoints_length|done].
Qed.

Lemma legacy_step_typed (e : legacy_event) (c : legacy) (s : app_state) :
  mask_typed s -> mask_typed (legacy_step e c s).2.
Proof.
  intros Hs. destruct e; cbn [legacy_step snd]; try done.
  - by apply l_handleMouseUp_typed.
  - destruct confirmed; [by apply mask_typed_delete|done].
  - by destruct localUrl.
  - unfold l_image_loaded. by destruct (fit_4k w h).
  - unfold timer_fires. by destruct (l_timers c).
Qed.

Lemma legacy_run_typed (es : list legacy_event) (now : N) :
  mask_typed (legacy_run es initial_legacy (initial_state now)).2.
Proof.
  refine (run_steps_inv legacy_step (fun _ => True) (fun _ s => mask_typed s) _ es _ _ _ _).
  - intros e c s _. apply legacy_step_typed.
  - by apply Forall_true.
  - constructor.
Qed.

(** C14: whatever the user does on the legacy card, every element in the
    store has at least two points and [coords] of the shape its type
    requires: eight corner values for a rectangle, two values per point
    for a brush stroke, none for a circle; there is no line. *)
Theorem legacy_session_typed (es : list legacy_event) (now : N) :
  Forall (fun e => 2 <= length (me_points e) /\ coords_shape (me_type e) (me_points e) (me_coords e))
    (sm_elements (s_mask (legacy_run es initial_legacy (initial_state now)).2)).
Proof.
  eapply Forall_impl; [apply legacy_run_typed|]. intros e He. split; [apply He|by apply el_typed_shape].
Qed.

(** ** The corners agree with the tag [SubmitBar] sends *)

Lemma Qmin_plus_abs (a b : Q) : (Qmin a b + Qabs (b - a) == Qmax a b)%Q.
Proof.
  destruct (Qlt_le_dec a b) as [H|H].
  - rewrite Q.min_l, Q.max_r, Qabs_pos by lra. ring.
  - rewrite Q.min_r, Q.max_l, Qabs_neg by lra. ring.
Qed.

Lemma js_round_wd (q q' : Q) : (q == q')%Q -> js_round q = js_round q'.
Proof. intros H. unfold js_round. apply Z.le_antisymm; apply Qfloor_resp_le; lra. Qed.

(** The corners of two points are the rounded box [SubmitBar]'s [toRect]
    tags. *)
Lemma rect_corners_tag (p0 p1 : point) :
  exists a b c d, rect_corners p0 p1 = [a; b; c; b; c; d; a; d] /\
    toRect [p0; p1] = ⟪ "@rect("; show_Z a; ","; show_Z b; ","; show_Z (Z.max 1 (c - a)); ",";
                        show_Z (Z.max 1 (d - b)); ")" ⟫.
Proof.
  exists (js_round (Qmin (px p0) (px p1))), (js_round (Qmin (py p0) (py p1))),
         (js_round (Qmax (px p0) (px p1))), (js_round (Qmax (py p0) (py p1))). split; [|done].
  unfold rect_corners. cbn [map].
  by rewrite !(js_round_wd (Qmin _ _ + Qabs _) (Qmax _ _)) by apply Qmin_plus_abs.
Qed.

(** C26: every rectangle of two points (its start and end) that the
    legacy card stores has as [coords] the corners [a,b, c,b, c,d, a,d]
    of the box that [SubmitBar] sends as [@rect(a,b,w,h)] for it: the
    coordinates the list shows are those submitted. *)
Theorem legacy_rect_matches_tag (es : list legacy_event) (now : N) (e : MaskElement) :
  e ∈ sm_elements (s_mask (legacy_run es initial_legacy (initial_state now)).2) ->
  me_type e = rectangle -> length (me_points e) = 2 ->
  exists a b c d, me_coords e = Some [a; b; c; b; c; d; a; d] /\
    toRect (me_points e) = ⟪ "@rect("; show_Z a; ","; show_Z b; ","; show_Z (Z.max 1 (c - a)); ",";
                             show_Z (Z.max 1 (d - b)); ")" ⟫.
Proof.
  intros Hin Ht Hl. pose proof (proj1 (Forall_forall _ _) (legacy_run_typed es now) e Hin) as (_ & _ & Hc).
  destruct (me_points e) as [|p0 [|p1 [|? ?]]] eqn:Hp; cbn in Hl; try lia.
  rewrite Hc, Ht. cbn [element_coords List.last].
  destruct (rect_corners_tag p0 p1) as (a & b & c & d & Hr & Ht'). exists a, b, c, d. by rewrite Hr.
Qed.

(** ** The names the legacy card gives *)

Lemma cnIndex_inj (a b : nat) : 1 <= a -> 1 <= b -> cnIndex a = cnIndex b -> a = b.
Proof.
  apply table_numeral_inj; [apply (bool_decide_unpack _); vm_compute; reflexivity|].
  repeat constructor; intros d t [= <- _]; reflexivity.
Qed.

(** A delete that the user confirmed. *)
Definition l_confirmed_delete (e : legacy_event) : bool :=
  match e with LDelete _ _ true => true | _ => false end.

Lemma legacy_step_names (e : legacy_event) (c : legacy) (s : app_state) :
  l_confirmed_delete e = false ->
  names_ok cnIndex (sm_elements (s_mask s)) -> NoDup (map me_name (sm_elements (s_mask s))) ->
  names_ok cnIndex (sm_elements (s_mask (legacy_step e c s).2)) /\
  NoDup (map me_name (sm_elements (s_mask (legacy_step e c s).2))).
Proof.
  intros Hd Hok Hnd. destruct e; cbn [legacy_step snd]; try done.
  - unfold l_handleMouseUp. case_match; [done|]. cbn [snd]. autorewrite with photo_rw.
    apply names_add; [exact cnIndex_inj|done|done| |done]. unfold legacy_element; cbn. by destruct (l_drawMode c).
  - by destruct confirmed.
  - by destruct localUrl.
  - unfold l_image_loaded. by destruct (fit_4k w h).
  - unfold timer_fires. by destruct (l_timers c).
Qed.

(** As long as no element is deleted, the names the legacy card
    gives ([矩形一] .. [矩形十], then [矩形11], ...) are pairwise
    distinct. *)
Theorem legacy_names_distinct (es : list legacy_event) (now : N) :
  Forall (fun e => l_confirmed_delete e = false) es ->
  NoDup (map me_name (sm_elements (s_mask (legacy_run es initial_legacy (initial_state now)).2))).
Proof.
  intros Hes. refine (proj2 (run_steps_inv legacy_step (fun e => l_confirmed_delete e = false)
    (fun _ s => names_ok cnIndex (sm_elements (s_mask s)) /\ NoDup (map me_name (sm_elements (s_mask s))))
    _ es initial_legacy (initial_state now) Hes _)).
  - intros e c s He [Hok Hnd]. by apply legacy_step_names.
  - split; [apply names_ok_nil|constructor].
Qed.

(** ** Instances *)

(** Draw a rectangle from (50,60) to (10,10) at time [t]. *)
Definition draw_rect_l (t : N) : list legacy_event :=
  [LSetDrawMode mode_rectangle; LMouseDown (pt 50 60) 1; LMouseMove (pt 10 10) 1; LMouseUp t].

(** The highlight of a new element is cleared by whichever timer
    fires first: after two rectangles drawn within 1.5 s, the first
    timer clears the second's highlight while its own timer is still
    pending; a row hovered in the list loses its highlight when a timer
    fires; and deleting the hovered element leaves the highlight on an
    id that is no longer in the mask. *)
Example legacy_highlight_races :
  (let '(c, s) := legacy_run (draw_rect_l 1 ++ draw_rect_l 2 ++ [TimerFires]) initial_legacy (initial_state 0) in
   s_highlightedElementId s = None /\ l_timers c = 1) /\
  (let '(c, s) := legacy_run (draw_rect_l 1 ++ [LHover (Some "element_1"); TimerFires])
                    initial_legacy (initial_state 0) in
   s_highlightedElementId s = None) /\
  (let '(c, s) := legacy_run (draw_rect_l 1 ++ [LHover (Some "element_1"); LDelete 2 "element_1" true])
                    initial_legacy (initial_state 0) in
   s_highlightedElementId s = Some "element_1" /\ sm_elements (s_mask s) = []).
Proof. vm_compute. split_and!; reflexivity. Qed.

(** An image on another OSS bucket is loaded through [/oss-proxy],
    which the dev server forwards to the [podi] bucket: the card asks
    [podi] for the object of that path, and only when that fails falls
    back to the original URL. *)
Example legacy_proxy_other_bucket :
  let u := mk_url "https:" "other.oss-cn-beijing.aliyuncs.com" "" "/a.png" "?v=1" "" in
  image_sources (href u) (Some u) = ["/oss-proxy/a.png?v=1"; href u] /\
  proxy_target "/oss-proxy/a.png?v=1" = Some "https://podi.oss-cn-hangzhou.aliyuncs.com/a.png?v=1".
Proof. vm_compute. split; reflexivity. Qed.

Lemma legacy_names_distinct_witness :
  Forall (fun e => l_confirmed_delete e = false)
    (flat_map (fun k => draw_rect_l (N.of_nat k)) (seq 1 11)) /\
  NoDup (map me_name (sm_elements (s_mask
    (legacy_run (flat_map (fun k => draw_rect_l (N.of_nat k)) (seq 1 11)) initial_legacy (initial_state 0)).2))).
Proof.
  assert (H : Forall (fun e => l_confirmed_delete e = false)
                (flat_map (fun k => draw_rect_l (N.of_nat k)) (seq 1 11))) by (cbn; repeat constructor).
  split; [exact H|]. by apply legacy_names_distinct.
Defined.

Lemma legacy_rect_matches_tag_witness :
  let e := mk_element "element_1" (Some "矩形一") rectangle "#00A2FF" [pt 50 60; pt 10 10] 12
             (Some [10; 10; 50; 10; 50; 60; 10; 60]%Z) in
  e ∈ sm_elements (s_mask (legacy_run (draw_rect_l 1) initial_legacy (initial_state 0)).2) /\
  me_type e = rectangle /\ length (me_points e) = 2 /\
  exists a b c d, me_coords e = Some [a; b; c; b; c; d; a; d] /\
    toRect (me_points e) = ⟪ "@rect("; show_Z a; ","; show_Z b; ","; show_Z (Z.max 1 (c - a)); ",";
                             show_Z (Z.max 1 (d - b)); ")" ⟫.
Proof.
  intros e.
  assert (Hin : e ∈ sm_elements (s_mask (legacy_run (draw_rect_l 1) initial_legacy (initial_state 0)).2)).
  { vm_compute. left. }
  split_and!; [exact Hin|reflexivity|reflexivity|].
  exact (legacy_rect_matches_tag (draw_rect_l 1) 0 e Hin eq_refl eq_refl).
Defined.

End Legacy.
