(* ===== verification/MaskResidue.v ===== *)
(** * The mask-residue check ([src/scripts/check_mask_residue.js])

    A maintenance script: it reads an image with Jimp, packs each
    pixel's four channel bytes into one unsigned 32-bit number with
    JavaScript's bitwise operators (line 36), compares it with the six
    opaque mask colours (lines 10-17), counts the pixels that match in
    [residueCount] and per colour in the object [residueDetails], and
    exits with status 1 when a pixel matched or the image could not be
    read (lines 46-58); without an argument it prints its usage and
    exits with status 0 (lines 61-65).
    - [pixel_hex] is line 36 with the width of the operators written
      out: [<<] and [|] act on int32 ([js_shl], [js_bor] of [Prelude])
      and [>>> 0] reads the result as uint32;
    - [scan_image] is [image.scan] over the whole bitmap with the
      callback of lines 30-44; Jimp visits the rows top to bottom and
      each row left to right, the pixel at [(x, y)] starting at byte
      [(width * y + x) * 4];
    - [checkImage] and [main] return the lines written to the console
      and the status passed to [process.exit] ([None]: the script ends
      without calling it, status 0). [Jimp.read] is the oracle [read]. *)

From S2P Require Import Prelude JsString Json.
Import Json.

Module MaskResidue.

(** ** The mask colours (lines 10-17) *)

Record banned_color := mk_banned { bc_name : string; bc_hex : Z }.

Definition BANNED_COLORS : list banned_color :=
  [ mk_banned "Red" 0xFF0000FF; mk_banned "Green" 0x00FF00FF;
    mk_banned "Blue" 0x0000FFFF; mk_banned "Yellow" 0xFFFF00FF;
    mk_banned "Cyan" 0x00FFFFFF; mk_banned "Magenta" 0xFF00FFFF ]%Z.

(** ** One pixel (lines 31-36) *)

(** [(red << 24 | green << 16 | blue << 8 | alpha) >>> 0]: [<<] binds
    tighter than [|], and [|] groups to the left. *)
Definition pixel_hex (red green blue alpha : Z) : Z :=
  to_uint32 (js_bor (js_bor (js_bor (js_shl red 24) (js_shl green 16))
                            (js_shl blue 8)) alpha).

(** [image.bitmap.data[i]]: a byte of the buffer; past its end the read
    is [undefined], which the bitwise operators read as 0. *)
Definition byte_at (data : list Z) (i : nat) : Z := default 0%Z (data !! i).

(** ** The counters (lines 27-28, 38-43) *)

(** [residueDetails], a JavaScript object: a key is updated in place, a
    new key is added after the others. *)
Definition details := list (string * Z).

Fixpoint details_get (k : string) (d : details) : option Z :=
  match d with
  | [] => None
  | (k', v) :: d' => if String.eqb k k' then Some v else details_get k d'
  end.

Fixpoint details_set (k : string) (v : Z) (d : details) : details :=
  match d with
  | [] => [(k, v)]
  | (k', v') :: d' => if String.eqb k k' then (k', v) :: d' else (k', v') :: details_set k v d'
  end.

Record scan_state := mk_scan { residueCount : Z; residueDetails : details }.

Definition scan_init : scan_state := mk_scan 0 [].

(** One turn of the loop over [BANNED_COLORS] (lines 39-42). *)
Definition visit_color (hex : Z) (st : scan_state) (color : banned_color) : scan_state :=
  if Z.eqb hex (bc_hex color) then
    mk_scan (residueCount st + 1)
      (details_set (bc_name color)
         (default 0 (details_get (bc_name color) (residueDetails st)) + 1)%Z
         (residueDetails st))
  else st.

(** The scan callback at byte [idx] (lines 30-44). *)
Definition visit_pixel (data : list Z) (st : scan_state) (idx : nat) : scan_state :=
  let red := byte_at data idx in
  let green := byte_at data (idx + 1) in
  let blue := byte_at data (idx + 2) in
  let alpha := byte_at data (idx + 3) in
  let hex := pixel_hex red green blue alpha in
  fold_left (visit_color hex) BANNED_COLORS st.

(** ** The scan (lines 23-44) *)

Record bitmap := mk_bitmap { bm_width : nat; bm_height : nat; bm_data : list Z }.

(** The first byte of each pixel in Jimp's order of [scan(0, 0, w, h, f)]. *)
Definition scan_indices (w h : nat) : list nat :=
  flat_map (fun y => map (fun x => (w * y + x) * 4) (seq 0 w)) (seq 0 h).

Definition scan_image (bm : bitmap) : scan_state :=
  fold_left (visit_pixel (bm_data bm)) (scan_indices (bm_width bm) (bm_height bm)) scan_init.

(** ** The script (lines 19-67) *)

(** What the script writes: [console.log], [console.error], and the
    [console.table] of [residueDetails]. *)
Inductive console_line :=
| Log (s : string)
| Err (s : string)
| Table (d : details).

Definition checkImage (read : string -> bitmap + error) (imagePath : string)
  : list console_line * option Z :=
  let start := Log ⟪ "Checking image: "; imagePath ⟫ in
  match read imagePath with
  | inr e => ([start; Err ⟪ "Error reading image: "; err_message e ⟫], Some 1%Z)
  | inl bm =>
      let st := scan_image bm in
      if Z.ltb 0 (residueCount st) then
        ([start; Err "❌ Mask residue detected!";
          Err ⟪ "Total pixels with mask colors: "; Js.show_Z (residueCount st) ⟫;
          Table (residueDetails st)], Some 1%Z)
      else ([start; Log "✅ No mask residue detected."], None)
  end.

(** [process.argv.slice(2)]; the status the process ends with. *)
Definition main (read : string -> bitmap + error) (args : list string)
  : list console_line * Z :=
  match args with
  | [] => ([Log "Usage: node check_mask_residue.js <image_path>"], 0%Z)
  | path :: _ => let '(out, code) := checkImage read path in (out, default 0%Z code)
  end.

(** ** Lemmas *)

(** The four bytes of a 32-bit number, most significant first. *)
Definition channels (h : Z) : list Z :=
  [(h / 2^24) mod 256; (h / 2^16) mod 256; (h / 2^8) mod 256; h mod 256]%Z.

Lemma to_int32_small (z : Z) : (- 2^31 <= z < 2^31)%Z -> to_int32 z = z.
Proof.
  intros Hz. unfold to_int32. rewrite Z.mod_small; [ring|].
  change (2^31)%Z with 2147483648%Z in *. change (2^32)%Z with 4294967296%Z. lia.
Qed.

Lemma to_uint32_bor (x y : Z) :
  to_uint32 (js_bor x y) = Z.lor (to_uint32 x) (to_uint32 y).
Proof.
  unfold js_bor, to_uint32 at 1. rewrite lor_mod_pow2 by lia.
  fold (to_uint32 (to_int32 x)) (to_uint32 (to_int32 y)).
  by rewrite !to_uint32_to_int32.
Qed.

Lemma to_uint32_shl_byte (x k : Z) :
  is_byte x -> (0 <= k <= 24)%Z -> to_uint32 (js_shl x k) = (x * 2^k)%Z.
Proof.
  intros Hx Hk. unfold js_shl. rewrite to_uint32_to_int32.
  unfold is_byte in Hx.
  rewrite to_int32_small, Z.shiftl_mul_pow2 by (change (2^31)%Z with 2147483648%Z; lia).
  assert (2^k <= 2^24)%Z by (apply Z.pow_le_mono_r; lia).
  assert (0 < 2^k)%Z by (apply Z.pow_pos_nonneg; lia).
  unfold to_uint32. apply Z.mod_small. change (2^24)%Z with 16777216%Z in *.
  change (2^32)%Z with 4294967296%Z. nia.
Qed.

Lemma channels_bytes (r g b a : Z) :
  is_byte r -> is_byte g -> is_byte b -> is_byte a ->
  channels (r * 2^24 + g * 2^16 + b * 2^8 + a)%Z = [r; g; b; a].
Proof.
  unfold is_byte, channels. intros.
  repeat f_equal; lia_dm.
Qed.

Lemma channels_value (h : Z) :
  (0 <= h < 2^32)%Z ->
  h = (nth 0 (channels h) 0 * 2^24 + nth 1 (channels h) 0 * 2^16
       + nth 2 (channels h) 0 * 2^8 + nth 3 (channels h) 0)%Z.
Proof. unfold channels. cbn [nth]. lia_dm. Qed.

Lemma details_get_set (k : string) (v : Z) (d : details) :
  details_get k (details_set k v d) = Some v.
Proof.
  induction d as [|[k' v'] d IH]; cbn; [by rewrite String.eqb_refl|].
  destruct (String.eqb k k') eqn:E; cbn; rewrite ?E; done.
Qed.

Fixpoint details_sum (d : details) : Z :=
  match d with [] => 0%Z | (_, v) :: d' => (v + details_sum d')%Z end.

Lemma details_sum_set (k : string) (v : Z) (d : details) :
  details_sum (details_set k v d) = (details_sum d - default 0 (details_get k d) + v)%Z.
Proof.
  induction d as [|[k' v'] d IH]; cbn; [lia|].
  destruct (String.eqb k k'); cbn; rewrite ?IH; lia.
Qed.

(** A pixel matches a mask colour. *)
Definition banned_hex (hex : Z) : bool :=
  existsb (fun c => Z.eqb hex (bc_hex c)) BANNED_COLORS.

Definition pixel_banned (data : list Z) (idx : nat) : bool :=
  banned_hex (pixel_hex (byte_at data idx) (byte_at data (idx + 1))
                (byte_at data (idx + 2)) (byte_at data (idx + 3))).

(** The mask colours are distinct: a pixel matches at most one. *)
Lemma visit_colors_count (hex : Z) (st : scan_state) :
  residueCount (fold_left (visit_color hex) BANNED_COLORS st)
  = (residueCount st + if banned_hex hex then 1 else 0)%Z.
Proof.
  unfold banned_hex, BANNED_COLORS, visit_color. cbn [fold_left existsb bc_hex].
  repeat match goal with
         | |- context [Z.eqb hex ?c] => destruct (Z.eqb_spec hex c) as [->|]
         end; cbn; lia.
Qed.

Lemma visit_colors_sum (hex : Z) (st : scan_state) :
  residueCount st = details_sum (residueDetails st) ->
  residueCount (fold_left (visit_color hex) BANNED_COLORS st)
  = details_sum (residueDetails (fold_left (visit_color hex) BANNED_COLORS st)).
Proof.
  apply (fold_left_inv _ (fun st => residueCount st = details_sum (residueDetails st))).
  intros st0 c Hst. unfold visit_color. destruct (Z.eqb hex (bc_hex c)); [|done].
  cbn [residueCount residueDetails]. rewrite details_sum_set. lia.
Qed.

Lemma visit_pixel_count (data : list Z) (st : scan_state) (idx : nat) :
  residueCount (visit_pixel data st idx)
  = (residueCount st + if pixel_banned data idx then 1 else 0)%Z.
Proof. apply visit_colors_count. Qed.

Lemma scan_count (data : list Z) (idxs : list nat) (st : scan_state) :
  residueCount (fold_left (visit_pixel data) idxs st)
  = (residueCount st + Z.of_nat (length (List.filter (pixel_banned data) idxs)))%Z.
Proof.
  apply fold_left_count, visit_pixel_count.
Qed.

Lemma elem_of_scan_indices (w h i : nat) :
  i ∈ scan_indices w h <-> exists x y, x < w /\ y < h /\ i = (w * y + x) * 4.
Proof.
  unfold scan_indices. rewrite list_elem_of_In, in_flat_map. split.
  - intros (y & Hy & Hi). apply in_map_iff in Hi as (x & <- & Hx).
    apply in_seq in Hy, Hx. exists x, y. lia.
  - intros (x & y & Hx & Hy & ->). exists y. split; [apply in_seq; lia|].
    apply in_map_iff. exists x. split; [done|apply in_seq; lia].
Qed.

Lemma length_scan_indices (w h : nat) : length (scan_indices w h) = w * h.
Proof.
  unfold scan_indices. induction h as [|h IH]; [cbn; lia|].
  rewrite seq_S, flat_map_app, length_app, IH. cbn [flat_map].
  rewrite app_nil_r, length_map, length_seq. lia.
Qed.

(** The bytes of a pixel inside the buffer. *)
Lemma take_drop_pixel (data : list Z) (idx : nat) :
  idx + 4 <= length data ->
  take 4 (drop idx data) = [byte_at data idx; byte_at data (idx + 1);
                            byte_at data (idx + 2); byte_at data (idx + 3)].
Proof.
  intros Hl. unfold byte_at.
  assert (Hd : 4 <= length (drop idx data)) by (rewrite length_drop; lia).
  rewrite <- (Nat.add_0_r idx) at 2. rewrite <- !lookup_drop.
  destruct (drop idx data) as [|v0 [|v1 [|v2 [|v3 rest]]]]; cbn in *; try lia. done.
Qed.

(** Line 36 on four bytes: the bytes side by side, most significant
    first, in [[0, 2^32)]. *)
Lemma pixel_hex_sum (r g b a : Z) :
  is_byte r -> is_byte g -> is_byte b -> is_byte a ->
  pixel_hex r g b a = (r * 2^24 + g * 2^16 + b * 2^8 + a)%Z.
Proof.
  intros Hr Hg Hb Ha. unfold pixel_hex.
  rewrite !to_uint32_bor, !to_uint32_shl_byte by (done || lia).
  unfold is_byte in *. unfold to_uint32.
  rewrite (Z.mod_small a) by (change (2^32)%Z with 4294967296%Z; lia).
  rewrite <- !Z.lor_assoc, (lor_low_add b a 8), (lor_low_add g _ 16), (lor_low_add r _ 24)
    by (change (2^8)%Z with 256%Z in *; change (2^16)%Z with 65536%Z in *;
        change (2^24)%Z with 16777216%Z in *; lia).
  ring.
Qed.

Lemma pixel_hex_range (r g b a : Z) :
  is_byte r -> is_byte g -> is_byte b -> is_byte a -> (0 <= pixel_hex r g b a < 2^32)%Z.
Proof.
  intros. rewrite pixel_hex_sum by done. unfold is_byte in *.
  change (2^32)%Z with 4294967296%Z. change (2^24)%Z with 16777216%Z.
  change (2^16)%Z with 65536%Z. change (2^8)%Z with 256%Z. lia.
Qed.

Lemma banned_hex_range (c : banned_color) : c ∈ BANNED_COLORS -> (0 <= bc_hex c < 2^32)%Z.
Proof.
  intros Hc. change (2^32)%Z with 4294967296%Z.
  repeat (apply elem_of_cons in Hc as [->|Hc]; [cbn; lia|]). by apply elem_of_nil in Hc.
Qed.

Lemma pixel_hex_eq_channels (r g b a h : Z) :
  is_byte r -> is_byte g -> is_byte b -> is_byte a -> (0 <= h < 2^32)%Z ->
  pixel_hex r g b a = h <-> [r; g; b; a] = channels h.
Proof.
  intros Hr Hg Hb Ha Hh. rewrite pixel_hex_sum by done. split.
  - intros <-. by rewrite channels_bytes.
  - intros Hc. rewrite (channels_value h Hh), <- Hc. done.
Qed.

Lemma byte_at_byte (data : list Z) (i : nat) : Forall is_byte data -> is_byte (byte_at data i).
Proof.
  intros Hd. unfold byte_at. destruct (data !! i) as [v|] eqn:E; cbn.
  - by eapply Forall_lookup_1.
  - unfold is_byte. lia.
Qed.

Lemma pixel_banned_iff (data : list Z) (idx : nat) :
  Forall is_byte data -> idx + 4 <= length data ->
  pixel_banned data idx = true <->
  exists c, c ∈ BANNED_COLORS /\ take 4 (drop idx data) = channels (bc_hex c).
Proof.
  intros Hd Hl. unfold pixel_banned, banned_hex. rewrite existsb_exists, take_drop_pixel by done.
  setoid_rewrite Z.eqb_eq. split.
  - intros (c & Hc & Heq). exists c. rewrite list_elem_of_In.
    split; [done|]. apply pixel_hex_eq_channels; try apply byte_at_byte; try done.
    apply banned_hex_range. by apply list_elem_of_In.
  - intros (c & Hc & Heq). exists c. split; [by apply list_elem_of_In|].
    apply pixel_hex_eq_channels; try apply byte_at_byte; try done. by apply banned_hex_range.
Qed.

(** The scan keeps [residueCount] equal to the sum of [residueDetails]. *)
Lemma scan_sum (data : list Z) (idxs : list nat) (st : scan_state) :
  residueCount st = details_sum (residueDetails st) ->
  residueCount (fold_left (visit_pixel data) idxs st)
  = details_sum (residueDetails (fold_left (visit_pixel data) idxs st)).
Proof.
  apply (fold_left_inv _ (fun st => residueCount st = details_sum (residueDetails st))).
  intros st0 i. apply visit_colors_sum.
Qed.

(** ** Properties *)

(** C29: Line 36 reads the four channel bytes of a pixel as one unsigned
    32-bit number in [[0, 2^32)] whose bytes, most significant first,
    are red, green, blue and alpha again: the [>>> 0] brings a red
    channel of 128 or more back from the negative int32 that [<<]
    and [|] produce. *)
Theorem pixel_hex_roundtrip (red green blue alpha : Z) :
  is_byte red -> is_byte green -> is_byte blue -> is_byte alpha ->
  (0 <= pixel_hex red green blue alpha < 2^32)%Z
  /\ channels (pixel_hex red green blue alpha) = [red; green; blue; alpha].
Proof.
  intros. split; [by apply pixel_hex_range|].
  rewrite pixel_hex_sum by done. by apply channels_bytes.
Qed.

(** C23: The scan counts each pixel at most once: [residueCount] is the
    sum of the per-colour counts of [residueDetails] and at most the
    number of pixels. *)
Theorem scan_image_counts (bm : bitmap) :
  residueCount (scan_image bm) = details_sum (residueDetails (scan_image bm))
  /\ (0 <= residueCount (scan_image bm) <= Z.of_nat (bm_width bm * bm_height bm))%Z.
Proof.
  unfold scan_image. split; [by apply scan_sum|].
  rewrite scan_count, <- (length_scan_indices (bm_width bm) (bm_height bm)).
  cbn [residueCount scan_init]. pose proof (List.filter_length_le (pixel_banned (bm_data bm))
    (scan_indices (bm_width bm) (bm_height bm))). lia.
Qed.

(** C11: The script run on a readable image ends with status 1 exactly
    when some pixel of the bitmap has the bytes of one of the six mask
    colours, and with status 0 otherwise. *)
Theorem main_exit_iff (read : string -> bitmap + error) (path : string) (bm : bitmap) :
  read path = inl bm -> Forall is_byte (bm_data bm) ->
  length (bm_data bm) = bm_width bm * bm_height bm * 4 ->
  ((main read [path]).2 = 1%Z <->
   exists x y c, x < bm_width bm /\ y < bm_height bm /\ c ∈ BANNED_COLORS /\
     take 4 (drop ((bm_width bm * y + x) * 4) (bm_data bm)) = channels (bc_hex c))
  /\ ((main read [path]).2 = 0%Z \/ (main read [path]).2 = 1%Z).
Proof.
  intros Hread Hd Hl. unfold main, checkImage. rewrite Hread.
  assert (Hc : (0 < residueCount (scan_image bm))%Z <->
               exists i, i ∈ scan_indices (bm_width bm) (bm_height bm)
                         /\ pixel_banned (bm_data bm) i = true).
  { unfold scan_image. rewrite scan_count, <- filter_length_pos. cbn. lia. }
  destruct (Z.ltb_spec 0 (residueCount (scan_image bm))) as [Hlt|Hge]; cbn; split; auto.
  - split; [intros _|done]. apply Hc in Hlt as (i & Hi & Hb).
    apply elem_of_scan_indices in Hi as (x & y & Hx & Hy & ->).
    apply pixel_banned_iff in Hb as (c & ? & ?); [|done|rewrite Hl; nia].
    by exists x, y, c.
  - split; [lia|]. intros (x & y & c & Hx & Hy & Hc' & Heq). exfalso.
    enough (0 < residueCount (scan_image bm))%Z by lia. apply Hc.
    exists ((bm_width bm * y + x) * 4). split; [apply elem_of_scan_indices; eauto|].
    apply pixel_banned_iff; [done|rewrite Hl; nia|eauto].
Qed.

(** ** Witnesses *)

Ltac bytes_tac := repeat constructor; unfold is_byte; lia.

Lemma pixel_hex_roundtrip_witness :
  channels (pixel_hex 255 0 0 255) = [255; 0; 0; 255]%Z.
Proof. apply (pixel_hex_roundtrip 255 0 0 255); unfold is_byte; lia. Defined.

(** A 2 x 1 image: an opaque red pixel, then an opaque white one. *)
Definition red_white : bitmap := mk_bitmap 2 1 [255; 0; 0; 255; 255; 255; 255; 255]%Z.

Lemma main_exit_iff_witness :
  (main (fun _ => inl red_white) ["mask.png"]).2 = 1%Z.
Proof.
  apply (proj2 (proj1 (main_exit_iff (fun _ => inl red_white) "mask.png" red_white
                        eq_refl ltac:(bytes_tac) eq_refl))).
  exists 0, 0, (mk_banned "Red" 0xFF0000FF). unfold red_white; cbn [bm_width bm_height bm_data].
  split; [lia|]. split; [lia|]. split; [constructor|reflexivity].
Defined.

End MaskResidue.
