(* ===== verification/Base64.v ===== *)
(** * Base64, as the platform implements it

    The two base64 codecs the upload path goes through, neither of them
    code of the repository:
    - [base64_encode]: Node's [buffer.toString('base64')], which
      [convertLocalUrlToBase64] ([src/server/index.js]) applies to an
      uploaded file (RFC 4648 with [=] padding);
    - [atob]: the browser's [atob], which [dataURLtoFile]
      ([src/web/src/utils/upload.ts]) applies to the payload of a data
      URL; it is WHATWG's forgiving-base64 decode: ASCII whitespace is
      dropped, one or two final [=] are dropped from a text whose length
      is a multiple of 4, a remaining length of [1 mod 4] or a character
      outside the alphabet throws [InvalidCharacterError], and the bits
      left over at the end are discarded.
    Bytes are integers of [[0, 256)]; the result of [atob] is the list
    of its characters' codes. *)

From S2P Require Import Prelude JsString Json.
Import Js Json.

Module Base64.

(** ** The alphabet *)

Definition b64_char (i : Z) : ascii :=
  let n := Z.to_nat i in
  if (i <? 26)%Z then ascii_of_nat (65 + n)
  else if (i <? 52)%Z then ascii_of_nat (97 + n - 26)
  else if (i <? 62)%Z then ascii_of_nat (48 + n - 52)
  else if (i =? 62)%Z then "+"%char else "/"%char.

Definition b64_index (c : ascii) : option Z :=
  let n := nat_of_ascii c in
  if (65 <=? n) && (n <=? 90) then Some (Z.of_nat (n - 65))
  else if (97 <=? n) && (n <=? 122) then Some (Z.of_nat (n - 97 + 26))
  else if (48 <=? n) && (n <=? 57) then Some (Z.of_nat (n - 48 + 52))
  else if Ascii.eqb c "+" then Some 62%Z
  else if Ascii.eqb c "/" then Some 63%Z
  else None.

(** ** Encoding: three bytes to four characters *)

(** The 6-bit groups of the bytes; a last group of one or two bytes is
    completed with zero bits to two or three groups. *)
Fixpoint sextets_of (bs : list Z) : list Z :=
  match bs with
  | a :: b :: c :: rest =>
      let n := (a * 2^16 + b * 2^8 + c)%Z in
      [n / 2^18; (n / 2^12) mod 64; (n / 2^6) mod 64; n mod 64]%Z ++ sextets_of rest
  | [a; b] => let n := ((a * 2^8 + b) * 4)%Z in [n / 2^12; (n / 2^6) mod 64; n mod 64]%Z
  | [a] => let n := (a * 16)%Z in [n / 2^6; n mod 64]%Z
  | [] => []
  end.

Definition pad_of (bs : list Z) : nat :=
  match length bs mod 3 with 1 => 2 | 2 => 1 | _ => 0 end.

Definition base64_encode (bs : list Z) : string :=
  String.string_of_list_ascii (map b64_char (sextets_of bs) ++ replicate (pad_of bs) "="%char).

(** ** Forgiving-base64 decode *)

Definition ascii_ws (c : ascii) : bool :=
  existsb (Nat.eqb (nat_of_ascii c)) [9; 10; 12; 13; 32].

(** "If data's length divides by 4 leaving no remainder, then: if data
    ends with one or two [=], remove them from data." *)
Definition strip_padding (l : list ascii) : list ascii :=
  if length l mod 4 =? 0 then
    match rev l with
    | c1 :: c2 :: r => if Ascii.eqb c1 "=" then (if Ascii.eqb c2 "=" then rev r else rev (c2 :: r)) else l
    | [c1] => if Ascii.eqb c1 "=" then [] else l
    | [] => l
    end
  else l.

(** The buffer of the decode loop: every 24 bits give three bytes; at
    the end 12 bits give one byte (4 discarded) and 18 bits two bytes
    (2 discarded). *)
Fixpoint decode_sextets (xs : list Z) : list Z :=
  match xs with
  | a :: b :: c :: d :: rest =>
      let n := (a * 2^18 + b * 2^12 + c * 2^6 + d)%Z in
      [n / 2^16; (n / 2^8) mod 256; n mod 256]%Z ++ decode_sextets rest
  | [a; b; c] => let n := ((a * 2^12 + b * 2^6 + c) / 4)%Z in [n / 256; n mod 256]%Z
  | [a; b] => [((a * 2^6 + b) / 16)%Z]
  | _ => []
  end.

Definition InvalidCharacterError : error :=
  mk_error "InvalidCharacterError" "The string to be decoded is not correctly encoded.".

Definition atob (data : string) : list Z + error :=
  let l := strip_padding (List.filter (fun c => negb (ascii_ws c)) (String.list_ascii_of_string data)) in
  if length l mod 4 =? 1 then inr InvalidCharacterError
  else match mapM b64_index l with
       | Some xs => inl (decode_sextets xs)
       | None => inr InvalidCharacterError
       end.

(** ** Lemmas *)

(** Induction in steps of three elements, the recursion of [sextets_of]. *)
Lemma list3_ind {A} (P : list A -> Prop) :
  P [] -> (forall a, P [a]) -> (forall a b, P [a; b]) ->
  (forall a b c l, P l -> P (a :: b :: c :: l)) -> forall l, P l.
Proof.
  intros H0 H1 H2 H3 l. induction l as [l IH] using (induction_ltof1 _ (@length A)).
  destruct l as [|a [|b [|c l]]]; auto. apply H3, IH. unfold ltof. cbn. lia.
Qed.

Ltac pow_consts :=
  change (2^6)%Z with 64%Z in *; change (2^8)%Z with 256%Z in *;
  change (2^12)%Z with 4096%Z in *; change (2^16)%Z with 65536%Z in *;
  change (2^18)%Z with 262144%Z in *.

Lemma sextets_range (bs : list Z) :
  Forall is_byte bs -> Forall (fun x => 0 <= x < 64)%Z (sextets_of bs).
Proof.
  induction bs as [|a|a b|a b c l IH] using list3_ind; intros Hb;
    repeat (apply Forall_cons in Hb as [? Hb]); unfold is_byte in *; cbn [sextets_of];
    pow_consts; rewrite ?Forall_app; repeat split; try apply IH; try done;
    repeat constructor; lia_dm.
Qed.

Lemma decode_sextets_of (bs : list Z) : Forall is_byte bs -> decode_sextets (sextets_of bs) = bs.
Proof.
  induction bs as [|a|a b|a b c l IH] using list3_ind; intros Hb;
    repeat (apply Forall_cons in Hb as [? Hb]); unfold is_byte in *; cbn [sextets_of]; pow_consts.
  - done.
  - cbn. f_equal. lia_dm.
  - cbn. pow_consts. f_equal; [|f_equal]; lia_dm.
  - cbn [app decode_sextets]. pow_consts. rewrite IH by done.
    f_equal; [|f_equal; [|f_equal]]; lia_dm.
Qed.

Lemma length_sextets_of (bs : list Z) :
  (length (sextets_of bs) + pad_of bs) mod 4 = 0 /\ length (sextets_of bs) mod 4 <> 1
  /\ pad_of bs <= 2 /\ (pad_of bs <> 0 -> sextets_of bs <> []).
Proof.
  unfold pad_of. induction bs as [|a|a b|a b c l IH] using list3_ind; cbn [sextets_of];
    try (cbn; split_and!; [lia..|intros ?; congruence]).
  rewrite length_app. cbn [length].
  replace (S (S (S (length l)))) with (length l + 1 * 3) by lia.
  rewrite Nat.Div0.mod_add. destruct IH as (H1 & H2 & H3 & H4).
  set (p := match length l mod 3 with 1 => 2 | 2 => 1 | _ => 0 end) in *.
  replace (4 + length (sextets_of l) + p) with (length (sextets_of l) + p + 1 * 4) by lia.
  replace (4 + length (sextets_of l)) with (length (sextets_of l) + 1 * 4) by lia.
  rewrite !Nat.Div0.mod_add. split_and!; try done.
Qed.

(** The alphabet, character by character. *)
Lemma b64_char_spec (i : Z) :
  (0 <= i < 64)%Z ->
  b64_index (b64_char i) = Some i /\ ascii_ws (b64_char i) = false
  /\ Ascii.eqb (b64_char i) "=" = false /\ Ascii.eqb "," (b64_char i) = false.
Proof.
  intros Hi. rewrite <- (Z2Nat.id i) by lia. assert (Hn : (Z.to_nat i < 64)%nat) by lia.
  generalize (Z.to_nat i) Hn. clear. intros n Hn.
  do 64 (destruct n as [|n]; [vm_compute; auto|]). lia.
Qed.

Lemma mapM_b64_index (xs : list Z) :
  Forall (fun x => 0 <= x < 64)%Z xs -> mapM b64_index (map b64_char xs) = Some xs.
Proof.
  induction xs as [|x xs IH]; intros Hx; [done|]. apply Forall_cons in Hx as [Hx Hxs].
  cbn. rewrite (proj1 (b64_char_spec x Hx)), IH by done. done.
Qed.

Lemma strip_padding_b64 (xs : list Z) (k : nat) :
  Forall (fun x => 0 <= x < 64)%Z xs -> (length xs + k) mod 4 = 0 -> k <= 2 ->
  (k <> 0 -> xs <> []) ->
  strip_padding (map b64_char xs ++ replicate k "="%char) = map b64_char xs.
Proof.
  intros Hx Hl Hk Hne. unfold strip_padding. rewrite length_app, length_map, length_replicate, Hl.
  cbn [Nat.eqb].
  assert (Hr : forall c r, rev (map b64_char xs) = c :: r -> Ascii.eqb c "=" = false).
  { intros c r Hc. assert (Hin : In c (map b64_char xs)).
    { apply in_rev. rewrite Hc. by left. }
    apply in_map_iff in Hin as (x & <- & Hin).
    apply (b64_char_spec x). by apply (proj1 (List.Forall_forall _ _) Hx). }
  destruct k as [|[|[|k]]]; try lia; cbn [replicate]; rewrite ?app_nil_r.
  - destruct (rev (map b64_char xs)) as [|c1 [|c2 r]] eqn:E; [done| |];
      rewrite (Hr _ _ eq_refl); done.
  - rewrite rev_app_distr. cbn [rev app].
    destruct (rev (map b64_char xs)) as [|c2 r] eqn:E; [apply (f_equal length) in E; rewrite length_rev, length_map in E;
      destruct xs; [by destruct Hne|discriminate]|].
    rewrite Ascii.eqb_refl, (Hr _ _ eq_refl). change (rev r ++ [c2]) with (rev (c2 :: r)).
    rewrite <- E. apply rev_involutive.
  - rewrite rev_app_distr. cbn [rev app]. apply rev_involutive.
Qed.

Lemma filter_no_ws (l : list ascii) :
  Forall (fun c => ascii_ws c = false) l -> List.filter (fun c => negb (ascii_ws c)) l = l.
Proof.
  induction l as [|c l IH]; intros Hl; [done|]. apply Forall_cons in Hl as [Hc Hl].
  cbn [List.filter]. rewrite Hc, IH by done. done.
Qed.

(** [atob] reads back what [toString('base64')] writes. *)
Lemma atob_base64_encode (bs : list Z) : Forall is_byte bs -> atob (base64_encode bs) = inl bs.
Proof.
  intros Hb. unfold atob, base64_encode. rewrite String.list_ascii_of_string_of_list_ascii.
  pose proof (sextets_range bs Hb) as Hr. destruct (length_sextets_of bs) as (H1 & H2 & H3 & H4).
  rewrite filter_no_ws.
  2:{ apply Forall_app. split.
      - apply Forall_fmap. eapply Forall_impl; [exact Hr|]. intros x Hx. apply (b64_char_spec x Hx).
      - by apply Forall_replicate. }
  rewrite strip_padding_b64, length_map by done.
  destruct (Nat.eqb_spec (length (sextets_of bs) mod 4) 1); [done|].
  rewrite mapM_b64_index by done. f_equal. by apply decode_sextets_of.
Qed.

Lemma str_has_of_list (c : ascii) (l : list ascii) :
  str_has c (String.string_of_list_ascii l) = existsb (Ascii.eqb c) l.
Proof. induction l as [|d l IH]; cbn; [done|]. rewrite IH. by destruct (Ascii.eqb c d). Qed.

(** The encoding has no comma: it stays one piece of [split(',')]. *)
Lemma base64_encode_no_comma (bs : list Z) :
  Forall is_byte bs -> str_has ","%char (base64_encode bs) = false.
Proof.
  intros Hb. unfold base64_encode. rewrite str_has_of_list, existsb_app.
  apply orb_false_intro.
  - apply not_true_iff_false. rewrite existsb_exists. intros (c & Hc & Heq).
    apply in_map_iff in Hc as (x & <- & Hx).
    pose proof (proj1 (List.Forall_forall _ _) (sextets_range bs Hb) x Hx) as Hr.
    by rewrite (proj2 (proj2 (proj2 (b64_char_spec x Hr)))) in Heq.
  - generalize (pad_of bs). intros k. induction k as [|k IH]; [done|]. apply IH.
Qed.

End Base64.
