(* ===== verification/Upload.v ===== *)
(** * Uploads: the server route and the browser helper

    Models the route [POST /api/upload] of [src/server/index.js]
    (lines 311-363) and the helper [src/web/src/utils/upload.ts]:
    - [upload_route]: [request.file()] gives the first file part, none
      ([400 {error: 'No file uploaded'}]) or throws; the bytes are
      written to [uploads/<Date.now()>_<filename>] and the reply is
      [{url, filename, size}] with the URL
      [<protocol>://<hostname>/uploads/<localFilename>]; a throw of
      [toBuffer] or [writeFileSync] ([io_error]) writes nothing and
      replies [500 {error: message, type: name}];
    - [http_reply]: what the browser's [fetch] sees of a reply of the
      route (its status, status text and JSON body);
    - [uploadToOSS] (lines 6-35): the URL of the reply's JSON body, or
      the [Error] the promise rejects with;
    - [dataURLtoFile] (lines 40-50): the MIME type between the first
      [:] and the next [;] of the part before the first [,], the bytes
      [atob] decodes from the part after it, written into a
      [Uint8Array] from the last index down to 0.
    The uploads directory is a function from file names to contents;
    [uploads_base64] is how [convertLocalUrlToBase64] ([ApiClient]) reads
    it.  The multipart parser (busboy) keeps only the base name of the
    client's file name, so the name has no [/]; the first [Date.now()]
    of the route (line 329) only names the file in a log line. *)

From S2P Require Import Prelude JsString Matcher Json ApiClient Base64.
Import Js Rx Json Api Base64.

Module Upload.

(** ** The route [POST /api/upload] (index.js lines 311-363) *)

Record part := mk_part { p_filename : string; p_bytes : list Z }.

Definition uploads_dir := string -> option (list Z).

(** [fs.writeFileSync(path.join(uploadsDir, name), buffer)]. *)
Definition write_file (d : uploads_dir) (name : string) (bs : list Z) : uploads_dir :=
  fun n => if String.eqb n name then Some bs else d n.

(** [fs.readFileSync(filePath).toString('base64')] on the directory. *)
Definition uploads_base64 (d : uploads_dir) : string -> option string :=
  fun n => option_map base64_encode (d n).

Record upload_request := mk_upload_request {
  uq_file : option part + error;     (* [await request.file()] *)
  uq_protocol : string;              (* [request.protocol] *)
  uq_hostname : string               (* [request.hostname] *)
}.

Definition local_filename (now : N) (data : part) : string :=
  ⟪ show_N now; "_"; p_filename data ⟫.

Definition public_url (rq : upload_request) (localFilename : string) : string :=
  ⟪ uq_protocol rq; "://"; uq_hostname rq; "/uploads/"; localFilename ⟫.

(** The [catch] of lines 357-362. *)
Definition upload_failed (e : error) : N * json :=
  (500%N, JObj [("error", JStr (err_message e)); ("type", JStr (err_name e))]).

(** The route at the time [now] of line 339; [io_error] is what
    [data.toBuffer()] or [fs.writeFileSync] throws, if anything. *)
Definition upload_route (now : N) (io_error : option error) (rq : upload_request)
    (d : uploads_dir) : (N * json) * uploads_dir :=
  match uq_file rq with
  | inr e => (upload_failed e, d)
  | inl None => ((400%N, JObj [("error", JStr "No file uploaded")]), d)
  | inl (Some data) =>
      match io_error with
      | Some e => (upload_failed e, d)
      | None =>
          let localFilename := local_filename now data in
          let publicUrl := public_url rq localFilename in
          ((200%N, JObj [("url", JStr publicUrl); ("filename", JStr (p_filename data));
                         ("size", JNum (Z.of_nat (length (p_bytes data))))]),
           write_file d localFilename (p_bytes data))
      end
  end.

(** The reply as [fetch] sees it: Fastify serialises the object sent. *)
Definition status_text (code : N) : string :=
  match code with
  | 200%N => "OK" | 400%N => "Bad Request" | 500%N => "Internal Server Error" | _ => ""
  end.

Definition http_reply (out : N * json) : reply :=
  mk_reply out.1 (status_text out.1) [("content-type", "application/json; charset=utf-8")]
    (stringify out.2) (inl out.2).

(** ** [uploadToOSS] (upload.ts lines 6-35) *)

(** [VITE_API_BASE || 'http://localhost:3001'], then [/api/upload]. *)
Definition upload_endpoint (VITE_API_BASE : option string) : string :=
  let API_BASE := match VITE_API_BASE with
                  | Some b => if String.eqb b "" then "http://localhost:3001" else b
                  | None => "http://localhost:3001"
                  end in
  ⟪ API_BASE; "/api/upload" ⟫.

(** [new Error(error.error || 'Upload failed')]: the message is
    [String] of the value. *)
Definition upload_error_message (m : option json) : string :=
  match m with
  | Some j => if truthy m then js_string j else "Upload failed"
  | None => "Upload failed"
  end.

(** The value the promise resolves to ([result.url]), or the error it
    rejects with; the [catch] of lines 31-34 rethrows. *)
Definition uploadToOSS (res : response) : option json + error :=
  match res with
  | NetError e => inr e
  | Reply r =>
      if negb (ok r) then
        let error := match r_json r with
                     | inl j => j
                     | inr _ => JObj [("error", JStr (r_statusText r))]
                     end in
        match member_strict "error" error with
        | inr e => inr e
        | inl m => inr (Error (upload_error_message m))
        end
      else match reply_json r with
           | inr e => inr e
           | inl result => member_strict "url" result
           end
  end.

(** ** [dataURLtoFile] (upload.ts lines 40-50) *)

Record file := mk_file { f_bytes : list Z; f_name : string; f_type : string }.

(** [/:(.*?);/]: its capture. *)
Definition mime_re : pat string :=
  lit ":" ;;; m <-- lazy_star dot (lit ";") ;; ret (concat_str m.1).

(** [s.match(re)?.[1]] for a regex without the [g] flag: the first match. *)
Definition first_capture (p : pat string) (s : string) : option string :=
  match exec_all p s with
  | m :: _ => Some (m_groups m)
  | [] => None
  end.

(** [while (n--) u8arr[n] = bstr.charCodeAt(n)]: indices [n - 1] down
    to 0; a [Uint8Array] stores its values modulo 256. *)
Fixpoint fill_down (bstr : list Z) (n : nat) (u8arr : list Z) : list Z :=
  match n with
  | 0 => u8arr
  | S n' => fill_down bstr n' (<[n' := (default 0 (bstr !! n') mod 256)%Z]> u8arr)
  end.

Definition dataURLtoFile (dataurl filename : string) : file + error :=
  let arr := split_on ","%char dataurl in
  let mime := match first_capture mime_re (default "" (arr !! 0)) with
              | Some m => if String.eqb m "" then "image/png" else m
              | None => "image/png"
              end in
  match atob (default "undefined" (arr !! 1)) with     (* [atob(undefined)] *)
  | inr e => inr e
  | inl bstr =>
      let n := length bstr in
      inl (mk_file (fill_down bstr n (replicate n 0%Z)) filename mime)
  end.

(** [uploadDataURL] (lines 55-58). *)
Definition uploadDataURL (dataURL filename : string) (upload : file -> response)
  : option json + error :=
  match dataURLtoFile dataURL filename with
  | inr e => inr e
  | inl f => uploadToOSS (upload f)
  end.

(** ** Lemmas *)

(** A character [.] matches and [;] does not: printable ASCII other than
    [,] and [;]. *)
Definition mime_char (c : ascii) : bool :=
  let n := nat_of_ascii c in
  (32 <=? n) && (n <=? 126) && negb (Ascii.eqb c ",") && negb (Ascii.eqb c ";").

Lemma mime_char_step (c : ascii) (s : string) :
  mime_char c = true -> lit ";" (String c s) = None /\ dot (String c s) = Some (String c "", s).
Proof.
  destruct c as [[] [] [] [] [] [] [] []]; vm_compute; try discriminate; intros _;
    (split; [reflexivity|destruct s; reflexivity]).
Qed.

Lemma str_forall_no_has (f : ascii -> bool) (c : ascii) (s : string) :
  str_forall f s = true -> f c = false -> str_has c s = false.
Proof.
  induction s as [|d s IH]; cbn; [done|]. intros Hs Hc. apply andb_prop in Hs as [Hd Hs].
  destruct (Ascii.eqb_spec c d) as [->|]; [congruence|]. by apply IH.
Qed.

Definition chars (m : string) : list string := map (fun c => String c "") (String.list_ascii_of_string m).

Lemma concat_chars (m : string) : concat_str (chars m) = m.
Proof. induction m as [|c m IH]; [done|]. unfold chars in *. cbn [String.list_ascii_of_string map concat_str]. by rewrite IH. Qed.

(** [(.*?);] on a run of MIME characters followed by [;]. *)
Lemma lazy_mime_run (m r : string) (n : nat) :
  str_forall mime_char m = true -> String.length m < n ->
  lazy_star_fuel n dot (lit ";") (m +:+ String ";" r) = Some ((chars m, tt), r).
Proof.
  revert n. induction m as [|c m IH]; intros [|n] Hm Hn; cbn in Hn; try lia; [done|].
  cbn in Hm. apply andb_prop in Hm as [Hc Hm].
  change (String c m +:+ String ";" r) with (String c (m +:+ String ";" r)).
  destruct (mime_char_step c (m +:+ String ";" r) Hc) as [Hk Hd].
  cbn [lazy_star_fuel]. rewrite Hk, Hd.
  rewrite (proj2 (Nat.ltb_lt _ _)) by (cbn [String.length]; lia). rewrite IH by (done || lia). done.
Qed.

#[local] Instance mime_re_advances : Advances mime_re.
Proof. unfold mime_re. apply _. Qed.

Lemma first_capture_data_url (m : string) :
  str_forall mime_char m = true -> first_capture mime_re ("data:" +:+ (m +:+ ";base64")) = Some m.
Proof.
  intros Hm. unfold first_capture.
  change ("data:" +:+ (m +:+ ";base64")) with (String "d" (String "a" (String "t" (String "a"
    (String ":" (m +:+ String ";" "base64")))))).
  rewrite !exec_all_skip by reflexivity.
  rewrite (exec_all_hit _ _ (String.substring 0 0 "" +:+ "base64") m) at 1; [done|].
  unfold mime_re, bind, lit. cbn [starts_with ascii_dec String.length drop_str].
  destruct (ascii_dec ":" ":"); [|done]. cbn [starts_with].
  unfold lazy_star. rewrite lazy_mime_run by (done || (rewrite str_length_app; cbn; lia)).
  unfold ret. cbn. by rewrite concat_chars.
Qed.

(** The data URL as [split(',')] cuts it. *)
Lemma data_url_shape (m b : string) :
  ⟪ "data:"; m; ";base64,"; b ⟫ = ("data:" +:+ (m +:+ ";base64")) +:+ String "," b.
Proof. cbn [concat_str]. rewrite str_app_nil_r, !str_app_assoc. done. Qed.

Lemma fill_down_lookup (bstr : list Z) (n : nat) (u : list Z) (i : nat) :
  n <= length u ->
  fill_down bstr n u !! i = if decide (i < n) then Some (default 0 (bstr !! i) mod 256)%Z else u !! i.
Proof.
  revert u. induction n as [|n IH]; intros u Hn; cbn [fill_down]; [done|].
  rewrite IH by (rewrite length_insert; lia).
  destruct (decide (i < n)), (decide (i < S n)); try lia; [done| |].
  - assert (i = n) as -> by lia. rewrite list_lookup_insert. case_decide; [done|lia].
  - rewrite list_lookup_insert. case_decide; [lia|done].
Qed.

Lemma fill_down_bytes (bstr : list Z) :
  Forall is_byte bstr -> fill_down bstr (length bstr) (replicate (length bstr) 0%Z) = bstr.
Proof.
  intros Hb. apply list_eq. intros i. rewrite fill_down_lookup by (rewrite length_replicate; lia).
  destruct (decide (i < length bstr)) as [Hi|Hi].
  - destruct (lookup_lt_is_Some_2 bstr i Hi) as [b Hbi]. rewrite Hbi. cbn.
    pose proof (Forall_lookup_1 _ _ _ _ Hb Hbi) as Hbyte. unfold is_byte in Hbyte.
    by rewrite Z.mod_small.
  - rewrite !lookup_ge_None_2 by (rewrite ?length_replicate; lia). done.
Qed.

(** The decoding of a well-formed data URL, shared by the properties. *)
Lemma dataURLtoFile_data_url (mime filename : string) (bs : list Z) :
  str_forall mime_char mime = true -> Forall is_byte bs ->
  dataURLtoFile ⟪ "data:"; mime; ";base64,"; base64_encode bs ⟫ filename
  = inl (mk_file bs filename (if String.eqb mime "" then "image/png" else mime)).
Proof.
  intros Hm Hb. unfold dataURLtoFile. rewrite data_url_shape, split_on_app.
  2:{ rewrite !str_has_app, (str_forall_no_has mime_char "," mime) by done. reflexivity. }
  rewrite split_on_none by (by apply base64_encode_no_comma). cbn [lookup list_lookup default id].
  rewrite first_capture_data_url, atob_base64_encode, fill_down_bytes by done. done.
Qed.

(** The route's reply to a file written without error, as [uploadToOSS]
    reads it. *)
Lemma uploadToOSS_route_ok (now : N) (rq : upload_request) (d : uploads_dir) (data : part) :
  uq_file rq = inl (Some data) ->
  uploadToOSS (Reply (http_reply (upload_route now None rq d).1))
  = inl (Some (JStr (public_url rq (local_filename now data)))).
Proof. intros Hf. unfold upload_route. rewrite Hf. reflexivity. Qed.

Lemma public_url_shape (rq : upload_request) (lf : string) :
  public_url rq lf = (⟪ uq_protocol rq; "://"; uq_hostname rq ⟫ +:+ "/uploads") +:+ String "/" lf.
Proof. unfold public_url. cbn [concat_str]. rewrite !str_app_nil_r, !str_app_assoc. done. Qed.

Lemma local_filename_no_slash (now : N) (data : part) :
  str_has "/" (p_filename data) = false -> str_has "/" (local_filename now data) = false.
Proof.
  intros H. unfold local_filename. cbn [concat_str]. rewrite !str_has_app, str_has_show_N, H by done.
  done.
Qed.

(** [convertLocalUrlToBase64] on the URL of a file just written under a
    host name with [localhost] in it: the data URL of the file. *)
Lemma convert_public_url (rq : upload_request) (d : uploads_dir) (lf : string) (bs : list Z) :
  str_has "/" lf = false -> includes "localhost" (uq_hostname rq) = true ->
  exists mime, mime ∈ ["image/png"; "image/webp"; "image/jpeg"] /\
    convert_local_url (uploads_base64 (write_file d lf bs)) (public_url rq lf)
    = ⟪ "data:"; mime; ";base64,"; base64_encode bs ⟫.
Proof.
  intros Hlf Hhost. unfold convert_local_url.
  replace (String.eqb (public_url rq lf) "") with false
    by (unfold public_url; by destruct (uq_protocol rq)).
  replace (includes "localhost" (public_url rq lf)) with true.
  2:{ symmetry. unfold public_url. cbn [concat_str].
      apply includes_app_l, includes_app_l, includes_app_r, Hhost. }
  unfold last_segment. rewrite public_url_shape, split_on_last by done.
  unfold uploads_base64, write_file. rewrite String.eqb_refl. cbn [option_map orb].
  destruct (String.eqb (lower (extname lf)) ".png");
    [|destruct (String.eqb (lower (extname lf)) ".webp")];
    eexists; (split; [|reflexivity]); repeat constructor.
Qed.

(** ** Properties *)

(** What a call of [uploadToOSS] against the route promises: the URL of
    the stored file, or an [Error] with the route's message ([Upload
    failed] when the thrown error had an empty message). *)
Definition upload_result (now : N) (io_error : option error) (rq : upload_request)
  : option json + error :=
  let failed e := inr (Error (if String.eqb (err_message e) "" then "Upload failed"
                              else err_message e)) in
  match uq_file rq, io_error with
  | inr e, _ => failed e
  | inl None, _ => inr (Error "No file uploaded")
  | inl (Some _), Some e => failed e
  | inl (Some data), None => inl (Some (JStr (public_url rq (local_filename now data))))
  end.

(** C7: The browser helper against the server route, on every branch:
    a stored file resolves to the URL [<protocol>://<host>/uploads/
    <now>_<name>], a request without a file rejects with [Error('No
    file uploaded')], and a throw of the route rejects with an [Error]
    carrying its message, or [Upload failed] when that is empty. *)
Theorem uploadToOSS_route (now : N) (io_error : option error) (rq : upload_request)
    (d : uploads_dir) :
  uploadToOSS (Reply (http_reply (upload_route now io_error rq d).1))
  = upload_result now io_error rq.
Proof.
  destruct (uq_file rq) as [[data|]|e] eqn:Hf; [destruct io_error as [e|]| |].
  2:{ unfold upload_result. rewrite Hf. by apply uploadToOSS_route_ok. }
  2:{ unfold upload_route, upload_result. rewrite Hf. done. }
  all: unfold upload_route, upload_result; rewrite Hf; cbn.
  all: destruct (String.eqb_spec (err_message e) "") as [->|Hne]; [done|].
  all: reflexivity.
Qed.

(** C21: [dataURLtoFile] reads back a base64 data URL: the bytes, the
    name given and the MIME type written between [data:] and [;base64]
    ([image/png] when there is none); a text without a comma throws
    [InvalidCharacterError], from [atob(undefined)]. *)
Theorem dataURLtoFile_roundtrip (mime filename : string) (bs : list Z) (s : string) :
  str_forall mime_char mime = true -> Forall is_byte bs -> str_has ","%char s = false ->
  dataURLtoFile ⟪ "data:"; mime; ";base64,"; base64_encode bs ⟫ filename
  = inl (mk_file bs filename (if String.eqb mime "" then "image/png" else mime))
  /\ dataURLtoFile s filename = inr InvalidCharacterError.
Proof.
  intros Hm Hb Hs. split; [by apply dataURLtoFile_data_url|].
  unfold dataURLtoFile. rewrite split_on_none by done. reflexivity.
Qed.

(** C20: An upload to a server reached as [localhost] comes back whole:
    the URL the helper resolves to is the one the submit path inlines,
    [convertLocalUrlToBase64] turns it into a PNG, WebP or JPEG data URL
    of the stored bytes, and [dataURLtoFile] decodes that data URL to
    the uploaded bytes. *)
Theorem upload_inline_roundtrip (now : N) (rq : upload_request) (d : uploads_dir)
    (data : part) (fname : string) :
  uq_file rq = inl (Some data) -> str_has "/" (p_filename data) = false ->
  includes "localhost" (uq_hostname rq) = true -> Forall is_byte (p_bytes data) ->
  exists url mime,
    uploadToOSS (Reply (http_reply (upload_route now None rq d).1)) = inl (Some (JStr url))
    /\ mime ∈ ["image/png"; "image/webp"; "image/jpeg"]
    /\ convert_local_url (uploads_base64 (upload_route now None rq d).2) url
       = ⟪ "data:"; mime; ";base64,"; base64_encode (p_bytes data) ⟫
    /\ dataURLtoFile (convert_local_url (uploads_base64 (upload_route now None rq d).2) url) fname
       = inl (mk_file (p_bytes data) fname mime).
Proof.
  intros Hf Hname Hhost Hb. rewrite (uploadToOSS_route_ok now rq d data Hf).
  destruct (convert_public_url rq d (local_filename now data) (p_bytes data)) as (mime & Hmime & Hc);
    [by apply local_filename_no_slash|done|].
  exists (public_url rq (local_filename now data)), mime.
  assert (Hd : (upload_route now None rq d).2 = write_file d (local_filename now data) (p_bytes data))
    by (unfold upload_route; by rewrite Hf).
  rewrite Hd, Hc. split_and!; [done|done|done|].
  rewrite dataURLtoFile_data_url by (done || (repeat (apply elem_of_cons in Hmime as [->|Hmime]);
                                              [reflexivity..|by apply elem_of_nil in Hmime])).
  repeat (apply elem_of_cons in Hmime as [->|Hmime]); [reflexivity..|by apply elem_of_nil in Hmime].
Qed.

(** ** Witnesses *)

Definition png_part : part := mk_part "cat.png" [137; 80; 78; 71]%Z.
Definition localhost_upload : upload_request :=
  mk_upload_request (inl (Some png_part)) "http" "localhost".

Lemma dataURLtoFile_roundtrip_witness :
  dataURLtoFile "data:image/webp;base64,AAEC" "a.webp" = inl (mk_file [0; 1; 2]%Z "a.webp" "image/webp")
  /\ dataURLtoFile "no comma" "a.webp" = inr InvalidCharacterError.
Proof.
  apply (dataURLtoFile_roundtrip "image/webp" "a.webp" [0; 1; 2]%Z "no comma");
    [reflexivity|repeat constructor; unfold is_byte; lia|reflexivity].
Defined.

Lemma upload_inline_roundtrip_witness :
  exists url mime,
    uploadToOSS (Reply (http_reply (upload_route 7 None localhost_upload (fun _ => None)).1))
    = inl (Some (JStr url))
    /\ mime ∈ ["image/png"; "image/webp"; "image/jpeg"]
    /\ convert_local_url (uploads_base64 (upload_route 7 None localhost_upload (fun _ => None)).2) url
       = ⟪ "data:"; mime; ";base64,"; base64_encode (p_bytes png_part) ⟫
    /\ dataURLtoFile (convert_local_url (uploads_base64
         (upload_route 7 None localhost_upload (fun _ => None)).2) url) "cat.png"
       = inl (mk_file (p_bytes png_part) "cat.png" mime).
Proof.
  apply (upload_inline_roundtrip 7 localhost_upload (fun _ => None) png_part "cat.png");
    [reflexivity|reflexivity|reflexivity|repeat constructor; unfold is_byte; cbn; lia].
Defined.

End Upload.
