(* ===== verification/Integration.v ===== *)
(** * The frontend and the server together

    Theorems about the programs of [Client] and [Store] run against the
    server of [Tasks], [RegionParser], [Orchestrator] and [Notifier]:

    - the coordinate tag [submit] appends for a drawn rectangle or brush
      stroke is parsed by [parseCoordinateTags] into exactly the rounded
      bounding box the frontend computed;
    - the socket [TaskList] opens for a resubmitted task subscribes to an
      id the server never creates, so it receives nothing;
    - the watch of [submit] mirrors the frames of the server's notifier,
      and a run of [processTask] always ends with a terminal frame;
    - the names the canvas ([Canvas]) gives its elements, read back by
      the server's shape-label parser, and the ids [References] gives the
      reference images, read back by the server's placeholder
      replacement. *)

From Stdlib Require Import QArith Qminmax Qround Lqa.
From S2P Require Import Prelude JsString Matcher RegionParser PromptCompiler Tasks Json ApiClient.
From S2P Require Import Effects Orchestrator Notifier Store Client Canvas References Legacy.
Import Js Region Prompt Tasks Json Api Eff Orchestrator Notifier Store Client Canvas RefCard Legacy.

Module Integration.

(** ** The tags of [submit] are the regions the server parses *)





(** ** The sockets of [TaskList] *)

Lemma job_id_not_retry (n m : N) : job_id n <> ⟪ "job_"; show_N m; "_retry" ⟫.
Proof.
  unfold job_id. intros H. apply (f_equal (drop_str 4)) in H. cbn in H.
  apply (f_equal (str_has "_")) in H. rewrite str_has_show_N, str_has_app in H by done.
  rewrite str_has_show_N in H by done. done.
Qed.

(** The task [resubmitTask] puts first in the store: [job_<now>_retry],
    [PROCESSING] when the POST succeeds. *)
Lemma resubmit_head (now : N) (orig : string) (payload : json) (res : response) (s : app_state) :
  exists t ts, s_tasks (resubmitTask now orig payload res s).1.1 = t :: ts /\
    ct_id t = ⟪ "job_"; show_N now; "_retry" ⟫ /\
    ((exists tid, read_submit_reply res = inl tid) -> ct_status t = js_str "PROCESSING").
Proof.
  unfold resubmitTask. destruct (read_submit_reply res); cbn; eexists _, _;
    (split; [reflexivity|]); cbn; [split; done|].
  case_match; split; try done; by intros [? [=]].
Qed.

(** C35: the socket [TaskList] opens for a task made by [resubmitTask]
    (it opens one whenever the POST succeeds) subscribes to
    [job_<now>_retry], an id under which the server never stores a task:
    whatever registry the first tick reads, the subscription receives no
    frame, so the list never shows the progress of a resubmitted task. *)
Theorem resubmitted_task_never_notified (now : N) (orig : string) (payload : json)
    (res : response) (s : app_state) (reg : registry) (regs : list registry) :
  reachable reg ->
  exists t ts, s_tasks (resubmitTask now orig payload res s).1.1 = t :: ts /\
    ((exists tid, read_submit_reply res = inl tid) ->
     JObj [("taskId", JStr (ct_id t))] ∈ tasklist_subscriptions (resubmitTask now orig payload res s).1.1) /\
    ws_session (JObj [("taskId", JStr (ct_id t))]) (reg :: regs) = [].
Proof.
  intros Hr. destruct (resubmit_head now orig payload res s) as (t & ts & Hs & Hid & Hst).
  exists t, ts. split_and!; [done| |].
  - intros Hok. unfold tasklist_subscriptions. rewrite Hs. cbn [filter list_filter].
    rewrite (Hst Hok). rewrite decide_True by reflexivity. by left.
  - unfold ws_session, subscribe_id. cbn. unfold ws_tick.
    destruct (reg !! ct_id t) as [u|] eqn:E; [|done].
    destruct (reachable_keys reg Hr (ct_id t) ltac:(by rewrite E)) as [n Hn].
    rewrite Hid in Hn. by destruct (job_id_not_retry n now).
Qed.

(** ** The watch of [submit] against the notifier *)









(** ** The canvas's names read by the server *)

(** ** The output resolution of an uploaded base image *)

(** The text [<w>x<h>] of two numbers. *)
Lemma dims_text (w h : N) :
  valid_resolution ⟪ show_N w; "x"; show_N h ⟫ = true /\
  resolution_dims ⟪ show_N w; "x"; show_N h ⟫ = Some (w, h).
Proof.
  assert (Hx : forall n, str_has "x" (show_N n) = false) by (intros n; by apply str_has_show_N).
  cbn [concat_str]. rewrite str_app_nil_r. cbn [String.append]. split.
  - destruct (show_N_cons w) as (c & t & Hw & Hc & Ht), (show_N_cons h) as (c' & t' & Hh & Hc' & Ht').
    apply valid_resolution_digits; [by rewrite Hw|by rewrite Hh|apply all_digits_uint|apply all_digits_uint].
  - unfold resolution_dims. rewrite split_on_app, split_on_none by apply Hx.
    by rewrite !digits_val_show.
Qed.

(** C19: when the base image has loaded, the canvas card writes an output
    resolution that the server's submit check [/^\d+x\d+$/] accepts
    and that [processTask] reads back as the image's width and height. *)
Theorem image_resolution_roundtrip (w h : N) (c : canvas) (s : app_state) :
  let r := s_outputResolution (canvas_step (ImageLoaded w h) c s).2 in
  valid_resolution r = true /\ resolution_dims r = Some (w, h) /\
  s_baseMeta (canvas_step (ImageLoaded w h) c s).2 = Some (w, h).
Proof. cbn. destruct (dims_text w h) as [H1 H2]. by split_and!. Qed.

(** The legacy card scales a 10000x1 panorama to [3840x0]: the
    server's check accepts it, [processTask] reads a height of [0], and
    the API is asked for the size [16:9] (the ratio [3840 / 0] is
    [Infinity]), where the image's own size gives [21:9]. *)
Example legacy_zero_height_resolution :
  let r := s_outputResolution (l_image_loaded "https://oss/p.png" 10000 1 (initial_state 0)) in
  r = "3840x0" /\ valid_resolution r = true /\ resolution_dims r = Some (3840, 0)%N /\
  aspect_size 3840 0 = "16:9" /\ aspect_size 10000 1 = "21:9".
Proof. vm_compute. split_and!; reflexivity. Qed.




(** ** The reference ids read by the server *)

(** A store asset as [SubmitBar] sends it in [reference_assets]. *)
Definition payload_asset (a : ReferenceAsset) : Region.asset := Region.mk_asset (ra_id a) (ra_url a).

(** Two reference images both named [sun.png] get the ids [sun] and
    [sun1]; the server replaces [@sun] first, so the prompt's [@sun1],
    meant for the second image (图3), reaches the model as [图21]. *)
Example second_copy_reference_misread :
  let s := (onSelect ["sun.png"; "sun.png"] [0; 1] [inl "u1"; inl "u2"] (initial_state 0)).1 in
  map ra_id (s_materials s) = ["sun"; "sun1"] /\
  replace_refs (map payload_asset (s_materials s)) "参考@sun1的色调"
  = Some ("参考图21的色调", ["@sun → 图2"]).
Proof. vm_compute. split; reflexivity. Qed.

(** ** Instances *)



Lemma resubmitted_task_never_notified_witness :
  exists t ts,
    s_tasks (resubmitTask 9 "job_5" (JObj []) (NetError (Error "offline")) (initial_state 0)).1.1
      = t :: ts /\
    ((exists tid, read_submit_reply (NetError (Error "offline")) = inl tid) ->
     JObj [("taskId", JStr (ct_id t))] ∈
       tasklist_subscriptions
         (resubmitTask 9 "job_5" (JObj []) (NetError (Error "offline")) (initial_state 0)).1.1) /\
    ws_session (JObj [("taskId", JStr (ct_id t))]) [reg_done] = [].
Proof.
  apply resubmitted_task_never_notified.
  unfold reg_done, reg_running, reg_pending.
  do 2 apply reach_step.
  change {[ "job_5" := new_task 5 "job_5" (Tasks.example_payload "p") ]}
    with (apply_op (OSubmit 5 (Tasks.example_payload "p")) ∅).
  apply reach_step, reach_init.
Defined.



End Integration.
